(* ===== verification/_CoqProject ===== *)
-Q . S2P
Prelude.v
GoStrings.v
GoPath.v
GoTime.v
State.v
Proto.v
KV.v
Registry.v
Backup.v
Config.v
GitState.v
Enablement.v
Furnish.v
Model.v
Skills.v
Exports.v
Discovery.v
Events.v
HttpAuth.v
HttpWire.v
HttpApi.v
HttpRegister.v
HttpFurnish.v
HttpSurface.v
HttpServe.v
HttpContract.v
Daemon.v
System.v
Operator.v
Retention.v
Lease.v
Lifecycle.v
Cli.v
Harness.v
Acceptance.v
