(* ===== verification/Prelude.v ===== *)
(** delightd: a verification library.

    delightd is a daemon that backs up a roster of projects and keeps the live
    state of a small fleet: which services have registered, which are enabled, what
    their git trees look like, and what of the fleet's manifests is on the cluster.
    This library models its Go sources as executable definitions and states what
    makes each part correct.

    * The program, and where it is modelled

    - config/ (Config.v): the roots, the roster and its validation, the project
      fragments, Load and lint.
    - pkg/state (State.v): the backup state machine of one project; [astate] is the
      machine it refines, whose [diagram] is the README's and whose one further edge,
      [manual_poke], is the code's own.
    - pkg/watcher, pkg/gitstate (GitState.v): what is read of a git working tree.
    - pkg/backup (Backup.v): the walk, the tar archive, the rotation,
      CreateCheckpoint and its dry run.
    - pkg/registry (Registry.v) over bbolt (KV.v) and the messages of proto/
      (Proto.v): registrations, leases, heartbeats, the expiry sweep.
    - pkg/enablement (Enablement.v): the per-project enablement record.
    - pkg/kube, pkg/furnish (Furnish.v): converging a piece onto the cluster.
    - pkg/model and the model commands (Model.v): model deployments.
    - pkg/skills (Skills.v): the agent tools, their aggregation, their dispatch over
      MCP and the generated shell router.
    - pkg/exports (Exports.v): the sync of the bin directory.
    - pkg/discovery, pkg/traefik, pkg/metrics, pkg/introspect (Discovery.v): local
      model servers and their routes, the counters, the backup introspection.
    - pkg/events, pkg/schemaregistry (Events.v): backup events in the Confluent
      framing, and the schema registry's two clients.
    - pkg/httpapi: auth.go and routing (HttpAuth.v), net/http and net/url between a
      URL's text and a handler (HttpWire.v), the handlers (HttpApi.v), the
      register broker (HttpRegister.v), the furnish routes (HttpFurnish.v), the
      routes of other packages (HttpSurface.v), the route table that puts them
      together (HttpServe.v), and the types of its answers (HttpContract.v).
    - cmd/delightd: the control loop (Daemon.v), start-up and the running process
      (System.v), its listener, signal, shutdown and exit status (Lifecycle.v), and the
      command tree: furnish, healthcheck, lint and the model commands (Cli.v). What the
      parts do together is in Operator.v (a backup requested over the port), Retention.v
      (the archives of a whole run) and Lease.v (the life of one project's lease).
    - test/integration/control_surface.go (Harness.v): the project's own acceptance
      drive as a client of the port; Acceptance.v runs it against the process.
    - GoStrings.v, GoPath.v and GoTime.v are the part of Go's strings, fmt, filepath
      and time the code uses. This file holds results, machine integers, times and tactics.

    A definition has the name of the function or method it models; a method's
    receiver is an argument, and what it changes is returned. Go's (value, error)
    is [result], a map a [gmap], a mutex-held method one atomic step. int and int64
    are [Z] with [wrap64] where the code can overflow, uint64 [u64], int32 [wrap32].

    * How the parts meet

    The control loop (Daemon.v) runs one goroutine per project. A goroutine is a
    program counter between two lock acquisitions; [dstep] is one step of one
    goroutine or of a backup or reset request, and a run is any sequence of them, so
    a theorem about [reaches] covers every interleaving. The loop calls
    [state.Transition], [watcher.HasChurn] and [backup.CreateCheckpoint].

    The control port (HttpServe.v) is a function from a request and the daemon's
    state to the state after it and the answer. The state is the machines, the two
    stores, the bus ([httpapi.World]), the cluster with the client held on it
    ([httpfurnish.Fleet]), whose discovery cache [≡] ignores, and the counters with
    what the agent tools sent out ([httpsurface.Surface]).

    The process (System.v) has one state for all of it. [sstep] is a step of a
    goroutine, a request, a heartbeat, a sweep or a ticker's turn; [view] is what
    the port's handlers see of the state and [absorb] puts back what they did.
    [sstep_daemon] shows that the process refines its control loop: what a request
    does to a machine is one of the loop's own request steps ([httpserve.moved]), so
    the loop's invariant holds of the whole. Around it, a process (Lifecycle.v) has
    the requests accepted and those whose handlers have ended, with an answer or in a
    panic that net/http recovers, the detached emits the WaitGroup counts, and the
    phase of runDaemon; [pstep] runs [sstep] inside, so a run of the process
    is a run of the system, with the shutdown's own steps between.

    Two clients stand outside the process. The acceptance drive (Acceptance.v) sends
    its requests through the port and reads the typed bodies, with the process's own
    steps between the subtests. The Go furnish client (Cli.v) puts what the operator
    typed into a URL; the URL is parsed, the mux answers an unclean path with a
    redirect and the client follows it ([HttpWire]), so what a request meets is decided
    by its text.

    Three theorems follow one thing through all of it. A backup an operator asks for is
    followed from the request to the goroutine that picks it up and to the checkpoint
    it ends in: [left] counts the goroutine's remaining turns, and every other step
    leaves it alone. The disk is followed through every checkpoint of every project
    ([step_disk]). A project's lease is followed by [lease_next], which says of any
    step what the registration may become; every step of the process refines it.

    Interfaces are classes with laws, so that a client is proved against what the
    component promises: [proto.Codec] (encode then decode is the identity),
    [bbolt.Bucket] (a store's documented behaviour), [kube.Api] (an API server's
    requests, which may fail and may have landed when they fail; an apply may install
    a kind, and a client's discovery cache may be behind the kinds that are served). Each has an
    instance that satisfies its laws, and the witnesses run on it.

    * What the theorems show

    - State: Transition refines the diagram, with the manual poke; the error count is the number of
      consecutive failures; the backoff is exact up to the 27th failure and lost at
      the 28th.
    - Daemon: under every interleaving a checkpoint runs only while its machine is
      backing up, no goroutine blocks and none turns for ever; churn leads to a
      backup and a backup to its outcome; a check interval that is not positive crashes the daemon; a reset
      can be overtaken by a retry.
    - Backup: a checkpoint archives exactly the selected entries, or fails and leaves
      no trace; it leaves its project's newest archives, and every other project's as
      they were; the dry run counts what the real one writes, sockets excepted.
    - Registry: no two projects hold one address, under any sequence of operations;
      Upsert refines a checked insert; a heartbeat refreshes and never creates;
      the sweep and the warm start's grace are exact.
    - Config: validation keeps the first sound entry of each name; Load always comes
      up, degraded exactly when something was dropped.
    - GitState: a reading says which of its four checked reads failed, and which three
      failures (the config, the remote's reference, the log) it passes over; the concurrent sweep's
      answer does not depend on its schedule.
    - Enablement: what was accepted is what is read.
    - Furnish: what Up reports is what the cluster holds, what Down removed is gone or
      terminating, the health ladder is sound, and exact when everything could be read;
      where an object is looked for is what the client's cache or the cluster said of
      its kind, and the cluster's own place when the cache is not stale and no kind
      changes. Nobody else writes to the cluster during one operation.
    - Model: a set that loads is coherent; the health command's exit.
    - Skills: filling a URL's placeholders is simultaneous substitution; a tool acts
      at most once per call; the aggregate holds under each name the last tool the manifests declare, and
      nothing else.
    - Exports: a sync makes the bin directory what is expected, in any map order.
    - Discovery: a turn publishes exactly the servers that answer.
    - Events: every frame decodes to its event, under the one schema id registered.
    - HttpServe: nothing but a bearer or a registration changes anything through the
      port; what MCP sends back to the port passes its gate. HttpContract: every
      answer has a status and a schema its route lists. HttpApi, HttpRegister,
      HttpFurnish: what each route answers and does.
    - System: start-up comes up whatever is missing; over the whole life of the
      process the machines, the registry and the control token's whereabouts stay
      sound; without the token nothing is controlled, and with --dry-run no archive,
      bin or wrapper is written.
    - Operator: a backup accepted over the port is made. Retention: the backups of a
      run touch only their projects' archives, and never hold more than they may. Lease: a project has one
      lease, which moves as the abstract one does, and heartbeats in time keep it
      resolvable.
    - Acceptance: the daemon that image_test.go deploys never panics and passes every
      subtest of verifyControlSurface, but for two it may fail by the time they are run:
      /metrics once there is a counter, and a backup asked for in a backoff. The backup
      it accepts is reported over a checkpoint whose archive the test then finds: a new
      one, unless one had ended and awaited its report when the request came.
    - Lifecycle: the exit status, what became of every accepted request and event, what
      the shutdown waits for, and that it ends.
    - Cli: the exit status of each checking command; the Go furnish client, which
      sends no token, never succeeds in a mutation, and one whose piece leads the path
      to /register has its empty registration declined.

    * Bounds and fuel

    Recursion is structural, but for trimming, whose fuel is the string's length;
    [trim_space_done] shows it is enough. A run of the daemon is bounded by 2^63 steps, so
    that an error counter does not wrap. Nothing else is bounded.

    * What is outside the model

    Parameters, each with the behaviour the code relies on: the clock and the
    jitter, os and filesystem answers, go-git, viper and YAML, JSON and protobuf
    encoders, bbolt, client-go and kustomize, HTTP round trips, fmt's %q and time
    formatting, the conversion of an out-of-range float to an integer ([f2i]).
    Log lines are left out. Not modelled: cobra's parsing of flags, the shell of scripts/ and
    of the generated router, the tests that drive docker and git, net/http's
    connections beyond a request's acceptance and its handler's end, requests of other
    programs whose path is not clean (the mux redirects them and calls no handler: a
    [Request] is one whose path is clean), the emitted heartbeat (a
    library's), and the rendering of bodies as JSON text. The five seconds of
    Shutdown and the two of an emit are not clocked: each may end at any step. *)

From stdpp Require Export base list strings gmap sorting pretty.
From Stdlib Require Export ZArith Lia.

#[global] Open Scope Z_scope.

(** * Results: Go's (value, error) pairs *)

Inductive result (E A : Type) : Type :=
| Ok (a : A)
| Err (e : E).
Arguments Ok {E A} a.
Arguments Err {E A} e.

#[export] Instance result_ret {E} : MRet (result E) := fun A a => Ok a.
#[export] Instance result_bind {E} : MBind (result E) := fun A B k r =>
  match r with Ok a => k a | Err e => Err e end.
#[export] Instance result_fmap {E} : FMap (result E) := fun A B f r =>
  match r with Ok a => Ok (f a) | Err e => Err e end.
#[export] Instance result_eq_dec {E A} `{EqDecision E} `{EqDecision A} : EqDecision (result E A).
Proof. solve_decision. Defined.

Definition is_ok {E A} (r : result E A) : bool :=
  match r with Ok _ => true | Err _ => false end.

(** The error half of a result, as Go's [err != nil] test reads it. *)
Definition err_of {E A} (r : result E A) : option E :=
  match r with Ok _ => None | Err e => Some e end.

(** * Machine integers *)

(** Two's complement wrap-around at 64 and 32 bits, signed and unsigned. *)
Definition wrap64 (z : Z) : Z := (z + 2 ^ 63) mod 2 ^ 64 - 2 ^ 63.
Definition wrap32 (z : Z) : Z := (z + 2 ^ 31) mod 2 ^ 32 - 2 ^ 31.
Definition u64 (z : Z) : Z := z mod 2 ^ 64.
Definition u32 (z : Z) : Z := z mod 2 ^ 32.

Definition in_int64 (z : Z) : Prop := - 2 ^ 63 <= z < 2 ^ 63.
Definition in_int32 (z : Z) : Prop := - 2 ^ 31 <= z < 2 ^ 31.
Definition in_uint64 (z : Z) : Prop := 0 <= z < 2 ^ 64.

(** Nanosecond counts of Go's [time] package constants. *)
Definition Second : Z := 1000000000.
Definition Minute : Z := 60 * Second.
Definition Hour : Z := 60 * Minute.

(** * Tactics and hint databases *)

(** The lemmas that open the development's goals: rewriting on results and
    strings, and resolution of integer ranges. *)
Create HintDb delight.
Create Rewrite HintDb delight.
Create HintDb ints.
Create Rewrite HintDb ints.

(** Case analysis on every [match] and [if] in sight, closing what is closed
    by computation. *)
Ltac cases :=
  repeat (case_match; simplify_eq/=; try done).

(** Split on the decision procedures of a goal, then on its matches. *)
Ltac crush :=
  repeat (case_decide || case_match || simplify_eq/=); eauto with delight.

Lemma wrap64_id z : in_int64 z -> wrap64 z = z.
Proof. unfold in_int64, wrap64. intros H. rewrite Z.mod_small; lia. Qed.

Lemma wrap64_range z : in_int64 (wrap64 z).
Proof.
  unfold in_int64, wrap64.
  pose proof (Z.mod_pos_bound (z + 2 ^ 63) (2 ^ 64) ltac:(lia)). lia.
Qed.

Lemma wrap32_id z : in_int32 z -> wrap32 z = z.
Proof. unfold in_int32, wrap32. intros H. rewrite Z.mod_small; lia. Qed.

Lemma wrap32_range z : in_int32 (wrap32 z).
Proof.
  unfold in_int32, wrap32.
  pose proof (Z.mod_pos_bound (z + 2 ^ 31) (2 ^ 32) ltac:(lia)). lia.
Qed.

Lemma u64_id z : in_uint64 z -> u64 z = z.
Proof. apply Z.mod_small. Qed.

Lemma u64_range z : in_uint64 (u64 z).
Proof. apply Z.mod_pos_bound. lia. Qed.

Lemma u64_add_l a b : u64 (u64 a + b) = u64 (a + b).
Proof. unfold u64. apply Zplus_mod_idemp_l. Qed.

#[export] Hint Resolve wrap64_range wrap32_range u64_range : ints.
#[export] Hint Rewrite wrap64_id wrap32_id u64_id using (unfold in_int64, in_int32, in_uint64; lia) : ints.

(** * Lists *)

Section lists.
Context {A B : Type}.

(** The value of the last matching element wins: an index built by repeated
    assignment, as in [m[k] = v] over a loop. *)
Definition find_first (p : A -> bool) (l : list A) : option A := List.find p l.

Lemma find_first_Some (p : A -> bool) l x :
  find_first p l = Some x -> x ∈ l /\ p x = true.
Proof. intros H. apply List.find_some in H as [? ?]. by rewrite list_elem_of_In. Qed.

Lemma find_first_None (p : A -> bool) l :
  find_first p l = None <-> forall x, x ∈ l -> p x = false.
Proof.
  unfold find_first. split.
  - intros H x Hx. apply (List.find_none p l H). by apply list_elem_of_In.
  - induction l as [|a l IH]; intros H; [done|]. simpl.
    rewrite (H a) by left. apply IH. intros x Hx. apply H. by right.
Qed.

Lemma existsb_elem_of (p : A -> bool) l :
  existsb p l = true <-> exists x, x ∈ l /\ p x = true.
Proof. rewrite existsb_exists. by setoid_rewrite list_elem_of_In. Qed.

Lemma forallb_elem_of (p : A -> bool) l :
  forallb p l = true <-> forall x, x ∈ l -> p x = true.
Proof. rewrite forallb_forall. by setoid_rewrite list_elem_of_In. Qed.

(** Selecting entries of an association list keeps its keys distinct. *)
Lemma elem_of_omap_keys {K V} (f : K * V -> option (K * A)) (l : list (K * V)) k a :
  (forall kv x, f kv = Some x -> x.1 = kv.1) -> (k, a) ∈ omap f l ->
  exists v, (k, v) ∈ l /\ f (k, v) = Some (k, a).
Proof.
  intros Hf Hin. apply list_elem_of_omap in Hin as ([k' v] & Hin & E).
  pose proof (Hf _ _ E). simpl in *. subst. eauto.
Qed.

Lemma NoDup_omap_keys {K V} (f : K * V -> option (K * A)) (l : list (K * V)) :
  (forall kv x, f kv = Some x -> x.1 = kv.1) -> NoDup l.*1 -> NoDup (omap f l).*1.
Proof.
  intros Hf. induction l as [|[k v] l IH]; simpl; intros H; [constructor|].
  apply NoDup_cons in H as [Hn Hd]. destruct (f (k, v)) as [[k' a]|] eqn:E; [|by apply IH].
  pose proof (Hf _ _ E). simpl in *. subst. constructor; [|by apply IH].
  intros Hk. apply list_elem_of_fmap in Hk as ([k1 a1] & Hk1 & Hin). simpl in *. subst.
  destruct (elem_of_omap_keys _ _ _ _ Hf Hin) as (v1 & Hin1 & _).
  apply Hn. apply list_elem_of_fmap. by exists (k1, v1).
Qed.

End lists.
