(* ===== verification/GoStrings.v ===== *)
(** The part of Go's [strings] and [fmt] packages the daemon uses, on byte
    strings ([String.string] is a list of bytes, as a Go string is), with the
    lemmas the component files rely on. *)

From S2P Require Import Prelude.
From Stdlib Require Export Ascii (ascii, ascii_of_nat, nat_of_ascii, ascii_dec).
From Stdlib Require Import Ascii.
From Stdlib Require String.
#[global] Arguments String.append : simpl nomatch.
#[global] Arguments Ascii.eqb : simpl nomatch.
#[global] Arguments String.eqb : simpl nomatch.
#[global] Open Scope string_scope.
#[global] Open Scope list_scope.
#[global] Open Scope Z_scope.

(** * Tests on prefixes, suffixes and substrings *)

(** strings.HasPrefix *)
Fixpoint has_prefix (s p : string) {struct p} : bool :=
  match p, s with
  | EmptyString, _ => true
  | String c p', String d s' => Ascii.eqb c d && has_prefix s' p'
  | String _ _, EmptyString => false
  end.

(** strings.HasSuffix *)
Fixpoint has_suffix (s suf : string) : bool :=
  String.eqb s suf ||
  match s with
  | EmptyString => false
  | String _ r => has_suffix r suf
  end.

(** strings.Contains *)
Fixpoint contains (s sub : string) : bool :=
  has_prefix s sub ||
  match s with
  | EmptyString => false
  | String _ r => contains r sub
  end.

(** strings.ContainsAny for the two-character cutset the daemon uses *)
Fixpoint contains_any2 (s : string) (a b : ascii) : bool :=
  match s with
  | EmptyString => false
  | String c r => Ascii.eqb c a || Ascii.eqb c b || contains_any2 r a b
  end.

Fixpoint drop_str (n : nat) (s : string) : string :=
  match n, s with
  | S n', String _ r => drop_str n' r
  | _, _ => s
  end.

(** strings.TrimPrefix *)
Definition trim_prefix (s p : string) : string :=
  if has_prefix s p then drop_str (String.length p) s else s.

(** * Trimming *)

Definition str_of_bytes (l : list nat) : string :=
  fold_right (fun n s => String (ascii_of_nat n) s) EmptyString l.

(** The UTF-8 encodings of the code points [unicode.IsSpace] accepts. *)
Definition go_spaces : list string :=
  map str_of_bytes
    ([[9]; [10]; [11]; [12]; [13]; [32]; [194; 133]; [194; 160]; [225; 154; 128]]
     ++ map (fun k => [226; 128; 128 + k]) (seq 0 11)
     ++ [[226; 128; 168]; [226; 128; 169]; [226; 128; 175]; [226; 129; 159]; [227; 128; 128]])%nat.

(** Remove one leading (trailing) space, when there is one. *)
Definition chop_space_left (s : string) : option string :=
  match find_first (fun p => has_prefix s p) go_spaces with
  | Some p => Some (drop_str (String.length p) s)
  | None => None
  end.

Fixpoint take_str (n : nat) (s : string) : string :=
  match n, s with
  | S n', String c r => String c (take_str n' r)
  | _, _ => EmptyString
  end.

Definition chop_space_right (s : string) : option string :=
  match find_first (fun p => has_suffix s p) go_spaces with
  | Some p => Some (take_str (String.length s - String.length p) s)
  | None => None
  end.

Fixpoint chop_all (chop : string -> option string) (fuel : nat) (s : string) : string :=
  match fuel with
  | O => s
  | S k => match chop s with Some s' => chop_all chop k s' | None => s end
  end.

(** strings.TrimSpace: each chop shortens the string, so its length is fuel enough. *)
Definition trim_space (s : string) : string :=
  let l := chop_all chop_space_left (String.length s) s in
  chop_all chop_space_right (String.length l) l.

Fixpoint trim_left_char (c : ascii) (s : string) : string :=
  match s with
  | String d r => if Ascii.eqb d c then trim_left_char c r else s
  | EmptyString => EmptyString
  end.

Fixpoint trim_right_char (c : ascii) (s : string) : string :=
  match s with
  | EmptyString => EmptyString
  | String d r =>
      let r' := trim_right_char c r in
      if Ascii.eqb d c && String.eqb r' EmptyString then EmptyString else String d r'
  end.

(** strings.Trim and strings.TrimRight with a one-character cutset *)
Definition trim_char (c : ascii) (s : string) : string :=
  trim_right_char c (trim_left_char c s).

(** * Case mapping *)

Definition lower_ascii (c : ascii) : ascii :=
  let n := nat_of_ascii c in
  if ((65 <=? n) && (n <=? 90))%nat then ascii_of_nat (n + 32) else c.

Definition upper_ascii (c : ascii) : ascii :=
  let n := nat_of_ascii c in
  if ((97 <=? n) && (n <=? 122))%nat then ascii_of_nat (n - 32) else c.

(** strings.ToLower and strings.ToUpper, up to the non-ASCII letters they map
    to non-ASCII letters (every caller compares the result with an ASCII
    constant). The runes that do map into ASCII are spelled out: U+0130 and
    U+212A lower to i and k, U+0131 and U+017F upper to I and S. *)
Fixpoint to_lower (s : string) : string :=
  match s with
  | String "196"%char (String "176"%char r) => String "i"%char (to_lower r)
  | String "226"%char (String "132"%char (String "170"%char r)) => String "k"%char (to_lower r)
  | String c r => String (lower_ascii c) (to_lower r)
  | EmptyString => EmptyString
  end.

Fixpoint to_upper (s : string) : string :=
  match s with
  | String "196"%char (String "177"%char r) => String "I"%char (to_upper r)
  | String "197"%char (String "191"%char r) => String "S"%char (to_upper r)
  | String c r => String (upper_ascii c) (to_upper r)
  | EmptyString => EmptyString
  end.

(** * Splitting, joining, replacing *)

(** strings.Split on one character: never the empty list *)
Fixpoint split_on (c : ascii) (s : string) : list string :=
  match s with
  | EmptyString => [EmptyString]
  | String d r =>
      if Ascii.eqb d c then EmptyString :: split_on c r
      else match split_on c r with
           | h :: t => String d h :: t
           | [] => [String d EmptyString]
           end
  end.

(** strings.Join *)
Fixpoint join (sep : string) (l : list string) : string :=
  match l with
  | [] => EmptyString
  | [x] => x
  | x :: r => x +:+ sep +:+ join sep r
  end.

(** strings.Cut at the first occurrence of one character *)
Fixpoint cut (c : ascii) (s : string) : string * string * bool :=
  match s with
  | EmptyString => (EmptyString, EmptyString, false)
  | String d r =>
      if Ascii.eqb d c then (EmptyString, r, true)
      else let '(b, a, ok) := cut c r in (String d b, a, ok)
  end.

(** strings.ReplaceAll for a non-empty [old]: [skip] bytes are still covered
    by the match that was just replaced. *)
Fixpoint replace_go (old new : string) (skip : nat) (s : string) : string :=
  match s with
  | EmptyString => EmptyString
  | String c r =>
      match skip with
      | S k => replace_go old new k r
      | O => if has_prefix s old
             then new +:+ replace_go old new (String.length old - 1) r
             else String c (replace_go old new 0 r)
      end
  end.

Definition replace_all (s old new : string) : string := replace_go old new 0 s.

(** Text of generated scripts, written here with a backquote for the double quote. *)
Definition bq (s : string) : string := replace_all s "`" (String (ascii_of_nat 34) EmptyString).
Definition nl : string := String (ascii_of_nat 10) EmptyString.
Definition script_line (s : string) : string := bq s +:+ nl.

(** fmt's %d *)
Definition itoa (z : Z) : string := pretty z.

(** Byte-wise order of Go strings; [sort.Strings] *)
Definition sort_strings (l : list string) : list string := merge_sort String.le l.

Fixpoint str_of_list (l : list ascii) : string :=
  match l with [] => EmptyString | c :: r => String c (str_of_list r) end.

(** A character occurs in a string. *)
Fixpoint has_char (c : ascii) (s : string) : bool :=
  match s with
  | EmptyString => false
  | String d r => Ascii.eqb d c || has_char c r
  end.

(** utf8.ValidString *)
Definition byte_in (c : ascii) (lo hi : nat) : bool :=
  ((lo <=? nat_of_ascii c) && (nat_of_ascii c <=? hi))%nat.

Definition utf8_3 (c0 c1 c2 : ascii) : bool :=
  byte_in c2 128 191 &&
  ((byte_in c0 224 224 && byte_in c1 160 191) || (byte_in c0 237 237 && byte_in c1 128 159)
   || ((byte_in c0 225 236 || byte_in c0 238 239) && byte_in c1 128 191)).

Definition utf8_4 (c0 c1 c2 c3 : ascii) : bool :=
  byte_in c2 128 191 && byte_in c3 128 191 &&
  ((byte_in c0 240 240 && byte_in c1 144 191) || (byte_in c0 244 244 && byte_in c1 128 143)
   || (byte_in c0 241 243 && byte_in c1 128 191)).

Fixpoint valid_utf8 (s : string) : bool :=
  match s with
  | EmptyString => true
  | String c0 r0 =>
      if byte_in c0 0 127 then valid_utf8 r0
      else match r0 with
           | EmptyString => false
           | String c1 r1 =>
               if byte_in c0 194 223 && byte_in c1 128 191 then valid_utf8 r1
               else match r1 with
                    | EmptyString => false
                    | String c2 r2 =>
                        if utf8_3 c0 c1 c2 then valid_utf8 r2
                        else match r2 with
                             | EmptyString => false
                             | String c3 r3 => utf8_4 c0 c1 c2 c3 && valid_utf8 r3
                             end
                    end
           end
  end.

(** url.PathEscape: an escaped byte is a percent sign and two hex digits. *)
Definition hex_digit (n : nat) : ascii := ascii_of_nat (if (n <? 10)%nat then 48 + n else 55 + n)%nat.

Definition path_safe (c : ascii) : bool :=
  byte_in c 48 57 || byte_in c 65 90 || byte_in c 97 122
  || existsb (Ascii.eqb c) ["-"; "_"; "."; "~"; "$"; "&"; "+"; ":"; "="; "@"]%char.

Fixpoint PathEscape (s : string) : string :=
  match s with
  | EmptyString => EmptyString
  | String c r =>
      if path_safe c then String c (PathEscape r)
      else String "%"%char (String (hex_digit (nat_of_ascii c / 16))
             (String (hex_digit (nat_of_ascii c mod 16)) (PathEscape r)))
  end.

(** * Lemmas *)

Lemma str_app_nil_r s : s +:+ EmptyString = s.
Proof. induction s; simpl; f_equal; auto. Qed.

Lemma str_app_assoc s1 s2 s3 : s1 +:+ (s2 +:+ s3) = (s1 +:+ s2) +:+ s3.
Proof. induction s1; simpl; f_equal; auto. Qed.

Lemma str_app_length s1 s2 :
  String.length (s1 +:+ s2) = (String.length s1 + String.length s2)%nat.
Proof. induction s1; simpl; f_equal; auto. Qed.

Lemma str_app_inv_l s s1 s2 : s +:+ s1 = s +:+ s2 -> s1 = s2.
Proof. by intros ?%(inj (String.app s)). Qed.

Lemma str_app_inv_len a b x y :
  String.length a = String.length b -> a +:+ x = b +:+ y -> a = b /\ x = y.
Proof.
  revert b. induction a as [|c a IH]; intros [|d b]; simpl; intros Hl H; [done..|].
  injection H as -> H. injection Hl as Hl. by destruct (IH _ Hl H) as [-> ->].
Qed.

Lemma has_prefix_spec s p : has_prefix s p = true <-> exists r, s = p +:+ r.
Proof.
  revert s. induction p as [|c p IH]; intros [|d s]; simpl.
  - split; [by exists EmptyString|done].
  - split; [by eexists|done].
  - split; [done|by intros [r ?]].
  - rewrite andb_true_iff, IH, Ascii.eqb_eq. split.
    + intros [-> [r ->]]. by exists r.
    + intros [r ?]. simplify_eq. eauto.
Qed.

Lemma has_prefix_app p r : has_prefix (p +:+ r) p = true.
Proof. apply has_prefix_spec. by exists r. Qed.

Lemma has_suffix_spec s suf : has_suffix s suf = true <-> exists r, s = r +:+ suf.
Proof.
  induction s as [|c s IH].
  - change (String.eqb EmptyString suf || false = true <-> exists r, EmptyString = r +:+ suf).
    rewrite orb_false_r, String.eqb_eq. split; [by intros <-; exists EmptyString|].
    by intros [[|? ?] H].
  - change (String.eqb (String c s) suf || has_suffix s suf = true
            <-> exists r, String c s = r +:+ suf).
    rewrite orb_true_iff, IH, String.eqb_eq. split.
    + intros [<-|[r ->]]; [by exists EmptyString|by exists (String c r)].
    + intros [[|d r] H]; simpl in H; [by left|right; exists r; congruence].
Qed.

Lemma has_suffix_app r suf : has_suffix (r +:+ suf) suf = true.
Proof. apply has_suffix_spec. by exists r. Qed.

Lemma contains_spec s sub : contains s sub = true <-> exists a b, s = a +:+ sub +:+ b.
Proof.
  induction s as [|c s IH].
  - change (has_prefix EmptyString sub || false = true
            <-> exists a b, EmptyString = a +:+ sub +:+ b).
    rewrite orb_false_r, has_prefix_spec. split.
    + intros [r H]. by exists EmptyString, r.
    + intros ([|? ?] & b & H); [by exists b|done].
  - change (has_prefix (String c s) sub || contains s sub = true
            <-> exists a b, String c s = a +:+ sub +:+ b).
    rewrite orb_true_iff, has_prefix_spec, IH. split.
    + intros [[r H]|(a & b & ->)]; [by exists EmptyString, r|by exists (String c a), b].
    + intros ([|d a] & b & H); simpl in H; [left; by exists b|].
      right. exists a, b. congruence.
Qed.

Lemma drop_str_app p r : drop_str (String.length p) (p +:+ r) = r.
Proof. induction p; simpl; auto. Qed.

(** The fuel of [chop_all] is enough when each chop shortens the string. *)
Lemma chop_all_stops chop fuel s :
  (forall x y, chop x = Some y -> (String.length y < String.length x)%nat) ->
  (String.length s <= fuel)%nat -> chop (chop_all chop fuel s) = None.
Proof.
  intros Hc. revert s. induction fuel as [|k IH]; intros s Hs; cbn [chop_all];
    destruct (chop s) as [s'|] eqn:E; try done.
  - apply Hc in E. lia.
  - apply IH. apply Hc in E. lia.
Qed.

Lemma go_spaces_nonempty p : p ∈ go_spaces -> (0 < String.length p)%nat.
Proof.
  assert (Ha : forallb (fun q => (0 <? String.length q)%nat) go_spaces = true) by (vm_compute; reflexivity).
  intros Hp%list_elem_of_In. apply Nat.ltb_lt. exact (proj1 (forallb_forall _ _) Ha p Hp).
Qed.

Lemma drop_str_length n s : String.length (drop_str n s) = (String.length s - n)%nat.
Proof.
  revert s. induction n as [|n IH]; intros [|c s]; cbn [drop_str String.length]; [done..|]. rewrite IH. lia.
Qed.

Lemma take_str_all n s : (String.length s <= n)%nat -> take_str n s = s.
Proof.
  revert s. induction n as [|n IH]; intros [|c s]; cbn [take_str String.length]; intros Hl; try done; [lia|].
  rewrite IH by lia. done.
Qed.

Lemma take_str_length n s : String.length (take_str n s) = Nat.min n (String.length s).
Proof.
  revert s. induction n as [|n IH]; intros [|c s]; cbn [take_str String.length]; [done..|]. rewrite IH. lia.
Qed.

Lemma chop_space_left_shorter s s' :
  chop_space_left s = Some s' -> (String.length s' < String.length s)%nat.
Proof.
  unfold chop_space_left. destruct (find_first _ go_spaces) as [p|] eqn:E; [|done]. intros [= <-].
  apply find_first_Some in E as [Hp%go_spaces_nonempty (r & ->)%has_prefix_spec].
  rewrite drop_str_app, str_app_length. lia.
Qed.

Lemma chop_space_right_shorter s s' :
  chop_space_right s = Some s' -> (String.length s' < String.length s)%nat.
Proof.
  unfold chop_space_right. destruct (find_first _ go_spaces) as [p|] eqn:E; [|done]. intros [= <-].
  apply find_first_Some in E as [Hp%go_spaces_nonempty (r & ->)%has_suffix_spec].
  rewrite take_str_length, str_app_length. lia.
Qed.

(** A trimmed string ends in no space, and the trim of its left half is complete. *)
Lemma trim_space_done s :
  chop_space_left (chop_all chop_space_left (String.length s) s) = None
  /\ chop_space_right (trim_space s) = None.
Proof.
  split; [apply chop_all_stops; [apply chop_space_left_shorter|done]|].
  unfold trim_space. apply chop_all_stops; [apply chop_space_right_shorter|done].
Qed.

Lemma trim_prefix_app p r : trim_prefix (p +:+ r) p = r.
Proof. unfold trim_prefix. by rewrite has_prefix_app, drop_str_app. Qed.

Lemma has_char_app c a b : has_char c (a +:+ b) = has_char c a || has_char c b.
Proof. induction a; simpl; [done|]. by rewrite IHa, orb_assoc. Qed.

(** ** Splitting and joining are inverse *)

Lemma split_on_nonempty c s : split_on c s <> [].
Proof. destruct s as [|d s]; simpl; [done|]. cases. Qed.

Lemma split_on_app c a s :
  has_char c a = false ->
  split_on c (a +:+ String c s) = a :: split_on c s.
Proof.
  induction a as [|d a IH]; simpl; intros H.
  - by rewrite Ascii.eqb_refl.
  - apply orb_false_iff in H as [-> H]. by rewrite IH.
Qed.

Lemma split_on_concat c a s : split_on c (a +:+ String c s) = split_on c a ++ split_on c s.
Proof.
  induction a as [|d a IH]; cbn [split_on String.app app].
  - by rewrite Ascii.eqb_refl.
  - rewrite IH. destruct (Ascii.eqb d c); [done|].
    pose proof (split_on_nonempty c a). by destruct (split_on c a).
Qed.

Lemma split_on_no_char c a : has_char c a = false -> split_on c a = [a].
Proof.
  induction a as [|d a IH]; simpl; intros H; [done|].
  apply orb_false_iff in H as [-> H]. by rewrite IH.
Qed.

Lemma split_join c l :
  l <> [] -> Forall (fun x => has_char c x = false) l ->
  split_on c (join (String c EmptyString) l) = l.
Proof.
  induction l as [|x [|y l] IH]; intros Hne H; [done| |].
  - apply Forall_cons in H as [H _]. simpl. by apply split_on_no_char.
  - apply Forall_cons in H as [Hx H].
    change (join (String c EmptyString) (x :: y :: l))
      with (x +:+ String c (join (String c EmptyString) (y :: l))).
    rewrite split_on_app by done. by rewrite IH.
Qed.

Lemma split_on_pieces c s : Forall (fun x => has_char c x = false) (split_on c s).
Proof.
  induction s as [|d s IH]; simpl; [by repeat constructor|].
  destruct (Ascii.eqb d c) eqn:E; [by constructor|].
  destruct (split_on c s) as [|h t]; [by repeat constructor; simpl; rewrite E|].
  apply Forall_cons in IH as [Hh Ht]. constructor; [|done]. simpl. by rewrite E.
Qed.

Lemma trim_right_keep c x n : n <> "" -> has_char c n = false -> trim_right_char c (x +:+ n) = x +:+ n.
Proof.
  intros H0 Hn.
  assert (Hk : forall n, has_char c n = false -> trim_right_char c n = n).
  { clear. induction n as [|d n IH]; cbn [has_char trim_right_char]; [done|].
    intros [Hd Hn]%orb_false_iff. by rewrite IH, Hd by done. }
  induction x as [|d x IH]; cbn [String.app trim_right_char]; [by apply Hk|]. rewrite IH.
  destruct (String.eqb_spec (x +:+ n) "") as [E|]; [|by rewrite andb_false_r].
  destruct x; [done|discriminate].
Qed.

Lemma join_split c s : join (String c EmptyString) (split_on c s) = s.
Proof.
  induction s as [|d s IH]; simpl; [done|].
  pose proof (split_on_nonempty c s).
  destruct (Ascii.eqb_spec d c) as [->|]; destruct (split_on c s) as [|h [|h' t]];
    simpl in *; congruence.
Qed.

(** ** Cutting *)

Lemma cut_app c a s : has_char c a = false -> cut c (a +:+ String c s) = (a, s, true).
Proof.
  induction a as [|d a IH]; simpl; intros H.
  - by rewrite Ascii.eqb_refl.
  - apply orb_false_iff in H as [-> H]. by rewrite IH.
Qed.

(** ** Sorting *)

Lemma sort_strings_perm l : sort_strings l ≡ₚ l.
Proof. apply merge_sort_Permutation. Qed.

Lemma sort_strings_sorted l : StronglySorted String.le (sort_strings l).
Proof. apply StronglySorted_merge_sort; apply _. Qed.

Lemma sort_strings_length l : length (sort_strings l) = length l.
Proof. apply Permutation_length, sort_strings_perm. Qed.

#[export] Hint Resolve sort_strings_perm sort_strings_sorted has_prefix_app has_suffix_app : delight.
#[export] Hint Rewrite str_app_nil_r trim_prefix_app drop_str_app : delight.

Lemma pretty_N_go_no_dash x s : has_char "-" (pretty_N_go x s) = has_char "-" s.
Proof.
  revert s. induction (N.lt_wf_0 x) as [x _ IH]. intros s.
  assert (x = 0 \/ 0 < x)%N as [->|Hx] by lia; [by rewrite pretty_N_go_0|].
  rewrite pretty_N_go_step, IH by (done || by apply N.div_lt).
  cbn [has_char]. unfold pretty_N_char. by repeat case_match.
Qed.

Lemma itoa_no_dash z : 0 <= z -> has_char "-" (itoa z) = false.
Proof.
  intros Hz. destruct z as [|p|p]; [done| |lia]. unfold itoa, pretty, pretty_Z, pretty, pretty_positive, pretty, pretty_N.
  case_decide; [done|]. by rewrite pretty_N_go_no_dash.
Qed.
