(* ===== verification/GoPath.v ===== *)
(** The lexical part of Go's [path/filepath] (on Unix) the daemon uses: Clean,
    Join, Base, Ext, Dir and Rel, with the lemmas that cleaning is idempotent and that
    Dir and Base undo Join on a plain name. *)

From S2P Require Import Prelude GoStrings.
From Stdlib Require Import Ascii.

Definition slash : ascii := "/"%char.
Definition slash_str : string := "/".

Definition is_rooted (s : string) : bool := has_prefix s "/".

(** One path element met by Clean; [acc] is the output so far, last element first. *)
Definition clean_step (rooted : bool) (acc : list string) (c : string) : list string :=
  if String.eqb c "" || String.eqb c "." then acc
  else if String.eqb c ".." then
    match acc with
    | [] => if rooted then [] else [".."]
    | t :: r => if String.eqb t ".." then ".." :: acc else r
    end
  else c :: acc.

Definition clean_elems (rooted : bool) (l : list string) : list string :=
  rev (fold_left (clean_step rooted) l []).

(** filepath.Clean *)
Definition clean (s : string) : string :=
  let rooted := is_rooted s in
  let body := join slash_str (clean_elems rooted (split_on slash s)) in
  if rooted then slash_str +:+ body
  else if String.eqb body "" then "." else body.

(** filepath.Join: empty elements are skipped, the rest is joined and cleaned *)
Fixpoint path_join (elems : list string) : string :=
  match elems with
  | [] => ""
  | e :: r => if String.eqb e "" then path_join r else clean (join slash_str elems)
  end.

(** The element after the last slash. *)
Fixpoint last_elem (s : string) : string :=
  match s with
  | EmptyString => EmptyString
  | String c r => if has_char slash r then last_elem r
                  else if Ascii.eqb c slash then r else s
  end.

(** The text up to and including the last slash. *)
Fixpoint dir_part (s : string) : string :=
  match s with
  | EmptyString => EmptyString
  | String c r => if has_char slash r then String c (dir_part r)
                  else if Ascii.eqb c slash then String c EmptyString else EmptyString
  end.

(** filepath.Dir *)
Definition path_dir (s : string) : string := clean (dir_part s).

(** filepath.Base *)
Definition path_base (s : string) : string :=
  if String.eqb s "" then "."
  else let t := trim_right_char slash s in
       if String.eqb t "" then slash_str else last_elem t.

(** filepath.Ext: the suffix of the last element from its last dot *)
Fixpoint ext_go (s : string) : option string :=
  match s with
  | EmptyString => None
  | String c r =>
      match ext_go r with
      | Some e => Some e
      | None => if Ascii.eqb c "."%char then Some s else None
      end
  end.

Definition path_ext (s : string) : string := default "" (ext_go (last_elem s)).

(** The elements of a cleaned path that is not "." *)
Definition elems_of (s : string) : list string :=
  List.filter (fun c => negb (String.eqb c "") && negb (String.eqb c ".")) (split_on slash s).

Fixpoint drop_common (a b : list string) : list string * list string :=
  match a, b with
  | x :: a', y :: b' => if String.eqb x y then drop_common a' b' else (a, b)
  | _, _ => (a, b)
  end.

(** filepath.Rel: None is its error (one path rooted and the other not, or a
    base that climbs with ..). *)
Definition path_rel (base targ : string) : option string :=
  let b := clean base in
  let t := clean targ in
  if String.eqb b t then Some "."
  else if negb (Bool.eqb (is_rooted b) (is_rooted t)) then None
  else let '(rb, rt) := drop_common (elems_of b) (elems_of t) in
       if existsb (String.eqb "..") rb then None
       else Some (join slash_str (map (fun _ => "..") rb ++ rt)).

(** * Cleaning is idempotent *)

(** An element Clean keeps as it is: no slash, not empty, not "." or "..". *)
Definition plain (c : string) : Prop :=
  c <> "" /\ c <> "." /\ c <> ".." /\ has_char slash c = false.

(** What Clean leaves on its stack: plain elements above leading dot-dots, and
    no dot-dot at all under a root. *)
Inductive clean_stack (rooted : bool) : list string -> Prop :=
| cs_nil : clean_stack rooted []
| cs_plain c l : plain c -> clean_stack rooted l -> clean_stack rooted (c :: l)
| cs_dots l : rooted = false -> Forall (fun x => x = "..") l -> clean_stack rooted (".." :: l).

Lemma clean_stack_tail rooted c l : clean_stack rooted (c :: l) -> clean_stack rooted l.
Proof.
  inversion 1 as [|? ? _ ?|? ? Hd]; subst; [done|].
  destruct l; [constructor|]. apply Forall_cons in Hd as [-> Hd]. by constructor.
Qed.

Lemma clean_step_stack rooted acc c :
  has_char slash c = false -> clean_stack rooted acc -> clean_stack rooted (clean_step rooted acc c).
Proof.
  intros Hc Hs. unfold clean_step.
  destruct (String.eqb_spec c "") as [|He]; [done|].
  destruct (String.eqb_spec c ".") as [|Hd]; [done|]. simpl.
  destruct (String.eqb_spec c "..") as [->|Hdd].
  - destruct acc as [|t r].
    + destruct rooted; [constructor|by apply cs_dots].
    + destruct (String.eqb_spec t "..") as [->|Ht]; [|by eapply clean_stack_tail].
      inversion Hs as [|? ? (_ & _ & ? & _)|]; subst; [done|]. apply cs_dots; [done|by constructor].
  - by constructor.
Qed.

Lemma clean_fold_stack rooted l acc :
  Forall (fun x => has_char slash x = false) l -> clean_stack rooted acc ->
  clean_stack rooted (fold_left (clean_step rooted) l acc).
Proof.
  revert acc. induction l as [|c l IH]; intros acc Hl Ha; [done|].
  apply Forall_cons in Hl as [Hc Hl]. simpl. apply IH; [done|]. by apply clean_step_stack.
Qed.

(** Pushing a stack's elements back through Clean rebuilds the stack. *)
Lemma clean_fold_id rooted l :
  clean_stack rooted l -> fold_left (clean_step rooted) (rev l) [] = l.
Proof.
  induction 1 as [|c l (H1 & H2 & H3 & _) Hl IH|l -> Hd]; [done| |].
  - simpl. rewrite fold_left_app, IH. simpl. unfold clean_step.
    apply String.eqb_neq in H1, H2, H3. by rewrite H1, H2, H3.
  - enough (fold_left (clean_step false) (rev l) [] = l) as E.
    { simpl. rewrite fold_left_app, E. destruct l as [|x l]; [done|].
      apply Forall_cons in Hd as [-> _]. done. }
    induction l as [|x l IH]; [done|]. apply Forall_cons in Hd as [-> Hd].
    simpl. rewrite fold_left_app, IH by done.
    destruct l as [|y l]; [done|]. apply Forall_cons in Hd as [-> _]. done.
Qed.

Lemma clean_stack_elems rooted l :
  clean_stack rooted l -> Forall (fun x => has_char slash x = false /\ x <> "") l.
Proof.
  induction 1 as [|c l (? & _ & _ & ?)|l _ Hd]; [done|by constructor|].
  constructor; [done|]. eapply Forall_impl; [done|]. by intros ? ->.
Qed.

Lemma clean_elems_stack rooted s :
  clean_stack rooted (fold_left (clean_step rooted) (split_on slash s) []).
Proof. apply clean_fold_stack; [apply split_on_pieces|constructor]. Qed.

Lemma join_not_rooted l :
  Forall (fun x => has_char slash x = false /\ x <> "") l ->
  is_rooted (join slash_str l) = false.
Proof.
  intros H. destruct l as [|x [|y l]]; [done| |]; apply Forall_cons in H as [[Hs Hx] _].
  all: destruct x as [|c x]; [done|]; simpl in Hs; apply orb_false_iff in Hs as [Hs _].
  all: unfold is_rooted; simpl; unfold slash in *; rewrite Ascii.eqb_sym, Hs; done.
Qed.

Lemma join_nil_iff l :
  Forall (fun x => has_char slash x = false /\ x <> "") l -> join slash_str l = "" <-> l = [].
Proof.
  intros H. split; [|by intros ->].
  destruct l as [|x [|y l]]; [done| |]; apply Forall_cons in H as [[_ Hx] _].
  - simpl. by intros ->.
  - by destruct x.
Qed.

Lemma clean_idempotent s : clean (clean s) = clean s.
Proof.
  unfold clean at 2 3. set (st := fold_left (clean_step (is_rooted s)) (split_on slash s) []).
  assert (Hst : clean_stack (is_rooted s) st) by apply clean_elems_stack.
  pose proof (clean_stack_elems _ _ Hst) as Hel.
  assert (Hrev : Forall (fun x => has_char slash x = false /\ x <> "") (rev st)).
  { eapply Permutation_Forall; [|exact Hel]. apply Permutation_rev. }
  unfold clean_elems. fold st. set (body := join slash_str (rev st)).
  assert (Hsplit : rev st <> [] -> split_on slash body = rev st).
  { intros Hne. unfold body, slash_str. apply split_join; [done|].
    eapply Forall_impl; [exact Hrev|]. by intros ? []. }
  assert (Hfold : rev (fold_left (clean_step (is_rooted s)) (split_on slash body) []) = rev st).
  { destruct (decide (rev st = [])) as [E|Hne].
    - unfold body. rewrite E. by simpl.
    - by rewrite Hsplit, clean_fold_id. }
  destruct (is_rooted s) eqn:Hr.
  - unfold clean, clean_elems.
    change (slash_str +:+ body) with (String slash body).
    change (split_on slash (String slash body)) with ("" :: split_on slash body).
    change (is_rooted (String slash body)) with true.
    simpl fold_left. change (clean_step true [] "") with (@nil string). by rewrite Hfold.
  - destruct (String.eqb_spec body "") as [Hb|Hb]; [done|].
    unfold clean. rewrite (join_not_rooted (rev st) Hrev : is_rooted body = false).
    unfold clean_elems. rewrite Hfold. fold body. by apply String.eqb_neq in Hb as ->.
Qed.

Lemma clean_rooted s : is_rooted s = true -> is_rooted (clean s) = true.
Proof. intros H. unfold clean. rewrite H. apply has_prefix_app. Qed.

(** * One plain name below a directory *)

Lemma dir_part_app x n : has_char slash n = false -> dir_part (x +:+ String slash n) = x +:+ slash_str.
Proof.
  intros Hn. induction x as [|c x IH]; cbn [dir_part String.app].
  - by rewrite Hn, Ascii.eqb_refl.
  - rewrite has_char_app. cbn [has_char]. rewrite Ascii.eqb_refl, orb_true_r. by rewrite IH.
Qed.

Lemma last_elem_app x n : has_char slash n = false -> last_elem (x +:+ String slash n) = n.
Proof.
  intros Hn. induction x as [|c x IH]; cbn [last_elem String.app].
  - by rewrite Hn, Ascii.eqb_refl.
  - rewrite has_char_app. cbn [has_char]. by rewrite Ascii.eqb_refl, orb_true_r.
Qed.

Lemma no_slash_elem n : has_char slash n = false -> dir_part n = "" /\ last_elem n = n.
Proof.
  destruct n as [|c n]; [done|]. cbn [has_char dir_part last_elem]. intros [Hc Hn]%orb_false_iff.
  by rewrite Hn, Hc.
Qed.

Lemma path_base_app x n : plain n -> path_base (x +:+ String slash n) = n.
Proof.
  intros (H0 & _ & _ & Hn). unfold path_base.
  assert (E : x +:+ String slash n = (x +:+ slash_str) +:+ n) by (by rewrite <-str_app_assoc).
  rewrite E, trim_right_keep by done. rewrite <-E.
  destruct (String.eqb_spec (x +:+ String slash n) "") as [E'|]; [by destruct x|]. by apply last_elem_app.
Qed.

Lemma path_base_plain n : plain n -> path_base n = n.
Proof.
  intros (H0 & _ & _ & Hn). unfold path_base. pose proof (trim_right_keep slash "" n H0 Hn) as E.
  cbn [String.app] in E. rewrite E. apply String.eqb_neq in H0 as ->. by apply no_slash_elem.
Qed.

Lemma clean_trailing x : x <> "" -> clean (x +:+ slash_str) = clean x.
Proof.
  intros Hx. unfold clean. assert (E : is_rooted (x +:+ slash_str) = is_rooted x) by (by destruct x).
  rewrite E. unfold clean_elems. unfold slash_str. rewrite split_on_concat, fold_left_app. done.
Qed.

Lemma join_snoc l n : l <> [] -> join slash_str (l ++ [n]) = join slash_str l +:+ String slash n.
Proof.
  induction l as [|x [|y l] IH]; [done|done|]. intros _.
  change (join slash_str ((x :: y :: l) ++ [n])) with (x +:+ slash_str +:+ join slash_str ((y :: l) ++ [n])).
  rewrite IH by done. change (join slash_str (x :: y :: l)) with (x +:+ slash_str +:+ join slash_str (y :: l)).
  by rewrite !str_app_assoc.
Qed.

Lemma clean_stack_no_dot rooted l : clean_stack rooted l -> "." ∉ l.
Proof.
  induction 1 as [|c l (_ & Hd & _) _ IH|l _ Hd]; [apply not_elem_of_nil|..]; intros [E|Hin]%elem_of_cons.
  - done.
  - done.
  - done.
  - rewrite Forall_forall in Hd. apply Hd in Hin. done.
Qed.

(** Below a clean path, a plain name is one more element. *)
Lemma clean_child a n :
  a <> "" -> plain n ->
  clean (a +:+ String slash n)
  = if String.eqb (clean a) slash_str then String slash n
    else if String.eqb (clean a) "." then n else clean a +:+ String slash n.
Proof.
  intros Ha Hn. pose proof Hn as (H0 & H1 & H2 & Hs). unfold clean.
  assert (Er : is_rooted (a +:+ String slash n) = is_rooted a) by (by destruct a). rewrite Er.
  unfold clean_elems. rewrite split_on_concat, fold_left_app, (split_on_no_char slash n) by done.
  set (st := fold_left (clean_step (is_rooted a)) (split_on slash a) []). cbn [fold_left].
  unfold clean_step. apply String.eqb_neq in H0 as E0. apply String.eqb_neq in H1 as E1.
  apply String.eqb_neq in H2 as E2. rewrite E0, E1, E2. cbn [orb rev].
  assert (Hrev : Forall (fun x => has_char slash x = false /\ x <> "") (rev st)).
  { eapply Permutation_Forall; [apply Permutation_rev|]. eapply clean_stack_elems, clean_elems_stack. }
  pose proof (join_nil_iff _ Hrev) as Hnil. pose proof (join_not_rooted _ Hrev) as Hnr.
  destruct (decide (rev st = [])) as [->|Hne].
  - cbn [app join]. destruct (is_rooted a); [done|]. rewrite E0. done.
  - rewrite join_snoc by done. set (b := join slash_str (rev st)) in *.
    assert (Hb : b <> "") by tauto. destruct (is_rooted a).
    + assert (E : String.eqb (slash_str +:+ b) slash_str = false) by (apply String.eqb_neq; by destruct b).
      rewrite E. assert (E' : String.eqb (slash_str +:+ b) "." = false) by (by apply String.eqb_neq). by rewrite E'.
    + apply String.eqb_neq in Hb as Eb. rewrite Eb.
      assert (E : String.eqb (b +:+ String slash n) "" = false) by (apply String.eqb_neq; by destruct b).
      rewrite E. assert (E' : String.eqb b slash_str = false).
      { apply String.eqb_neq. intros Ec. by rewrite Ec in Hnr. }
      rewrite E'. assert (Ed : String.eqb b "." = false).
      { apply String.eqb_neq. intros Ec. apply (clean_stack_no_dot _ _ (clean_elems_stack false a)).
        fold st. assert (Hsp : split_on slash b = rev st).
        { apply split_join; [done|]. eapply Forall_impl; [exact Hrev|]. by intros ? []. }
        rewrite Ec in Hsp. assert (Hin : "." ∈ rev st) by (rewrite <-Hsp; by left).
        apply list_elem_of_In, in_rev, list_elem_of_In in Hin. exact Hin. }
      by rewrite Ed.
Qed.

Lemma clean_nonempty s : clean s <> "".
Proof.
  unfold clean. destruct (is_rooted s); [by destruct (join _ _)|].
  by destruct (String.eqb_spec (join slash_str (clean_elems false (split_on slash s))) "").
Qed.

(** What filepath.Join, Dir and Base make of a plain name below a directory. *)
Lemma path_join_plain a n :
  a <> "" -> plain n ->
  path_dir (path_join [a; n]) = clean a /\ path_base (path_join [a; n]) = n.
Proof.
  intros Ha Hn. pose proof Hn as (H0 & _ & _ & Hs).
  assert (E : path_join [a; n] = clean (a +:+ String slash n)).
  { cbn [path_join join]. apply String.eqb_neq in Ha as ->. done. }
  rewrite E, clean_child by done. unfold path_dir.
  destruct (String.eqb_spec (clean a) slash_str) as [->|Hr].
  { change (String slash n) with ("" +:+ String slash n). by rewrite path_base_app, dir_part_app. }
  destruct (String.eqb_spec (clean a) ".") as [->|Hd].
  { rewrite path_base_plain by done. by rewrite (proj1 (no_slash_elem n Hs)). }
  rewrite path_base_app, dir_part_app by done.
  by rewrite clean_trailing, clean_idempotent by apply clean_nonempty.
Qed.

#[export] Hint Resolve clean_idempotent clean_rooted : delight.
