(* ===== verification/GoTime.v ===== *)
(** The part of Go's [time] whose text orders files: the wall clock's calendar
    fields and [Time.Format] with the numeric layouts, with the lemma that the
    stamps of two moments compare as the moments do.

    Moments elsewhere are counts of nanoseconds; a [Civil] is what Format reads off
    one in the local zone, in the years its four digits hold. *)

From S2P Require Import Prelude GoStrings.
From Stdlib Require Import Ascii.

(** * Zero-padded decimals *)

Definition digit (n : Z) : ascii := ascii_of_nat (48 + Z.to_nat (n mod 10)).

(** The last [w] digits. *)
Fixpoint digits (w : nat) (n : Z) : string :=
  match w with
  | O => EmptyString
  | S k => digits k (n / 10) +:+ String (digit n) EmptyString
  end.

(** * The calendar *)

Record Civil := mkCivil { year : Z; month : Z; day : Z; hour : Z; minute : Z; second : Z }.

Definition civil_ok (c : Civil) : bool :=
  (0 <=? year c) && (year c <? 10000) && (1 <=? month c) && (month c <=? 12)
  && (1 <=? day c) && (day c <=? 31) && (0 <=? hour c) && (hour c <? 24)
  && (0 <=? minute c) && (minute c <? 60) && (0 <=? second c) && (second c <? 60).

(** Format("20060102-150405") *)
Definition stamp (c : Civil) : string :=
  digits 4 (year c) +:+ digits 2 (month c) +:+ digits 2 (day c) +:+ "-"
  +:+ digits 2 (hour c) +:+ digits 2 (minute c) +:+ digits 2 (second c).

(** The order of the wall clock, as one number. *)
Definition moment (c : Civil) : Z :=
  ((((year c * 100 + month c) * 100 + day c) * 100 + hour c) * 100 + minute c) * 100 + second c.

(** * Lemmas *)

Lemma compare_app x x' y y' :
  String.length x = String.length x' ->
  String.compare (x +:+ y) (x' +:+ y')
  = match String.compare x x' with Eq => String.compare y y' | c => c end.
Proof.
  revert x'. induction x as [|c x IH]; intros [|c' x'] Hl; try discriminate Hl; [done|].
  cbn [String.app String.compare]. destruct (Ascii.compare c c'); [|done..]. apply IH. by injection Hl.
Qed.

Lemma compare_refl x : String.compare x x = Eq.
Proof.
  induction x as [|c x IH]; [done|]. cbn [String.compare]. unfold Ascii.compare. by rewrite N.compare_refl.
Qed.

Lemma digit_range n : exists k, (k < 10)%nat /\ digit n = ascii_of_nat (48 + k).
Proof.
  exists (Z.to_nat (n mod 10)). split; [|done]. pose proof (Z.mod_pos_bound n 10). lia.
Qed.

Lemma digit_compare a b : Ascii.compare (digit a) (digit b) = (a mod 10 ?= b mod 10).
Proof.
  assert (Ha : forall i j, (i < 10)%nat -> (j < 10)%nat ->
    Ascii.compare (ascii_of_nat (48 + i)) (ascii_of_nat (48 + j)) = (Z.of_nat i ?= Z.of_nat j)).
  { intros i j Hi Hj. do 10 (destruct i as [|i]; [do 10 (destruct j as [|j]; [reflexivity|]); lia|]). lia. }
  unfold digit. pose proof (Z.mod_pos_bound a 10). pose proof (Z.mod_pos_bound b 10).
  rewrite Ha by lia. by rewrite !Z2Nat.id by lia.
Qed.

Lemma digits_length w n : String.length (digits w n) = w.
Proof.
  revert n. induction w as [|w IH]; intros n; cbn [digits]; [done|]. rewrite str_app_length, IH. cbn. lia.
Qed.

Lemma digits_no_char c w n : (forall k, (k < 10)%nat -> ascii_of_nat (48 + k) <> c) -> has_char c (digits w n) = false.
Proof.
  intros Hc. revert n. induction w as [|w IH]; intros n; cbn [digits]; [done|].
  rewrite has_char_app, IH. cbn [has_char orb]. rewrite orb_false_r. apply Ascii.eqb_neq.
  destruct (digit_range n) as (k & Hk & ->). by apply Hc.
Qed.

(** Quotients first, then remainders. *)
Lemma compare_div_mod a b :
  match a / 10 ?= b / 10 with Eq => a mod 10 ?= b mod 10 | c => c end = (a ?= b).
Proof.
  pose proof (Z.div_mod a 10 ltac:(lia)). pose proof (Z.div_mod b 10 ltac:(lia)).
  pose proof (Z.mod_pos_bound a 10). pose proof (Z.mod_pos_bound b 10).
  destruct (Z.compare_spec (a / 10) (b / 10)); [destruct (Z.compare_spec (a mod 10) (b mod 10))|..];
    symmetry; apply Z.compare_eq_iff || apply Z.compare_lt_iff || apply Z.compare_gt_iff; lia.
Qed.

(** Padded to one width, numbers compare as text. *)
Lemma digits_compare w a b :
  0 <= a < 10 ^ Z.of_nat w -> 0 <= b < 10 ^ Z.of_nat w -> String.compare (digits w a) (digits w b) = (a ?= b).
Proof.
  revert a b. induction w as [|w IH]; intros a b Ha Hb.
  { cbn in Ha, Hb. assert (a = 0) as -> by lia. by assert (b = 0) as -> by lia. }
  rewrite Nat2Z.inj_succ, Z.pow_succ_r in Ha, Hb by lia. cbn [digits].
  rewrite compare_app by (by rewrite !digits_length).
  rewrite IH by (split; [apply Z.div_pos; lia|apply Z.div_lt_upper_bound; lia]).
  cbn [String.compare]. rewrite digit_compare, <-(compare_div_mod a b).
  destruct (a / 10 ?= b / 10); [|done..]. by destruct (a mod 10 ?= b mod 10).
Qed.

(** A number's digits are those of its parts. *)
Lemma digits_split w v a b :
  0 <= b < 10 ^ Z.of_nat v -> digits (v + w) (a * 10 ^ Z.of_nat v + b) = digits w a +:+ digits v b.
Proof.
  revert b. induction v as [|v IH]; intros b Hb.
  { cbn in *. rewrite str_app_nil_r. f_equal. lia. }
  rewrite Nat2Z.inj_succ, Z.pow_succ_r in Hb |- * by lia. cbn [Nat.add digits].
  replace ((a * (10 * 10 ^ Z.of_nat v) + b) / 10) with (a * 10 ^ Z.of_nat v + b / 10).
  2: { replace (a * (10 * 10 ^ Z.of_nat v) + b) with (a * 10 ^ Z.of_nat v * 10 + b) by ring.
       by rewrite Z.div_add_l by lia. }
  rewrite IH, str_app_assoc by (split; [apply Z.div_pos; lia|apply Z.div_lt_upper_bound; lia]).
  do 2 f_equal. unfold digit. do 3 f_equal.
  replace (a * (10 * 10 ^ Z.of_nat v) + b) with (b + a * 10 ^ Z.of_nat v * 10) by ring.
  by rewrite Z.mod_add by lia.
Qed.

Lemma stamp_no_char c s : (forall k, (k < 10)%nat -> ascii_of_nat (48 + k) <> c) -> c <> "-"%char -> has_char c (stamp s) = false.
Proof.
  intros Hc Hd. unfold stamp. rewrite !has_char_app, !digits_no_char by done. cbn [has_char orb].
  rewrite !orb_false_r. apply Ascii.eqb_neq. congruence.
Qed.

(** The stamps of two moments compare as the moments. *)
Lemma stamp_compare c c' :
  civil_ok c = true -> civil_ok c' = true -> String.compare (stamp c) (stamp c') = (moment c ?= moment c').
Proof.
  intros Hc Hc'. unfold civil_ok in Hc, Hc'. rewrite !andb_true_iff in Hc, Hc'.
  assert (Hs : forall c, 1 <= month c <= 12 -> 1 <= day c <= 31 -> 0 <= minute c < 60 -> 0 <= second c < 60 ->
    stamp c = digits 8 ((year c * 100 + month c) * 100 + day c)
              +:+ "-" +:+ digits 6 ((hour c * 100 + minute c) * 100 + second c)).
  { intros d Hm Hd Hi Hs. unfold stamp.
    rewrite (digits_split 6 2), (digits_split 4 2), (digits_split 4 2), (digits_split 2 2) by (cbn; lia).
    by rewrite !str_app_assoc. }
  rewrite !Hs, !compare_app, !digits_compare by (rewrite ?digits_length; done || (cbn; lia)).
  change (String.compare "-" "-") with Eq. cbv iota. unfold moment.
  set (d := (year c * 100 + month c) * 100 + day c). set (d' := (year c' * 100 + month c') * 100 + day c').
  destruct (Z.compare_spec d d') as [E|E|E].
  - rewrite E. symmetry. destruct (Z.compare_spec ((hour c * 100 + minute c) * 100 + second c)
      ((hour c' * 100 + minute c') * 100 + second c')); [apply Z.compare_eq_iff|apply Z.compare_lt_iff|apply Z.compare_gt_iff]; lia.
  - symmetry. apply Z.compare_lt_iff. lia.
  - symmetry. apply Z.compare_gt_iff. lia.
Qed.

#[export] Hint Resolve digits_length : delight.
