(* ===== verification/State.v ===== *)
(** pkg/state: the backup state machine of one project.

    [Machine] is the Go struct without its mutex: a method that holds the lock
    throughout is one atomic step. AdvanceOnChurn takes the lock twice, once to
    read and once to move; here it is the two together, and Daemon.v interleaves
    them.
    The clock and the jitter are inputs of [Transition]; log lines are left
    out. [astate] is the abstract machine the component promises: the phases
    of the diagram, each carrying only the data that exists in it. [diagram] is the
    README's drawing of it, which leaves one edge of the code out. *)

From S2P Require Import Prelude.

Module state.

Inductive State := StateFallow | StateMonitoring | StateBackingUp | StateError.

(** The constants' text, which the wire carries. *)
Definition State_text (s : State) : string :=
  match s with
  | StateFallow => "fallow"
  | StateMonitoring => "monitoring"
  | StateBackingUp => "backing_up"
  | StateError => "error"
  end.

(** The five event constants, and any other value of the string type. *)
Inductive Event :=
| EventChurnDetected
| EventTriggerBackup
| EventBackupSuccess
| EventBackupFail
| EventClearError
| EventOther (e : string).

#[global] Instance State_eq_dec : EqDecision State.
Proof. solve_decision. Defined.
#[global] Instance Event_eq_dec : EqDecision Event.
Proof. solve_decision. Defined.

(** Times are nanoseconds from the zero time.Time, which is 0. *)
Record Machine := mkMachine {
  ProjectName : string;
  CurrentState : State;
  ErrorCount : Z;
  LastActivity : Z;
  NextRetryAt : Z
}.

(** What one call reads from outside: the clock when the backoff is checked or
    set, the clock again when the activity is stamped, and rand.Intn(60). *)
Record Clock := mkClock { clk_now : Z; clk_after : Z; clk_jitter : Z }.

(** The clock does not run backwards and Intn(60) is in its range. *)
Definition clock_ok (c : Clock) : Prop :=
  0 < clk_now c /\ clk_now c <= clk_after c /\ 0 <= clk_jitter c < 60.

Inductive TransitionError :=
| ErrBackoff (until : Z)
| ErrUnknownEvent (e : Event).

Definition NewMachine (projectName : string) (now : Z) : Machine :=
  mkMachine projectName StateFallow 0 now 0.

Definition set_state (m : Machine) (s : State) : Machine :=
  mkMachine (ProjectName m) s (ErrorCount m) (LastActivity m) (NextRetryAt m).

Definition set_errors (m : Machine) (n retry : Z) : Machine :=
  mkMachine (ProjectName m) (CurrentState m) n (LastActivity m) retry.

(** The stamp at the end of Transition, when the state has changed. *)
Definition touch (c : Clock) (prev : State) (m : Machine) : Machine :=
  if decide (prev = CurrentState m) then m
  else mkMachine (ProjectName m) (CurrentState m) (ErrorCount m) (clk_after c) (NextRetryAt m).

Section conversion.
(** time.Duration(float64) for a float outside int64: the Go specification
    leaves the value to the implementation. *)
Variable f2i : Z -> Z.

(** time.Duration(math.Pow(2, float64(n))): exact below 2^63, truncated to 0
    for a negative exponent. *)
Definition pow2_duration (n : Z) : Z :=
  if n <? 0 then 0 else if n <? 63 then 2 ^ n else f2i n.

(** time.Minute * time.Duration(...), on int64, then the one-hour cap. *)
Definition base_wait (n : Z) : Z :=
  let baseWait := wrap64 (Minute * pow2_duration n) in
  if Hour <? baseWait then Hour else baseWait.

Definition Transition (c : Clock) (m : Machine) (e : Event) : Machine * option TransitionError :=
  let prev := CurrentState m in
  match e with
  | EventChurnDetected =>
      (touch c prev (if decide (CurrentState m = StateFallow) then set_state m StateMonitoring else m), None)
  | EventTriggerBackup =>
      if bool_decide (CurrentState m = StateFallow \/ CurrentState m = StateMonitoring
                      \/ CurrentState m = StateError)
      then if bool_decide (CurrentState m = StateError) && (clk_now c <? NextRetryAt m)
           then (m, Some (ErrBackoff (NextRetryAt m)))
           else (touch c prev (set_state m StateBackingUp), None)
      else (touch c prev m, None)
  | EventBackupSuccess =>
      (touch c prev (if decide (CurrentState m = StateBackingUp)
                     then set_errors (set_state m StateFallow) 0 0 else m), None)
  | EventBackupFail =>
      (touch c prev
         (if decide (CurrentState m = StateBackingUp)
          then let n := wrap64 (ErrorCount m + 1) in
               set_errors (set_state m StateError) n
                 (clk_now c + base_wait n + clk_jitter c * Second)
          else m), None)
  | EventClearError =>
      (touch c prev (if decide (CurrentState m = StateError)
                     then set_errors (set_state m StateFallow) 0 0 else m), None)
  | EventOther _ => (m, Some (ErrUnknownEvent e))
  end.

Definition GetState (m : Machine) : State := CurrentState m.

(** The map GetDiagnostics returns, key by key. *)
Record Diagnostics := mkDiagnostics {
  d_state : State; d_error_count : Z; d_last_activity : Z; d_next_retry : Z
}.

Definition GetDiagnostics (m : Machine) : Diagnostics :=
  mkDiagnostics (CurrentState m) (ErrorCount m) (LastActivity m) (NextRetryAt m).

(** time.Now().After(NextRetryAt) is strict. *)
Definition CanRetry (now : Z) (m : Machine) : bool :=
  if decide (CurrentState m = StateError) then NextRetryAt m <? now else true.

Definition WatchesForChurn (m : Machine) : bool :=
  match GetState m with
  | StateFallow | StateMonitoring => true
  | _ => false
  end.

Definition AdvanceOnChurn (c : Clock) (m : Machine) : Machine * option TransitionError :=
  match GetState m with
  | StateFallow => Transition c m EventChurnDetected
  | StateMonitoring => Transition c m EventTriggerBackup
  | _ => (m, None)
  end.

(** A run: the machine after a sequence of calls, errors ignored as the
    callers ignore them. *)
Definition run (m : Machine) (es : list (Clock * Event)) : Machine :=
  fold_left (fun m ce => fst (Transition ce.1 m ce.2)) es m.

(** * The abstract machine *)

(** Consecutive failures exist while a backup is retried, and a retry time
    only in backoff: the states a well-formed [Machine] can be in. *)
Inductive astate :=
| Quiet
| Watching
| Running (fails : Z) (retry : Z)
| Backoff (fails : Z) (retry : Z).

Definition abs (m : Machine) : astate :=
  match CurrentState m with
  | StateFallow => Quiet
  | StateMonitoring => Watching
  | StateBackingUp => Running (ErrorCount m) (NextRetryAt m)
  | StateError => Backoff (ErrorCount m) (NextRetryAt m)
  end.

(** The edges README.md draws (stateDiagram-v2), which are also those of
    docs/architecture.md. *)
Definition diagram : list (State * State) :=
  [ (StateFallow, StateMonitoring);       (* working tree goes dirty *)
    (StateMonitoring, StateBackingUp);    (* checkpoint *)
    (StateBackingUp, StateFallow);        (* archived *)
    (StateBackingUp, StateError);         (* failed *)
    (StateError, StateBackingUp);         (* retry after backoff *)
    (StateError, StateFallow) ].          (* cleared *)

(** The edge only a comment of Transition has ("manual poke"): a trigger takes a
    fallow machine straight to its backup. *)
Definition manual_poke : State * State := (StateFallow, StateBackingUp).

(** The abstract machine: the drawn edges and the manual poke, each with its event,
    and with the count of failures and the retry time where there are any. A retry
    that is running keeps both. *)
Definition spec_step (c : Clock) (a : astate) (e : Event) : astate * option TransitionError :=
  match a, e with
  | _, EventOther _ => (a, Some (ErrUnknownEvent e))
  | Quiet, EventChurnDetected => (Watching, None)
  | (Quiet | Watching), EventTriggerBackup => (Running 0 0, None)
  | Backoff n t, EventTriggerBackup =>
      if clk_now c <? t then (a, Some (ErrBackoff t)) else (Running n t, None)
  | Running _ _, EventBackupSuccess => (Quiet, None)
  | Running n _, EventBackupFail =>
      (Backoff (n + 1) (clk_now c + base_wait (n + 1) + clk_jitter c * Second), None)
  | Backoff _ _, EventClearError => (Quiet, None)
  | _, _ => (a, None)
  end.

(** The counters agree with the phase, and [k] bounds the failures seen. *)
Definition wf (k : Z) (m : Machine) : Prop :=
  match CurrentState m with
  | StateFallow | StateMonitoring => ErrorCount m = 0 /\ NextRetryAt m = 0
  | StateBackingUp =>
      0 <= ErrorCount m <= k /\ (ErrorCount m = 0 -> NextRetryAt m = 0)
  | StateError => 1 <= ErrorCount m <= k
  end.

(** The failures since the last success or reset, read off a trace: only the
    events accepted in the phase they arrive in count. *)
Definition count_failure (m : Machine) (ce : Clock * Event) (n : Z) : Z :=
  match ce.2, CurrentState m with
  | EventBackupFail, StateBackingUp => n + 1
  | EventBackupSuccess, StateBackingUp => 0
  | EventClearError, StateError => 0
  | _, _ => n
  end.

Fixpoint failures (m : Machine) (es : list (Clock * Event)) (n : Z) : Z :=
  match es with
  | [] => n
  | ce :: r => failures (fst (Transition ce.1 m ce.2)) r (count_failure m ce n)
  end.

End conversion.

(** * Lemmas *)

Section proofs.
Variable f2i : Z -> Z.
Abbreviation Transition := (Transition f2i).
Abbreviation run := (run f2i).

Lemma touch_fields c prev m :
  CurrentState (touch c prev m) = CurrentState m
  /\ ErrorCount (touch c prev m) = ErrorCount m
  /\ NextRetryAt (touch c prev m) = NextRetryAt m
  /\ ProjectName (touch c prev m) = ProjectName m.
Proof. unfold touch. by case_decide. Qed.

Lemma abs_touch c prev m : abs (touch c prev m) = abs m.
Proof. unfold abs. by destruct (touch_fields c prev m) as (-> & -> & -> & _). Qed.

Lemma wf_touch k c prev m : wf k (touch c prev m) <-> wf k m.
Proof. unfold wf. by destruct (touch_fields c prev m) as (-> & -> & -> & _). Qed.

Lemma wf_mono k k' m : k <= k' -> wf k m -> wf k' m.
Proof. unfold wf. destruct (CurrentState m); lia. Qed.

Lemma NewMachine_wf name now : wf 0 (NewMachine name now).
Proof. done. Qed.

(** One case per state and event, with the record open. *)
Ltac step_cases m e :=
  destruct m as [? [] n a t]; destruct e; unfold state.Transition, spec_step; simpl in *;
  repeat (case_decide || case_bool_decide || case_match);
  rewrite ?abs_touch, ?wf_touch in *; simplify_eq/=; try done; try tauto.

Lemma Transition_abs k c m e :
  wf k m -> k < 2 ^ 63 - 1 ->
  abs (fst (Transition c m e)) = fst (spec_step f2i c (abs m) e)
  /\ snd (Transition c m e) = snd (spec_step f2i c (abs m) e).
Proof.
  intros Hwf Hk. unfold wf in Hwf. step_cases m e.
  all: rewrite ?wrap64_id in * by (unfold in_int64; lia).
  all: first [done | destruct Hwf as [-> ->]; done].
Qed.

Lemma Transition_wf k c m e :
  wf k m -> 0 <= k < 2 ^ 63 - 1 -> wf (k + 1) (fst (Transition c m e)).
Proof.
  intros Hwf Hk. unfold wf in Hwf. step_cases m e.
  all: try first [lia | unfold wf; simpl; rewrite ?wrap64_id by (unfold in_int64; lia); lia].
Qed.

Lemma run_wf_from k m es :
  wf k m -> 0 <= k -> k + Z.of_nat (length es) < 2 ^ 63 -> wf (k + Z.of_nat (length es)) (run m es).
Proof.
  revert k m. induction es as [|ce es IH]; intros k m Hwf H0 Hk; simpl in *.
  - by rewrite Z.add_0_r.
  - replace (k + Z.of_nat (S (length es))) with (k + 1 + Z.of_nat (length es)) in * by lia.
    apply IH; [apply Transition_wf; [done|lia]|lia|lia].
Qed.

Lemma run_wf name now es :
  Z.of_nat (length es) < 2 ^ 63 ->
  wf (Z.of_nat (length es)) (run (NewMachine name now) es).
Proof. intros H. exact (run_wf_from 0 _ es (NewMachine_wf _ _) ltac:(lia) H). Qed.

Lemma Transition_count k c m e :
  wf k m -> k < 2 ^ 63 - 1 ->
  ErrorCount (fst (Transition c m e)) = count_failure m (c, e) (ErrorCount m).
Proof.
  intros Hwf Hk. unfold wf in Hwf. unfold count_failure. step_cases m e.
  all: unfold touch; simpl; repeat case_decide; simpl; rewrite ?wrap64_id by (unfold in_int64; lia); lia.
Qed.

Lemma run_failures k m es :
  wf k m -> 0 <= k -> k + Z.of_nat (length es) < 2 ^ 63 ->
  ErrorCount (run m es) = failures f2i m es (ErrorCount m).
Proof.
  revert k m. induction es as [|ce es IH]; intros k m Hwf H0 Hk; simpl in *; [done|].
  destruct ce as [c e]. simpl. rewrite <-(Transition_count k) by (done || lia).
  apply (IH (k + 1)); [apply Transition_wf; [done|lia]|lia|lia].
Qed.

Lemma Transition_activity c m e :
  let m' := fst (Transition c m e) in
  ProjectName m' = ProjectName m
  /\ LastActivity m' = (if decide (CurrentState m = CurrentState m') then LastActivity m else clk_after c).
Proof.
  destruct m as [? [] n a t]; destruct e; unfold state.Transition, touch; simpl;
    repeat (case_decide || case_bool_decide || case_match); simplify_eq/=; done.
Qed.

Lemma Transition_edge c m e :
  let s' := CurrentState (fst (Transition c m e)) in
  s' <> CurrentState m ->
  (CurrentState m, s') ∈ diagram \/ (e = EventTriggerBackup /\ (CurrentState m, s') = manual_poke).
Proof.
  unfold diagram, manual_poke.
  destruct m as [? [] n a t]; destruct e; unfold state.Transition, touch; simpl;
    repeat (case_decide || case_bool_decide || case_match); simplify_eq/=; intros Hs;
    first [done|by right|left; set_solver].
Qed.

Lemma wf_retry k m :
  wf k m -> NextRetryAt m <> 0 ->
  CurrentState m = StateError \/ (CurrentState m = StateBackingUp /\ 1 <= ErrorCount m).
Proof.
  unfold wf. destruct (CurrentState m); [lia|lia| |by left]. intros [Hn H0] Ht. right. split; [done|].
  destruct (decide (ErrorCount m = 0)) as [E|]; [by apply H0 in E|lia].
Qed.

(** ** The backoff *)

Lemma base_wait_exact n : 0 <= n <= 27 -> base_wait f2i n = Z.min Hour (2 ^ n * Minute).
Proof.
  intros Hn. unfold base_wait, pow2_duration.
  rewrite (proj2 (Z.ltb_ge n 0)), (proj2 (Z.ltb_lt n 63)) by lia.
  assert (2 ^ n <= 2 ^ 27) by (apply Z.pow_le_mono_r; lia).
  assert (0 < 2 ^ n) by (apply Z.pow_pos_nonneg; lia).
  rewrite wrap64_id by (unfold in_int64, Minute, Second; lia).
  destruct (Z.ltb_spec Hour (Minute * 2 ^ n)); lia.
Qed.

Lemma base_wait_28 : base_wait f2i 28 = -2340616713709551616.
Proof. vm_compute. reflexivity. Qed.

Lemma Transition_fail c m :
  CurrentState m = StateBackingUp ->
  let n := wrap64 (ErrorCount m + 1) in
  let m' := fst (Transition c m EventBackupFail) in
  CurrentState m' = StateError /\ ErrorCount m' = n
  /\ NextRetryAt m' = clk_now c + base_wait f2i n + clk_jitter c * Second.
Proof.
  intros H. unfold state.Transition. rewrite decide_True by done. simpl.
  edestruct touch_fields as (E1 & E2 & E3 & _). by rewrite E1, E2, E3.
Qed.

Lemma Transition_trigger c m :
  CurrentState m = StateFallow \/ CurrentState m = StateMonitoring
  \/ (CurrentState m = StateError /\ NextRetryAt m <= clk_now c) ->
  snd (Transition c m EventTriggerBackup) = None
  /\ CurrentState (fst (Transition c m EventTriggerBackup)) = StateBackingUp.
Proof.
  intros H. unfold state.Transition. rewrite bool_decide_eq_true_2 by tauto.
  destruct (bool_decide (CurrentState m = StateError) && (clk_now c <? NextRetryAt m)) eqn:E.
  - apply andb_true_iff in E as [E1%bool_decide_eq_true E2%Z.ltb_lt].
    destruct H as [?|[?|[_ ?]]]; [congruence..|lia].
  - simpl. edestruct touch_fields as (E1 & _). by rewrite E1.
Qed.

(** * Properties *)

(** C16. Every call of [Transition] is one step of the abstract machine: on a
    well-formed machine with fewer than 2^63-1 failures it moves to the phase,
    counter and retry time the abstract machine moves to, returns the abstract
    machine's error, leaves a well-formed machine, and stamps the activity
    exactly when the state changed. A change of state is an edge of the diagram the
    README draws, or the trigger of a fallow machine, which no diagram draws; and a
    retry time is set only in error and, against docs/api.md, in the retry that
    follows it. *)
Theorem Transition_refines_spec k c m e :
  wf k m -> 0 <= k < 2 ^ 63 - 1 ->
  let '(m', err) := Transition c m e in
  (abs m', err) = spec_step f2i c (abs m) e
  /\ wf (k + 1) m'
  /\ LastActivity m' = (if decide (CurrentState m = CurrentState m') then LastActivity m else clk_after c)
  /\ (CurrentState m' <> CurrentState m ->
        (CurrentState m, CurrentState m') ∈ diagram
        \/ (e = EventTriggerBackup /\ (CurrentState m, CurrentState m') = manual_poke))
  /\ (NextRetryAt m' <> 0 ->
        CurrentState m' = StateError \/ (CurrentState m' = StateBackingUp /\ 1 <= ErrorCount m')).
Proof.
  intros Hwf Hk.
  destruct (Transition_abs k c m e Hwf) as [H1 H2]; [lia|].
  pose proof (Transition_wf k c m e Hwf Hk) as Hwf'. destruct (Transition_activity c m e) as [_ H3].
  pose proof (Transition_edge c m e) as H4. pose proof (wf_retry _ _ Hwf') as H5.
  destruct (Transition c m e) as [m' err]. simpl in *.
  split_and!; [|done..]. destruct (spec_step f2i c (abs m) e). simpl in *. congruence.
Qed.

(** A retry that runs still carries the retry time of the failure before it. *)
Lemma retry_keeps_its_time c m :
  CurrentState m = StateError -> NextRetryAt m <= clk_now c ->
  let m' := fst (Transition c m EventTriggerBackup) in
  CurrentState m' = StateBackingUp /\ d_next_retry (GetDiagnostics m') = NextRetryAt m.
Proof.
  intros Hs Ht. unfold state.Transition. rewrite !bool_decide_eq_true_2 by tauto.
  rewrite (proj2 (Z.ltb_ge _ _)) by lia. simpl. by edestruct touch_fields as (-> & _ & -> & _).
Qed.

(** C38. Whatever sequence of events a new machine receives, it stays
    well-formed (no failures and no retry time outside a backup cycle, at least
    one failure in error) and its error count is the number of consecutive
    failures since the last success or reset. *)
Theorem run_counts_consecutive_failures name now es :
  Z.of_nat (length es) < 2 ^ 63 ->
  let m := run (NewMachine name now) es in
  wf (Z.of_nat (length es)) m /\ ErrorCount m = failures f2i (NewMachine name now) es 0.
Proof.
  intros H. split; [by apply run_wf|].
  apply (run_failures 0); [apply NewMachine_wf|lia|lia].
Qed.

(** C40. Up to the 27th consecutive failure the retry is scheduled after two to
    the count minutes, capped at one hour, plus less than a minute of jitter. *)
Theorem backoff_window c m :
  clock_ok c -> CurrentState m = StateBackingUp -> 0 <= ErrorCount m <= 26 ->
  let m' := fst (Transition c m EventBackupFail) in
  let wait := Z.min Hour (2 ^ (ErrorCount m + 1) * Minute) in
  CurrentState m' = StateError /\ ErrorCount m' = ErrorCount m + 1
  /\ clk_now c + wait <= NextRetryAt m' < clk_now c + wait + Minute
  /\ (forall now, now < clk_now c + wait -> CanRetry now m' = false).
Proof.
  intros (_ & _ & Hj) Hs Hn m' wait.
  destruct (Transition_fail c m Hs) as (E1 & E2 & E3). fold m' in E1, E2, E3.
  rewrite wrap64_id in E2, E3 by (unfold in_int64; lia).
  rewrite base_wait_exact in E3 by lia. fold wait in E3.
  assert (clk_now c + wait <= NextRetryAt m' < clk_now c + wait + Minute)
    by (rewrite E3; unfold Minute, Second; lia).
  split_and!; [done..|lia|lia|]. intros now Hnow. unfold CanRetry.
  rewrite decide_True by done. apply Z.ltb_ge. lia.
Qed.

(** The 28th consecutive failure overflows int64 in the backoff product:
    the retry time lies in the past, so the machine may retry at once and the
    next trigger is accepted whatever the jitter was. *)
Lemma backoff_lost_at_28 c m c' :
  clock_ok c -> CurrentState m = StateBackingUp -> ErrorCount m = 27 -> clk_now c <= clk_now c' ->
  let m' := fst (Transition c m EventBackupFail) in
  NextRetryAt m' < clk_now c /\ CanRetry (clk_now c) m' = true
  /\ CurrentState (fst (Transition c' m' EventTriggerBackup)) = StateBackingUp.
Proof.
  intros (_ & _ & Hj) Hs Hn Hle m'.
  destruct (Transition_fail c m Hs) as (E1 & _ & E3). fold m' in E1, E3.
  rewrite Hn in E3. change (wrap64 (27 + 1)) with 28 in E3. rewrite base_wait_28 in E3.
  assert (NextRetryAt m' < clk_now c) by (unfold Second in E3; lia).
  split_and!; [done| |].
  - unfold CanRetry. rewrite decide_True by done. by apply Z.ltb_lt.
  - apply Transition_trigger. right. right. split; [done|lia].
Qed.

(** The backoff gate: in the error state a trigger (manual or automatic)
    before the retry time is refused and changes nothing, and from that time
    on it starts the backup, keeping the count of failures. *)
Lemma trigger_respects_backoff c m :
  CurrentState m = StateError ->
  if decide (clk_now c < NextRetryAt m)
  then Transition c m EventTriggerBackup = (m, Some (ErrBackoff (NextRetryAt m)))
  else snd (Transition c m EventTriggerBackup) = None
       /\ CurrentState (fst (Transition c m EventTriggerBackup)) = StateBackingUp
       /\ ErrorCount (fst (Transition c m EventTriggerBackup)) = ErrorCount m.
Proof.
  intros Hs. case_decide as Hlt.
  - unfold state.Transition. rewrite !bool_decide_eq_true_2 by tauto.
    by rewrite (proj2 (Z.ltb_lt _ _) Hlt).
  - destruct (Transition_trigger c m) as [E1 E2]; [right; right; split; [done|lia]|].
    split_and!; [done..|]. unfold state.Transition.
    rewrite !bool_decide_eq_true_2, (proj2 (Z.ltb_ge _ _)) by (tauto || lia).
    simpl. by edestruct touch_fields as (_ & -> & _).
Qed.

(** A backup is spent only on the second sighting of churn: [AdvanceOnChurn]
    takes a quiet machine to monitoring and a monitoring one to backing up, and
    it moves the machine exactly in the states [WatchesForChurn] polls. *)
Lemma churn_confirmed_twice c c' m :
  (CurrentState m = StateFallow ->
     let m1 := fst (AdvanceOnChurn f2i c m) in
     CurrentState m1 = StateMonitoring
     /\ CurrentState (fst (AdvanceOnChurn f2i c' m1)) = StateBackingUp)
  /\ snd (AdvanceOnChurn f2i c m) = None
  /\ (WatchesForChurn m = true <-> CurrentState (fst (AdvanceOnChurn f2i c m)) <> CurrentState m)
  /\ (WatchesForChurn m = false -> AdvanceOnChurn f2i c m = (m, None)).
Proof.
  destruct m as [? [] n a t]; unfold AdvanceOnChurn, WatchesForChurn, GetState; simpl;
    split_and!; intros; try done.
Qed.

End proofs.

(** * The properties at concrete inputs *)

(** An implementation's conversion of an out-of-range float: amd64's. *)
Definition amd64_f2i (n : Z) : Z := - 2 ^ 63.

Definition clock_at (now j : Z) : Clock := mkClock now (now + 1) j.

(** A machine in its [n]th retry at time [now]. *)
Definition retrying (n retry : Z) : Machine := mkMachine "paling" StateBackingUp n 5 retry.

Lemma Transition_refines_spec_witness :
  exists m', Transition amd64_f2i (clock_at 100 7) (retrying 2 50) EventBackupFail = (m', None)
  /\ (abs m', None) = spec_step amd64_f2i (clock_at 100 7) (abs (retrying 2 50)) EventBackupFail
  /\ wf 4 m' /\ LastActivity m' = 101 /\ (StateBackingUp, CurrentState m') ∈ diagram.
Proof.
  pose proof (Transition_refines_spec amd64_f2i 3 (clock_at 100 7) (retrying 2 50) EventBackupFail
    ltac:(unfold wf; simpl; lia) ltac:(lia)) as H.
  eexists. split; [vm_compute; reflexivity|]. destruct H as (H1 & H2 & H3 & H4 & _).
  split; [exact H1|]. split; [exact H2|]. split; [exact H3|].
  destruct (H4 ltac:(discriminate)) as [Hd|[Hd _]]; [exact Hd|discriminate].
Defined.

Lemma run_counts_consecutive_failures_witness :
  let es := [(clock_at 1 0, EventTriggerBackup); (clock_at 2 0, EventBackupFail);
             (clock_at (10 * Hour) 0, EventTriggerBackup); (clock_at (11 * Hour) 0, EventBackupFail)] in
  ErrorCount (run amd64_f2i (NewMachine "paling" 0) es) = 2.
Proof.
  intros es.
  exact (proj2 (run_counts_consecutive_failures amd64_f2i "paling" 0 es ltac:(simpl; lia))).
Defined.

Lemma backoff_window_witness :
  let m' := fst (Transition amd64_f2i (clock_at 1000 30) (retrying 1 0) EventBackupFail) in
  1000 + 4 * Minute <= NextRetryAt m' < 1000 + 4 * Minute + Minute.
Proof.
  apply (backoff_window amd64_f2i (clock_at 1000 30) (retrying 1 0)).
  - unfold clock_ok; simpl; lia.
  - reflexivity.
  - simpl; lia.
Defined.

End state.
