(* ===== verification/Proto.v ===== *)
(** The messages of proto/ the daemon reads and writes, their nil-safe getters,
    protobuf timestamps, and the interface of the protojson encoder.

    The generated Go code and the protojson package are outside the
    repository: a message is the record its .proto file declares, and the
    encoder is a class whose law is the documented one, that decoding what was
    encoded gives the message back. [countable_codec] is an encoder that has
    the law, used where a theorem is evaluated. *)

From S2P Require Import Prelude GoStrings.
From Stdlib Require Import Ascii.

Module proto.

(** google.protobuf.Timestamp: seconds since the Unix epoch and nanoseconds. *)
Record Timestamp := mkTimestamp { ts_seconds : Z; ts_nanos : Z }.

(** timestamppb.New and AsTime, on nanoseconds since the Unix epoch. *)
Definition ts_new (t : Z) : Timestamp := mkTimestamp (t / Second) (t mod Second).
Definition ts_as_time (ts : Timestamp) : Z := ts_seconds ts * Second + ts_nanos ts.

(** proto/frood/v1/frood.proto *)
Record Identity := mkIdentity { id_service_name : string; id_project : string; id_version : string }.
Record ContractRef := mkContractRef { cr_subject : string; cr_version : string }.
Record ContractDescriptor := mkContractDescriptor {
  cd_emits : list ContractRef; cd_consumes : list ContractRef; cd_serves : list ContractRef
}.

(** proto/registry/v1/register.proto *)
Record Endpoint := mkEndpoint { ep_scheme : string; ep_address : string }.

Record RegisterRequest := mkRegisterRequest {
  rq_project : string;
  rq_identity : option Identity;
  rq_contracts : option ContractDescriptor;
  rq_endpoints : list Endpoint
}.

(** The config field is never set by the daemon. *)
Record RegisterResponse := mkRegisterResponse {
  rs_identity : option Identity; rs_endpoint : option Endpoint; rs_lease_ttl_seconds : Z
}.

Record Registration := mkRegistration {
  rg_project : string;
  rg_identity : option Identity;
  rg_contracts : option ContractDescriptor;
  rg_endpoint : option Endpoint;
  rg_registered_at : option Timestamp;
  rg_lease_expires_at : option Timestamp
}.

(** proto/registry/v1/project.proto *)
Inductive Kind := KIND_UNSPECIFIED | KIND_WATCHER | KIND_LISTENER.
Record Deploy := mkDeploy { dp_kind : string; dp_deployment : string; dp_command : list string }.
Record Project := mkProject {
  pj_name : string; pj_path : string; pj_essential : option bool; pj_deploy : option Deploy;
  pj_remote_url : option string; pj_kind : Kind
}.

(** proto/registry/v1/events.proto *)
Record NotRegistered := mkNotRegistered {
  nr_project : string; nr_endpoint : string; nr_code : string; nr_reason : string;
  nr_occurred_at : Timestamp
}.

(** proto/registry/v1/service.proto *)
Inductive ServiceType := SERVICE_TYPE_UNSPECIFIED | SERVICE_TYPE_SERVICE | SERVICE_TYPE_MODEL.
Record GitFacet := mkGitFacet {
  gf_clean : option bool; gf_branch : string; gf_unpushed : Z; gf_error : string
}.
Record BackupFacet := mkBackupFacet { bf_state : string }.
Record Service := mkService {
  sv_name : string; sv_type : ServiceType; sv_git : option GitFacet;
  sv_reachable : option bool; sv_backup : option BackupFacet; sv_endpoint : option Endpoint
}.

(** proto/resolve/v1/resolve.proto *)
Record ResolvedService := mkResolvedService { rv_name : string; rv_scheme : string; rv_address : string }.

(** proto/delight/v1/delight.proto *)
Record BackupEvent := mkBackupEvent {
  be_project_name : string; be_success : bool; be_bytes_before : Z; be_bytes_after : Z;
  be_duration_milliseconds : Z; be_timestamp : option Timestamp
}.

(** The generated getters answer the zero value on an absent message. *)
Definition get_address (e : option Endpoint) : string := from_option ep_address EmptyString e.
Definition get_scheme (e : option Endpoint) : string := from_option ep_scheme EmptyString e.
Definition get_service_name (i : option Identity) : string := from_option id_service_name EmptyString i.
Definition get_id_project (i : option Identity) : string := from_option id_project EmptyString i.
Definition get_emits (d : option ContractDescriptor) : list ContractRef := from_option cd_emits [] d.
Definition get_consumes (d : option ContractDescriptor) : list ContractRef := from_option cd_consumes [] d.
Definition get_serves (d : option ContractDescriptor) : list ContractRef := from_option cd_serves [] d.

Definition reg_address (r : Registration) : string := get_address (rg_endpoint r).

(** reg.LeaseExpiresAt = ts *)
Definition set_lease (ts : Timestamp) (r : Registration) : Registration :=
  mkRegistration (rg_project r) (rg_identity r) (rg_contracts r) (rg_endpoint r)
    (rg_registered_at r) (Some ts).

#[export] Instance Timestamp_eq_dec : EqDecision Timestamp.
Proof. solve_decision. Defined.
#[export] Instance Identity_eq_dec : EqDecision Identity.
Proof. solve_decision. Defined.
#[export] Instance ContractRef_eq_dec : EqDecision ContractRef.
Proof. solve_decision. Defined.
#[export] Instance ContractDescriptor_eq_dec : EqDecision ContractDescriptor.
Proof. solve_decision. Defined.
#[export] Instance Endpoint_eq_dec : EqDecision Endpoint.
Proof. solve_decision. Defined.
#[export] Instance Registration_eq_dec : EqDecision Registration.
Proof. solve_decision. Defined.
#[export] Instance ServiceType_eq_dec : EqDecision ServiceType.
Proof. solve_decision. Defined.
#[export] Instance NotRegistered_eq_dec : EqDecision NotRegistered.
Proof. solve_decision. Defined.

#[export] Instance Timestamp_countable : Countable Timestamp :=
  inj_countable' (fun t => (ts_seconds t, ts_nanos t)) (fun p => mkTimestamp p.1 p.2)
    ltac:(by intros []).
#[export] Instance Identity_countable : Countable Identity :=
  inj_countable' (fun i => (id_service_name i, id_project i, id_version i))
    (fun p => mkIdentity p.1.1 p.1.2 p.2) ltac:(by intros []).
#[export] Instance ContractRef_countable : Countable ContractRef :=
  inj_countable' (fun c => (cr_subject c, cr_version c)) (fun p => mkContractRef p.1 p.2)
    ltac:(by intros []).
#[export] Instance ContractDescriptor_countable : Countable ContractDescriptor :=
  inj_countable' (fun d => (cd_emits d, cd_consumes d, cd_serves d))
    (fun p => mkContractDescriptor p.1.1 p.1.2 p.2) ltac:(by intros []).
#[export] Instance Endpoint_countable : Countable Endpoint :=
  inj_countable' (fun e => (ep_scheme e, ep_address e)) (fun p => mkEndpoint p.1 p.2)
    ltac:(by intros []).
#[export] Instance Registration_countable : Countable Registration :=
  inj_countable'
    (fun r => (rg_project r, rg_identity r, rg_contracts r,
               (rg_endpoint r, rg_registered_at r, rg_lease_expires_at r)))
    (fun p => mkRegistration p.1.1.1 p.1.1.2 p.1.2 p.2.1.1 p.2.1.2 p.2.2)
    ltac:(by intros []).

(** * The encoder *)

(** protojson: encoding fails (on text that is not UTF-8, on a timestamp out
    of range), and so does decoding. *)
Class Codec (M : Type) := {
  marshal : M -> result string string;
  unmarshal : string -> result string M
}.

Class CodecLaws (M : Type) `{Codec M} := {
  unmarshal_marshal : forall m b, marshal m = Ok b -> unmarshal b = Ok m
}.

Fixpoint pos_to_str (p : positive) : string :=
  match p with
  | xH => EmptyString
  | xO q => String "0"%char (pos_to_str q)
  | xI q => String "1"%char (pos_to_str q)
  end.

Fixpoint str_to_pos (s : string) : positive :=
  match s with
  | EmptyString => xH
  | String c r => if Ascii.eqb c "1"%char then xI (str_to_pos r) else xO (str_to_pos r)
  end.

(** A codec for any countable message type. *)
Definition countable_codec (M : Type) `{Countable M} : Codec M := {|
  marshal m := Ok (pos_to_str (encode m));
  unmarshal s := match decode (str_to_pos s) with Some m => Ok m | None => Err s end
|}.

(** * Lemmas *)

Lemma ts_as_time_new t : ts_as_time (ts_new t) = t.
Proof.
  unfold ts_as_time, ts_new. cbn [ts_seconds ts_nanos].
  rewrite (Z.mul_comm (t / Second)). symmetry. apply Z.div_mod. done.
Qed.

Lemma str_to_pos_to_str p : str_to_pos (pos_to_str p) = p.
Proof. induction p; simpl; congruence. Qed.

Lemma countable_codec_laws (M : Type) `{Countable M} : @CodecLaws M (countable_codec M).
Proof.
  constructor. intros m b Hm. simpl in *. simplify_eq.
  by rewrite str_to_pos_to_str, decode_encode.
Qed.

Lemma set_lease_fields ts r :
  rg_project (set_lease ts r) = rg_project r /\ rg_identity (set_lease ts r) = rg_identity r
  /\ rg_contracts (set_lease ts r) = rg_contracts r /\ rg_endpoint (set_lease ts r) = rg_endpoint r
  /\ rg_registered_at (set_lease ts r) = rg_registered_at r
  /\ rg_lease_expires_at (set_lease ts r) = Some ts.
Proof. done. Qed.

#[export] Hint Rewrite ts_as_time_new : delight.

End proto.
