(* ===== verification/KV.v ===== *)
(** go.etcd.io/bbolt as the daemon uses it: one bucket per file, read and
    written in transactions.

    bbolt is outside the repository, so a bucket is a class of operations with
    the laws of its documentation: Get reads what Put wrote, the cursor visits
    every key once in byte order, Put refuses an empty key, a key over 32768
    bytes or a value over 2^31-2 bytes, and Delete of an absent key succeeds.
    db.Update runs a closure on the bucket and commits, and keeps nothing when
    the closure or the commit fails. [map_bucket] is a bucket that has the laws. *)

From S2P Require Import Prelude GoStrings.

Module bbolt.

Inductive dberr :=
| ErrKeyRequired
| ErrKeyTooLarge
| ErrValueTooLarge
| ErrTx (why : string).   (* begin, commit: closed database, disk *)

Definition MaxKeySize : Z := 32768.
Definition MaxValueSize : Z := 2 ^ 31 - 2.
Definition str_len (s : string) : Z := Z.of_nat (String.length s).

Class Bucket (B : Type) := {
  bkt_empty : B;
  bkt_get : B -> string -> option string;
  bkt_put : B -> string -> string -> result dberr B;
  bkt_delete : B -> string -> result dberr B;
  (** what a cursor visits from First to the end, and ForEach *)
  bkt_entries : B -> list (string * string)
}.

Class BucketLaws (B : Type) `{Bucket B} := {
  get_empty : forall k, bkt_get bkt_empty k = None;
  get_put : forall b k v b', bkt_put b k v = Ok b' ->
    forall k', bkt_get b' k' = if decide (k = k') then Some v else bkt_get b k';
  put_ok : forall b k v, k <> EmptyString -> str_len k <= MaxKeySize -> str_len v <= MaxValueSize ->
    is_ok (bkt_put b k v) = true;
  put_no_key : forall b v, bkt_put b EmptyString v = Err ErrKeyRequired;
  get_delete : forall b k b', bkt_delete b k = Ok b' ->
    forall k', bkt_get b' k' = if decide (k = k') then None else bkt_get b k';
  delete_ok : forall b k, is_ok (bkt_delete b k) = true;
  entries_get : forall b k v, (k, v) ∈ bkt_entries b <-> bkt_get b k = Some v;
  entries_keys : forall b, NoDup (bkt_entries b).*1;
  entries_sorted : forall b, StronglySorted String.le (bkt_entries b).*1
}.

(** What the store does to a transaction besides the closure. *)
Inductive txio := TxOk | TxBeginFails (why : string) | TxCommitFails (why : string).

Section transactions.
Context {B E A : Type} (lift : dberr -> E).

(** db.Update: the closure returns what it left in the captured variables
    ([a0] is what they hold before it runs) and the bucket or its error. *)
Definition update (io : txio) (a0 : A) (f : B -> A * result E B) (db : B) : B * A * option E :=
  match io with
  | TxBeginFails w => (db, a0, Some (lift (ErrTx w)))
  | _ =>
      match f db with
      | (a, Err e) => (db, a, Some e)
      | (a, Ok db') =>
          match io with
          | TxCommitFails w => (db, a, Some (lift (ErrTx w)))
          | _ => (db', a, None)
          end
      end
  end.

(** db.View: a read-only transaction, nothing to commit. *)
Definition view (io : txio) (a0 : A) (f : B -> A * option E) (db : B) : A * option E :=
  match io with
  | TxBeginFails w => (a0, Some (lift (ErrTx w)))
  | _ => f db
  end.

End transactions.

(** A Put and a Delete whose error becomes the closure's. *)
Definition lift_db {E A} (lift : dberr -> E) (r : result dberr A) : result E A :=
  match r with Ok a => Ok a | Err e => Err (lift e) end.

(** The loops over collected updates and keys: stop at the first error. *)
Fixpoint put_all {B} `{Bucket B} (b : B) (kvs : list (string * string)) : result dberr B :=
  match kvs with
  | [] => Ok b
  | (k, v) :: r => match bkt_put b k v with Ok b' => put_all b' r | Err e => Err e end
  end.

Fixpoint delete_all {B} `{Bucket B} (b : B) (ks : list string) : result dberr B :=
  match ks with
  | [] => Ok b
  | k :: r => match bkt_delete b k with Ok b' => delete_all b' r | Err e => Err e end
  end.

(** * A bucket *)

Definition entry_le (x y : string * string) : Prop := String.le x.1 y.1.

#[export] Instance entry_le_dec : RelDecision entry_le.
Proof. intros x y. unfold entry_le. apply _. Defined.
#[export] Instance entry_le_trans : Transitive entry_le.
Proof. intros x y z. unfold entry_le. apply transitivity. Qed.
#[export] Instance entry_le_total : Total entry_le.
Proof. intros x y. unfold entry_le. apply (total String.le). Qed.

Definition map_put (b : gmap string string) (k v : string) : result dberr (gmap string string) :=
  if decide (k = EmptyString) then Err ErrKeyRequired
  else if MaxKeySize <? str_len k then Err ErrKeyTooLarge
  else if MaxValueSize <? str_len v then Err ErrValueTooLarge
  else Ok (<[k := v]> b).

#[export] Instance map_bucket : Bucket (gmap string string) := {|
  bkt_empty := ∅;
  bkt_get b k := b !! k;
  bkt_put := map_put;
  bkt_delete b k := Ok (base.delete k b);
  bkt_entries b := merge_sort entry_le (map_to_list b)
|}.

(** * Lemmas *)

Lemma map_entries_perm (b : gmap string string) : bkt_entries b ≡ₚ map_to_list b.
Proof. apply merge_sort_Permutation. Qed.

Lemma sorted_keys (l : list (string * string)) :
  StronglySorted entry_le l -> StronglySorted String.le l.*1.
Proof.
  induction 1 as [|x l _ IH Hx]; simpl; constructor; [done|].
  apply Forall_fmap. exact Hx.
Qed.

#[export] Instance map_bucket_laws : BucketLaws (gmap string string).
Proof.
  constructor; simpl.
  - intros k. apply lookup_empty.
  - intros b k v b'. unfold map_put. destruct (decide (k = EmptyString)); [done|].
    do 2 (destruct (Z.ltb _ _); [done|]). intros [= <-] k'. case_decide as Hk.
    + subst. apply lookup_insert_eq.
    + by apply lookup_insert_ne.
  - intros b k v Hk H1 H2. unfold map_put. rewrite decide_False by done.
    by rewrite (proj2 (Z.ltb_ge _ _) H1), (proj2 (Z.ltb_ge _ _) H2).
  - done.
  - intros b k b' [= <-] k'. case_decide as Hk.
    + subst. apply lookup_delete_eq.
    + by apply lookup_delete_ne.
  - done.
  - intros b k v. rewrite (map_entries_perm b). apply elem_of_map_to_list.
  - intros b. rewrite (map_entries_perm b). apply NoDup_fst_map_to_list.
  - intros b. apply sorted_keys, StronglySorted_merge_sort; apply _.
Qed.

Section laws.
Context {B : Type} `{BucketLaws B}.

(** Writing back a list of distinct keys, each read once. *)
Lemma get_put_all kvs (b b' : B) :
  put_all b kvs = Ok b' -> NoDup kvs.*1 ->
  forall k, bkt_get b' k = match (list_to_map kvs : gmap string string) !! k with
                           | Some v => Some v | None => bkt_get b k end.
Proof.
  revert b. induction kvs as [|[k1 v1] kvs IH]; intros b Hp Hd k; simpl in *; [by simplify_eq|].
  destruct (bkt_put b k1 v1) as [b1|e] eqn:E; [|done].
  apply NoDup_cons in Hd as [Hn Hd]. rewrite (IH _ Hp Hd), (get_put _ _ _ _ E).
  destruct (decide (k1 = k)) as [<-|Hne].
  - rewrite lookup_insert_eq. by rewrite not_elem_of_list_to_map_1.
  - by rewrite lookup_insert_ne.
Qed.

Lemma get_delete_all ks (b b' : B) :
  delete_all b ks = Ok b' ->
  forall k, bkt_get b' k = if decide (k ∈ ks) then None else bkt_get b k.
Proof.
  revert b. induction ks as [|k1 ks IH]; intros b Hd k; cbn [delete_all] in Hd.
  - simplify_eq. destruct (decide (k ∈ [])) as [Hk|]; [by apply elem_of_nil in Hk|done].
  - destruct (bkt_delete b k1) as [b1|e] eqn:E; [|done].
    rewrite (IH _ Hd), (get_delete _ _ _ E).
    destruct (decide (k ∈ ks)); [by rewrite decide_True by set_solver|].
    destruct (decide (k1 = k)) as [<-|]; [by rewrite decide_True by set_solver|].
    by rewrite decide_False by set_solver.
Qed.

Lemma delete_all_ok ks (b : B) : is_ok (delete_all b ks) = true.
Proof.
  revert b. induction ks as [|k ks IH]; intros b; simpl; [done|].
  pose proof (delete_ok b k). destruct (bkt_delete b k); [apply IH|done].
Qed.

End laws.

#[export] Hint Resolve delete_all_ok : delight.

End bbolt.
