(* ===== verification/Registry.v ===== *)
(** pkg/registry: the live set of frood registrations and their leases.

    A registry is a bucket (KV.v) of encoded registrations (Proto.v), keyed by
    project. Every operation is the Go method with the transaction's outcome
    and the clock as inputs. [abs] reads a registry as a map from project to
    registration, leaving out values that do not decode, as every reader does. *)

From S2P Require Import Prelude GoStrings Proto KV.
Import proto bbolt.

Module registry.

Inductive regerr :=
| ErrEndpointHeld
| ErrMkdir (why : string)
| ErrOpen (why : string)
| ErrMarshal (why : string)
| ErrStore (e : dberr).

Definition DefaultLeaseTTL : Z := 90 * Second.
Definition WarmStartGrace : Z := 30 * Second.
Definition DefaultSweepInterval : Z := 15 * Second.

Section ops.
Context {B : Type} `{Bucket B} `{Codec Registration}.

Definition decode (v : string) : option Registration :=
  match unmarshal v with Ok r => Some r | Err _ => None end.

(** registry.Open: make the directory, open the file (which may hold the
    bucket of an earlier process), ensure the bucket. *)
Definition Open (mkdir : option string) (file : result string (option B)) (io : txio)
    : result regerr B :=
  match mkdir, file with
  | Some e, _ => Err (ErrMkdir e)
  | None, Err e => Err (ErrOpen e)
  | None, Ok f =>
      match update ErrStore io tt (fun f => (tt, Ok (Some (default bkt_empty f)))) f with
      | (_, _, Some e) => Err e
      | (f', _, None) => Ok (default bkt_empty f')
      end
  end.

Definition Put (io : txio) (reg : Registration) (db : B) : B * option regerr :=
  match marshal reg with
  | Err e => (db, Some (ErrMarshal e))
  | Ok b =>
      let '(db', _, err) :=
        update ErrStore io tt (fun bkt => (tt, lift_db ErrStore (bkt_put bkt (rg_project reg) b))) db in
      (db', err)
  end.

(** The cursor loop of Upsert: the first other key whose value decodes to a
    registration of the address. *)
Fixpoint find_holder (project addr : string) (kvs : list (string * string)) : option string :=
  match kvs with
  | [] => None
  | (k, v) :: r =>
      if String.eqb k project then find_holder project addr r
      else match unmarshal v with
           | Err _ => find_holder project addr r
           | Ok existing =>
               if String.eqb (reg_address existing) addr then Some k
               else find_holder project addr r
           end
  end.

Definition Upsert (io : txio) (reg : Registration) (db : B) : B * (string * option regerr) :=
  match marshal reg with
  | Err e => (db, (EmptyString, Some (ErrMarshal e)))
  | Ok b =>
      let addr := reg_address reg in
      let '(db', holder, err) :=
        update ErrStore io EmptyString
          (fun bkt =>
             match (if String.eqb addr EmptyString then None
                    else find_holder (rg_project reg) addr (bkt_entries bkt)) with
             | Some k => (k, Err ErrEndpointHeld)
             | None => (EmptyString, lift_db ErrStore (bkt_put bkt (rg_project reg) b))
             end) db in
      (db', (holder, err))
  end.

Definition Delete (io : txio) (project : string) (db : B) : B * option regerr :=
  let '(db', _, err) :=
    update ErrStore io tt (fun bkt => (tt, lift_db ErrStore (bkt_delete bkt project))) db in
  (db', err).

(** The closure's error (a value that does not decode) is dropped with the
    result it left nil. *)
Definition Get (io : txio) (project : string) (db : B) : option Registration :=
  fst (view ErrStore io None
    (fun bkt =>
       match bkt_get bkt project with
       | None => (None, None)
       | Some v => match unmarshal v with
                   | Err e => (None, Some (ErrMarshal e))
                   | Ok got => (Some got, None)
                   end
       end) db).

Definition project_le (x y : Registration) : Prop := String.le (rg_project x) (rg_project y).

#[export] Instance project_le_dec : RelDecision project_le.
Proof. intros x y. unfold project_le. apply _. Defined.

Definition List (io : txio) (db : B) : list Registration :=
  merge_sort project_le
    (fst (view ErrStore io [] (fun bkt => (omap (fun kv => decode kv.2) (bkt_entries bkt), None)) db)).

(** The scans of RefreshLease and ReconcileWarmStart: the selected values
    re-encoded under a new lease, [stamp i] being the [i]th one taken. *)
Fixpoint lease_updates (sel : Registration -> bool) (stamp : nat -> Timestamp)
    (kvs : list (string * string)) : result regerr (list (string * string)) :=
  match kvs with
  | [] => Ok []
  | (k, v) :: r =>
      match unmarshal v with
      | Err _ => lease_updates sel stamp r
      | Ok reg =>
          if sel reg
          then match marshal (set_lease (stamp 0%nat) reg) with
               | Err e => Err (ErrMarshal e)
               | Ok b =>
                   match lease_updates sel (fun i => stamp (S i)) r with
                   | Err e => Err e
                   | Ok us => Ok ((k, b) :: us)
                   end
               end
          else lease_updates sel stamp r
      end
  end.

Definition serves_name (name : string) (reg : Registration) : bool :=
  String.eqb (get_service_name (rg_identity reg)) name.

(** The clock is read once per match. *)
Definition RefreshLease (nows : nat -> Z) (name : string) (ttl : Z) (io : txio) (db : B)
    : B * (bool * option regerr) :=
  if String.eqb name EmptyString then (db, (false, None))
  else
    let '(db', refreshed, err) :=
      update ErrStore io false
        (fun bkt =>
           match lease_updates (serves_name name) (fun i => ts_new (nows i + ttl)) (bkt_entries bkt) with
           | Err e => (false, Err e)
           | Ok us =>
               (* refreshed is set after the first Put that succeeds *)
               (match us with
                | [] => false
                | (k, v) :: _ => is_ok (bkt_put bkt k v)
                end, lift_db ErrStore (put_all bkt us))
           end) db in
    (db', (refreshed, err)).

Definition is_due (now : Z) (reg : Registration) : bool :=
  match rg_lease_expires_at reg with
  | None => true
  | Some exp => negb (now <? ts_as_time exp)
  end.

Definition due (now : Z) (kv : string * string) : option (string * Registration) :=
  match decode kv.2 with
  | Some reg => if is_due now reg then Some (kv.1, reg) else None
  | None => None
  end.

Definition ExpireDue (now : Z) (io : txio) (db : B) : B * (list Registration * option regerr) :=
  let '(db', expired, err) :=
    update ErrStore io []
      (fun bkt =>
         let dues := omap (due now) (bkt_entries bkt) in
         (dues.*2, lift_db ErrStore (delete_all bkt dues.*1))) db in
  (db', (expired, err)).

Definition ReconcileWarmStart (now grace : Z) (io : txio) (db : B) : B * option regerr :=
  let until := ts_new (now + grace) in
  let '(db', _, err) :=
    update ErrStore io tt
      (fun bkt =>
         match lease_updates (fun _ => true) (fun _ => until) (bkt_entries bkt) with
         | Err e => (tt, Err e)
         | Ok us => (tt, lift_db ErrStore (put_all bkt us))
         end) db in
  (db', err).

(** * The abstract registry *)

Definition abs (db : B) : gmap string Registration :=
  list_to_map (omap (fun kv => r ← decode kv.2; Some (kv.1, r)) (bkt_entries db)).

(** No two projects hold one address, and a registration is its key's. *)
Definition exclusive (m : gmap string Registration) : Prop :=
  forall k1 k2 r1 r2, m !! k1 = Some r1 -> m !! k2 = Some r2 ->
    reg_address r1 = reg_address r2 -> reg_address r1 <> EmptyString -> k1 = k2.

Definition keyed (m : gmap string Registration) : Prop :=
  forall k r, m !! k = Some r -> rg_project r = k.

(** The calls the daemon makes (it never calls Put, which does not check). *)
Inductive op :=
| OpUpsert (reg : Registration)
| OpDelete (project : string)
| OpRefresh (nows : nat -> Z) (name : string) (ttl : Z)
| OpExpire (now : Z)
| OpWarmStart (now grace : Z).

Definition exec (io : txio) (o : op) (db : B) : B :=
  match o with
  | OpUpsert reg => fst (Upsert io reg db)
  | OpDelete p => fst (Delete io p db)
  | OpRefresh nows name ttl => fst (RefreshLease nows name ttl io db)
  | OpExpire now => fst (ExpireDue now io db)
  | OpWarmStart now grace => fst (ReconcileWarmStart now grace io db)
  end.

Definition run (os : list (txio * op)) (db : B) : B :=
  fold_left (fun db o => exec o.1 o.2 db) os db.

End ops.

(** * Lemmas *)

Section lemmas.
Context {B : Type} `{BucketLaws B} `{CodecLaws Registration}.
Implicit Types (db : B) (m : gmap string Registration).

Lemma decode_marshal reg b : marshal reg = Ok b -> decode b = Some reg.
Proof. intros E. unfold decode. by rewrite (unmarshal_marshal _ _ E). Qed.

Lemma abs_lookup db k : abs db !! k = bkt_get db k ≫= decode.
Proof.
  unfold abs.
  set (f := fun kv : string * string => r ← decode kv.2; Some (kv.1, r)).
  assert (Hf : forall kv x, f kv = Some x -> x.1 = kv.1).
  { intros [k' v] x. unfold f. simpl. by destruct (decode v); intros [= <-]. }
  pose proof (NoDup_omap_keys f (bkt_entries db) Hf (entries_keys db)) as Hd.
  destruct (bkt_get db k ≫= decode) as [r|] eqn:E.
  - apply elem_of_list_to_map_1; [done|].
    apply bind_Some in E as (v & Hg & Hr). apply entries_get in Hg.
    apply list_elem_of_omap. exists (k, v). split; [done|]. unfold f. simpl. by rewrite Hr.
  - apply not_elem_of_list_to_map_1. intros Hk.
    apply list_elem_of_fmap in Hk as ([k' r] & -> & Hin).
    destruct (elem_of_omap_keys f _ _ _ Hf Hin) as (v & Hv & Er).
    apply entries_get in Hv. simpl in E. rewrite Hv in E. simpl in E.
    unfold f in Er. simpl in Er. by rewrite E in Er.
Qed.

Lemma abs_put db k v db' :
  bkt_put db k v = Ok db' ->
  abs db' = match decode v with Some r => <[k := r]> (abs db) | None => base.delete k (abs db) end.
Proof.
  intros E. apply map_eq. intros k'. rewrite abs_lookup, (get_put _ _ _ _ E).
  case_decide as Hk; simpl.
  - subst. destruct (decode v); by rewrite ?lookup_insert_eq, ?lookup_delete_eq.
  - destruct (decode v); by rewrite ?lookup_insert_ne, ?lookup_delete_ne, abs_lookup.
Qed.

Lemma abs_delete_all db ks db' k :
  delete_all db ks = Ok db' ->
  abs db' !! k = if decide (k ∈ ks) then None else abs db !! k.
Proof.
  intros E. rewrite !abs_lookup, (get_delete_all _ _ _ E). by case_decide.
Qed.

(** ** The holder of an address *)

Lemma find_holder_Some p a kvs k :
  find_holder p a kvs = Some k ->
  exists v r, (k, v) ∈ kvs /\ k <> p /\ decode v = Some r /\ reg_address r = a.
Proof.
  induction kvs as [|[k1 v1] kvs IH]; simpl; [done|].
  intros Hf. destruct (String.eqb_spec k1 p).
  { destruct (IH Hf) as (v & r & ? & ?). exists v, r. split; [by right|done]. }
  destruct (unmarshal v1) as [r1|e] eqn:E; [destruct (String.eqb_spec (reg_address r1) a)|].
  - simplify_eq. exists v1, r1. split_and!; [by left|done| |done]. unfold decode. by rewrite E.
  - destruct (IH Hf) as (v & r & ? & ?). exists v, r. split; [by right|done].
  - destruct (IH Hf) as (v & r & ? & ?). exists v, r. split; [by right|done].
Qed.

Lemma find_holder_None p a kvs k v r :
  find_holder p a kvs = None -> (k, v) ∈ kvs -> decode v = Some r -> reg_address r = a -> k = p.
Proof.
  induction kvs as [|[k1 v1] kvs IH]; simpl; intros Hf Hin Hd Ha; [by apply elem_of_nil in Hin|].
  apply elem_of_cons in Hin as [[= <- <-]|Hin].
  - destruct (String.eqb_spec k p); [done|]. unfold decode in Hd.
    destruct (unmarshal v); simplify_eq. by rewrite String.eqb_refl in Hf.
  - apply IH; [|done..]. destruct (String.eqb k1 p); [done|].
    destruct (unmarshal v1) as [r1|]; [|done]. by destruct (String.eqb (reg_address r1) a).
Qed.

(** ** Re-stamping *)

(** Every selected registration has its lease replaced; the rest is as it was. *)
Definition restamped (sel : Registration -> bool) (stamp : nat -> Timestamp)
    (m m' : gmap string Registration) : Prop :=
  forall k, match m !! k with
            | Some r => if sel r then exists i, m' !! k = Some (set_lease (stamp i) r)
                        else m' !! k = Some r
            | None => m' !! k = None
            end.

Lemma lease_updates_keys sel stamp kvs us :
  lease_updates sel stamp kvs = Ok us ->
  us.*1 = (filter (fun kv => Is_true (from_option sel false (decode kv.2))) kvs).*1.
Proof.
  revert stamp us. induction kvs as [|[k v] kvs IH]; simpl; intros stamp us E; [by simplify_eq|].
  rewrite filter_cons. simpl.
  destruct (unmarshal v) as [r|] eqn:Eu;
    [|rewrite decide_False by (unfold decode; rewrite Eu; intros []); by eauto].
  destruct (sel r) eqn:Es;
    [|rewrite decide_False by (unfold decode; rewrite Eu; simpl; rewrite Es; intros []); by eauto].
  rewrite decide_True by (unfold decode; rewrite Eu; simpl; rewrite Es; exact I).
  destruct (marshal _); [|done].
  destruct (lease_updates sel _ kvs) as [us'|] eqn:E'; [|done]. simplify_eq.
  rewrite !fmap_cons. f_equal. exact (IH _ _ E').
Qed.

Lemma lease_updates_value sel stamp kvs us k b :
  lease_updates sel stamp kvs = Ok us -> (k, b) ∈ us ->
  exists i v r, (k, v) ∈ kvs /\ decode v = Some r /\ sel r = true
                /\ decode b = Some (set_lease (stamp i) r).
Proof.
  revert stamp us. induction kvs as [|[k1 v1] kvs IH]; simpl; intros stamp us E Hin.
  { simplify_eq. by apply elem_of_nil in Hin. }
  assert (Hskip : forall stamp' us', lease_updates sel stamp' kvs = Ok us' -> (k, b) ∈ us' ->
    exists i v r, (k, v) ∈ (k1, v1) :: kvs /\ decode v = Some r /\ sel r = true
                  /\ decode b = Some (set_lease (stamp' i) r)).
  { intros stamp' us' E' Hin'. destruct (IH _ _ E' Hin') as (i & v & r & ? & ?).
    exists i, v, r. split; [by right|done]. }
  destruct (unmarshal v1) as [r1|] eqn:Eu; [|by eauto].
  destruct (sel r1) eqn:Es; [|by eauto].
  destruct (marshal _) as [b1|] eqn:Em; [|done].
  destruct (lease_updates sel _ kvs) as [us'|] eqn:E'; [|done]. simplify_eq.
  apply elem_of_cons in Hin as [[= -> ->]|Hin].
  - exists 0%nat, v1, r1. split_and!; [by left| |done|by apply decode_marshal].
    unfold decode. by rewrite Eu.
  - destruct (Hskip _ _ E' Hin) as (i & Hi). by exists (S i).
Qed.

Lemma lease_updates_restamped sel stamp db us db' :
  lease_updates sel stamp (bkt_entries db) = Ok us -> put_all db us = Ok db' ->
  restamped sel stamp (abs db) (abs db').
Proof.
  intros Eu Ep k. pose proof (lease_updates_keys _ _ _ _ Eu) as Hk.
  assert (Hd : NoDup us.*1).
  { rewrite Hk. eapply sublist_NoDup; [apply entries_keys|]. apply fmap_sublist, sublist_filter. }
  rewrite !abs_lookup, (get_put_all _ _ _ Ep Hd).
  destruct (list_to_map us !! k) as [b|] eqn:El; simpl.
  - apply elem_of_list_to_map_2 in El.
    destruct (lease_updates_value _ _ _ _ _ _ Eu El) as (i & v & r & Hin & Hv & Hs & Hb).
    apply entries_get in Hin. rewrite Hin. simpl. rewrite Hv, Hs. eauto.
  - apply not_elem_of_list_to_map_2 in El. rewrite Hk in El.
    destruct (bkt_get db k) as [v|] eqn:Eg; simpl; [|done].
    destruct (decode v) as [r|] eqn:Ev; [|done]. destruct (sel r) eqn:Es; [|done].
    destruct El. apply list_elem_of_fmap. exists (k, v). split; [done|].
    apply list_elem_of_filter. simpl. rewrite Ev. simpl. rewrite Es. split; [exact I|].
    by apply entries_get.
Qed.

(** ** Each operation on the abstract registry *)

(** No other project holds the registration's address. *)
Definition free (m : gmap string Registration) (reg : Registration) : Prop :=
  forall k r, m !! k = Some r -> k <> rg_project reg ->
    reg_address r = reg_address reg -> reg_address reg = EmptyString.

(** A registration the store takes. *)
Definition storable (reg : Registration) : Prop :=
  exists b, marshal reg = Ok b /\ rg_project reg <> EmptyString
            /\ str_len (rg_project reg) <= MaxKeySize /\ str_len b <= MaxValueSize.

Definition Upsert_holder (reg : Registration) (db : B) : option string :=
  if String.eqb (reg_address reg) EmptyString then None
  else find_holder (rg_project reg) (reg_address reg) (bkt_entries db).

Lemma Upsert_holder_Some reg db k :
  Upsert_holder reg db = Some k ->
  reg_address reg <> EmptyString /\ k <> rg_project reg
  /\ exists r, abs db !! k = Some r /\ reg_address r = reg_address reg.
Proof.
  unfold Upsert_holder. destruct (String.eqb_spec (reg_address reg) EmptyString); [done|].
  intros (v & r & Hin & Hk & Hv & Ha)%find_holder_Some. split_and!; [done..|].
  exists r. split; [|done]. rewrite abs_lookup. apply entries_get in Hin. by rewrite Hin.
Qed.

Lemma Upsert_holder_None reg db : Upsert_holder reg db = None -> free (abs db) reg.
Proof.
  unfold Upsert_holder, free. intros Hf k r Hl Hk Ha.
  destruct (String.eqb_spec (reg_address reg) EmptyString); [done|]. destruct Hk.
  rewrite abs_lookup in Hl. apply bind_Some in Hl as (v & Hg & Hv). apply entries_get in Hg.
  by eapply find_holder_None.
Qed.

Lemma Upsert_eq io reg db b :
  marshal reg = Ok b ->
  Upsert io reg db =
    match io with
    | TxBeginFails w => (db, (EmptyString, Some (ErrStore (ErrTx w))))
    | _ => match Upsert_holder reg db with
           | Some k => (db, (k, Some ErrEndpointHeld))
           | None => match bkt_put db (rg_project reg) b, io with
                     | Err e, _ => (db, (EmptyString, Some (ErrStore e)))
                     | Ok _, TxCommitFails w => (db, (EmptyString, Some (ErrStore (ErrTx w))))
                     | Ok db', _ => (db', (EmptyString, None))
                     end
           end
    end.
Proof.
  intros Em. unfold Upsert. rewrite Em. fold (Upsert_holder reg db).
  destruct io; simpl; fold (Upsert_holder reg db); try done;
    destruct (Upsert_holder reg db); simpl; try done; by destruct (bkt_put db _ b).
Qed.

Lemma Upsert_abs io reg db db' holder :
  Upsert io reg db = (db', (holder, None)) ->
  io = TxOk /\ holder = EmptyString /\ free (abs db) reg /\ rg_project reg <> EmptyString
  /\ abs db' = <[rg_project reg := reg]> (abs db).
Proof.
  destruct (marshal reg) as [b|e] eqn:Em; [|by unfold Upsert; rewrite Em].
  rewrite (Upsert_eq _ _ _ b Em). destruct io; [|done|];
    (destruct (Upsert_holder reg db) as [k|] eqn:Eh; [done|]);
    (destruct (bkt_put db (rg_project reg) b) as [db1|] eqn:Ep; [|done]); [|done].
  intros [= <- <-]. split_and!; [done..|by apply Upsert_holder_None| |].
  - intros Hp. rewrite Hp, put_no_key in Ep. done.
  - rewrite (abs_put _ _ _ _ Ep). by rewrite (decode_marshal _ _ Em).
Qed.

Lemma Upsert_storable reg db :
  storable reg -> free (abs db) reg -> exists db', Upsert TxOk reg db = (db', (EmptyString, None)).
Proof.
  intros (b & Em & Hp & Hl & Hb) Hf. rewrite (Upsert_eq _ _ _ b Em).
  destruct (Upsert_holder reg db) as [k|] eqn:Eh.
  - apply Upsert_holder_Some in Eh as (Ha & Hk & r & Hr & Har). by destruct Ha; eapply Hf.
  - pose proof (put_ok db _ _ Hp Hl Hb) as Hok.
    destruct (bkt_put db (rg_project reg) b) as [db1|]; [eauto|done].
Qed.

Lemma update_err {E A} (lift : dberr -> E) io (a0 : A) f (db : B) db' a e :
  update lift io a0 f db = (db', a, Some e) -> db' = db.
Proof.
  unfold update. destruct io; [|by intros [= <- <- <-]|];
    (destruct (f db) as [a1 [d|e1]]); by intros [= <- <- <-].
Qed.

Lemma update_none {E A} (lift : dberr -> E) io (a0 : A) f (db : B) db' a :
  update lift io a0 f db = (db', a, None) -> io = TxOk /\ f db = (a, Ok db').
Proof.
  unfold update. destruct io; [|done|];
    (destruct (f db) as [a1 [d|e1]]); by intros [= <- <-].
Qed.

Lemma lift_db_ok {E A} (lift : dberr -> E) (r : result dberr A) a :
  lift_db lift r = Ok a -> r = Ok a.
Proof. destruct r; simpl; congruence. Qed.

Lemma RefreshLease_abs nows name ttl io db db' refreshed :
  RefreshLease nows name ttl io db = (db', (refreshed, None)) ->
  restamped (fun r => negb (String.eqb name EmptyString) && serves_name name r)
    (fun i => ts_new (nows i + ttl)) (abs db) (abs db')
  /\ (refreshed = true <-> name <> EmptyString
       /\ exists k r, abs db !! k = Some r /\ get_service_name (rg_identity r) = name).
Proof.
  unfold RefreshLease. destruct (String.eqb_spec name EmptyString) as [->|Hn]; simpl.
  { intros [= <- <-]. split; [|naive_solver]. intros k. by destruct (abs db !! k). }
  destruct (update _ _ _ _ _) as [[db1 fl] [e|]] eqn:Eu; [done|]. intros [= -> ->].
  apply update_none in Eu as [_ Eu].
  destruct (lease_updates _ _ _) as [us|] eqn:El; [|done]. injection Eu as <- Hop%lift_db_ok.
  split; [by eapply lease_updates_restamped|].
  pose proof (lease_updates_keys _ _ _ _ El) as Hk.
  destruct us as [|[k v] us].
  - split; [done|]. intros (_ & k & r & Hl & Hs). exfalso.
    rewrite abs_lookup in Hl. apply bind_Some in Hl as (v & Hg & Hv). apply entries_get in Hg.
    symmetry in Hk. apply fmap_nil_inv in Hk.
    assert ((k, v) ∈ @nil (string * string)) as Hin; [|by apply elem_of_nil in Hin].
    rewrite <-Hk. apply list_elem_of_filter. simpl. rewrite Hv. split; [|done].
    apply Is_true_true. simpl. by apply String.eqb_eq.
  - cbn [put_all] in Hop. destruct (bkt_put db k v); [|done]. simpl. split; [|done].
    intros _. split; [done|].
    destruct (lease_updates_value _ _ _ _ k v El) as (i & w & r & Hin & Hw & Hs & _); [by left|].
    exists k, r. apply entries_get in Hin. rewrite abs_lookup, Hin. split; [done|].
    by apply String.eqb_eq.
Qed.

Lemma due_key now kv x : due now kv = Some x -> x.1 = kv.1.
Proof.
  unfold due. destruct (decode kv.2); [|done]. destruct (is_due now _); [|done].
  by intros [= <-].
Qed.

Lemma due_abs now db k r :
  (k, r) ∈ omap (due now) (bkt_entries db) <-> abs db !! k = Some r /\ is_due now r = true.
Proof.
  rewrite abs_lookup. split.
  - intros Hin. destruct (elem_of_omap_keys (due now) _ _ _ (due_key now) Hin) as (v & Hv & E).
    apply entries_get in Hv. rewrite Hv. unfold due in E. simpl in *.
    destruct (decode v); [|done]. destruct (is_due now _) eqn:?; [|done]. by simplify_eq.
  - intros [(v & Hg & Hv)%bind_Some Hd]. apply entries_get in Hg.
    apply list_elem_of_omap. exists (k, v). split; [done|]. unfold due. simpl. by rewrite Hv, Hd.
Qed.

Lemma ExpireDue_abs now io db db' expired :
  ExpireDue now io db = (db', (expired, None)) ->
  expired = (omap (due now) (bkt_entries db)).*2
  /\ forall k, abs db' !! k = match abs db !! k with
                              | Some r => if is_due now r then None else Some r
                              | None => None
                              end.
Proof.
  unfold ExpireDue. destruct (update _ _ _ _ _) as [[db1 ex] [e|]] eqn:Eu; [done|].
  intros [= -> ->]. apply update_none in Eu as [_ Eu].
  injection Eu as <- Hop%lift_db_ok. split; [done|].
  intros k. rewrite (abs_delete_all _ _ _ k Hop).
  destruct (abs db !! k) as [r|] eqn:El; [|by case_decide].
  destruct (is_due now r) eqn:Ed.
  - rewrite decide_True; [done|]. apply list_elem_of_fmap. exists (k, r). split; [done|].
    by apply due_abs.
  - rewrite decide_False; [done|]. intros ([k' r'] & -> & Hin)%list_elem_of_fmap.
    apply due_abs in Hin as [? ?]. simpl in *. congruence.
Qed.

Lemma ExpireDue_ok now db : snd (snd (ExpireDue now TxOk db)) = None.
Proof.
  unfold ExpireDue. simpl. pose proof (delete_all_ok (omap (due now) (bkt_entries db)).*1 db).
  by destruct (delete_all db _).
Qed.

Lemma ReconcileWarmStart_abs now grace io db db' :
  ReconcileWarmStart now grace io db = (db', None) ->
  restamped (fun _ => true) (fun _ => ts_new (now + grace)) (abs db) (abs db').
Proof.
  unfold ReconcileWarmStart. destruct (update _ _ _ _ _) as [[db1 ex] [e|]] eqn:Eu; [done|].
  intros [= ->]. apply update_none in Eu as [_ Eu].
  destruct (lease_updates _ _ _) as [us|] eqn:El; [|done]. injection Eu as _ Hop%lift_db_ok.
  by eapply lease_updates_restamped.
Qed.

(** ** What every operation but Upsert does to the claims *)

(** The registrations of [m'] are registrations of [m], lease aside. *)
Definition claims_in (m m' : gmap string Registration) : Prop :=
  forall k r', m' !! k = Some r' -> exists r, m !! k = Some r
    /\ rg_project r = rg_project r' /\ reg_address r = reg_address r'.

Lemma claims_in_refl m : claims_in m m.
Proof. intros k r' Hk. eauto. Qed.

Lemma restamped_claims sel stamp m m' : restamped sel stamp m m' -> claims_in m m'.
Proof.
  intros Hr k r' Hk. specialize (Hr k). destruct (m !! k) as [r|]; [|congruence].
  exists r. split; [done|]. destruct (sel r).
  - destruct Hr as [i Hi]. by simplify_eq.
  - by simplify_eq.
Qed.

Definition sound (m : gmap string Registration) : Prop :=
  keyed m /\ exclusive m /\ m !! EmptyString = None.

Lemma claims_sound m m' : claims_in m m' -> sound m -> sound m'.
Proof.
  intros Hc (Hk & He & Hz). split_and!.
  - intros k r' Hl. destruct (Hc _ _ Hl) as (r & Hr & <- & _). by apply Hk.
  - intros k1 k2 r1 r2 L1 L2 Ha Hn.
    destruct (Hc _ _ L1) as (s1 & Hs1 & _ & E1), (Hc _ _ L2) as (s2 & Hs2 & _ & E2).
    apply (He k1 k2 s1 s2); congruence.
  - destruct (m' !! EmptyString) as [r'|] eqn:El; [|done].
    destruct (Hc _ _ El) as (r & Hr & _). congruence.
Qed.

Lemma insert_sound m reg :
  free m reg -> rg_project reg <> EmptyString -> sound m -> sound (<[rg_project reg := reg]> m).
Proof.
  intros Hf Hp (Hk & He & Hz). split_and!.
  - intros k r. rewrite lookup_insert_Some. intros [[<- <-]|[_ Hl]]; [done|by apply Hk].
  - intros k1 k2 r1 r2. rewrite !lookup_insert_Some.
    intros [[<- <-]|[N1 L1]] [[<- <-]|[N2 L2]] Ha Hn; [done| | |by eapply He].
    + destruct Hn. by eapply Hf.
    + destruct Hn. rewrite Ha. by eapply Hf.
  - by rewrite lookup_insert_ne.
Qed.

Lemma Delete_abs io p db db' :
  Delete io p db = (db', None) -> abs db' = base.delete p (abs db).
Proof.
  unfold Delete. destruct (update _ _ _ _ _) as [[db1 u] [e|]] eqn:Eu; [done|].
  intros [= ->]. apply update_none in Eu as [_ Eu]. injection Eu as _ Hop%lift_db_ok.
  apply map_eq. intros k. rewrite abs_lookup, (get_delete _ _ _ Hop). case_decide as Hk; simpl.
  - subst. by rewrite lookup_delete_eq.
  - by rewrite lookup_delete_ne, abs_lookup.
Qed.

(** A failed operation leaves the store as it was. *)
Lemma Upsert_failed io reg db db' h e : Upsert io reg db = (db', (h, Some e)) -> db' = db.
Proof.
  unfold Upsert. destruct (marshal reg); [|by intros [= <-]].
  destruct (update _ _ _ _ _) as [[? ?] ?] eqn:Eu. intros [= -> -> ->]. by apply update_err in Eu.
Qed.

Lemma RefreshLease_failed nows name ttl io db db' f e :
  RefreshLease nows name ttl io db = (db', (f, Some e)) -> db' = db.
Proof.
  unfold RefreshLease. destruct (String.eqb name EmptyString); [done|].
  destruct (update _ _ _ _ _) as [[? ?] ?] eqn:Eu. intros [= -> -> ->]. by apply update_err in Eu.
Qed.

Lemma ExpireDue_failed now io db db' l e :
  ExpireDue now io db = (db', (l, Some e)) -> db' = db.
Proof.
  unfold ExpireDue. destruct (update _ _ _ _ _) as [[? ?] ?] eqn:Eu.
  intros [= -> -> ->]. by apply update_err in Eu.
Qed.

Lemma exec_sound io o db : sound (abs db) -> sound (abs (exec io o db)).
Proof.
  destruct o as [reg|p|nows name ttl|now|now grace]; cbn [exec]; intros Hs.
  - destruct (Upsert io reg db) as [db' [h [e|]]] eqn:E; simpl.
    + by rewrite (Upsert_failed _ _ _ _ _ _ E).
    + apply Upsert_abs in E as (_ & _ & Hf & Hp & ->). by apply insert_sound.
  - destruct (Delete io p db) as [db' [e|]] eqn:E; simpl.
    + unfold Delete in E. destruct (update _ _ _ _ _) as [[? ?] ?] eqn:Eu.
      injection E as -> ->. apply update_err in Eu. by subst.
    + apply Delete_abs in E as ->. eapply claims_sound; [|done].
      intros k r' Hl. apply lookup_delete_Some in Hl as [_ Hl]. eauto.
  - destruct (RefreshLease nows name ttl io db) as [db' [f [e|]]] eqn:E; simpl.
    + by rewrite (RefreshLease_failed _ _ _ _ _ _ _ _ E).
    + apply RefreshLease_abs in E as [Hr _]. by eapply claims_sound, Hs; eapply restamped_claims.
  - destruct (ExpireDue now io db) as [db' [l [e|]]] eqn:E; simpl.
    + by rewrite (ExpireDue_failed _ _ _ _ _ _ E).
    + apply ExpireDue_abs in E as [_ Hl]. eapply claims_sound, Hs.
      intros k r' Hk. rewrite Hl in Hk. destruct (abs db !! k) as [r|]; [|done].
      destruct (is_due now r); [done|]. simplify_eq. eauto.
  - destruct (ReconcileWarmStart now grace io db) as [db' [e|]] eqn:E; simpl.
    + unfold ReconcileWarmStart in E. destruct (update _ _ _ _ _) as [[? ?] ?] eqn:Eu.
      injection E as -> ->. apply update_err in Eu. by subst.
    + apply ReconcileWarmStart_abs in E. by eapply claims_sound, Hs; eapply restamped_claims.
Qed.

Lemma abs_empty : abs (bkt_empty : B) = ∅.
Proof. apply map_eq. intros k. rewrite abs_lookup, get_empty. by rewrite lookup_empty. Qed.

Lemma run_sound os db : sound (abs db) -> sound (abs (run os db)).
Proof.
  revert db. induction os as [|o os IH]; intros db Hs; [done|].
  apply (IH (exec o.1 o.2 db)). by apply exec_sound.
Qed.

Lemma List_perm db : List TxOk db ≡ₚ (map_to_list (abs db)).*2.
Proof.
  unfold List. rewrite merge_sort_Permutation. simpl. unfold abs.
  set (f := fun kv : string * string => r ← decode kv.2; Some (kv.1, r)).
  assert (Hf : forall kv x, f kv = Some x -> x.1 = kv.1).
  { intros [k' v] x. unfold f. simpl. by destruct (decode v); intros [= <-]. }
  rewrite (map_to_list_to_map (omap f (bkt_entries db))).
  2: { apply NoDup_omap_keys; [done|apply entries_keys]. }
  clear Hf. induction (bkt_entries db) as [|[k v] l IH]; simpl; [done|].
  unfold f at 1. simpl.
  destruct (decode v) as [r|]; simpl; [exact (perm_skip r IH)|exact IH].
Qed.

#[export] Instance project_le_trans : Transitive project_le.
Proof. intros x y z. unfold project_le. apply transitivity. Qed.
#[export] Instance project_le_total : Total project_le.
Proof. intros x y. unfold project_le. apply (total String.le). Qed.

End lemmas.

(** * Properties *)

Section properties.
Context {B : Type} `{BucketLaws B} `{CodecLaws Registration}.
Implicit Types (db : B).

(** C26. Upsert is one atomic, collision-checked write: it succeeds only when no
    other project holds the address, and then the registry is the old one with
    the registration under its project; it answers ErrEndpointHeld only with the
    name of another project that does hold the address; and after any error the
    store is as it was. *)
Theorem Upsert_refines io reg db :
  let '(db', (holder, err)) := Upsert io reg db in
  match err with
  | None => free (abs db) reg /\ abs db' = <[rg_project reg := reg]> (abs db) /\ holder = EmptyString
  | Some ErrEndpointHeld =>
      db' = db /\ holder <> rg_project reg /\ reg_address reg <> EmptyString
      /\ exists r, abs db !! holder = Some r /\ reg_address r = reg_address reg
  | Some _ => db' = db /\ holder = EmptyString
  end.
Proof.
  destruct (Upsert io reg db) as [db' [holder [e|]]] eqn:E.
  - pose proof (Upsert_failed _ _ _ _ _ _ E) as ->.
    destruct (marshal reg) as [b|m] eqn:Em.
    + rewrite (Upsert_eq _ _ _ b Em) in E. destruct io; [|by simplify_eq|];
        (destruct (Upsert_holder reg db) as [k|] eqn:Eh;
          [simplify_eq; apply Upsert_holder_Some in Eh as (? & ? & ?); by split_and!|]);
        destruct (bkt_put db (rg_project reg) b); by simplify_eq.
    + unfold Upsert in E. rewrite Em in E. by simplify_eq.
  - apply Upsert_abs in E as (_ & -> & Hf & _ & ->). done.
Qed.

(** A registration that can be stored, claimed in a transaction that can
    commit, is refused exactly when a different project holds its address; when
    it is not refused, Get returns it. *)
Lemma Upsert_then_Get reg db :
  storable reg ->
  let '(db', (_, err)) := Upsert TxOk reg db in
  (err = None <-> free (abs db) reg)
  /\ (err <> None -> err = Some ErrEndpointHeld)
  /\ (err = None -> Get TxOk (rg_project reg) db' = Some reg).
Proof.
  intros (b & Em & Hp & Hl & Hb). rewrite (Upsert_eq _ _ _ b Em).
  destruct (Upsert_holder reg db) as [k|] eqn:Eh.
  - apply Upsert_holder_Some in Eh as (Ha & Hk & r & Hr & Har). split_and!; try done.
    split; [done|]. intros Hf. by destruct Ha; eapply Hf.
  - pose proof (put_ok db _ _ Hp Hl Hb) as Hok.
    destruct (bkt_put db (rg_project reg) b) as [db1|] eqn:Ep; [|done].
    split_and!; [|done|].
    + split; [|done]. intros _. by apply Upsert_holder_None.
    + intros _. unfold Get. simpl. rewrite (get_put _ _ _ _ Ep), decide_True by done.
      by rewrite (unmarshal_marshal _ _ Em).
Qed.

(** C2. Whatever the daemon does to a fresh registry (registrations, heartbeats,
    expiry, warm starts and deletions in any order, with any transaction failing),
    no two projects ever hold one address, and every registration is stored under
    its own project. *)
Theorem registry_exclusive os :
  sound (abs (run os (bkt_empty : B))).
Proof.
  apply run_sound. rewrite abs_empty. split_and!; [intros ??..|]; rewrite ?lookup_empty; done.
Qed.

(** A heartbeat refreshes and never creates: it replaces the lease of the
    registrations whose identity has the service name by [ttl] from now, leaves
    every other one as it was, adds none, and reports whether there was one; a
    failed heartbeat changes nothing. *)
Lemma RefreshLease_only_refreshes nows name ttl io db :
  let '(db', (refreshed, err)) := RefreshLease nows name ttl io db in
  match err with
  | Some _ => db' = db
  | None =>
      restamped (fun r => negb (String.eqb name EmptyString) && serves_name name r)
        (fun i => ts_new (nows i + ttl)) (abs db) (abs db')
      /\ (refreshed = true <-> name <> EmptyString
           /\ exists k r, abs db !! k = Some r /\ get_service_name (rg_identity r) = name)
  end.
Proof.
  destruct (RefreshLease nows name ttl io db) as [db' [f [e|]]] eqn:E.
  - by eapply RefreshLease_failed.
  - by apply RefreshLease_abs in E.
Qed.

(** The sweep removes exactly the registrations whose lease is absent or has
    run out, and returns exactly those it removed; it fails only when the
    transaction does, and then removes none. *)
Lemma ExpireDue_exact now io db :
  let '(db', (expired, err)) := ExpireDue now io db in
  match err with
  | Some _ => db' = db /\ io <> TxOk
  | None =>
      abs db' = filter (fun kr => is_due now kr.2 = false) (abs db)
      /\ (forall r, r ∈ expired <-> exists k, abs db !! k = Some r /\ is_due now r = true)
  end.
Proof.
  destruct (ExpireDue now io db) as [db' [ex [e|]]] eqn:E.
  - split; [by eapply ExpireDue_failed|]. intros ->.
    pose proof (ExpireDue_ok now db) as Ho. by rewrite E in Ho.
  - apply ExpireDue_abs in E as [-> Hl]. split.
    + apply map_eq. intros k. rewrite Hl, map_lookup_filter.
      destruct (abs db !! k) as [r|]; simpl; [|done]. by destruct (is_due now r).
    + intros r. rewrite list_elem_of_fmap. split.
      * intros ([k r'] & -> & Hin%due_abs). eauto.
      * intros (k & Hk). exists (k, r). split; [done|]. by apply due_abs.
Qed.

(** C36. A warm start gives every loaded registration exactly the grace: a sweep
    before the grace is over removes none, and one after it removes those, and
    only those, whose heartbeat did not come in between. *)
Theorem warm_start_grace now grace name ttl nows db db1 db2 fl :
  ReconcileWarmStart now grace TxOk db = (db1, None) ->
  RefreshLease nows name ttl TxOk db1 = (db2, (fl, None)) -> name <> EmptyString ->
  dom (abs db1) = dom (abs db)
  /\ (forall t, t < now + grace -> abs (fst (ExpireDue t TxOk db1)) = abs db1)
  /\ (forall t, now + grace <= t -> (forall i, t < nows i + ttl) ->
        abs (fst (ExpireDue t TxOk db2))
        = filter (fun kr => get_service_name (rg_identity kr.2) = name) (abs db2)).
Proof.
  intros Hw%ReconcileWarmStart_abs [Hr _]%RefreshLease_abs Hn.
  assert (Hx : forall t (d : B), exists d' ex, ExpireDue t TxOk d = (d', (ex, None))).
  { intros t d. pose proof (ExpireDue_ok t d).
    destruct (ExpireDue t TxOk d) as [d' [ex [|]]]; [done|eauto]. }
  assert (Hstamp : forall k r, abs db1 !! k = Some r ->
            rg_lease_expires_at r = Some (ts_new (now + grace))).
  { intros k r Hk. specialize (Hw k). destruct (abs db !! k) as [r0|]; [|congruence].
    destruct Hw as [_ Hw]. rewrite Hw in Hk. by simplify_eq. }
  split_and!.
  - apply set_eq. intros k. rewrite !elem_of_dom. specialize (Hw k).
    destruct (abs db !! k) as [r|]; [destruct Hw as [_ ->]|rewrite Hw]; done.
  - intros t Ht. destruct (Hx t db1) as (d' & ex & E). rewrite E. simpl.
    apply ExpireDue_abs in E as [_ Hl]. apply map_eq. intros k. rewrite Hl.
    destruct (abs db1 !! k) as [r|] eqn:Ek; [|done]. unfold is_due.
    rewrite (Hstamp _ _ Ek), ts_as_time_new. by rewrite (proj2 (Z.ltb_lt _ _) Ht).
  - intros t Ht Hi. destruct (Hx t db2) as (d' & ex & E). rewrite E. simpl.
    apply ExpireDue_abs in E as [_ Hl]. apply map_eq. intros k.
    rewrite Hl, map_lookup_filter. specialize (Hr k).
    destruct (abs db1 !! k) as [r|] eqn:Ek; [|by rewrite Hr].
    rewrite (proj2 (String.eqb_neq name EmptyString) Hn) in Hr. simpl in Hr.
    unfold serves_name in Hr.
    destruct (String.eqb_spec (get_service_name (rg_identity r)) name) as [Es|Es].
    + destruct Hr as [i Hi2]. rewrite Hi2. simpl. rewrite option_guard_True by done.
      unfold is_due. simpl. rewrite ts_as_time_new. by rewrite (proj2 (Z.ltb_lt _ _) (Hi i)).
    + rewrite Hr. simpl. rewrite option_guard_False by done. unfold is_due.
      rewrite (Hstamp _ _ Ek), ts_as_time_new.
      by rewrite (proj2 (Z.ltb_ge _ _) Ht).
Qed.

(** List returns every live registration once, ordered by project name. *)
Lemma List_sorted_complete db :
  StronglySorted project_le (List TxOk db) /\ List TxOk db ≡ₚ (map_to_list (abs db)).*2.
Proof.
  split; [|apply List_perm]. unfold List. apply StronglySorted_merge_sort; apply _.
Qed.

End properties.

(** * The properties at concrete inputs *)

#[local] Instance reg_codec : Codec Registration := countable_codec Registration.
#[local] Instance reg_codec_laws : CodecLaws Registration := countable_codec_laws Registration.

Definition reg_of (project service addr : string) (lease : Z) : Registration :=
  mkRegistration project (Some (mkIdentity service project EmptyString)) None
    (Some (mkEndpoint "http" addr)) (Some (ts_new 0)) (Some (ts_new lease)).

Abbreviation store := (gmap string string).

(** A registry holding two froods. *)
Definition two : store :=
  run [(TxOk, OpUpsert (reg_of "obs" "obs-svc" "a:1" 10));
       (TxOk, OpUpsert (reg_of "kaf" "kafka" "b:2" 20))] (bkt_empty : store).

Lemma Upsert_refines_witness :
  exists holder, snd (Upsert TxOk (reg_of "new" "n" "a:1" 30) two) = (holder, Some ErrEndpointHeld)
  /\ exists r, abs two !! holder = Some r /\ reg_address r = "a:1".
Proof.
  pose proof (Upsert_refines TxOk (reg_of "new" "n" "a:1" 30) two) as Hu.
  assert (He : snd (snd (Upsert TxOk (reg_of "new" "n" "a:1" 30) two)) = Some ErrEndpointHeld)
    by (vm_compute; reflexivity).
  destruct (Upsert TxOk (reg_of "new" "n" "a:1" 30) two) as [db' [holder err]].
  simpl in He. subst err. exists holder. split; [reflexivity|]. apply Hu.
Defined.

Lemma registry_exclusive_witness : sound (abs two).
Proof. exact (registry_exclusive [_; _]). Defined.

Lemma warm_start_grace_witness :
  exists db1 db2, ReconcileWarmStart 1000 30 TxOk two = (db1, None)
  /\ RefreshLease (fun _ => 1010) "obs-svc" 90 TxOk db1 = (db2, (true, None))
  /\ abs (fst (ExpireDue 1030 TxOk db2))
      = filter (fun kr => get_service_name (rg_identity kr.2) = "obs-svc") (abs db2).
Proof.
  assert (H1 : snd (ReconcileWarmStart 1000 30 TxOk two) = None) by (vm_compute; reflexivity).
  assert (H2 : snd (RefreshLease (fun _ => 1010) "obs-svc" 90 TxOk (fst (ReconcileWarmStart 1000 30 TxOk two)))
               = (true, None)) by (vm_compute; reflexivity).
  destruct (ReconcileWarmStart 1000 30 TxOk two) as [db1 e1] eqn:E1.
  cbn [fst snd] in *. destruct (RefreshLease (fun _ => 1010) "obs-svc" 90 TxOk db1) as [db2 r2] eqn:E2.
  cbn [snd] in H2. subst. exists db1, db2. do 2 (split; [done|]).
  by eapply (warm_start_grace 1000 30 "obs-svc" 90 (fun _ => 1010) two); [exact E1|exact E2|done|lia|intros _; lia].
Defined.

Lemma List_sorted_complete_witness :
  map rg_project (List TxOk two) = ["kaf"; "obs"] /\ StronglySorted project_le (List TxOk two).
Proof. split; [vm_compute; reflexivity|]. exact (proj1 (List_sorted_complete two)). Defined.

End registry.
