(* ===== verification/Backup.v ===== *)
(** pkg/backup: the checkpoint of one project and the rotation of its archives.

    A source tree is what os.ReadDir and Lstat report of it, directory by
    directory; [walkDir] is filepath.WalkDir over it. Each system call that can
    fail on an entry is an input ([fault]), so every early return of the code is
    a branch here. The disk is one store for all projects, by directory and then by
    name, and an archive is the list of its tar entries; gzip and the tar encoding
    are below the model, and the size they give is an input. *)

From S2P Require Import Prelude GoStrings GoPath GoTime.
From Stdlib Require Import Ascii.

Module backup.

(** * The source tree *)

Inductive kind := KRegular | KSymlink (target : string) | KSocket | KOther.

(** [rd] is the error of os.ReadDir on the directory, [es] what it returned. *)
Inductive node :=
| Leaf (k : kind) (size : Z)
| Dir (rd : option string) (es : list (string * node)).

Definition is_dir (n : node) : bool := match n with Dir _ _ => true | Leaf _ _ => false end.
Definition is_regular (n : node) : bool := match n with Leaf KRegular _ => true | _ => false end.

(** info.Size(): directories never reach it. *)
Definition size_of (n : node) : Z := match n with Leaf _ s => s | Dir _ _ => 0 end.

(** What a walk callback returns besides nil. *)
Inductive werr := SkipDir | Failed (e : string).

(** A WalkDirFunc: the path below the root, the entry's name, the entry, the
    error WalkDir reports, on the variables [St] it captures. *)
Definition walkfn (St : Type) : Type :=
  list string -> string -> node -> option string -> St -> St * option werr.

Section walk.
Context {St : Type} (fn : walkfn St).

Fixpoint walkDir (path : list string) (name : string) (n : node) (st : St) : St * option werr :=
  match fn path name n None st with
  | (st1, Some SkipDir) => (st1, if is_dir n then None else Some SkipDir)
  | (st1, Some e) => (st1, Some e)
  | (st1, None) =>
      match n with
      | Leaf _ _ => (st1, None)
      | Dir rd es =>
          let loop := fix loop (es : list (string * node)) (st : St) : St * option werr :=
            match es with
            | [] => (st, None)
            | (nm, c) :: r =>
                match walkDir (path ++ [nm]) nm c st with
                | (st', None) => loop r st'
                | (st', Some SkipDir) => (st', None)
                | (st', Some e) => (st', Some e)
                end
            end in
          match rd with
          | Some e =>
              match fn path name n (Some e) st1 with
              | (st2, Some SkipDir) => (st2, None)
              | (st2, Some e') => (st2, Some e')
              | (st2, None) => loop es st2
              end
          | None => loop es st1
          end
      end
  end.

(** filepath.WalkDir: [root] is Lstat of the root; on its error the callback
    gets no entry. *)
Definition WalkDir (root : result string node) (st : St) : St * option string :=
  match (match root with
         | Err e => fn [] EmptyString (Leaf KOther 0) (Some e) st
         | Ok n => walkDir [] EmptyString n st
         end) with
  | (st', Some (Failed e)) => (st', Some e)
  | (st', _) => (st', None)
  end.

End walk.

(** * The skip rules *)

Definition isSkippedDir (name : string) : bool :=
  String.eqb name ".git" || String.eqb name ".venv" || String.eqb name "node_modules"
  || String.eqb name "__pycache__".

Definition isSkippedFile (name : string) : bool :=
  let e := path_ext name in
  String.eqb e ".o" || String.eqb e ".so" || String.eqb e ".pyc".

Fixpoint matchesExclude (relPath : string) (exclude : list string) : bool :=
  match exclude with
  | [] => false
  | e0 :: r =>
      let e := trim_char slash e0 in
      if String.eqb e EmptyString then matchesExclude relPath r
      else if String.eqb relPath e || has_prefix relPath (e +:+ "/")
              || String.eqb (path_base relPath) e
           then true
           else matchesExclude relPath r
  end.

(** filepath.Rel(sourceDir, path) for the path WalkDir built by joining the
    names of [path] to sourceDir. *)
Definition rel_path (path : list string) : string :=
  match path with [] => "." | _ => join slash_str path end.

(** walkCheckpoint's closure around the visitor [fn]. *)
Definition checkpoint_fn {St} (exclude : list string)
    (fn : string -> node -> St -> St * option string) : walkfn St :=
  fun path name d err st =>
    match err with
    | Some e => (st, Some (Failed e))
    | None =>
        let relPath := rel_path path in
        let visit := match fn relPath d st with
                     | (st', Some e) => (st', Some (Failed e))
                     | (st', None) => (st', None)
                     end in
        if String.eqb relPath "." then (st, None)
        else if is_dir d
             then if isSkippedDir name || matchesExclude relPath exclude
                  then (st, Some SkipDir) else visit
             else if isSkippedFile name || matchesExclude relPath exclude
                  then (st, None) else visit
    end.

Definition walkCheckpoint {St} (root : result string node) (exclude : list string)
    (fn : string -> node -> St -> St * option string) (st : St) : St * option string :=
  WalkDir (checkpoint_fn exclude fn) root st.

(** * The archive *)

Inductive tkind := TDir | TReg | TSymlink (link : string) | TOther.
Record tentry := mkEntry { te_name : string; te_kind : tkind; te_data : bool }.

(** The calls of the tar visitor that can fail on an entry. *)
Inductive stage := SInfo | SWriteHeader | SOpen | SCopy.

(** tar.FileInfoHeader(info, link): sockets are refused, a symlink records
    [link] as its target. *)
Definition FileInfoHeader (d : node) (link : string) : result string tkind :=
  match d with
  | Dir _ _ => Ok TDir
  | Leaf KRegular _ => Ok TReg
  | Leaf (KSymlink _) _ => Ok (TSymlink link)
  | Leaf KSocket _ => Err "archive/tar: sockets not supported"
  | Leaf KOther _ => Ok TOther
  end.

(** bytesBefore += uint64(info.Size()) *)
Definition add_size (bytes : Z) (d : node) : Z := u64 (bytes + u64 (size_of d)).

(** * The disk *)

Inductive afile := ADir | AFile (entries : list tentry) (size : Z).

(** A directory's entries by name; the directories there are, by their clean path. *)
Abbreviation adir := (gmap string afile).
Abbreviation disk := (gmap string adir).

Definition dir_at (path : string) (dk : disk) : adir := default ∅ (dk !! path).
Definition file_at (path : string) (dk : disk) : option afile := dir_at (path_dir path) dk !! path_base path.

(** A clean path and the directories above it. *)
Fixpoint with_parents (fuel : nat) (path : string) : list string :=
  match fuel with
  | O => [path]
  | S k => let up := path_dir path in
           path :: if String.eqb up path then [] else with_parents k up
  end.

(** os.MkdirAll on a clean path. A directory it makes has no entry in the one above:
    no listing the code makes looks at directories. *)
Definition MkdirAll (path : string) (dk : disk) : disk :=
  fold_left (fun dk d => match dk !! d with Some _ => dk | None => <[d := ∅]> dk end)
    (with_parents (String.length path) path) dk.

(** The error of os.Create: the file system's own, or what the disk says. *)
Definition create_error (io : option string) (path : string) (dk : disk) : option string :=
  match io with
  | Some e => Some e
  | None => match dk !! path_dir path with
            | None => Some "no such file or directory"
            | Some dir => match dir !! path_base path with Some ADir => Some "is a directory" | _ => None end
            end
  end.

Definition write_file (path : string) (f : afile) (dk : disk) : disk :=
  <[path_dir path := <[path_base path := f]> (dir_at (path_dir path) dk)]> dk.

(** os.Remove; the error is ignored by every caller. *)
Definition os_remove (rm : string -> option string) (path : string) (dk : disk) : disk :=
  match rm path with Some _ => dk | None => alter (base.delete (path_base path)) (path_dir path) dk end.

(** os.Remove on a name of the directory. *)
Definition remove_file (rm : string -> option string) (name : string) (dir : adir) : adir :=
  match rm name with Some _ => dir | None => base.delete name dir end.

Definition is_archive (nf : string * afile) : bool :=
  match nf.2 with ADir => false | AFile _ _ => has_suffix nf.1 ".tgz" end.

(** The archives' names, sorted. *)
Definition archives (dir : adir) : list string :=
  sort_strings (filter (fun nf => Is_true (is_archive nf)) (map_to_list dir)).*1.

Definition enforceRotation (readdir : option string) (rm : string -> option string)
    (maxArchives : Z) (dir : adir) : adir :=
  if maxArchives <=? 0 then dir
  else match readdir with
       | Some _ => dir
       | None =>
           let archs := archives dir in
           let len := Z.of_nat (length archs) in
           if maxArchives <? len
           then fold_left (fun dir a => remove_file rm a dir)
                  (take (Z.to_nat (len - maxArchives)) archs) dir
           else dir
       end.

Record CheckpointResult := mkCheckpointResult {
  ArchivePath : string; BytesBefore : Z; BytesAfter : Z; Duration : Z
}.

Inductive ckpt_error := ErrBackupRoot (e : string) | ErrManifest (e : string) | ErrTarball (e : string).

(** What a checkpoint meets: the wall clock at its start, the failures of the system
    calls (of os.Remove, by path), the size gzip gives the entries, its duration. *)
Record Env := mkEnv {
  env_now : Civil;
  env_mkdir : option string;
  env_create : option string;
  env_readdir : option string;
  env_rm : string -> option string;
  env_stat : option string;
  env_gzip : list tentry -> Z;
  env_elapsed : Z
}.

Definition archive_name (projectName stamp : string) : string :=
  projectName +:+ "-" +:+ stamp +:+ ".tgz".

(** * The visitors and the checkpoint *)

Section checkpoint.
Variable fault : string -> stage -> option string.

(** The tar visitor: the entries written and the bytes counted so far. The
    header's link is info.Name(), the entry's own base name. *)
Definition tar_visit (relPath : string) (d : node) (st : list tentry * Z)
    : (list tentry * Z) * option string :=
  let '(tw, bytesBefore) := st in
  match fault relPath SInfo with
  | Some e => (st, Some e)
  | None =>
      match FileInfoHeader d (path_base relPath) with
      | Err e => (st, Some e)
      | Ok k =>
          match fault relPath SWriteHeader with
          | Some e => (st, Some e)
          | None =>
              if is_dir d || negb (is_regular d)
              then ((tw ++ [mkEntry relPath k false], bytesBefore), None)
              else
                let bytes' := add_size bytesBefore d in
                match fault relPath SOpen with
                | Some e => ((tw ++ [mkEntry relPath k false], bytes'), Some e)
                | None =>
                    match fault relPath SCopy with
                    | Some e => ((tw ++ [mkEntry relPath k false], bytes'), Some e)
                    | None => ((tw ++ [mkEntry relPath k true], bytes'), None)
                    end
                end
          end
      end
  end.

(** createTarGz once os.Create has succeeded or failed with [create]. The
    errors of the deferred Close calls are dropped. *)
Definition createTarGz (create : option string) (root : result string node) (exclude : list string)
    : (list tentry * Z) * option string :=
  match create with
  | Some e => (([], 0), Some e)
  | None => walkCheckpoint root exclude tar_visit ([], 0)
  end.

(** The dry-run visitor: files counted and bytes added up. *)
Definition dry_visit (relPath : string) (d : node) (st : Z * Z) : (Z * Z) * option string :=
  let '(fileCount, bytes) := st in
  if is_dir d then (st, None)
  else ((fileCount + 1,
         match fault relPath SInfo with None => add_size bytes d | Some _ => bytes end), None).

Definition CreateCheckpoint (env : Env) (projectName backupRoot : string) (root : result string node)
    (maxArchives : Z) (exclude : list string) (dryRun : bool) (dk : disk)
    : disk * result ckpt_error CheckpointResult :=
  let archiveDir := path_join [backupRoot; projectName] in
  let archivePath := path_join [archiveDir; archive_name projectName (stamp (env_now env))] in
  if dryRun then
    match walkCheckpoint root exclude dry_visit (0, 0) with
    | (_, Some e) => (dk, Err (ErrManifest e))
    | ((_, bytesBefore), None) =>
        (dk, Ok (mkCheckpointResult archivePath bytesBefore 0 (env_elapsed env)))
    end
  else
    match env_mkdir env with
    | Some e => (dk, Err (ErrBackupRoot e))
    | None =>
        let dk1 := MkdirAll archiveDir dk in
        let create := create_error (env_create env) archivePath dk1 in
        match createTarGz create root exclude with
        | ((tw, _), Some e) =>
            let dk2 := match create with
                       | Some _ => dk1 | None => write_file archivePath (AFile tw (env_gzip env tw)) dk1 end in
            (os_remove (env_rm env) archivePath dk2, Err (ErrTarball e))
        | ((tw, bytesBefore), None) =>
            let dk2 := write_file archivePath (AFile tw (env_gzip env tw)) dk1 in
            let dk3 := alter (enforceRotation (env_readdir env)
                                (fun name => env_rm env (path_join [archiveDir; name])) maxArchives)
                         archiveDir dk2 in
            let bytesAfter :=
              match env_stat env, file_at archivePath dk3 with
              | None, Some (AFile _ s) => u64 s
              | _, _ => 0
              end in
            (dk3, Ok (mkCheckpointResult archivePath bytesBefore bytesAfter (env_elapsed env)))
        end
    end.

End checkpoint.

(** * What a checkpoint should hold *)

Definition keep (exclude : list string) (path : list string) (name : string) (d : node) : bool :=
  negb ((if is_dir d then isSkippedDir name else isSkippedFile name)
        || matchesExclude (rel_path path) exclude).

(** [selected p d q m]: below the directory [d] at [p], the entry [m] at [q]
    and every directory on the way to it survive the skip rules. *)
Inductive selected (exclude : list string) : list string -> node -> list string -> node -> Prop :=
| selected_child p rd es nm c :
    (nm, c) ∈ es -> keep exclude (p ++ [nm]) nm c = true ->
    selected exclude p (Dir rd es) (p ++ [nm]) c
| selected_below p rd es nm c q m :
    (nm, c) ∈ es -> keep exclude (p ++ [nm]) nm c = true ->
    selected exclude (p ++ [nm]) c q m -> selected exclude p (Dir rd es) q m.

(** The same in walk order, with the first directory that cannot be read. *)
Inductive event := Visit (q : list string) (m : node) | Unreadable (e : string).

Fixpoint manifest (exclude : list string) (p : list string) (d : node) : list event :=
  match d with
  | Leaf _ _ => []
  | Dir rd es =>
      match rd with Some e => [Unreadable e] | None => [] end ++
      flat_map (fun nc =>
        if keep exclude (p ++ [nc.1]) nc.1 nc.2
        then Visit (p ++ [nc.1]) nc.2 :: manifest exclude (p ++ [nc.1]) nc.2
        else []) es
  end.

(** Names as ReadDir gives them. *)
Fixpoint names_ok (d : node) : bool :=
  match d with
  | Leaf _ _ => true
  | Dir _ es => forallb (fun nc => negb (String.eqb nc.1 EmptyString) && negb (String.eqb nc.1 ".")
                                   && negb (has_char slash nc.1) && names_ok nc.2) es
  end.

(** A directory ReadDir reads, a file tar takes. *)
Definition archivable (d : node) : bool :=
  match d with Leaf KSocket _ | Dir (Some _) _ => false | _ => true end.

(** The tar entry of [m] at [q]. *)
Definition entry_of (q : list string) (m : node) : tentry :=
  mkEntry (rel_path q)
    (match FileInfoHeader m (path_base (rel_path q)) with Ok k => k | Err _ => TOther end)
    (is_regular m).

Definition visits (evs : list event) : list (list string * node) :=
  omap (fun ev => match ev with Visit q m => Some (q, m) | Unreadable _ => None end) evs.

Definition sum_size (ds : list node) : Z := foldr (fun d z => size_of d + z) 0 ds.

(** A visitor run over a manifest, up to its first error. *)
Fixpoint fold_events {St} (fn : string -> node -> St -> St * option string)
    (evs : list event) (st : St) : St * option string :=
  match evs with
  | [] => (st, None)
  | Unreadable e :: _ => (st, Some e)
  | Visit q m :: r =>
      match fn (rel_path q) m st with
      | (st', None) => fold_events fn r st'
      | (st', Some e) => (st', Some e)
      end
  end.

(** * Lemmas *)

Lemma node_rec_ind (P : node -> Prop) :
  (forall k s, P (Leaf k s)) ->
  (forall rd es, Forall (fun nc => P nc.2) es -> P (Dir rd es)) ->
  forall n, P n.
Proof.
  intros HL HD. fix rec 1. intros [k s|rd es]; [apply HL|]. apply HD.
  induction es as [|[nm c] es IH]; constructor; [apply rec|exact IH].
Qed.

(** ** The walk is a fold over the manifest *)

Section walk_lemmas.
Context {St : Type} (exclude : list string) (fn : string -> node -> St -> St * option string).

Definition raise (r : St * option string) : St * option werr :=
  match r with (st, Some e) => (st, Some (Failed e)) | (st, None) => (st, None) end.

Lemma raise_fold_app evs1 evs2 st :
  raise (fold_events fn (evs1 ++ evs2) st)
  = match raise (fold_events fn evs1 st) with
    | (st', None) => raise (fold_events fn evs2 st')
    | r => r
    end.
Proof.
  revert st. induction evs1 as [|[q m|e] evs1 IH]; intros st; simpl; [done| |done].
  destruct (fn (rel_path q) m st) as [st' [e|]]; [done|apply IH].
Qed.

Lemma fold_events_nodir evs st st' e :
  raise (fold_events fn evs st) = (st', Some e) -> e <> SkipDir.
Proof. destruct (fold_events fn evs st) as [? [?|]]; simpl; congruence. Qed.

Lemma join_slash p nm : p <> [] -> has_char slash (join slash_str (p ++ [nm])) = true.
Proof.
  destruct p as [|x p]; [done|]. intros _. cbn [app].
  destruct (p ++ [nm]) as [|y r] eqn:E; [by destruct p|].
  change (join slash_str (x :: y :: r)) with (x +:+ slash_str +:+ join slash_str (y :: r)).
  rewrite has_char_app, has_char_app. simpl. by rewrite orb_true_r.
Qed.

Lemma rel_path_child p nm : nm <> "." -> String.eqb (rel_path (p ++ [nm])) "." = false.
Proof.
  intros Hnm. apply String.eqb_neq. unfold rel_path.
  destruct (p ++ [nm]) as [|x r] eqn:E; [by destruct p|]. rewrite <-E.
  destruct p as [|y p]; [simpl; congruence|]. intros He.
  pose proof (join_slash (y :: p) nm ltac:(done)) as Hs. by rewrite He in Hs.
Qed.

Definition node_events (p : list string) (nm : string) (n : node) : list event :=
  if keep exclude p nm n then Visit p n :: manifest exclude p n else [].

Definition children_events (p : list string) (es : list (string * node)) : list event :=
  flat_map (fun nc => node_events (p ++ [nc.1]) nc.1 nc.2) es.

Lemma manifest_dir p rd es :
  manifest exclude p (Dir rd es)
  = match rd with Some e => [Unreadable e] | None => [] end ++ children_events p es.
Proof. done. Qed.

Lemma names_ok_child rd es :
  names_ok (Dir rd es) = true ->
  Forall (fun nc => nc.1 <> "." /\ names_ok nc.2 = true) es.
Proof.
  cbn [names_ok]. rewrite forallb_elem_of, Forall_forall. intros Hf nc Hin.
  specialize (Hf nc Hin). apply andb_true_iff in Hf as [Hf Hn].
  apply andb_true_iff in Hf as [Hf _]. apply andb_true_iff in Hf as [_ Hf].
  split; [|done]. apply negb_true_iff in Hf. by apply String.eqb_neq in Hf.
Qed.

(** One entry of a directory, and the loop over a directory's entries. *)
Definition walks_as (n : node) : Prop :=
  forall p nm st, String.eqb (rel_path p) "." = false -> names_ok n = true ->
    walkDir (checkpoint_fn exclude fn) p nm n st = raise (fold_events fn (node_events p nm n) st).

Lemma loop_events p es st :
  Forall (fun nc => walks_as nc.2) es ->
  Forall (fun nc => nc.1 <> "." /\ names_ok nc.2 = true) es ->
  (fix loop (es : list (string * node)) (st : St) : St * option werr :=
     match es with
     | [] => (st, None)
     | (nm, c) :: r =>
         match walkDir (checkpoint_fn exclude fn) (p ++ [nm]) nm c st with
         | (st', None) => loop r st'
         | (st', Some SkipDir) => (st', None)
         | (st', Some e) => (st', Some e)
         end
     end) es st
  = raise (fold_events fn (children_events p es) st).
Proof.
  intros Hw Hn. revert st. induction es as [|[nm c] es IH]; intros st; [done|].
  apply Forall_cons in Hw as [Hw Hws]. apply Forall_cons in Hn as [[Hdot Hc] Hns].
  cbn [children_events flat_map]. rewrite raise_fold_app. simpl in Hw, Hdot, Hc |- *.
  rewrite (Hw _ nm st (rel_path_child p nm Hdot) Hc).
  destruct (raise (fold_events fn (node_events (p ++ [nm]) nm c) st)) as [st' [e|]] eqn:Er.
  - apply fold_events_nodir in Er. by destruct e.
  - by apply IH.
Qed.

Lemma walk_node n : walks_as n.
Proof.
  induction n as [k s|rd es IH] using node_rec_ind; intros p nm st Hp Hn;
    cbn [walkDir]; unfold checkpoint_fn at 1; rewrite Hp; cbn [is_dir].
  - unfold node_events, keep. cbn [is_dir].
    destruct (isSkippedFile nm || matchesExclude (rel_path p) exclude); simpl; [done|].
    by destruct (fn (rel_path p) (Leaf k s) st) as [st' [e|]].
  - unfold node_events, keep. cbn [is_dir].
    destruct (isSkippedDir nm || matchesExclude (rel_path p) exclude); simpl; [done|].
    destruct (fn (rel_path p) (Dir rd es) st) as [st' [e|]]; [done|].
    rewrite (loop_events p es st' IH (names_ok_child rd es Hn)).
    destruct rd as [e|]; done.
Qed.

Lemma walkCheckpoint_events root st :
  names_ok root = true ->
  walkCheckpoint (Ok root) exclude fn st = fold_events fn (manifest exclude [] root) st.
Proof.
  intros Hn. unfold walkCheckpoint, WalkDir.
  destruct root as [k s|rd es]; [done|]. cbn [walkDir]. unfold checkpoint_fn at 1.
  change (String.eqb (rel_path []) ".") with true. cbv iota beta zeta.
  destruct rd as [e|]; [done|].
  rewrite (loop_events [] es st);
    [|apply Forall_forall; intros nc _; apply walk_node|by eapply names_ok_child].
  rewrite manifest_dir. cbn [app].
  by destruct (fold_events fn (children_events [] es) st) as [st' [e|]].
Qed.

End walk_lemmas.

(** ** The manifest holds what is selected *)

Lemma manifest_selected exclude d p q m :
  Visit q m ∈ manifest exclude p d <-> selected exclude p d q m.
Proof.
  revert p q m. induction d as [k s|rd es IH] using node_rec_ind; intros p q m.
  { split; [by intros ?%elem_of_nil|inversion 1]. }
  rewrite manifest_dir, elem_of_app. unfold children_events.
  rewrite list_elem_of_In, list_elem_of_In, in_flat_map. split.
  - intros [Hin|([nm c] & Hin & Hev)].
    { destruct rd; simpl in Hin; naive_solver. }
    rewrite Forall_forall in IH. apply list_elem_of_In in Hin.
    unfold node_events in Hev. simpl in Hev.
    destruct (keep exclude (p ++ [nm]) nm c) eqn:Ek; [|done].
    destruct Hev as [[= <- <-]|Hev]; [by eapply selected_child|].
    apply list_elem_of_In, (IH (nm, c) Hin) in Hev. by eapply selected_below.
  - intros Hs. right. rewrite Forall_forall in IH.
    inversion Hs as [? ? ? nm c Hin Hk|? ? ? nm c ? ? Hin Hk Hb]; subst.
    + exists (nm, m). split; [by apply list_elem_of_In|]. unfold node_events. simpl.
      rewrite Hk. by left.
    + exists (nm, c). split; [by apply list_elem_of_In|]. unfold node_events. simpl.
      rewrite Hk. right. apply list_elem_of_In. by apply (IH (nm, c)).
Qed.

Lemma visits_elem evs q m : (q, m) ∈ visits evs <-> Visit q m ∈ evs.
Proof.
  unfold visits. rewrite list_elem_of_omap. split.
  - intros ([] & ? & ?); by simplify_eq.
  - intros. by exists (Visit q m).
Qed.

Lemma manifest_unreadable exclude d p e :
  Unreadable e ∈ manifest exclude p d <->
  (exists es, d = Dir (Some e) es) \/ exists q es, selected exclude p d q (Dir (Some e) es).
Proof.
  revert p. induction d as [k s|rd es IH] using node_rec_ind; intros p.
  { split; [by intros ?%elem_of_nil|]. intros [[es H]|(q & es & H)]; [done|inversion H]. }
  rewrite manifest_dir, elem_of_app. unfold children_events.
  rewrite list_elem_of_In, list_elem_of_In, in_flat_map. rewrite Forall_forall in IH. split.
  - intros [Hin|([nm c] & Hin & Hev)].
    { destruct rd; simpl in Hin; [|done]. destruct Hin as [[= ->]|[]]. left. by eexists. }
    apply list_elem_of_In in Hin. unfold node_events in Hev. simpl in Hev.
    destruct (keep exclude (p ++ [nm]) nm c) eqn:Ek; [|done].
    destruct Hev as [|Hev]; [done|]. right.
    apply list_elem_of_In, (IH (nm, c) Hin) in Hev as [[es' Hc]|(q & es' & Hc)]; simpl in Hc.
    + subst c. exists (p ++ [nm]), es'. by eapply selected_child.
    + exists q, es'. by eapply selected_below.
  - intros [[es' [= -> ->]]|(q & es' & Hs)]; [left; by left|]. right.
    inversion Hs as [? ? ? nm c Hin Hk|? ? ? nm c ? ? Hin Hk Hb]; subst.
    + exists (nm, Dir (Some e) es'). split; [by apply list_elem_of_In|]. unfold node_events.
      simpl fst. simpl snd. rewrite Hk. right. by left.
    + exists (nm, c). split; [by apply list_elem_of_In|]. unfold node_events. simpl.
      rewrite Hk. right. apply list_elem_of_In, (IH (nm, c) Hin). right. by eexists _, _.
Qed.

(** ** What the two visitors add up *)

Section visitors.
Variable fault : string -> stage -> option string.

(** No call on the entry fails. *)
Definition clean_entry (q : list string) (m : node) : bool :=
  archivable m && forallb (fun s => match fault (rel_path q) s with None => true | Some _ => false end)
    ([SInfo; SWriteHeader] ++ if is_regular m then [SOpen; SCopy] else []).

Definition readable_events (evs : list event) : Prop :=
  (forall e, Unreadable e ∉ evs) /\ forall q m, Visit q m ∈ evs -> clean_entry q m = true.

Definition regulars (evs : list event) : list node :=
  filter (fun m => Is_true (is_regular m)) (visits evs).*2.

Definition files (evs : list event) : list node :=
  filter (fun m => Is_true (negb (is_dir m))) (visits evs).*2.

Lemma files_visit q m evs :
  files (Visit q m :: evs) = if is_dir m then files evs else m :: files evs.
Proof. unfold files. simpl. rewrite filter_cons. by destruct (is_dir m). Qed.

Lemma regulars_visit q m evs :
  regulars (Visit q m :: evs) = if is_regular m then m :: regulars evs else regulars evs.
Proof. unfold regulars. simpl. rewrite filter_cons. by destruct (is_regular m). Qed.

Lemma add_size_u64 b d z : u64 (add_size b d + z) = u64 (b + (size_of d + z)).
Proof.
  unfold add_size, u64. rewrite Zplus_mod_idemp_l.
  rewrite <-(Zplus_mod_idemp_l (b + size_of d mod 2 ^ 64)), Zplus_mod_idemp_r, Zplus_mod_idemp_l.
  f_equal. lia.
Qed.

Lemma tar_visit_clean q m tw b :
  clean_entry q m = true ->
  tar_visit fault (rel_path q) m (tw, b)
  = ((tw ++ [entry_of q m], if is_regular m then add_size b m else b), None).
Proof.
  unfold clean_entry, tar_visit, entry_of. intros Hc. simpl in Hc.
  apply andb_true_iff in Hc as [Ha Hc].
  destruct (fault (rel_path q) SInfo); [done|].
  destruct (fault (rel_path q) SWriteHeader); [done|].
  destruct m as [[]|[]]; simpl in *; try done.
  destruct (fault (rel_path q) SOpen); [done|]. by destruct (fault (rel_path q) SCopy).
Qed.

Lemma tar_visit_None q m st :
  snd (tar_visit fault (rel_path q) m st) = None ->
  clean_entry q m = true \/ exists e es, m = Dir (Some e) es.
Proof.
  unfold clean_entry, tar_visit. destruct st as [tw b].
  destruct m as [[]|[e|] es]; [| | | |right; by eexists _, _|]; intros Hn; left; simpl in *;
    repeat (destruct (fault (rel_path q) _); simpl in *; try done).
Qed.

(** A readable directory's error shows up right after its visit. *)
Definition announced (evs : list event) : Prop :=
  forall q e es, Visit q (Dir (Some e) es) ∈ evs -> Unreadable e ∈ evs.

Lemma tar_fold_clean evs tw b :
  readable_events evs ->
  fold_events (tar_visit fault) evs (tw, b)
  = ((tw ++ map (fun qm => entry_of qm.1 qm.2) (visits evs),
      fold_left (fun b m => add_size b m) (regulars evs) b), None).
Proof.
  revert tw b. induction evs as [|[q m|e] evs IH]; intros tw b [Hu Hc]; cbn [fold_events].
  - simpl. by rewrite app_nil_r.
  - rewrite tar_visit_clean by (apply Hc; by left).
    rewrite IH by (split; [intros e He; apply (Hu e); by right|intros q' m' Hin; apply Hc; by right]).
    rewrite <-app_assoc, regulars_visit. by destruct (is_regular m).
  - by destruct (Hu e); left.
Qed.

Lemma tar_fold_None evs st :
  announced evs -> snd (fold_events (tar_visit fault) evs st) = None <-> readable_events evs.
Proof.
  intros Ha. split.
  - intros Hn.
    assert (Hall : (forall e, Unreadable e ∉ evs)
       /\ forall q m, Visit q m ∈ evs -> clean_entry q m = true \/ exists e es, m = Dir (Some e) es).
    { clear Ha. revert st Hn. induction evs as [|[q m|e] evs IH]; intros st Hn; cbn [fold_events] in Hn.
      - split; [intros e|intros q m]; by intros ?%elem_of_nil.
      - destruct (tar_visit fault (rel_path q) m st) as [st' [e|]] eqn:Et; [done|].
        destruct (IH st' Hn) as [Hu Hv]. split.
        + intros e [|]%elem_of_cons; [done|by eapply Hu].
        + intros q' m' [[= -> ->]|Hin]%elem_of_cons; [|by apply Hv].
          apply (tar_visit_None q m st). by rewrite Et.
      - done. }
    destruct Hall as [Hu Hv]. split; [done|]. intros q m Hin.
    destruct (Hv q m Hin) as [|(e & es & ->)]; [done|]. by destruct (Hu e); eapply Ha.
  - intros Hr. destruct st as [tw b]. by rewrite tar_fold_clean.
Qed.

Lemma fold_add_size ds b : u64 b = b -> fold_left add_size ds b = u64 (b + sum_size ds).
Proof.
  revert b. induction ds as [|d ds IH]; intros b Hb; simpl.
  - by rewrite Z.add_0_r.
  - rewrite IH by (unfold add_size; unfold u64; by rewrite Zmod_mod).
    apply add_size_u64.
Qed.

Lemma dry_fold_clean evs n b :
  (forall e, Unreadable e ∉ evs) ->
  (forall q m, Visit q m ∈ evs -> is_dir m = true \/ fault (rel_path q) SInfo = None) ->
  fold_events (dry_visit fault) evs (n, b)
  = ((n + Z.of_nat (length (files evs)), fold_left add_size (files evs) b), None).
Proof.
  revert n b. induction evs as [|[q m|e] evs IH]; intros n b Hu Hi.
  - simpl. by rewrite Z.add_0_r.
  - assert (Hi' : forall q m, Visit q m ∈ evs -> is_dir m = true \/ fault (rel_path q) SInfo = None)
      by (intros q' m' Hin; apply Hi; by right).
    assert (Hu' : forall e, Unreadable e ∉ evs) by (intros e He; apply (Hu e); by right).
    cbn [fold_events dry_visit]. rewrite files_visit.
    destruct (is_dir m) eqn:Ed.
    + by rewrite IH.
    + destruct (Hi q m) as [|Hf]; [by left|congruence|].
      rewrite Hf, IH by done. cbn [fold_left length]. do 2 f_equal. lia.
  - by destruct (Hu e); left.
Qed.

End visitors.

Lemma manifest_announced exclude root : announced (manifest exclude [] root).
Proof.
  intros q e es Hin. apply manifest_unreadable. right. exists q, es. by apply manifest_selected.
Qed.

Definition readable_root (root : node) : bool :=
  match root with Dir (Some _) _ => false | _ => true end.

Lemma readable_manifest fault exclude root :
  readable_events fault (manifest exclude [] root)
  <-> readable_root root = true
      /\ forall q m, selected exclude [] root q m -> clean_entry fault q m = true.
Proof.
  unfold readable_events. setoid_rewrite manifest_selected. split; intros [Hu Hc]; split; try done.
  - destruct root as [|[e|] es]; [done| |done]. destruct (Hu e). apply manifest_unreadable. eauto.
  - intros e [[es ->]|(q & es & Hs)]%manifest_unreadable; [done|]. by specialize (Hc _ _ Hs).
Qed.

(** ** Rotation *)

Lemma fold_remove_lookup rm l (dir : adir) n :
  fold_left (fun dir a => remove_file rm a dir) l dir !! n
  = if bool_decide (n ∈ l) && (match rm n with None => true | Some _ => false end)
    then None else dir !! n.
Proof.
  revert dir. induction l as [|a l IH]; intros dir; cbn [fold_left]; [done|].
  rewrite IH. unfold remove_file.
  destruct (decide (n = a)) as [->|Hne].
  - rewrite (bool_decide_eq_true_2 (a ∈ a :: l)) by (by left).
    destruct (rm a) as [e|]; rewrite ?andb_false_r, ?andb_true_r; simpl; [done|].
    rewrite lookup_delete_eq. by case_bool_decide.
  - rewrite (bool_decide_ext (n ∈ a :: l) (n ∈ l)) by set_solver.
    destruct (rm a); rewrite ?lookup_delete_ne by done; done.
Qed.

Lemma archives_elem (dir : adir) n :
  n ∈ archives dir <-> has_suffix n ".tgz" = true /\ exists es s, dir !! n = Some (AFile es s).
Proof.
  unfold archives. rewrite sort_strings_perm, list_elem_of_fmap. split.
  - intros ([n' f] & -> & Hin). apply list_elem_of_filter in Hin as [Ha Hin].
    apply elem_of_map_to_list in Hin. unfold is_archive in Ha. simpl in *.
    destruct f; [done|]. split; [by apply Is_true_true|eauto].
  - intros (Hs & es & s & Hl). exists (n, AFile es s). split; [done|].
    apply list_elem_of_filter. split; [|by apply elem_of_map_to_list].
    unfold is_archive. simpl. by apply Is_true_true.
Qed.

Lemma archives_NoDup (dir : adir) : NoDup (archives dir).
Proof.
  unfold archives. rewrite sort_strings_perm. eapply sublist_NoDup.
  - apply (NoDup_fst_map_to_list dir).
  - apply fmap_sublist, sublist_filter.
Qed.

Lemma archives_sorted (dir : adir) : StronglySorted String.le (archives dir).
Proof. apply sort_strings_sorted. Qed.

Lemma sorted_app_le (l1 l2 : list string) x y :
  StronglySorted String.le (l1 ++ l2) -> x ∈ l1 -> y ∈ l2 -> String.le x y.
Proof.
  induction l1 as [|a l1 IH]; intros Hs Hx Hy; [by apply elem_of_nil in Hx|].
  apply StronglySorted_inv in Hs as [Hs Ha]. apply elem_of_cons in Hx as [->|Hx]; [|by apply IH].
  rewrite Forall_forall in Ha. apply Ha. apply elem_of_app. by right.
Qed.

Lemma sorted_drop k (l : list string) :
  StronglySorted String.le l -> StronglySorted String.le (drop k l).
Proof.
  revert l. induction k as [|k IH]; intros [|x l] Hs; simpl; [done..|].
  apply IH. by apply StronglySorted_inv in Hs as [? _].
Qed.

(** The archives a rotation keeps. *)
Definition kept (maxArchives : Z) (l : list string) : list string :=
  if maxArchives <=? 0 then l
  else drop (Z.to_nat (Z.of_nat (length l) - maxArchives)) l.

Lemma rotation_eq max dir :
  0 < max ->
  enforceRotation None (fun _ => None) max dir
  = fold_left (fun dir a => remove_file (fun _ => None) a dir)
      (take (Z.to_nat (Z.of_nat (length (archives dir)) - max)) (archives dir)) dir.
Proof.
  intros Hm. unfold enforceRotation. rewrite (proj2 (Z.leb_gt _ _) Hm).
  destruct (Z.ltb_spec max (Z.of_nat (length (archives dir)))); [done|].
  by replace (Z.to_nat _) with 0%nat by lia.
Qed.

Lemma rotation_lookup max dir n :
  enforceRotation None (fun _ => None) max dir !! n
  = if decide (n ∈ archives dir /\ n ∉ kept max (archives dir)) then None else dir !! n.
Proof.
  unfold kept. destruct (Z.leb_spec max 0) as [Hm|Hm].
  { unfold enforceRotation. rewrite (proj2 (Z.leb_le _ _) Hm). by rewrite decide_False by tauto. }
  rewrite rotation_eq, fold_remove_lookup, andb_true_r by done.
  set (l := archives dir). set (k := Z.to_nat _).
  assert (Hd : NoDup (take k l ++ drop k l)) by (rewrite take_drop; apply archives_NoDup).
  apply NoDup_app in Hd as (_ & Hd & _).
  assert (Hl : n ∈ l <-> n ∈ take k l \/ n ∈ drop k l) by (rewrite <-elem_of_app, take_drop; done).
  destruct (decide (n ∈ take k l)) as [Ht|Ht].
  - rewrite bool_decide_eq_true_2, decide_True by naive_solver. done.
  - rewrite bool_decide_eq_false_2, decide_False by naive_solver. done.
Qed.

Lemma kept_subset max l n : n ∈ kept max l -> n ∈ l.
Proof.
  unfold kept. destruct (max <=? 0); [done|]. intros Hin.
  rewrite <-(take_drop (Z.to_nat (Z.of_nat (length l) - max)) l). apply elem_of_app. by right.
Qed.

Lemma rotation_archives max dir :
  archives (enforceRotation None (fun _ => None) max dir) = kept max (archives dir).
Proof.
  apply (StronglySorted_unique String.le).
  - apply archives_sorted.
  - unfold kept. destruct (max <=? 0); [|apply sorted_drop]; apply archives_sorted.
  - apply NoDup_Permutation.
    + apply archives_NoDup.
    + unfold kept. destruct (max <=? 0); [apply archives_NoDup|].
      eapply sublist_NoDup; [apply archives_NoDup|apply sublist_drop].
    + intros n. rewrite archives_elem. rewrite rotation_lookup. split.
      * intros (Hs & es & s & Hl). case_decide as Hd; [done|].
        assert (n ∈ archives dir) by (apply archives_elem; eauto).
        destruct (decide (n ∈ kept max (archives dir))); [done|tauto].
      * intros Hk. pose proof (kept_subset _ _ _ Hk) as Hin.
        apply archives_elem in Hin as (Hs & es & s & Hl). split; [done|]. exists es, s.
        by rewrite decide_False by tauto.
Qed.

(** The greatest name is kept. *)
Lemma kept_last max l n :
  StronglySorted String.le l -> NoDup l -> n ∈ l -> (forall x, x ∈ l -> String.le x n) ->
  n ∈ kept max l.
Proof.
  intros Hs Hd Hn Hmax. unfold kept. destruct (Z.leb_spec max 0); [done|].
  set (k := Z.to_nat _).
  rewrite <-(take_drop k l), elem_of_app in Hn. destruct Hn as [Hn|]; [|done].
  destruct (drop k l) as [|y r] eqn:E.
  - assert (Hk : (length l <= k)%nat) by (pose proof (length_drop l k) as Hl; rewrite E in Hl; simpl in Hl; lia).
    assert (length l <> 0%nat) by (intros Hz; apply nil_length_inv in Hz; subst l; by rewrite take_nil in Hn; apply elem_of_nil in Hn).
    unfold k in Hk. lia.
  - assert (Hy : y ∈ l) by (rewrite <-(take_drop k l), E; apply elem_of_app; right; by left).
    rewrite <-(take_drop k l), E in Hs, Hd.
    assert (String.le n y) by (eapply sorted_app_le; [done|done|by left]).
    assert (n = y) as -> by (apply (anti_symm String.le); auto).
    apply NoDup_app in Hd as (_ & Hd & _). destruct (Hd y); [done|by left].
Qed.

(** ** The two visitors on one tree *)

Lemma entry_of_dir q m : archivable m = true -> te_kind (entry_of q m) = TDir <-> is_dir m = true.
Proof. destruct m as [[]|[]]; simpl; done. Qed.

Lemma entry_of_regular q m :
  archivable m = true -> te_kind (entry_of q m) = TReg <-> is_regular m = true.
Proof. destruct m as [[]|[]]; simpl; done. Qed.

#[export] Instance tkind_eq_dec : EqDecision tkind.
Proof. solve_decision. Defined.

Lemma visits_visit q m evs : visits (Visit q m :: evs) = (q, m) :: visits evs.
Proof. done. Qed.

Lemma files_entries evs :
  (forall q m, Visit q m ∈ evs -> archivable m = true) ->
  length (files evs)
  = length (filter (fun te => te_kind te <> TDir) (map (fun qm => entry_of qm.1 qm.2) (visits evs))).
Proof.
  induction evs as [|[q m|e] evs IH]; intros Ha; [done| |].
  - rewrite files_visit, visits_visit. cbn [map]. rewrite filter_cons. simpl fst. simpl snd.
    pose proof (entry_of_dir q m ltac:(apply (Ha q); by left)) as Hd.
    assert (Ha' : forall q m, Visit q m ∈ evs -> archivable m = true)
      by (intros q' m' Hin; apply (Ha q'); by right).
    destruct (is_dir m).
    + rewrite decide_False by tauto. by apply IH.
    + rewrite decide_True by (intros Hx; by apply Hd in Hx). cbn [length]. by rewrite IH.
  - apply IH. intros q m Hin. apply (Ha q). by right.
Qed.

Lemma files_regulars evs :
  (forall q m, Visit q m ∈ evs -> is_dir m = true \/ is_regular m = true) ->
  files evs = regulars evs.
Proof.
  induction evs as [|[q m|e] evs IH]; intros Ha; [done| |].
  - rewrite files_visit, regulars_visit, IH by (intros q' m' Hin; apply (Ha q'); by right).
    destruct (Ha q m ltac:(by left)) as [E|E]; rewrite E.
    + by destruct m.
    + destruct m; [done|]. done.
  - change (files evs = regulars evs). apply IH. intros q m Hin. apply (Ha q). by right.
Qed.

Lemma archive_name_suffix p s : has_suffix (archive_name p s) ".tgz" = true.
Proof. unfold archive_name. rewrite !str_app_assoc. apply has_suffix_app. Qed.

(** ** The disk *)

Lemma dir_at_insert d dir dk d' :
  dir_at d' (<[d := dir]> dk) = if decide (d' = d) then dir else dir_at d' dk.
Proof. unfold dir_at. case_decide; [subst; by rewrite lookup_insert_eq|by rewrite lookup_insert_ne]. Qed.

Lemma dir_at_alter g d dk d' :
  g ∅ = ∅ -> dir_at d' (alter g d dk) = if decide (d' = d) then g (dir_at d' dk) else dir_at d' dk.
Proof.
  intros Hg. unfold dir_at. case_decide; [subst|by rewrite lookup_alter_ne].
  rewrite lookup_alter_eq. by destruct (dk !! d).
Qed.

(** MkdirAll makes the directory and changes the listing of none. *)
Lemma MkdirAll_spec path dk :
  is_Some (MkdirAll path dk !! path) /\ forall d, dir_at d (MkdirAll path dk) = dir_at d dk.
Proof.
  unfold MkdirAll. set (f := fun (dk : disk) d => match dk !! d with Some _ => dk | None => <[d := ∅]> dk end).
  assert (Hf : forall d dk, (forall d', dir_at d' (f dk d) = dir_at d' dk)
    /\ (forall d', d' = d \/ is_Some (dk !! d') -> is_Some (f dk d !! d'))).
  { intros d dk0. unfold f. destruct (dk0 !! d) eqn:E; [split; [done|]; intros d' [->|?]; [by rewrite E|done]|].
    split; [|intros d' [->|?]; rewrite lookup_insert_is_Some'; tauto].
    intros d'. rewrite dir_at_insert. case_decide; [|done]. subst. unfold dir_at. by rewrite E. }
  assert (Hl : forall l dk, (forall d', dir_at d' (fold_left f l dk) = dir_at d' dk)
    /\ (forall d', d' ∈ l \/ is_Some (dk !! d') -> is_Some (fold_left f l dk !! d'))).
  { induction l as [|d l IH]; intros dk0; cbn [fold_left]; [split; [done|]; by intros d' [?%elem_of_nil|]|].
    destruct (IH (f dk0 d)) as [I1 I2], (Hf d dk0) as [F1 F2]. split; [intros d'; by rewrite I1, F1|].
    intros d' Hd. apply I2. rewrite elem_of_cons in Hd. naive_solver. }
  split; [|apply Hl]. apply Hl. left. destruct (String.length path); by left.
Qed.

Lemma dir_at_write path f dk d :
  dir_at d (write_file path f dk)
  = if decide (d = path_dir path) then <[path_base path := f]> (dir_at d dk) else dir_at d dk.
Proof. unfold write_file. rewrite dir_at_insert. by case_decide; subst. Qed.

Lemma dir_at_remove rm path dk d :
  rm path = None ->
  dir_at d (os_remove rm path dk)
  = if decide (d = path_dir path) then base.delete (path_base path) (dir_at d dk) else dir_at d dk.
Proof. intros Hr. unfold os_remove. rewrite Hr. apply dir_at_alter, delete_empty. Qed.

Lemma rotation_empty rd rm max : enforceRotation rd rm max ∅ = ∅.
Proof.
  unfold enforceRotation. destruct (max <=? 0) eqn:E; [done|]. destruct rd; [done|].
  apply Z.leb_gt in E. cbv zeta. by rewrite (proj2 (Z.ltb_ge _ _)) by (change (archives ∅) with (@nil string); cbn; lia).
Qed.

(** ** Where a project's archives are *)

Lemma archive_name_plain p c : plain p -> plain (archive_name p (stamp c)).
Proof.
  intros (H0 & _ & _ & Hs). unfold archive_name.
  assert (Hl : (4 < String.length (p +:+ "-" +:+ stamp c +:+ ".tgz"))%nat).
  { rewrite !str_app_length. destruct p; [done|]. cbn. lia. }
  split_and!; try (intros E; rewrite E in Hl; cbn in Hl; lia).
  rewrite !has_char_app, Hs, stamp_no_char; [done| |done].
  intros k Hk. by do 10 (destruct k as [|k]; [done|]); lia.
Qed.

(** The directory of a plainly named project holds its archives, by their names. *)
Lemma archive_place root p c :
  plain p ->
  let archiveDir := path_join [root; p] in
  let archivePath := path_join [archiveDir; archive_name p (stamp c)] in
  path_dir archivePath = archiveDir /\ path_base archivePath = archive_name p (stamp c).
Proof.
  intros Hp. cbv zeta. pose proof Hp as (H0 & _).
  assert (Hc : path_join [root; p] <> "" /\ clean (path_join [root; p]) = path_join [root; p]).
  { cbn [path_join]. apply String.eqb_neq in H0 as ->.
    destruct (String.eqb root ""); (split; [apply clean_nonempty|apply clean_idempotent]). }
  destruct (path_join_plain (path_join [root; p]) (archive_name p (stamp c))) as [-> ->];
    [tauto|by apply archive_name_plain|]. by destruct Hc as [_ ->].
Qed.

(** Plainly named projects have directories of their own. *)
Lemma archive_dir_inj root p p' : plain p -> plain p' -> path_join [root; p] = path_join [root; p'] -> p = p'.
Proof.
  assert (Hb : forall q, plain q -> path_base (path_join [root; q]) = q).
  { intros q Hq. destruct (String.eqb_spec root "") as [->|Hr]; [|by apply path_join_plain].
    pose proof Hq as (H0 & _ & _ & Hs). cbn [path_join]. apply String.eqb_neq in H0 as E. rewrite E. cbn [String.eqb join].
    enough (clean q = q) as -> by by apply path_base_plain.
    unfold clean, clean_elems. rewrite (split_on_no_char slash q) by done. destruct Hq as (_ & H1 & H2 & _).
    cbn [fold_left]. unfold clean_step. apply String.eqb_neq in H1, H2. rewrite E, H1, H2. cbn [orb rev app join].
    assert (is_rooted q = false) as -> by (by apply (join_not_rooted [q]); constructor; [split|]). by rewrite E. }
  intros Hp Hp' E. by rewrite <-(Hb p Hp), <-(Hb p' Hp'), E.
Qed.

Lemma createTarGz_events fault exclude root :
  names_ok root = true ->
  createTarGz fault None (Ok root) exclude
  = fold_events (tar_visit fault) (manifest exclude [] root) ([], 0).
Proof. intros Hn. unfold createTarGz. by rewrite walkCheckpoint_events. Qed.

Lemma createTarGz_None fault exclude root tw b :
  names_ok root = true -> createTarGz fault None (Ok root) exclude = ((tw, b), None) ->
  readable_events fault (manifest exclude [] root)
  /\ tw = map (fun qm => entry_of qm.1 qm.2) (visits (manifest exclude [] root))
  /\ b = fold_left add_size (regulars (manifest exclude [] root)) 0.
Proof.
  intros Hn. rewrite createTarGz_events by done. intros Hf.
  assert (Hr : readable_events fault (manifest exclude [] root)).
  { apply (tar_fold_None fault _ ([], 0)); [apply manifest_announced|]. by rewrite Hf. }
  rewrite (tar_fold_clean _ _ _ _ Hr) in Hf. by simplify_eq.
Qed.

(** * Properties *)

(** C1. A checkpoint archives exactly what the skip rules select: tar succeeds
    exactly when every selected entry can be read and is not a socket, and then
    the archive has one entry per selected path (and no other), and the bytes
    reported are the sizes of the selected regular files, modulo 2^64. *)
Theorem createTarGz_exact fault exclude root :
  names_ok root = true ->
  let '((tw, bytes), err) := createTarGz fault None (Ok root) exclude in
  (err = None <-> readable_root root = true
     /\ forall q m, selected exclude [] root q m -> clean_entry fault q m = true)
  /\ (err = None ->
       (forall te, te ∈ tw <-> exists q m, selected exclude [] root q m /\ te = entry_of q m)
       /\ bytes = u64 (sum_size (regulars (manifest exclude [] root)))).
Proof.
  intros Hn. destruct (createTarGz fault None (Ok root) exclude) as [[tw b] err] eqn:E. split.
  - rewrite <-readable_manifest, <-(tar_fold_None fault _ ([], 0)) by apply manifest_announced.
    rewrite createTarGz_events in E by done. by rewrite E.
  - intros ->. apply createTarGz_None in E as (_ & -> & ->); [|done]. split.
    + intros te. rewrite list_elem_of_In, in_map_iff. split.
      * intros ([q m] & <- & Hin%list_elem_of_In%visits_elem%manifest_selected). eauto.
      * intros (q & m & Hs%manifest_selected%visits_elem & ->). exists (q, m).
        by rewrite <-list_elem_of_In.
    + by rewrite fold_add_size.
Qed.

(** C32. The dry run and the real tar agree: when tar succeeds, the dry run
    succeeds, counts the non-directory entries of that archive, and, when those
    are all regular files, reports the same bytes. *)
Theorem dry_run_agrees fault exclude root tw bytes :
  names_ok root = true -> createTarGz fault None (Ok root) exclude = ((tw, bytes), None) ->
  exists b, walkCheckpoint (Ok root) exclude (dry_visit fault) (0, 0)
            = ((Z.of_nat (length (filter (fun te => te_kind te <> TDir) tw)), b), None)
  /\ ((forall te, te ∈ tw -> te_kind te = TDir \/ te_kind te = TReg) -> b = bytes).
Proof.
  intros Hn Ht. apply createTarGz_None in Ht as ([Hu Hc] & -> & ->); [|done].
  assert (Ha : forall q m, Visit q m ∈ manifest exclude [] root -> archivable m = true)
    by (intros q m Hin; pose proof (Hc q m Hin) as Hcl; by apply andb_true_iff in Hcl as [? _]).
  rewrite walkCheckpoint_events, dry_fold_clean; [|done| |done].
  - eexists. rewrite <-files_entries by done. rewrite Z.add_0_l. split; [done|]. intros Hk.
    f_equal. apply files_regulars. intros q m Hin. pose proof (Hc q m Hin) as Hcl. pose proof (Ha _ _ Hin) as Hm.
    rewrite <-(entry_of_dir q m Hm), <-(entry_of_regular q m Hm). apply Hk.
    apply list_elem_of_In, in_map_iff. exists (q, m). split; [done|].
    by apply list_elem_of_In, visits_elem.
  - intros q m Hin. right. pose proof (Hc q m Hin) as Hcl. unfold clean_entry in Hcl.
    apply andb_true_iff in Hcl as [_ Hcl]. simpl in Hcl. by destruct (fault (rel_path q) SInfo).
Qed.

(** A run that fails after MkdirAll: the archive it was writing is gone, and nothing
    else is changed. *)
Lemma checkpoint_fails fault env project backupRoot root max exclude dk dk' e :
  let archivePath := path_join [path_join [backupRoot; project]; archive_name project (stamp (env_now env))] in
  env_rm env archivePath = None -> env_mkdir env = None ->
  CreateCheckpoint fault env project backupRoot root max exclude false dk = (dk', Err e) ->
  forall d, dir_at d dk' = if decide (d = path_dir archivePath)
                           then base.delete (path_base archivePath) (dir_at d dk) else dir_at d dk.
Proof.
  cbv zeta. intros Hrm Hm. unfold CreateCheckpoint. rewrite Hm.
  set (ap := path_join [path_join [backupRoot; project]; _]) in *.
  destruct (MkdirAll_spec (path_join [backupRoot; project]) dk) as [_ Hmk].
  set (dk1 := MkdirAll _ dk) in *.
  destruct (createTarGz fault _ root exclude) as [[tw b] [e'|]]; [|done]. intros [= <- _] d.
  rewrite dir_at_remove by done. case_decide as Hd; destruct (create_error _ ap dk1);
    rewrite ?dir_at_write, ?Hmk; try done.
  - by rewrite decide_True, delete_insert_eq by done.
  - by rewrite decide_False by done.
Qed.

(** A run that succeeds, of a plainly named project: its directory has the archive
    and is rotated, and no other directory is changed. *)
Lemma checkpoint_succeeds fault env project backupRoot root max exclude dk dk' res :
  plain project ->
  CreateCheckpoint fault env project backupRoot root max exclude false dk = (dk', Ok res) ->
  let archiveDir := path_join [backupRoot; project] in
  let name := archive_name project (stamp (env_now env)) in
  exists tw, createTarGz fault None root exclude = ((tw, BytesBefore res), None)
  /\ (forall d, dir_at d dk' = if decide (d = archiveDir)
        then enforceRotation (env_readdir env) (fun n => env_rm env (path_join [archiveDir; n])) max
               (<[name := AFile tw (env_gzip env tw)]> (dir_at d dk))
        else dir_at d dk)
  /\ BytesAfter res = match env_stat env, dir_at archiveDir dk' !! name with
                      | None, Some (AFile _ s) => u64 s | _, _ => 0 end.
Proof.
  intros Hp. cbv zeta. destruct (archive_place backupRoot project (env_now env) Hp) as [Hd Hb].
  unfold CreateCheckpoint. destruct (env_mkdir env); [done|].
  destruct (MkdirAll_spec (path_join [backupRoot; project]) dk) as [_ Hmk].
  set (archiveDir := path_join [backupRoot; project]) in *. set (dk1 := MkdirAll archiveDir dk) in *.
  unfold file_at. set (ap := path_join [archiveDir; _]) in *. rewrite Hd, Hb.
  destruct (create_error (env_create env) ap dk1); [done|].
  destruct (createTarGz fault None root exclude) as [[tw b] [e|]]; [done|].
  intros [= <- <-]. exists tw. split_and!; [done| |done]. intros d.
  rewrite dir_at_alter by apply rotation_empty. rewrite dir_at_write, Hd, Hb, Hmk.
  by case_decide.
Qed.

(** Whatever its outcome, the checkpoint of a plainly named project changes no
    directory but the project's own, and of that no file but archives. *)
Lemma checkpoint_confined fault env project backupRoot root max exclude dryRun dk d :
  plain project -> d <> path_join [backupRoot; project] ->
  dir_at d (fst (CreateCheckpoint fault env project backupRoot root max exclude dryRun dk)) = dir_at d dk.
Proof.
  intros Hp Hdir. destruct (archive_place backupRoot project (env_now env) Hp) as [Hd _].
  unfold CreateCheckpoint. destruct dryRun; [by destruct (walkCheckpoint _ _ _ _) as [[n b] [e|]]|].
  destruct (env_mkdir env); [done|]. set (ap := path_join [path_join [backupRoot; project]; _]) in *.
  destruct (MkdirAll_spec (path_join [backupRoot; project]) dk) as [_ Hmk]. set (dk1 := MkdirAll _ dk) in *.
  assert (Hw : forall f, dir_at d (write_file ap f dk1) = dir_at d dk)
    by (intros f; by rewrite dir_at_write, Hd, decide_False, Hmk).
  destruct (createTarGz fault _ root exclude) as [[tw b] [e|]]; cbn [fst].
  - unfold os_remove. destruct (create_error _ ap dk1), (env_rm env ap); rewrite ?Hmk, ?Hw; try done;
      rewrite dir_at_alter, Hd, decide_False, ?Hmk, ?Hw by (done || apply delete_empty); done.
  - rewrite dir_at_alter, decide_False by (done || apply rotation_empty). apply Hw.
Qed.

(** No other such project's directory is the project's own. *)
Lemma checkpoint_other_dirs fault env project backupRoot root max exclude dryRun dk other :
  plain project -> plain other -> other <> project ->
  dir_at (path_join [backupRoot; other])
    (fst (CreateCheckpoint fault env project backupRoot root max exclude dryRun dk))
  = dir_at (path_join [backupRoot; other]) dk.
Proof. intros Hp Ho Hne. apply checkpoint_confined; [done|]. by intros ?%archive_dir_inj. Qed.

Lemma rotation_other rd rm max dir n : has_suffix n ".tgz" = false -> enforceRotation rd rm max dir !! n = dir !! n.
Proof.
  intros Hn. unfold enforceRotation. destruct (max <=? 0); [done|]. destruct rd; [done|]. cbv zeta.
  destruct (max <? _); [|done]. rewrite fold_remove_lookup, bool_decide_eq_false_2; [done|].
  intros Hin. assert (n ∈ archives dir) as [? _]%archives_elem; [|congruence].
  rewrite <-(take_drop (Z.to_nat (Z.of_nat (length (archives dir)) - max)) (archives dir)).
  apply elem_of_app. by left.
Qed.

Lemma checkpoint_only_archives fault env project backupRoot root max exclude dryRun dk n :
  plain project -> has_suffix n ".tgz" = false ->
  dir_at (path_join [backupRoot; project])
    (fst (CreateCheckpoint fault env project backupRoot root max exclude dryRun dk)) !! n
  = dir_at (path_join [backupRoot; project]) dk !! n.
Proof.
  intros Hp Hn. destruct (archive_place backupRoot project (env_now env) Hp) as [Hd Hb].
  assert (Hne : archive_name project (stamp (env_now env)) <> n).
  { intros E. rewrite <-E, archive_name_suffix in Hn. done. }
  unfold CreateCheckpoint. destruct dryRun; [by destruct (walkCheckpoint _ _ _ _) as [[k b] [e|]]|].
  destruct (env_mkdir env); [done|]. set (ap := path_join [path_join [backupRoot; project]; _]) in *.
  destruct (MkdirAll_spec (path_join [backupRoot; project]) dk) as [_ Hmk]. set (dk1 := MkdirAll _ dk) in *.
  assert (Hw : forall f, dir_at (path_join [backupRoot; project]) (write_file ap f dk1) !! n
                         = dir_at (path_join [backupRoot; project]) dk !! n)
    by (intros f; by rewrite dir_at_write, Hd, Hb, decide_True, lookup_insert_ne, Hmk).
  destruct (createTarGz fault _ root exclude) as [[tw b] [e|]]; cbn [fst].
  - unfold os_remove. destruct (create_error _ ap dk1), (env_rm env ap); rewrite ?Hmk, ?Hw; try done;
      rewrite dir_at_alter, Hd, Hb, decide_True, lookup_delete_ne, ?Hmk, ?Hw by (done || apply delete_empty); done.
  - rewrite dir_at_alter, decide_True, rotation_other by (done || apply rotation_empty). apply Hw.
Qed.

(** A dry run leaves the disk, and has nothing after it to measure. *)
Lemma checkpoint_dry fault env project backupRoot root max exclude dk :
  let '(dk', r) := CreateCheckpoint fault env project backupRoot root max exclude true dk in
  dk' = dk /\ forall res, r = Ok res -> BytesAfter res = 0.
Proof.
  unfold CreateCheckpoint. destruct (walkCheckpoint _ _ _ _) as [[n b] [e|]]; (split; [done|]); by intros res [= <-].
Qed.

(** A file system that takes the archive: createTarGz decides. *)
Lemma checkpoint_ok fault env project backupRoot root max exclude dk :
  plain project -> env_mkdir env = None -> env_create env = None ->
  dir_at (path_join [backupRoot; project]) dk !! archive_name project (stamp (env_now env)) <> Some ADir ->
  is_ok (snd (CreateCheckpoint fault env project backupRoot root max exclude false dk))
  = match createTarGz fault None root exclude with (_, None) => true | _ => false end.
Proof.
  intros Hp Hm Hc Hn. destruct (archive_place backupRoot project (env_now env) Hp) as [Hd Hb].
  unfold CreateCheckpoint. rewrite Hm, Hc.
  destruct (MkdirAll_spec (path_join [backupRoot; project]) dk) as [[dir Hdir] Hmk].
  set (archiveDir := path_join [backupRoot; project]) in *. set (dk1 := MkdirAll archiveDir dk) in *.
  set (ap := path_join [archiveDir; _]) in *.
  assert (Hce : create_error None ap dk1 = None).
  { unfold create_error. rewrite Hd, Hb, Hdir.
    assert (dir = dir_at archiveDir dk) as -> by (rewrite <-Hmk; unfold dir_at; by rewrite Hdir).
    by destruct (dir_at archiveDir dk !! _) as [[|]|] eqn:E. }
  rewrite Hce. by destruct (createTarGz fault None root exclude) as [[tw b] [e|]].
Qed.

(** A socket anywhere among the selected entries defeats the checkpoint: the
    real run fails, although the dry run of the same tree succeeds. *)
Lemma socket_fails_real_run env project backupRoot exclude root max dk q s :
  names_ok root = true -> selected exclude [] root q (Leaf KSocket s) ->
  readable_root root = true ->
  (forall p e es, ~ selected exclude [] root p (Dir (Some e) es)) ->
  let run := CreateCheckpoint (fun _ _ => None) env project backupRoot (Ok root) max exclude in
  is_ok (snd (run true dk)) = true /\ is_ok (snd (run false dk)) = false.
Proof.
  intros Hn Hs Hr Hd. cbn zeta. unfold CreateCheckpoint. split.
  - rewrite walkCheckpoint_events, dry_fold_clean; [done| |by right|done].
    intros e [[es ->]|(p & es & Hp)]%manifest_unreadable; [done|by eapply Hd].
  - destruct (env_mkdir env); [done|].
    destruct (createTarGz _ (create_error _ _ _) (Ok root) exclude) as [[tw b] [e|]] eqn:E; [done|].
    destruct (create_error _ _ _); [done|]. apply createTarGz_None in E as ([_ Hc] & _); [|done].
    by apply manifest_selected, Hc in Hs.
Qed.

(** A project path that is no directory itself, a symbolic link to one included
    (WalkDir takes Lstat of its root), is archived without one entry, and no error. *)
Lemma leaf_root_archives_nothing fault k s exclude :
  createTarGz fault None (Ok (Leaf k s)) exclude = (([], 0), None).
Proof. done. Qed.

(** The rotation of one directory, when the calls of the file system succeed. *)
Lemma rotation_keeps_newest max dir :
  let dir' := enforceRotation None (fun _ => None) max dir in
  archives dir' = kept max (archives dir)
  /\ (forall n, n ∉ archives dir \/ n ∈ archives dir' -> dir' !! n = dir !! n)
  /\ (forall old new, old ∈ archives dir -> old ∉ archives dir' -> new ∈ archives dir' ->
        String.le old new)
  /\ (0 < max -> Z.of_nat (length (archives dir')) = Z.min max (Z.of_nat (length (archives dir))))
  /\ (max <= 0 -> dir' = dir).
Proof.
  cbn zeta. rewrite rotation_archives. split_and!.
  - done.
  - intros n Hn. rewrite rotation_lookup. case_decide as Hd; [|done]. naive_solver.
  - intros old new Ho Hk Hnew. unfold kept in *. destruct (max <=? 0); [done|].
    set (k := Z.to_nat _) in *. pose proof (archives_sorted dir) as Hs.
    rewrite <-(take_drop k (archives dir)) in Hs, Ho. apply elem_of_app in Ho as [Ho|]; [|done].
    by eapply sorted_app_le.
  - intros Hm. unfold kept. rewrite (proj2 (Z.leb_gt _ _) Hm), length_drop. lia.
  - intros Hm. unfold enforceRotation. by rewrite (proj2 (Z.leb_le _ _) Hm).
Qed.

Lemma rotation_rm rm max dir : (forall n, rm n = None) -> enforceRotation None rm max dir = enforceRotation None (fun _ => None) max dir.
Proof.
  intros Hrm. assert (Hfold : forall l d0, fold_left (fun d a => remove_file rm a d) l d0
                 = fold_left (fun d a => remove_file (fun _ => None) a d) l d0).
  { induction l as [|a l IH]; intros d0; [done|]. cbn [fold_left]. rewrite IH.
    unfold remove_file at 2. by rewrite Hrm. }
  unfold enforceRotation. destruct (max <=? 0); [done|]. cbv zeta. by rewrite Hfold.
Qed.

Lemma archives_insert dir n es s :
  has_suffix n ".tgz" = true -> forall x, x ∈ archives (<[n := AFile es s]> dir) <-> x = n \/ x ∈ archives dir.
Proof.
  intros Hn x. rewrite !archives_elem. destruct (decide (x = n)) as [->|Hx].
  - split; [by left|]. intros _. split; [done|]. eexists _, _. apply lookup_insert_eq.
  - rewrite lookup_insert_ne by done. naive_solver.
Qed.

(** Archives of one project, by their names, in the order of their moments. *)
Lemma archive_name_le p c c' :
  civil_ok c = true -> civil_ok c' = true ->
  String.le (archive_name p (stamp c)) (archive_name p (stamp c')) <-> moment c <= moment c'.
Proof.
  intros Hc Hc'. assert (Hl : String.length (stamp c) = String.length (stamp c')).
  { unfold stamp. by rewrite !str_app_length, !digits_length. }
  unfold String.le, String.leb, archive_name.
  rewrite (compare_app p p), (compare_app "-" "-"), compare_app, stamp_compare by done.
  rewrite !compare_refl. unfold Z.le. destruct (moment c ?= moment c'); done.
Qed.

(** The archive a checkpoint wrote survives its own rotation unless archives that sort
    after it fill the directory. *)
Lemma new_archive_kept max dir n es s :
  has_suffix n ".tgz" = true -> (forall x, x ∈ archives dir -> String.le x n) ->
  n ∈ kept max (archives (<[n := AFile es s]> dir)).
Proof.
  intros Hn Hmax. apply kept_last; [apply archives_sorted|apply archives_NoDup|by apply archives_insert; [|left]|].
  intros x [->|Hx]%archives_insert; [reflexivity|by apply Hmax|done].
Qed.

(** C22. A successful checkpoint of a project whose name is one path element, on a
    file system that lists and removes, leaves the project's directory with the
    archive of what createTarGz wrote and, of all the archives there, the newest
    [max] (all of them when [max] is not positive): what it removed is older, by the
    wall clock of the names, than all it kept, the other files are as they were, and
    when none of the archives was stamped later than the new one, the new one is
    among those kept, and its size is the one reported. *)
Theorem checkpoint_keeps_newest fault env project backupRoot root max exclude dk dk' res :
  plain project -> env_readdir env = None -> (forall path, env_rm env path = None) ->
  CreateCheckpoint fault env project backupRoot root max exclude false dk = (dk', Ok res) ->
  let name := archive_name project (stamp (env_now env)) in
  exists tw, createTarGz fault None root exclude = ((tw, BytesBefore res), None)
  /\ let written := <[name := AFile tw (env_gzip env tw)]> (dir_at (path_join [backupRoot; project]) dk) in
     let dir' := dir_at (path_join [backupRoot; project]) dk' in
     archives dir' = kept max (archives written)
     /\ (0 < max -> Z.of_nat (length (archives dir')) = Z.min max (Z.of_nat (length (archives written))))
     /\ (forall n, n ∉ archives written \/ n ∈ archives dir' -> dir' !! n = written !! n)
     /\ (forall c c', civil_ok c = true -> civil_ok c' = true ->
          archive_name project (stamp c) ∈ archives written -> archive_name project (stamp c) ∉ archives dir' ->
          archive_name project (stamp c') ∈ archives dir' -> moment c < moment c')
     /\ (civil_ok (env_now env) = true ->
          (forall n, n ∈ archives (dir_at (path_join [backupRoot; project]) dk) ->
             exists c, n = archive_name project (stamp c) /\ civil_ok c = true /\ moment c <= moment (env_now env)) ->
          dir' !! name = Some (AFile tw (env_gzip env tw))
          /\ (env_stat env = None -> BytesAfter res = u64 (env_gzip env tw))).
Proof.
  intros Hp Hrd Hrm Hck. destruct (checkpoint_succeeds _ _ _ _ _ _ _ _ _ _ Hp Hck) as (tw & Ht & Hd & Hb).
  cbv zeta. exists tw. split; [done|]. rewrite Hd in Hb |- *. rewrite decide_True in Hb |- * by done.
  rewrite Hrd, rotation_rm in Hb |- * by auto.
  set (dir := dir_at _ dk) in *. set (name := archive_name project _) in *.
  destruct (rotation_keeps_newest max (<[name := AFile tw (env_gzip env tw)]> dir)) as (R1 & R2 & R3 & R4 & _).
  split_and!; [done..| |].
  - intros c c' Hc Hc' Hold Hno Hnew. pose proof (R3 _ _ Hold Hno Hnew) as Hle.
    apply archive_name_le in Hle; [|done..]. apply Z.le_neq. split; [done|]. intros Em.
    assert (Hge : String.le (archive_name project (stamp c')) (archive_name project (stamp c)))
      by (apply archive_name_le; [done..|lia]).
    apply Hno. by rewrite (anti_symm String.le _ _ (R3 _ _ Hold Hno Hnew) Hge).
  - intros Hc Hall. assert (Hk : name ∈ archives (enforceRotation None (fun _ => None) max
      (<[name := AFile tw (env_gzip env tw)]> dir))).
    { rewrite R1. apply new_archive_kept; [apply archive_name_suffix|].
      intros x (cx & -> & Hcx & Hm)%Hall. by apply archive_name_le. }
    assert (Hl := R2 name (or_intror Hk)). rewrite lookup_insert_eq in Hl. split; [done|].
    intros Hst. by rewrite Hb, Hst, Hl.
Qed.

(** On a file system that lists and removes, no run leaves more archives than the
    rotation allows, or than there were. *)
Lemma checkpoint_bounded fault env project backupRoot root max exclude dryRun dk :
  plain project -> env_readdir env = None -> (forall path, env_rm env path = None) -> 0 < max ->
  Z.of_nat (length (archives (dir_at (path_join [backupRoot; project])
    (fst (CreateCheckpoint fault env project backupRoot root max exclude dryRun dk)))))
  <= Z.max max (Z.of_nat (length (archives (dir_at (path_join [backupRoot; project]) dk)))).
Proof.
  intros Hp Hrd Hrm Hm. set (run := CreateCheckpoint fault env project backupRoot root max exclude).
  destruct dryRun.
  { pose proof (checkpoint_dry fault env project backupRoot root max exclude dk) as Hd. fold run in Hd.
    destruct (run true dk) as [dk' r]. destruct Hd as [-> _]. cbn [fst]. lia. }
  destruct (run false dk) as [dk' [res|e]] eqn:E; cbn [fst].
  - destruct (checkpoint_succeeds _ _ _ _ _ _ _ _ _ _ Hp E) as (tw & _ & Hd & _).
    rewrite Hd, decide_True, Hrd, rotation_rm by auto. set (dir := <[_ := _]> _).
    destruct (rotation_keeps_newest max dir) as (_ & _ & _ & R & _). specialize (R Hm). lia.
  - destruct (env_mkdir env) as [e'|] eqn:Hmk.
    { unfold run, CreateCheckpoint in E. rewrite Hmk in E. injection E as <- _. lia. }
    rewrite (checkpoint_fails _ _ _ _ _ _ _ _ _ _ (Hrm _) Hmk E). case_decide; [|lia].
    etrans; [|apply Z.le_max_r]. apply inj_le, submseteq_length, NoDup_submseteq; [apply archives_NoDup|].
    intros x (Hs & es & s & [_ Hl]%lookup_delete_Some)%archives_elem. apply archives_elem. by eauto.
Qed.

(** When archives stamped later than the new one fill the directory (the wall clock
    went back, as it does for an hour in autumn), the rotation removes the archive
    just written, and the checkpoint is a success all the same. *)
Lemma set_back_clock_loses_archive fault env project backupRoot root max exclude dk dk' res :
  plain project -> env_readdir env = None -> (forall path, env_rm env path = None) ->
  CreateCheckpoint fault env project backupRoot root max exclude false dk = (dk', Ok res) ->
  let name := archive_name project (stamp (env_now env)) in
  let dir := dir_at (path_join [backupRoot; project]) dk in
  name ∉ kept max (archives (<[name := AFile [] 0]> dir)) ->
  dir_at (path_join [backupRoot; project]) dk' !! name = None /\ BytesAfter res = 0.
Proof.
  intros Hp Hrd Hrm Hck. destruct (checkpoint_succeeds _ _ _ _ _ _ _ _ _ _ Hp Hck) as (tw & _ & Hd & Hb).
  cbv zeta. rewrite Hd in Hb |- *. rewrite decide_True, Hrd, rotation_rm in Hb |- * by auto.
  set (dir := dir_at _ dk) in *. set (name := archive_name project _) in *. intros Hn.
  assert (Ha : archives (<[name := AFile tw (env_gzip env tw)]> dir) = archives (<[name := AFile [] 0]> dir)).
  { apply (StronglySorted_unique String.le); [apply archives_sorted..|].
    apply NoDup_Permutation; [apply archives_NoDup..|]. intros x.
    by rewrite !archives_insert by apply archive_name_suffix. }
  assert (Hl : enforceRotation None (fun _ => None) max (<[name := AFile tw (env_gzip env tw)]> dir) !! name = None).
  { rewrite rotation_lookup, Ha, decide_True; [done|]. split; [|done].
    apply archives_insert; [apply archive_name_suffix|by left]. }
  split; [done|]. rewrite Hb, Hl. by destruct (env_stat env).
Qed.

(** A checkpoint keeps to its own files. A dry run changes nothing. A failed run
    removes the archive it was writing and leaves every other file of every
    directory as it was. And whatever its outcome, the run of a project whose name
    is one path element changes no directory but the project's own, which no other
    such project shares. *)
Lemma checkpoint_keeps_to_its_own fault env project backupRoot root max exclude dryRun dk :
  let archivePath := path_join [path_join [backupRoot; project]; archive_name project (stamp (env_now env))] in
  env_rm env archivePath = None ->
  let '(dk', r) := CreateCheckpoint fault env project backupRoot root max exclude dryRun dk in
  (dryRun = true -> dk' = dk)
  /\ (is_ok r = false ->
       (forall d n, d <> path_dir archivePath \/ n <> path_base archivePath -> dir_at d dk' !! n = dir_at d dk !! n)
       /\ (dryRun = false -> env_mkdir env = None -> file_at archivePath dk' = None))
  /\ (plain project -> forall other, plain other -> other <> project ->
       dir_at (path_join [backupRoot; other]) dk' = dir_at (path_join [backupRoot; other]) dk).
Proof.
  cbv zeta. intros Hrm. set (ap := path_join [path_join [backupRoot; project]; _]) in *.
  pose proof (checkpoint_other_dirs fault env project backupRoot root max exclude dryRun dk) as Hother.
  destruct (CreateCheckpoint fault env project backupRoot root max exclude dryRun dk) as [dk' r] eqn:E.
  split_and!; [|intros Hf|by intros Hp other Ho Hne; apply Hother].
  { intros ->. unfold CreateCheckpoint in E. destruct (walkCheckpoint _ _ _ _) as [[n b] [e|]]; by simplify_eq. }
  destruct dryRun.
  { unfold CreateCheckpoint in E. destruct (walkCheckpoint _ _ _ _) as [[n b] [e|]]; by simplify_eq. }
  destruct r as [res|e]; [done|]. destruct (env_mkdir env) as [e'|] eqn:Hm.
  { unfold CreateCheckpoint in E. rewrite Hm in E. by simplify_eq. }
  pose proof (checkpoint_fails _ _ _ _ _ _ _ _ _ _ Hrm Hm E) as Hd. fold ap in Hd. split.
  - intros d n Hdn. rewrite Hd. case_decide; [|done]. rewrite lookup_delete_ne; [done|]. naive_solver.
  - intros _ _. unfold file_at. rewrite Hd, decide_True by done. apply lookup_delete_eq.
Qed.

(** * The properties at concrete inputs *)

(** A project with a pruned directory, an object file and a symlink. *)
Definition sample : node :=
  Dir None [(".git", Dir (Some "unreadable") [("HEAD", Leaf KRegular 5)]);
            ("a.go", Leaf KRegular 120);
            ("a.o", Leaf KRegular 999);
            ("lib", Dir None [("models", Dir None [("w", Leaf KRegular 7)]);
                              ("x.py", Leaf KRegular 30)])].

Definition with_socket : node := Dir None [("a.go", Leaf KRegular 120); ("d.sock", Leaf KSocket 0)].

(** The first days of a year, and a disk with archives of two projects. *)
Definition on_day (d : Z) : Env :=
  mkEnv (mkCivil 2026 1 d 0 0 0) None None None (fun _ => None) None (fun _ => 64) 5.
Definition sample_env : Env := on_day 1.

Definition old_dir : adir := <["p-20250101-000000.tgz" := AFile [] 10]> {["notes.txt" := AFile [] 3]}.
Definition old_disk : disk := <["/b/q" := {["q-20250101-000000.tgz" := AFile [] 9]}]> {["/b/p" := old_dir]}.

(** Names are not required to be one path element. With a slash in the name the
    archive's own name has one, and every checkpoint fails for want of a directory. *)
Lemma slashed_name_never_archived fault root max exclude :
  is_ok (snd (CreateCheckpoint fault sample_env "fleet/obs" "/b" root max exclude false ∅)) = false.
Proof. unfold CreateCheckpoint. vm_compute (env_mkdir _). cbv iota zeta. vm_compute (create_error _ _ _). done. Qed.

(** With a dot in it a project shares another's directory, and its rotation removes
    the other's archives. *)
Lemma dotted_name_shares_directory :
  let run p d dk := fst (CreateCheckpoint (fun _ _ => None) (on_day d) p "/b" (Ok (Dir None [])) 1 [] false dk) in
  archives (dir_at "/b/p" (run "p" 1 ∅)) = ["p-20260101-000000.tgz"]
  /\ archives (dir_at "/b/p" (run "./p" 2 (run "p" 1 ∅))) = ["p-20260102-000000.tgz"].
Proof. split; vm_compute; reflexivity. Qed.

Lemma createTarGz_exact_witness :
  map te_name (fst (fst (createTarGz (fun _ _ => None) None (Ok sample) ["/models/"])))
    = ["a.go"; "lib"; "lib/x.py"]
  /\ snd (fst (createTarGz (fun _ _ => None) None (Ok sample) ["/models/"]))
     = u64 (sum_size (regulars (manifest ["/models/"] [] sample))).
Proof.
  split; [vm_compute; reflexivity|].
  exact (proj2 (proj2 (createTarGz_exact (fun _ _ => None) ["/models/"] sample eq_refl) eq_refl)).
Defined.

Lemma dry_run_agrees_witness :
  exists b, walkCheckpoint (Ok sample) [] (dry_visit (fun _ _ => None)) (0, 0) = ((3, b), None).
Proof.
  destruct (dry_run_agrees (fun _ _ => None) [] sample _ _ eq_refl eq_refl) as (b & Hb & _).
  exists b. rewrite Hb. reflexivity.
Defined.

(** One archive is kept of two, the new one. *)
Definition w_run := CreateCheckpoint (fun _ _ => None) sample_env "p" "/b" (Ok sample) 1 [] false old_disk.
Lemma w_plain : plain "p".
Proof. by split_and!. Qed.
Lemma w_run_ok : match w_run with (_, Ok _) => True | _ => False end.
Proof. vm_compute. exact I. Qed.

Lemma length_pos (x : string) l : x ∈ l -> Z.of_nat 1 <= Z.of_nat (length l).
Proof. destruct l; [by intros ?%elem_of_nil|cbn [length]; lia]. Qed.

Lemma checkpoint_keeps_newest_witness :
  exists dk' res, w_run = (dk', Ok res) /\ length (archives (dir_at "/b/p" dk')) = 1%nat.
Proof.
  destruct w_run as [dk' [res|e]] eqn:E; [|exfalso; pose proof w_run_ok as H; rewrite E in H; exact H].
  exists dk', res. split; [reflexivity|].
  destruct (checkpoint_keeps_newest (fun _ _ => None) sample_env "p" "/b" (Ok sample) 1 [] old_disk dk' res
    w_plain eq_refl (fun _ => eq_refl) E)
    as (tw & _ & _ & Hlen & _). apply Nat2Z.inj.
  refine (eq_trans (Hlen ltac:(lia)) _). apply Z.min_l.
  assert (Ed : dir_at (path_join ["/b"; "p"]) old_disk = old_dir) by (vm_compute; reflexivity). rewrite Ed.
  assert (Hin : forall n es s, has_suffix n ".tgz" = true ->
    "p-20250101-000000.tgz" ∈ archives (<[n := AFile es s]> old_dir)).
  { intros n es s Hs. apply archives_insert; [exact Hs|right]. apply archives_elem.
    split; [reflexivity|]. eexists _, _. apply lookup_insert_eq. }
  eapply length_pos, Hin, archive_name_suffix.
Defined.

End backup.
