(* ===== verification/Config.v ===== *)
(** config: the daemon's configuration, its roots, its project roster and the
    drop-in fragments.

    viper, the YAML files and the environment are inputs of [Load]; what the Go
    code does with them is defined here. A warning is a value that carries the
    arguments of the message the code formats. *)

From S2P Require Import Prelude GoStrings GoPath.

Module config.

(** * The configuration *)

Record DaemonConfig := mkDaemonConfig { ControlPort : Z; PidFile : string }.
Record LLMProviderConfig := mkLLMProviderConfig { lp_Name : string; lp_Type : string; lp_URL : string }.
Record LLMDiscoveryConfig := mkLLMDiscoveryConfig { Providers : list LLMProviderConfig }.
Record KafkaConfig := mkKafkaConfig {
  Brokers : list string; SchemaRegistryURL : string; Topic : string
}.
Record AgentSkillsConfig := mkAgentSkillsConfig { Enabled : bool; ExposeVia : list string }.

Record SystemConfig := mkSystemConfig {
  MonitorRoot : string;
  DaemonRoot : string;
  BackupsRoot : string;
  ConfigRoot : string;
  AgentSkills : AgentSkillsConfig;
  Daemon : DaemonConfig;
  LLMDiscovery : LLMDiscoveryConfig;
  Kafka : KafkaConfig
}.

Record BackupRotationConfig := mkBackupRotationConfig { MaxArchives : Z }.
Record BackupConfig := mkBackupConfig {
  CheckInterval : string; Rotation : BackupRotationConfig; Exclude : list string
}.
Record DeployConfig := mkDeployConfig { d_Kind : string; d_Deployment : string; d_Command : list string }.
Record ProjectConfig := mkProjectConfig {
  Name : string; Path : string; Essential : bool; Deploy : DeployConfig; Backup : BackupConfig;
  Kind : string
}.

Inductive warning :=
| WReason (reason err : string)                              (* "%s: %v" *)
| WDropped (i : nat) (name : string) (errs : list string)    (* project[%d] (%q) dropped: %s *)
| WDuplicate (name : string)
| WDirUnreadable (dir err : string)
| WFragmentSkipped (name err : string).

Record DelightConfig := mkDelightConfig {
  System : SystemConfig;
  Projects : list ProjectConfig;
  Degraded : bool;
  LoadWarnings : list warning
}.

Definition DefaultControlPort : Z := 8088.

Definition ResolveControlPort (d : DaemonConfig) : Z :=
  if ControlPort d =? 0 then DefaultControlPort else ControlPort d.

Definition DefaultInstallRoot : string := "~/mesh/prod".
Definition DefaultDaemonRoot : string := "~/var".
Definition DefaultConfigRoot : string := "~/etc".

(** * The roots *)

(** os.Getenv (empty when unset) and os.UserHomeDir. *)
Record Environ := mkEnviron { getenv : string -> string; home : option string }.

Definition expandHome (env : Environ) (path : string) : string :=
  if String.eqb path "~" || has_prefix path "~/"
  then match home env with
       | Some h => path_join [h; trim_prefix path "~"]
       | None => path
       end
  else path.

Definition ResolveRoots (env : Environ) (s : SystemConfig) : SystemConfig :=
  let monitor :=
    if String.eqb (MonitorRoot s) EmptyString
    then let ir := getenv env "DELIGHT_INSTALL_ROOT" in
         if String.eqb ir EmptyString then DefaultInstallRoot else ir
    else MonitorRoot s in
  let daemon := if String.eqb (DaemonRoot s) EmptyString then DefaultDaemonRoot else DaemonRoot s in
  let conf := if String.eqb (ConfigRoot s) EmptyString then DefaultConfigRoot else ConfigRoot s in
  let daemon' := expandHome env daemon in
  let backups := if String.eqb (BackupsRoot s) EmptyString
                 then path_join [daemon'; "backups"] else BackupsRoot s in
  mkSystemConfig (expandHome env monitor) daemon' (expandHome env backups) (expandHome env conf)
    (AgentSkills s) (Daemon s) (LLMDiscovery s) (Kafka s).

(** * The roster *)

Definition markDegraded (c : DelightConfig) (w : warning) : DelightConfig :=
  mkDelightConfig (System c) (Projects c) true (LoadWarnings c ++ [w]).

Definition set_projects (c : DelightConfig) (ps : list ProjectConfig) : DelightConfig :=
  mkDelightConfig (System c) ps (Degraded c) (LoadWarnings c).

Definition set_system (c : DelightConfig) (s : SystemConfig) : DelightConfig :=
  mkDelightConfig s (Projects c) (Degraded c) (LoadWarnings c).

Definition projectStructuralErrors (p : ProjectConfig) : list string :=
  (if String.eqb (trim_space (Name p)) EmptyString then ["empty name"] else []) ++
  (if String.eqb (trim_space (Path p)) EmptyString then ["empty path"] else []).

Definition ProjectsDir (env : Environ) (c : DelightConfig) : string :=
  let d := getenv env "DELIGHT_PROJECTS_DIR" in
  if String.eqb d EmptyString
  then path_join [ConfigRoot (System c); "delightd"; "projects.d"] else d.

(** The loop of validateProjects from index [i], with the names seen. *)
Fixpoint validate_loop (i : nat) (seen : gset string) (ps : list ProjectConfig) (c : DelightConfig)
    : DelightConfig * list ProjectConfig :=
  match ps with
  | [] => (c, [])
  | p :: r =>
      match projectStructuralErrors p with
      | _ :: _ as errs => validate_loop (S i) seen r (markDegraded c (WDropped i (Name p) errs))
      | [] =>
          if decide (Name p ∈ seen)
          then validate_loop (S i) seen r (markDegraded c (WDuplicate (Name p)))
          else let '(c', valid) := validate_loop (S i) ({[Name p]} ∪ seen) r c in (c', p :: valid)
      end
  end.

Definition validateProjects (c : DelightConfig) : DelightConfig * list ProjectConfig :=
  validate_loop 0 ∅ (Projects c) c.

(** * Fragments *)

Definition isYAMLName (name : string) : bool := has_suffix name ".yaml" || has_suffix name ".yml".

(** os.ReadDir of the drop-in directory. *)
Inductive readdir := DirMissing | DirError (e : string) | DirEntries (es : list (string * bool)).

(** An isolated viper on a fragment: the error of reading it, and what Unmarshal gives. *)
Record FragmentViper := mkFragmentViper {
  fv_read : option string; fv_unmarshal : result string ProjectConfig
}.

Section fragments.
Variable viper_at : string -> FragmentViper.

Definition ParseFragment (path : string) : result string ProjectConfig :=
  let v := viper_at path in
  match fv_read v with
  | Some e => Err ("reading fragment: " +:+ e)
  | None => match fv_unmarshal v with
            | Err e => Err ("parsing fragment: " +:+ e)
            | Ok p => Ok p
            end
  end.

Fixpoint load_fragments (dir : string) (es : list (string * bool))
    : list ProjectConfig * list warning :=
  match es with
  | [] => ([], [])
  | (name, is_dir) :: r =>
      if is_dir || negb (isYAMLName name) then load_fragments dir r
      else match ParseFragment (path_join [dir; name]) with
           | Err e => let '(ps, ws) := load_fragments dir r in (ps, WFragmentSkipped name e :: ws)
           | Ok p => let '(ps, ws) := load_fragments dir r in (p :: ps, ws)
           end
  end.

Definition LoadProjectFragments (rd : readdir) (dir : string) : list ProjectConfig * list warning :=
  match rd with
  | DirMissing => ([], [])
  | DirError e => ([], [WDirUnreadable dir e])
  | DirEntries es => load_fragments dir es
  end.

(** What os.Stat says of a project path and of its .git. *)
Inductive stat := StatMissing | StatFile | StatDir.

Inductive lint_warning := LNotFound (p : string) | LNotDir (p : string) | LNotGit (p : string).

Record LintResult := mkLintResult {
  lr_Path : string; lr_Valid : bool; lr_Project : option ProjectConfig;
  lr_Errors : list string; lr_Warnings : list lint_warning
}.

Definition LintFragment (os_stat : string -> stat) (path : string) : LintResult :=
  match ParseFragment path with
  | Err e => mkLintResult path false None [e] []
  | Ok p =>
      let errs := projectStructuralErrors p in
      let pp := trim_space (Path p) in
      mkLintResult path (match errs with [] => true | _ => false end) (Some p) errs
        (if String.eqb pp EmptyString then []
         else match os_stat pp with
              | StatMissing => [LNotFound pp]
              | StatFile => [LNotDir pp]
              | StatDir => match os_stat (path_join [pp; ".git"]) with
                           | StatMissing => [LNotGit pp]
                           | _ => []
                           end
              end)
  end.

(** * Load *)

Inductive read_config := ReadOk | ReadNotFound | ReadFailed (e : string).

(** What viper answers: a failed BindEnv, ReadInConfig, and the sections
    Unmarshal filled in with the error it stopped at. *)
Record Viper := mkViper {
  v_bind : option string;
  v_read : read_config;
  v_system : SystemConfig;
  v_projects : list ProjectConfig;
  v_unmarshal : option string
}.

Definition Load (env : Environ) (v : Viper) (ReadDir : string -> readdir) : result string DelightConfig :=
  match v_bind v with
  | Some e => Err e
  | None =>
      let cfg0 := mkDelightConfig (v_system v) (v_projects v) false [] in
      let cfg1 := match v_read v with
                  | ReadFailed e => markDegraded cfg0 (WReason "config parse failed" e)
                  | _ => cfg0
                  end in
      let cfg2 := match v_unmarshal v with
                  | Some e => markDegraded cfg1 (WReason "config unmarshal failed" e)
                  | None => cfg1
                  end in
      let cfg3 := set_system cfg2 (ResolveRoots env (System cfg2)) in
      let dir := ProjectsDir env cfg3 in
      let '(frags, ws) := LoadProjectFragments (ReadDir dir) dir in
      let cfg4 := set_projects cfg3 (Projects cfg3 ++ frags) in
      let cfg5 := fold_left markDegraded ws cfg4 in
      let '(cfg6, valid) := validateProjects cfg5 in
      Ok (set_projects cfg6 valid)
  end.

End fragments.

(** * Reference definitions *)

Definition structurally_sound (p : ProjectConfig) : bool :=
  match projectStructuralErrors p with [] => true | _ => false end.

(** Keep, of each name, the first sound entry. *)
Fixpoint first_of_each (ps : list ProjectConfig) : list ProjectConfig :=
  match ps with
  | [] => []
  | p :: r => if structurally_sound p
              then p :: filter (fun q => Name q <> Name p) (first_of_each r)
              else first_of_each r
  end.

Definition drop_of (seen : gset string) (i : nat) (p : ProjectConfig) : option warning :=
  match projectStructuralErrors p with
  | _ :: _ as errs => Some (WDropped i (Name p) errs)
  | [] => if decide (Name p ∈ seen) then Some (WDuplicate (Name p)) else None
  end.

(** * Lemmas *)

Lemma mark_all_fields c ws :
  let c' := fold_left markDegraded ws c in
  System c' = System c /\ Projects c' = Projects c /\ LoadWarnings c' = LoadWarnings c ++ ws
  /\ Degraded c' = (if decide (ws = []) then Degraded c else true).
Proof.
  revert c. induction ws as [|w ws IH]; intros c; simpl.
  - by rewrite app_nil_r.
  - destruct (IH (markDegraded c w)) as (E1 & E2 & E3 & E4). rewrite E1, E2, E3, E4.
    simpl. rewrite <-app_assoc. split_and!; [done..|]. by case_decide.
Qed.

Lemma validate_loop_fields i seen ps c :
  let '(c', valid) := validate_loop i seen ps c in
  System c' = System c /\ Projects c' = Projects c
  /\ exists ws, LoadWarnings c' = LoadWarnings c ++ ws
                /\ Degraded c' = (if decide (ws = []) then Degraded c else true)
                /\ (length ws + length valid = length ps)%nat.
Proof.
  revert i seen c. induction ps as [|p ps IH]; intros i seen c; cbn [validate_loop].
  { split_and!; [done..|]. exists []. by rewrite app_nil_r. }
  assert (Hmark : forall w, let '(c', valid) := validate_loop (S i) seen ps (markDegraded c w) in
    System c' = System c /\ Projects c' = Projects c
    /\ exists ws, LoadWarnings c' = LoadWarnings c ++ ws
                  /\ Degraded c' = (if decide (ws = []) then Degraded c else true)
                  /\ (length ws + length valid = length (p :: ps))%nat).
  { intros w. specialize (IH (S i) seen (markDegraded c w)).
    destruct (validate_loop (S i) seen ps (markDegraded c w)) as [c' valid].
    destruct IH as (E1 & E2 & ws & E3 & E4 & E5). split_and!; [done..|].
    exists (w :: ws). split_and!; [|by rewrite E4; case_decide|simpl; lia].
    rewrite E3. simpl. by rewrite <-app_assoc. }
  destruct (projectStructuralErrors p); [|apply Hmark].
  destruct (decide (Name p ∈ seen)); [apply Hmark|].
  specialize (IH (S i) ({[Name p]} ∪ seen) c).
  destruct (validate_loop (S i) ({[Name p]} ∪ seen) ps c) as [c' valid].
  destruct IH as (E1 & E2 & ws & E3 & E4 & E5). split_and!; [done..|].
  exists ws. split_and!; [done..|]. simpl. lia.
Qed.

Lemma validate_loop_valid i seen ps c :
  snd (validate_loop i seen ps c) = filter (fun p => Name p ∉ seen) (first_of_each ps).
Proof.
  revert i seen c. induction ps as [|p ps IH]; intros i seen c; cbn [validate_loop first_of_each]; [done|].
  unfold structurally_sound. destruct (projectStructuralErrors p) as [|e es]; [|apply IH].
  rewrite filter_cons. destruct (decide (Name p ∈ seen)) as [Hs|Hs].
  - rewrite decide_False by tauto. rewrite IH, list_filter_filter.
    apply list_filter_iff. intros q. split; [|tauto]. intros Hq. split; [done|]. congruence.
  - rewrite decide_True by done. specialize (IH (S i) ({[Name p]} ∪ seen) c).
    destruct (validate_loop (S i) ({[Name p]} ∪ seen) ps c) as [c' valid]. simpl in *.
    f_equal. rewrite IH, list_filter_filter. apply list_filter_iff. set_solver.
Qed.

Lemma first_of_each_names ps : NoDup (Name <$> first_of_each ps).
Proof.
  induction ps as [|p ps IH]; cbn [first_of_each]; [constructor|].
  destruct (structurally_sound p); [|done]. rewrite fmap_cons. constructor.
  - intros (q & Hq & Hin)%list_elem_of_fmap. apply list_elem_of_filter in Hin as [Hn _]. congruence.
  - eapply sublist_NoDup; [exact IH|]. apply fmap_sublist, sublist_filter.
Qed.

Lemma first_of_each_elem ps p :
  p ∈ first_of_each ps <->
  exists l1 l2, ps = l1 ++ p :: l2 /\ structurally_sound p = true
    /\ forall q, q ∈ l1 -> structurally_sound q = true -> Name q <> Name p.
Proof.
  induction ps as [|x ps IH]; cbn [first_of_each].
  { split; [by intros ?%elem_of_nil|]. by intros ([|? ?] & l2 & ? & _). }
  assert (Hstep : (exists l1 l2, x :: ps = l1 ++ p :: l2 /\ structurally_sound p = true
                    /\ forall q, q ∈ l1 -> structurally_sound q = true -> Name q <> Name p)
          <-> (p = x /\ structurally_sound p = true)
              \/ ((structurally_sound x = true -> Name x <> Name p) /\ p ∈ first_of_each ps)).
  { rewrite IH. split.
    - intros ([|y l1] & l2 & E & Hs & Hn); simplify_eq/=; [by left|]. right. split.
      + intros Hx. apply Hn; [by left|done].
      + exists l1, l2. split_and!; [done..|]. intros q Hq. apply Hn. by right.
    - intros [[-> Hs]|[Hx (l1 & l2 & -> & Hs & Hn)]].
      + exists [], ps. split_and!; [done..|]. by intros q ?%elem_of_nil.
      + exists (x :: l1), l2. split_and!; [done..|]. intros q [->|Hq]%elem_of_cons; [done|by apply Hn]. }
  rewrite Hstep. destruct (structurally_sound x) eqn:Ex.
  - rewrite elem_of_cons, list_elem_of_filter. split.
    + intros [->|[Hn Hin]]; [by left|]. right. split; [congruence|done].
    + intros [[-> _]|[Hn Hin]]; [by left|]. right. split; [|done].
      intros He. by apply (Hn eq_refl).
  - split; [by right|]. intros [[-> Hs]|[_ Hin]]; [congruence|done].
Qed.

Lemma filter_seen_empty (seen : gset string) (l : list ProjectConfig) :
  seen = ∅ -> filter (fun p => Name p ∉ seen) l = l.
Proof.
  intros Hs. induction l as [|p l IH]; [done|].
  rewrite filter_cons_True by (subst; set_solver). by rewrite IH.
Qed.

Lemma load_fragments_warnings pf dir es :
  snd (load_fragments pf dir es) = []
  <-> forall name, (name, false) ∈ es -> isYAMLName name = true -> is_ok (ParseFragment pf (path_join [dir; name])) = true.
Proof.
  induction es as [|[n d] es IH]; cbn [load_fragments].
  { split; [|done]. by intros _ n ?%elem_of_nil. }
  assert (Hskip : d || negb (isYAMLName n) = true ->
    (forall name, (name, false) ∈ es -> isYAMLName name = true -> is_ok (ParseFragment pf (path_join [dir; name])) = true)
    <-> (forall name, (name, false) ∈ (n, d) :: es -> isYAMLName name = true ->
           is_ok (ParseFragment pf (path_join [dir; name])) = true)).
  { intros Hd. split; intros Hf name Hin Hy.
    - apply elem_of_cons in Hin as [[= -> <-]|Hin]; [by rewrite Hy in Hd|by apply Hf].
    - apply Hf; [by right|done]. }
  destruct (d || negb (isYAMLName n)) eqn:Ed; [by rewrite IH, Hskip|].
  apply orb_false_iff in Ed as [-> Hy%negb_false_iff].
  destruct (ParseFragment pf (path_join [dir; n])) as [p|e] eqn:Ep;
    destruct (load_fragments pf dir es) as [ps ws]; simpl in *.
  - rewrite IH. split; intros Hf name Hin Hy'.
    + apply elem_of_cons in Hin as [[= ->]|Hin]; [by rewrite Ep|by apply Hf].
    + apply Hf; [by right|done].
  - split; [done|]. intros Hf. specialize (Hf n ltac:(by left) Hy). by rewrite Ep in Hf.
Qed.

(** ** Roots *)

(** A path that expandHome leaves alone. *)
Definition no_tilde (p : string) : bool := negb (String.eqb p "~" || has_prefix p "~/").

Lemma expandHome_no_tilde env p : no_tilde p = true -> expandHome env p = p.
Proof. unfold no_tilde, expandHome. intros H%negb_true_iff. by rewrite H. Qed.

Lemma rooted_no_tilde p : is_rooted p = true -> no_tilde p = true.
Proof. unfold is_rooted. intros (r & ->)%has_prefix_spec. done. Qed.

Lemma path_join_nonempty x l : x <> EmptyString -> path_join (x :: l) <> EmptyString.
Proof.
  intros Hx. cbn [path_join]. apply String.eqb_neq in Hx. rewrite Hx. apply clean_nonempty.
Qed.

Lemma is_rooted_nonempty h : is_rooted h = true -> h <> EmptyString.
Proof. by intros H ->. Qed.

Lemma path_join_rooted h x : is_rooted h = true -> is_rooted (path_join [h; x]) = true.
Proof.
  intros Hh. cbn [path_join]. rewrite (proj2 (String.eqb_neq h EmptyString) (is_rooted_nonempty h Hh)).
  apply clean_rooted. unfold is_rooted in *. apply has_prefix_spec in Hh as (r & ->).
  cbn [join]. rewrite <-str_app_assoc. apply has_prefix_app.
Qed.

Section roots.
Variable env : Environ.
Hypothesis home_rooted : forall h, home env = Some h -> is_rooted h = true.

Lemma expandHome_idem p : expandHome env (expandHome env p) = expandHome env p.
Proof.
  destruct (no_tilde p) eqn:E; [by rewrite !(expandHome_no_tilde env p)|].
  unfold no_tilde in E. apply negb_false_iff in E. unfold expandHome at 2 3. rewrite E.
  destruct (home env) as [h|] eqn:Eh.
  - by apply expandHome_no_tilde, rooted_no_tilde, path_join_rooted, home_rooted.
  - unfold expandHome. by rewrite E, Eh.
Qed.

Lemma expandHome_nonempty p : p <> EmptyString -> expandHome env p <> EmptyString.
Proof.
  intros Hp. unfold expandHome. destruct (String.eqb p "~" || has_prefix p "~/"); [|done].
  destruct (home env) as [h|] eqn:Eh; [|done].
  by apply path_join_nonempty, is_rooted_nonempty, home_rooted.
Qed.

Lemma default_nonempty p d :
  d <> EmptyString -> (if String.eqb p EmptyString then d else p) <> EmptyString.
Proof. intros Hd. by destruct (String.eqb_spec p EmptyString). Qed.

Lemma ResolveRoots_nonempty s :
  let s' := ResolveRoots env s in
  MonitorRoot s' <> EmptyString /\ DaemonRoot s' <> EmptyString
  /\ BackupsRoot s' <> EmptyString /\ ConfigRoot s' <> EmptyString.
Proof.
  intros s'. unfold s', ResolveRoots. cbv zeta. cbn [MonitorRoot DaemonRoot BackupsRoot ConfigRoot].
  split_and!; apply expandHome_nonempty.
  - destruct (String.eqb_spec (MonitorRoot s) EmptyString); [by apply default_nonempty|done].
  - by apply default_nonempty.
  - apply default_nonempty, path_join_nonempty, expandHome_nonempty. by apply default_nonempty.
  - by apply default_nonempty.
Qed.

End roots.

(** One entry per name: one machine and one goroutine each. *)
Lemma Load_names pf env v ReadDir cfg :
  Load pf env v ReadDir = Ok cfg -> NoDup (Name <$> Projects cfg).
Proof.
  unfold Load. destruct (v_bind v); [done|]. cbv zeta. destruct (LoadProjectFragments _ _ _) as [frags ws].
  set (c := fold_left markDegraded ws _). pose proof (validate_loop_valid 0 ∅ (Projects c) c) as Hv.
  unfold validateProjects. destruct (validate_loop 0 ∅ (Projects c) c) as [c' valid].
  intros [= <-]. cbn [Projects set_projects snd] in *. rewrite filter_seen_empty in Hv by done.
  rewrite Hv. apply first_of_each_names.
Qed.

(** * Properties *)

(** C12. Validation keeps, of every name, the first structurally sound entry and
    nothing else, in the order of the roster: an entry survives exactly when it
    is sound and no sound entry before it has its name. Every dropped entry is
    one warning, and the daemon is degraded exactly when it was or one was dropped. *)
Theorem validateProjects_first_sound c :
  let '(c', valid) := validateProjects c in
  NoDup (Name <$> valid)
  /\ valid = first_of_each (Projects c)
  /\ (forall p, p ∈ valid <-> exists l1 l2, Projects c = l1 ++ p :: l2 /\ structurally_sound p = true
        /\ forall q, q ∈ l1 -> structurally_sound q = true -> Name q <> Name p)
  /\ exists ws, LoadWarnings c' = LoadWarnings c ++ ws
       /\ (length ws + length valid = length (Projects c))%nat
       /\ Degraded c' = (if decide (ws = []) then Degraded c else true).
Proof.
  pose proof (validate_loop_valid 0 ∅ (Projects c) c) as Hv.
  pose proof (validate_loop_fields 0 ∅ (Projects c) c) as Hf.
  unfold validateProjects. destruct (validate_loop 0 ∅ (Projects c) c) as [c' valid].
  simpl in Hv. rewrite filter_seen_empty in Hv by done. subst valid.
  destruct Hf as (_ & _ & ws & E1 & E2 & E3). split_and!.
  - apply first_of_each_names.
  - done.
  - intros p. apply first_of_each_elem.
  - by exists ws.
Qed.

(** The daemon comes up in any condition: whatever the files hold, Load
    returns a configuration with its roots resolved, whose projects are the first
    sound entry of each name, inline entries before fragments; and it is degraded,
    with a warning to show for it, exactly when the config file or its shape was
    bad, a fragment was, or an entry was dropped. *)
Lemma Load_comes_up pf env v ReadDir :
  v_bind v = None ->
  exists cfg dir frags ws, Load pf env v ReadDir = Ok cfg
  /\ LoadProjectFragments pf (ReadDir dir) dir = (frags, ws)
  /\ System cfg = ResolveRoots env (v_system v)
  /\ Projects cfg = first_of_each (v_projects v ++ frags)
  /\ (Degraded cfg = true <-> LoadWarnings cfg <> [])
  /\ (Degraded cfg = false <->
        (forall e, v_read v <> ReadFailed e) /\ v_unmarshal v = None /\ ws = []
        /\ length (Projects cfg) = length (v_projects v ++ frags)).
Proof.
  intros Hb. unfold Load. rewrite Hb. cbv zeta.
  set (cfg0 := mkDelightConfig (v_system v) (v_projects v) false []).
  set (ws0 := (match v_read v with ReadFailed e => [WReason "config parse failed" e] | _ => [] end)
              ++ (match v_unmarshal v with Some e => [WReason "config unmarshal failed" e] | None => [] end)).
  assert (E2 : (match v_unmarshal v with
     | Some e => markDegraded (match v_read v with
         | ReadFailed e => markDegraded cfg0 (WReason "config parse failed" e) | _ => cfg0 end)
         (WReason "config unmarshal failed" e)
     | None => match v_read v with
         | ReadFailed e => markDegraded cfg0 (WReason "config parse failed" e) | _ => cfg0 end
     end) = fold_left markDegraded ws0 cfg0) by (by unfold ws0; destruct (v_read v), (v_unmarshal v)).
  rewrite E2. destruct (mark_all_fields cfg0 ws0) as (F1 & F2 & F3 & F4).
  set (cfg3 := set_system _ _). set (dir := ProjectsDir env cfg3).
  destruct (LoadProjectFragments pf (ReadDir dir) dir) as [frags ws] eqn:El.
  set (cfg4 := set_projects _ _). destruct (mark_all_fields cfg4 ws) as (G1 & G2 & G3 & G4).
  set (cfg5 := fold_left markDegraded ws cfg4) in *.
  pose proof (validate_loop_valid 0 ∅ (Projects cfg5) cfg5) as Hv.
  pose proof (validate_loop_fields 0 ∅ (Projects cfg5) cfg5) as Hf. unfold validateProjects.
  destruct (validate_loop 0 ∅ (Projects cfg5) cfg5) as [cfg6 valid].
  simpl in Hv. rewrite filter_seen_empty in Hv by done. destruct Hf as (I1 & I2 & wv & I3 & I4 & I5).
  assert (Hp : Projects cfg5 = v_projects v ++ frags) by (rewrite G2; unfold cfg4, cfg3; simpl; by rewrite F2).
  assert (Hw : LoadWarnings cfg6 = (ws0 ++ ws) ++ wv) by (rewrite I3, G3; unfold cfg4, cfg3; simpl; by rewrite F3).
  assert (Hd : Degraded cfg6 = true <-> (ws0 ++ ws) ++ wv <> []).
  { rewrite I4, G4. unfold cfg4, cfg3. simpl. rewrite F4. unfold cfg0. simpl.
    destruct ws0, ws, wv; simpl; done. }
  rewrite Hp in Hv, I5. exists (set_projects cfg6 valid), dir, frags, ws. split_and!; simpl; try done.
  - rewrite I1, G1. unfold cfg4, cfg3. simpl. by rewrite F1.
  - by rewrite Hw.
  - rewrite <-not_true_iff_false, Hd. rewrite Hv in I5 |- *.
    assert (Hws0 : ws0 = [] <-> (forall e, v_read v <> ReadFailed e) /\ v_unmarshal v = None).
    { unfold ws0. destruct (v_read v) as [| |e], (v_unmarshal v); simpl; naive_solver. }
    assert (Hn : ~ (ws0 ++ ws) ++ wv <> [] <-> ws0 = [] /\ ws = [] /\ wv = [])
      by (destruct ws0, ws, wv; simpl; naive_solver).
    rewrite Hn, Hws0. split; [|intros (? & ? & ? & Hl); split_and!; [done..|]].
    + intros ((? & ?) & ? & ->). split_and!; [done..|]. simpl in I5. lia.
    + apply nil_length_inv. lia.
Qed.

(** Resolving the roots is idempotent and leaves none of the four empty: a
    second call changes nothing, whichever roots were set and whether or not the
    home directory is known (an absolute one, when it is). *)
Lemma ResolveRoots_idempotent env s :
  (forall h, home env = Some h -> is_rooted h = true) ->
  ResolveRoots env (ResolveRoots env s) = ResolveRoots env s
  /\ MonitorRoot (ResolveRoots env s) <> EmptyString /\ DaemonRoot (ResolveRoots env s) <> EmptyString
  /\ BackupsRoot (ResolveRoots env s) <> EmptyString /\ ConfigRoot (ResolveRoots env s) <> EmptyString.
Proof.
  intros Hh. pose proof (ResolveRoots_nonempty env Hh s) as (N1 & N2 & N3 & N4).
  split; [|done]. unfold ResolveRoots at 1.
  apply String.eqb_neq in N1, N2, N3, N4. rewrite N1, N2, N3, N4.
  unfold ResolveRoots. cbv zeta.
  cbn [MonitorRoot DaemonRoot BackupsRoot ConfigRoot AgentSkills Daemon LLMDiscovery Kafka].
  by rewrite !expandHome_idem.
Qed.

(** * The properties at concrete inputs *)

Definition project_at (name path : string) : ProjectConfig :=
  mkProjectConfig name path false (mkDeployConfig "" "" []) (mkBackupConfig "15m" (mkBackupRotationConfig 3) []) "".

Definition no_system : SystemConfig :=
  mkSystemConfig "" "" "" "/etc/delightd" (mkAgentSkillsConfig false []) (mkDaemonConfig 0 "")
    (mkLLMDiscoveryConfig []) (mkKafkaConfig [] "" "").

Definition home_env : Environ := mkEnviron (fun _ => "") (Some "/home/j").

(** A bad fragment, a second entry of an inline name, and a good one. *)
Definition one_fragment (path : string) : FragmentViper :=
  if String.eqb path "/etc/delightd/delightd/projects.d/b.yaml" then mkFragmentViper None (Ok (project_at "b" "/w/b"))
  else if String.eqb path "/etc/delightd/delightd/projects.d/a.yaml"
  then mkFragmentViper None (Ok (project_at "a" "/w/other"))
  else mkFragmentViper (Some "yaml: bad") (Err "empty").

End config.
