(* ===== verification/GitState.v ===== *)
(** pkg/gitstate and pkg/watcher: what the daemon reads of a project's git
    working tree.

    go-git is outside the repository: [Repo] is what it answers, call by call,
    each answer possibly an error. The walk over commits is the list of hashes
    repo.Log yields, and the error that may end it. *)

From S2P Require Import Prelude GoStrings GoPath Config.

Module gitstate.

(** * go-git *)

Record RemoteConfig := mkRemoteConfig { URLs : list string }.

Record GitConfig := mkGitConfig {
  Branches : gmap string string;          (* branch -> its configured remote *)
  Remotes : gmap string RemoteConfig
}.

Record Ref := mkRef { ref_is_branch : bool; ref_short : string; ref_hash : string }.

Record Repo := mkRepo {
  repo_config : result string GitConfig;
  repo_head : result string Ref;
  repo_status : result string (result string bool);    (* Worktree, then Status: is it clean *)
  repo_remote_ref : string -> string -> result string string;  (* the hash of refs/remotes/a/b *)
  repo_log : string -> result string (list string * option string)
}.

Inductive open_error := ErrRepositoryNotExists | ErrOther (e : string).

Definition open_error_text (e : open_error) : string :=
  match e with ErrRepositoryNotExists => "repository does not exist" | ErrOther e => e end.

Inductive stat_error := NotExist (e : string) | StatFailed (e : string).

(** The host: the home directory, os.Stat and git.PlainOpen. *)
Record Host := mkHost {
  host_home : option string;
  host_stat : string -> option stat_error;
  host_open : string -> result open_error Repo
}.

(** plumbing.ZeroHash *)
Definition ZeroHash : string := "0000000000000000000000000000000000000000".

(** * The package *)

Definition ErrPathNotFound : string := "project path not found".

Record GitState := mkGitState {
  Branch : string; Dirty : bool; Unpushed : Z; HasUpstream : bool; RemoteURL_ : string;
  Error : string; MissingPath : bool
}.

Record ProjectGit := mkProjectGit { pg_Name : string; Git : GitState }.

(** [var st GitState], and the error returns that keep what was set so far. *)
Definition zero_state : GitState := mkGitState "" false 0 false "" "" false.
Definition failed (branch url e : string) : GitState := mkGitState branch false 0 false url e false.

Definition expandHome (h : Host) (path : string) : string :=
  if String.eqb path "~" || has_prefix path "~/"
  then match host_home h with
       | Some home => path_join [home; trim_prefix path "~"]
       | None => path
       end
  else path.

Definition firstURL (r : option RemoteConfig) : string :=
  match r with Some (mkRemoteConfig (u :: _)) => u | _ => "" end.

Definition resolveRemote (repo : Repo) (branch : string) : string * string * bool :=
  match repo_config repo with
  | Err _ => ("", "", false)
  | Ok cfg =>
      let sole :=
        match Remotes cfg !! "origin" with
        | Some r => ("origin", firstURL (Some r), true)
        | None => match map_to_list (Remotes cfg) with
                  | [(n, r)] => (n, firstURL (Some r), true)
                  | _ => ("", "", false)
                  end
        end in
      match Branches cfg !! branch with
      | Some remote => if String.eqb remote "" then sole
                       else (remote, firstURL (Remotes cfg !! remote), true)
      | None => sole
      end
  end.

(** The ForEach callback: count up to [stop]. *)
Fixpoint count_until (stop : string) (commits : list string) : Z :=
  match commits with
  | [] => 0
  | c :: r => if String.eqb c stop then 0 else 1 + count_until stop r
  end.

(** The error that ends the walk is dropped, and a walk that cannot start is 0. *)
Definition countCommitsUntil (repo : Repo) (from stop : string) : Z :=
  match repo_log repo from with
  | Err _ => 0
  | Ok (commits, _) => count_until stop commits
  end.

Definition countUnpushed (repo : Repo) (head : Ref) (remoteName : string) (hasRemote : bool) : Z * bool :=
  if negb hasRemote then (countCommitsUntil repo (ref_hash head) ZeroHash, false)
  else match repo_remote_ref repo remoteName (ref_short head) with
       | Err _ => (countCommitsUntil repo (ref_hash head) ZeroHash, false)
       | Ok upstream => (countCommitsUntil repo (ref_hash head) upstream, true)
       end.

Definition Collect (h : Host) (path : string) : GitState :=
  let resolved := expandHome h path in
  match host_stat h resolved with
  | Some (NotExist _) => mkGitState "" false 0 false "" ErrPathNotFound true
  | Some (StatFailed e) => failed "" "" e
  | None =>
      match host_open h resolved with
      | Err e => failed "" "" (open_error_text e)
      | Ok repo =>
          match repo_head repo with
          | Err e => failed "" "" e
          | Ok head =>
              let branch := if ref_is_branch head then ref_short head else "" in
              let '(remoteName, remoteURL, hasRemote) := resolveRemote repo branch in
              match repo_status repo with
              | Err e => failed branch remoteURL e
              | Ok (Err e) => failed branch remoteURL e
              | Ok (Ok clean) =>
                  let '(unpushed, hasUpstream) := countUnpushed repo head remoteName hasRemote in
                  mkGitState branch (negb clean) unpushed hasUpstream remoteURL "" false
              end
          end
      end
  end.

(** collectWithTimeout: the read, or the deadline, whichever select takes. *)
Definition timeout_error : string := "git state read exceeded 5s".

Definition collectWithTimeout (h : Host) (path : string) (timed_out : bool) : GitState :=
  if timed_out then failed "" "" timeout_error else Collect h path.

(** What goroutine [i] stores, and the stores in the order they happen. *)
Definition entry (h : Host) (late : nat -> bool) (i : nat) (p : config.ProjectConfig) : ProjectGit :=
  mkProjectGit (config.Name p) (collectWithTimeout h (config.Path p) (late i)).

Definition store (h : Host) (late : nat -> bool) (projects : list config.ProjectConfig)
    (out : list ProjectGit) (i : nat) : list ProjectGit :=
  match projects !! i with
  | Some p => <[i := entry h late i p]> out
  | None => out
  end.

Definition name_le (x y : ProjectGit) : Prop := String.le (pg_Name x) (pg_Name y).

#[export] Instance name_le_dec : RelDecision name_le.
Proof. intros x y. unfold name_le. apply _. Defined.
#[export] Instance name_le_trans : Transitive name_le.
Proof. intros x y z. unfold name_le. apply transitivity. Qed.
#[export] Instance name_le_total : Total name_le.
Proof. intros x y. unfold name_le. apply (total String.le). Qed.

(** CollectAll, when the goroutines finish in the order [sched]. *)
Definition CollectAll (h : Host) (late : nat -> bool) (sched : list nat)
    (projects : list config.ProjectConfig) : list ProjectGit :=
  let out := replicate (length projects) (mkProjectGit "" zero_state) in
  merge_sort name_le (fold_left (store h late projects) sched out).

Definition RemoteURL (h : Host) (path : string) : string :=
  match host_open h (expandHome h path) with
  | Err _ => ""
  | Ok repo =>
      let branch := match repo_head repo with
                    | Ok head => if ref_is_branch head then ref_short head else ""
                    | Err _ => ""
                    end in
      let '(_, url, _) := resolveRemote repo branch in url
  end.

(** * Lemmas *)

(** The errors go-git and the host report carry a text. *)
Definition errors_say (h : Host) : Prop :=
  (forall p e, host_stat h p = Some (StatFailed e) -> e <> "")
  /\ (forall p e, host_open h p = Err (ErrOther e) -> e <> "")
  /\ (forall p repo, host_open h p = Ok repo ->
        (forall e, repo_head repo = Err e -> e <> "")
        /\ (forall e, repo_status repo = Err e -> e <> "")
        /\ (forall e, repo_status repo = Ok (Err e) -> e <> "")).

(** The four reads whose failure Collect reports: the path, the repository, its HEAD
    and the worktree's status. Of the three it reads besides, a failed Config counts
    as no remote, a failed remote reference as a branch never pushed, and a failed
    Log as no commit. *)
Definition answered (h : Host) (path : string) (repo : Repo) (head : Ref) (clean : bool) : Prop :=
  host_stat h (expandHome h path) = None
  /\ host_open h (expandHome h path) = Ok repo
  /\ repo_head repo = Ok head
  /\ repo_status repo = Ok (Ok clean).

Lemma Collect_answered h path repo head clean :
  answered h path repo head clean ->
  Error (Collect h path) = "" /\ Dirty (Collect h path) = negb clean
  /\ (let '(n, _, ok) := resolveRemote repo (if ref_is_branch head then ref_short head else "") in
      (Unpushed (Collect h path), HasUpstream (Collect h path)) = countUnpushed repo head n ok).
Proof.
  intros (E1 & E2 & E3 & E4). unfold Collect. cbv zeta. rewrite E1, E2, E3, E4.
  destruct (resolveRemote repo _) as [[n u] ok].
  by destruct (countUnpushed repo head n ok) as [k up].
Qed.

Lemma Collect_error h path :
  errors_say h -> Error (Collect h path) = "" -> exists repo head clean, answered h path repo head clean.
Proof.
  intros (S1 & S2 & S3). unfold Collect, answered. cbv zeta.
  destruct (host_stat h (expandHome h path)) as [[e|e]|] eqn:E1; simpl; [done| |].
  { intros ->. by destruct (S1 _ _ E1). }
  destruct (host_open h (expandHome h path)) as [repo|[|e]] eqn:E2; simpl; [|done|].
  2: { intros ->. by destruct (S2 _ _ E2). }
  destruct (S3 _ _ E2) as (T1 & T2 & T3).
  destruct (repo_head repo) as [head|e] eqn:E3; simpl; [|by intros ->; destruct (T1 "")].
  destruct (resolveRemote repo _) as [[n u] ok].
  destruct (repo_status repo) as [[clean|e]|e] eqn:E4; simpl.
  - intros _. by exists repo, head, clean.
  - intros ->. by destruct (T3 "").
  - intros ->. by destruct (T2 "").
Qed.

Lemma count_until_app stop l1 l2 :
  stop ∉ l1 -> count_until stop (l1 ++ l2) = Z.of_nat (length l1) + count_until stop l2.
Proof.
  induction l1 as [|c l1 IH]; intros Hn; [done|]. cbn [app count_until length].
  apply not_elem_of_cons in Hn as [Hc Hn].
  rewrite (proj2 (String.eqb_neq c stop)) by congruence. rewrite IH by done. lia.
Qed.

Lemma count_until_zero stop c l : count_until stop (c :: l) = 0 -> c = stop.
Proof.
  simpl. destruct (String.eqb_spec c stop); [done|]. intros H.
  assert (0 <= count_until stop l); [|lia].
  clear. induction l as [|c l IH]; simpl; [done|]. destruct (String.eqb c stop); lia.
Qed.

Lemma store_length h late ps out i : length (store h late ps out i) = length out.
Proof. unfold store. destruct (ps !! i); [apply length_insert|done]. Qed.

Lemma fold_store_lookup h late ps sched out i :
  length out = length ps ->
  fold_left (store h late ps) sched out !! i
  = if decide (i ∈ sched) then (entry h late i <$> ps !! i) else out !! i.
Proof.
  revert out. induction sched as [|j sched IH]; intros out Hl; cbn [fold_left].
  { destruct (decide (i ∈ [])) as [Hi|]; [by apply elem_of_nil in Hi|done]. }
  rewrite IH by (by rewrite store_length).
  destruct (decide (i ∈ sched)); [by rewrite decide_True by set_solver|].
  unfold store. destruct (ps !! j) as [p|] eqn:Ej.
  - destruct (decide (i = j)) as [->|Hne].
    + rewrite decide_True by set_solver. rewrite Ej. simpl. apply list_lookup_insert_eq.
      rewrite Hl. by apply lookup_lt_Some in Ej.
    + rewrite decide_False by set_solver. by apply list_lookup_insert_ne.
  - destruct (decide (i = j)) as [->|Hne].
    + rewrite decide_True by set_solver. rewrite Ej. simpl.
      apply lookup_ge_None in Ej. apply lookup_ge_None. lia.
    + by rewrite decide_False by set_solver.
Qed.

Lemma fold_store_all h late ps sched out :
  length out = length ps -> sched ≡ₚ seq 0 (length ps) ->
  fold_left (store h late ps) sched out = imap (entry h late) ps.
Proof.
  intros Hl Hp. apply list_eq. intros i. rewrite fold_store_lookup, list_lookup_imap by done.
  destruct (decide (i ∈ sched)) as [|Hi]; [done|].
  rewrite Hp, elem_of_seq in Hi. rewrite (lookup_ge_None_2 ps i), (lookup_ge_None_2 out i) by lia. done.
Qed.

(** * Properties *)

(** The URL of a reading, and what it counts, from the reads that may fail silently. *)
Lemma Collect_reads h path repo head clean :
  answered h path repo head clean ->
  let branch := if ref_is_branch head then ref_short head else "" in
  (forall e, repo_config repo = Err e -> RemoteURL_ (Collect h path) = "" /\ HasUpstream (Collect h path) = false)
  /\ (HasUpstream (Collect h path) = true <->
        exists n u up, resolveRemote repo branch = (n, u, true) /\ repo_remote_ref repo n (ref_short head) = Ok up)
  /\ (HasUpstream (Collect h path) = false ->
        Unpushed (Collect h path) = countCommitsUntil repo (ref_hash head) ZeroHash)
  /\ (forall e, repo_log repo (ref_hash head) = Err e -> Unpushed (Collect h path) = 0).
Proof.
  intros (E1 & E2 & E3 & E4). cbn zeta. unfold Collect. cbv zeta. rewrite E1, E2, E3, E4.
  destruct (resolveRemote repo _) as [[n u] ok] eqn:Er.
  assert (Hc : forall e, repo_config repo = Err e -> u = "" /\ ok = false).
  { intros e He. unfold resolveRemote in Er. rewrite He in Er. by injection Er as _ <- <-. }
  unfold countUnpushed. destruct ok; cbn [negb].
  - destruct (repo_remote_ref repo n (ref_short head)) as [up|e'] eqn:Ep; cbn [RemoteURL_ HasUpstream Unpushed].
    + split_and!; [intros e He; by destruct (Hc e He)|split; [by eauto 6|done]|done|].
      intros e He. unfold countCommitsUntil. by rewrite He.
    + split_and!; [intros e He; by destruct (Hc e He)|split; [done|]|done|].
      * intros (n' & u' & up & [= <- <-] & Ho). congruence.
      * intros e He. unfold countCommitsUntil. by rewrite He.
  - cbn [RemoteURL_ HasUpstream Unpushed]. split_and!; [intros e He; by destruct (Hc e He)|split; [done|]|done|].
    + by intros (n' & u' & up & [=] & _).
    + intros e He. unfold countCommitsUntil. by rewrite He.
Qed.

(** C29. What a git reading reports and what it does not. It has no error exactly when
    the four reads behind it succeeded (path, repository, HEAD, status), and then it
    is dirty exactly when the status was not clean. When one of them failed it
    reports an error, claims no dirt, no commits to push and no upstream, and keeps
    a branch or a URL only over a failed status; a missing path is told apart by its
    flag. The three other reads fail without an error: a configuration that cannot
    be read gives no remote; a remote reference that cannot gives no upstream, and
    every commit then counts as unpushed; but a Log that cannot gives nothing to
    push, so there the reading fails open. *)
Theorem Collect_reports_failures h path :
  errors_say h ->
  (Error (Collect h path) = "" <-> exists repo head clean, answered h path repo head clean)
  /\ (Error (Collect h path) <> "" ->
       Dirty (Collect h path) = false /\ Unpushed (Collect h path) = 0
       /\ HasUpstream (Collect h path) = false
       /\ (Branch (Collect h path) = "" /\ RemoteURL_ (Collect h path) = ""
           \/ exists repo head, host_open h (expandHome h path) = Ok repo /\ repo_head repo = Ok head
                /\ forall clean, repo_status repo <> Ok (Ok clean)))
  /\ (MissingPath (Collect h path) = true <->
       exists e, host_stat h (expandHome h path) = Some (NotExist e))
  /\ (forall repo head clean, answered h path repo head clean ->
       let branch := if ref_is_branch head then ref_short head else "" in
       Dirty (Collect h path) = negb clean
       /\ (forall e, repo_config repo = Err e -> RemoteURL_ (Collect h path) = "" /\ HasUpstream (Collect h path) = false)
       /\ (HasUpstream (Collect h path) = true <->
            exists n u up, resolveRemote repo branch = (n, u, true) /\ repo_remote_ref repo n (ref_short head) = Ok up)
       /\ (HasUpstream (Collect h path) = false ->
            Unpushed (Collect h path) = countCommitsUntil repo (ref_hash head) ZeroHash)
       /\ (forall e, repo_log repo (ref_hash head) = Err e -> Unpushed (Collect h path) = 0)).
Proof.
  intros Hs. split_and!.
  - split; [by apply Collect_error|]. by intros (repo & head & clean & (? & _)%Collect_answered).
  - intros He. unfold Collect in *. cbv zeta in *.
    destruct (host_stat h (expandHome h path)) as [[e|e]|]; simpl in *; [by auto 6|by auto 6|].
    destruct (host_open h (expandHome h path)) as [repo|e]; simpl in *; [|by auto 6].
    destruct (repo_head repo) as [head|e] eqn:Ehd; simpl in *; [|by auto 6].
    destruct (resolveRemote repo _) as [[n u] ok]. destruct (repo_status repo) as [[clean|e]|e] eqn:Est; simpl in *.
    + by destruct (countUnpushed repo head n ok); simpl in *.
    + split_and!; [done..|]. right. exists repo, head. split_and!; [done|done|]. intros clean. rewrite Est. by intros [=].
    + split_and!; [done..|]. right. exists repo, head. split_and!; [done|done|]. intros clean. rewrite Est. by intros [=].
  - unfold Collect. cbv zeta.
    destruct (host_stat h (expandHome h path)) as [[e|e]|]; simpl; [naive_solver|naive_solver|].
    split; [|naive_solver]. repeat (case_match; simpl; try done).
  - intros repo head clean Ha. cbn zeta. split; [by apply Collect_answered in Ha as (_ & ? & _)|].
    by apply (Collect_reads h path repo head clean).
Qed.

(** A project reads as having nothing to push only when the branch's
    tracking ref is the head commit itself, provided the walk from the head
    yields the head first; on a walk that meets the tracking ref after [l1]
    commits it counts those; and a walk that cannot start counts none, whatever
    was pushed. *)
Lemma unpushed_counts_to_upstream h path repo head clean :
  answered h path repo head clean -> ref_hash head <> ZeroHash ->
  let '(n, _, ok) := resolveRemote repo (if ref_is_branch head then ref_short head else "") in
  (forall rest e, repo_log repo (ref_hash head) = Ok (ref_hash head :: rest, e) ->
     Unpushed (Collect h path) = 0 ->
     HasUpstream (Collect h path) = true /\ ok = true
     /\ repo_remote_ref repo n (ref_short head) = Ok (ref_hash head))
  /\ (forall up l1 l2 e, ok = true -> repo_remote_ref repo n (ref_short head) = Ok up ->
       repo_log repo (ref_hash head) = Ok (l1 ++ up :: l2, e) -> up ∉ l1 ->
       Unpushed (Collect h path) = Z.of_nat (length l1) /\ HasUpstream (Collect h path) = true)
  /\ (forall e, repo_log repo (ref_hash head) = Err e -> Unpushed (Collect h path) = 0).
Proof.
  intros Ha Hz. destruct (Collect_answered _ _ _ _ _ Ha) as (_ & _ & Hc).
  destruct (resolveRemote repo _) as [[n u] ok]. unfold countUnpushed, countCommitsUntil in Hc.
  split_and!.
  - intros rest e El H0. rewrite El in Hc. rewrite H0 in Hc.
    destruct ok; simpl negb in Hc; cbv iota in Hc.
    + destruct (repo_remote_ref repo n (ref_short head)) as [up|e'].
      * injection Hc as Hc ->. symmetry in Hc. by apply count_until_zero in Hc as ->.
      * injection Hc as Hc _. symmetry in Hc. by apply count_until_zero in Hc.
    + injection Hc as Hc _. symmetry in Hc. by apply count_until_zero in Hc.
  - intros up l1 l2 e -> Er El Hn. simpl negb in Hc. cbv iota in Hc. rewrite Er, El in Hc.
    injection Hc as -> ->. rewrite count_until_app by done. simpl. rewrite String.eqb_refl.
    split; [lia|done].
  - intros e El. rewrite El in Hc. destruct (negb ok); [|destruct (repo_remote_ref _ _ _)];
      by injection Hc as -> _.
Qed.

(** C39. The sweep's answer does not depend on how its goroutines interleave: for
    every order in which they finish it is the list of each project's reading
    (the deadline's error for those that ran over), ordered by name. *)
Theorem CollectAll_any_schedule h late sched projects :
  sched ≡ₚ seq 0 (length projects) ->
  CollectAll h late sched projects = merge_sort name_le (imap (entry h late) projects)
  /\ StronglySorted name_le (CollectAll h late sched projects)
  /\ (pg_Name <$> CollectAll h late sched projects) ≡ₚ (config.Name <$> projects).
Proof.
  intros Hp. unfold CollectAll. cbv zeta. rewrite fold_store_all by (by rewrite ?length_replicate).
  split_and!; [done|apply StronglySorted_merge_sort; apply _|].
  rewrite merge_sort_Permutation, fmap_imap. clear Hp.
  induction projects as [|p ps IH] in late |- *; [done|]. simpl. f_equiv. apply (IH (fun i => late (S i))).
Qed.

End gitstate.

(** pkg/watcher *)
Module watcher.
Import gitstate.

Inductive churn_error := NotARepository (path : string) | OpenFailed (e : string)
  | WorktreeFailed (e : string) | StatusFailed (e : string).

Definition HasChurn (h : Host) (projectPath : string) : result churn_error bool :=
  match host_open h projectPath with
  | Err ErrRepositoryNotExists => Err (NotARepository projectPath)
  | Err (ErrOther e) => Err (OpenFailed e)
  | Ok r =>
      match repo_status r with
      | Err e => Err (WorktreeFailed e)
      | Ok (Err e) => Err (StatusFailed e)
      | Ok (Ok isClean) => Ok (negb isClean)
      end
  end.

(** * Property *)

(** For a path that needs no home expansion the churn oracle and the git
    surface agree: whenever the git reading succeeds, the watcher sees churn
    exactly when that reading is dirty. A path written with a leading ~ is
    expanded by the git surface only: the watcher opens it as it stands. *)
Lemma HasChurn_agrees h path :
  errors_say h ->
  (expandHome h path = path -> Error (Collect h path) = "" ->
     HasChurn h path = Ok (Dirty (Collect h path)))
  /\ (host_open h path = Err ErrRepositoryNotExists -> HasChurn h path = Err (NotARepository path)).
Proof.
  intros Hs. split.
  - intros Hx He. destruct (Collect_error h path Hs He) as (repo & head & clean & Ha).
    pose proof (Collect_answered _ _ _ _ _ Ha) as (_ & -> & _).
    destruct Ha as (_ & Ho & _ & Hst). rewrite Hx in Ho. unfold HasChurn. by rewrite Ho, Hst.
  - intros Ho. unfold HasChurn. by rewrite Ho.
Qed.

(** * The properties at concrete inputs *)

(** A clone of one branch, two commits ahead of origin/main, with a change. *)
Definition ahead : Repo :=
  mkRepo (Ok (mkGitConfig {["main" := "origin"]} {["origin" := mkRemoteConfig ["git@h:p"]]}))
    (Ok (mkRef true "main" "c3")) (Ok (Ok false))
    (fun n b => if String.eqb n "origin" && String.eqb b "main" then Ok "c1" else Err "no ref")
    (fun _ => Ok (["c3"; "c2"; "c1"; "c0"], None)).

Definition one_repo : Host :=
  mkHost (Some "/home/j")
    (fun p => if String.eqb p "/home/j/p" then None else Some (NotExist "stat"))
    (fun p => if String.eqb p "/home/j/p" then Ok ahead else Err ErrRepositoryNotExists).

(** The same clone, its history unreadable. *)
Definition unreadable : Repo :=
  mkRepo (repo_config ahead) (repo_head ahead) (repo_status ahead) (repo_remote_ref ahead)
    (fun _ => Err "object not found").

Definition two_repos : Host :=
  mkHost (Some "/home/j")
    (fun p => if String.eqb p "/home/j/p" || String.eqb p "/home/j/r" then None else Some (NotExist "stat"))
    (fun p => if String.eqb p "/home/j/p" then Ok ahead
              else if String.eqb p "/home/j/r" then Ok unreadable else Err ErrRepositoryNotExists).

Lemma two_repos_says : errors_say two_repos.
Proof.
  split_and!; simpl.
  - intros p e. by destruct (String.eqb p "/home/j/p" || String.eqb p "/home/j/r").
  - intros p e. by destruct (String.eqb p "/home/j/p"), (String.eqb p "/home/j/r").
  - intros p repo. destruct (String.eqb p "/home/j/p"), (String.eqb p "/home/j/r"); try done;
      by intros [= <-].
Qed.

(** Of the two clones, both two commits ahead, the second reads as pushed. *)
Lemma Collect_reports_failures_witness :
  Error (Collect two_repos "~/p") = "" /\ Dirty (Collect two_repos "~/p") = true
  /\ Unpushed (Collect two_repos "~/p") = 2
  /\ Unpushed (Collect two_repos "~/r") = 0 /\ Error (Collect two_repos "~/r") = ""
  /\ MissingPath (Collect two_repos "~/q") = true.
Proof.
  destruct (Collect_reports_failures two_repos "~/p" two_repos_says) as (_ & _ & _ & Hp).
  destruct (Collect_reports_failures two_repos "~/r" two_repos_says) as (He & _ & _ & Hr).
  destruct (Collect_reports_failures two_repos "~/q" two_repos_says) as (_ & _ & Hm & _).
  assert (Ha : answered two_repos "~/r" unreadable (mkRef true "main" "c3") false) by (by vm_compute).
  split_and!; [vm_compute; reflexivity| |vm_compute; reflexivity| | |].
  - exact (proj1 (Hp ahead (mkRef true "main" "c3") false ltac:(by vm_compute))).
  - destruct (Hr _ _ _ Ha) as (_ & _ & _ & _ & Hl). apply (Hl "object not found"). reflexivity.
  - apply He. by exists unreadable, (mkRef true "main" "c3"), false.
  - apply Hm. exists "stat". vm_compute. reflexivity.
Defined.

Lemma CollectAll_any_schedule_witness :
  map pg_Name (CollectAll one_repo (fun _ => false) [1%nat; 0%nat]
    [config.project_at "b" "~/p"; config.project_at "a" "~/q"]) = ["a"; "b"].
Proof.
  rewrite (proj1 (CollectAll_any_schedule one_repo (fun _ => false) [1%nat; 0%nat]
    [config.project_at "b" "~/p"; config.project_at "a" "~/q"] ltac:(apply perm_swap))).
  vm_compute. reflexivity.
Defined.

End watcher.
