(* ===== verification/Enablement.v ===== *)
(** pkg/enablement: the per-project enable/disable record, in a bbolt bucket.

    The JSON encoder is a [Codec] whose law holds for text that is valid UTF-8
    (encoding/json replaces other bytes). Times are nanoseconds from the zero
    time.Time, which is 0. *)

From S2P Require Import Prelude GoStrings Proto KV.
Import proto bbolt.

Module enablement.

Definition StateEnabled : string := "enabled".
Definition StateDisabled : string := "disabled".

Record Record_ := mkRecord {
  Project : string; State : string; Reason : string; Actor : string; ChangedAt : Z
}.

Inductive enerr :=
| ErrDisableReason
| ErrUnknownState (s : string)
| ErrNoProject
| ErrNoActor
| ErrDir (e : string)
| ErrOpen (e : string)
| ErrBucket (e : enerr)
| ErrEncode (e : string)
| ErrDecode (e : string)
| ErrStore (e : dberr).

Definition Validate (r : Record_) : option enerr :=
  let rest := if String.eqb (Project r) "" then Some ErrNoProject
              else if String.eqb (Actor r) "" then Some ErrNoActor else None in
  if String.eqb (State r) StateEnabled then rest
  else if String.eqb (State r) StateDisabled
       then if String.eqb (Reason r) "" then Some ErrDisableReason else rest
       else Some (ErrUnknownState (State r)).

Definition set_changed (r : Record_) (t : Z) : Record_ :=
  mkRecord (Project r) (State r) (Reason r) (Actor r) t.

(** The record Put stores: ChangedAt is stamped when the caller left it zero. *)
Definition stamped (now : Z) (r : Record_) : Record_ :=
  if ChangedAt r =? 0 then set_changed r now else r.

(** Text the JSON encoder keeps. *)
Definition clean_text (r : Record_) : bool :=
  valid_utf8 (Project r) && valid_utf8 (State r) && valid_utf8 (Reason r) && valid_utf8 (Actor r).

Class JsonLaws `{Codec Record_} := {
  json_round_trip : forall r b, clean_text r = true -> marshal r = Ok b -> unmarshal b = Ok r
}.

Section store.
Context {B : Type} `{Bucket B} `{Codec Record_}.

Definition Open (mkdir : option string) (file : result string (option B)) (io : txio)
    : result enerr B :=
  match mkdir, file with
  | Some e, _ => Err (ErrDir e)
  | None, Err e => Err (ErrOpen e)
  | None, Ok f =>
      match update ErrStore io tt (fun f => (tt, Ok (Some (default bkt_empty f)))) f with
      | (_, _, Some e) => Err (ErrBucket e)
      | (f', _, None) => Ok (default bkt_empty f')
      end
  end.

(** No record is [Ok None]; when the stored value does not decode the error
    is all a caller reads. *)
Definition Get (io : txio) (project : string) (db : B) : result enerr (option Record_) :=
  match view ErrStore io None
          (fun bkt => match bkt_get bkt project with
                      | None => (None, None)
                      | Some v => match unmarshal v with
                                  | Ok rec => (Some rec, None)
                                  | Err e => (None, Some (ErrDecode e))
                                  end
                      end) db with
  | (_, Some e) => Err e
  | (rec, None) => Ok rec
  end.

Definition Put (now : Z) (io : txio) (rec : Record_) (db : B) : B * option enerr :=
  match Validate rec with
  | Some e => (db, Some e)
  | None =>
      let rec := stamped now rec in
      match marshal rec with
      | Err e => (db, Some (ErrEncode e))
      | Ok b =>
          let '(db', _, err) :=
            update ErrStore io tt (fun bkt => (tt, lift_db ErrStore (bkt_put bkt (Project rec) b))) db in
          (db', err)
      end
  end.

End store.

(** * Lemmas *)

Section lemmas.
Context {B : Type} `{BucketLaws B} `{JsonLaws}.

Lemma stamped_fields now r :
  Project (stamped now r) = Project r /\ State (stamped now r) = State r
  /\ Reason (stamped now r) = Reason r /\ Actor (stamped now r) = Actor r
  /\ clean_text (stamped now r) = clean_text r.
Proof. unfold stamped. by destruct (ChangedAt r =? 0). Qed.

Lemma Put_ok now io rec (db db' : B) :
  Put now io rec db = (db', None) ->
  Validate rec = None /\ io = TxOk
  /\ exists b, marshal (stamped now rec) = Ok b /\ bkt_put db (Project rec) b = Ok db'.
Proof.
  unfold Put. destruct (Validate rec); [done|]. cbv zeta.
  destruct (marshal (stamped now rec)) as [b|] eqn:Em; [|done].
  destruct (stamped_fields now rec) as (-> & _). unfold update.
  destruct io; [|done|]; destruct (bkt_put db (Project rec) b) as [d|] eqn:Ep; simpl; try done.
  intros [= <-]. eauto.
Qed.

Lemma Put_err now io rec (db db' : B) e : Put now io rec db = (db', Some e) -> db' = db.
Proof.
  unfold Put. destruct (Validate rec); [congruence|]. cbv zeta.
  destruct (marshal (stamped now rec)); [|congruence]. unfold update.
  destruct io; [|simpl; congruence|]; destruct (bkt_put db _ _); simpl; congruence.
Qed.

Lemma Get_put k v (db db' : B) p :
  bkt_put db k v = Ok db' ->
  Get TxOk p db' = if decide (k = p)
                   then match unmarshal v with Ok rec => Ok (Some rec) | Err e => Err (ErrDecode e) end
                   else Get TxOk p db.
Proof.
  intros Ep. unfold Get. simpl. rewrite (get_put _ _ _ _ Ep).
  case_decide; [|done]. by destruct (unmarshal v).
Qed.

(** * Properties *)

(** A record that is put is what a later read of its project returns, with
    its time stamped when it was left zero, and every other project reads as
    before; Put refuses exactly the records Validate refuses when the store can
    take the rest, and a refused or failed Put changes nothing. *)
Lemma Put_then_Get now io rec (db : B) :
  clean_text rec = true ->
  let '(db', err) := Put now io rec db in
  match err with
  | None => Validate rec = None
            /\ forall p, Get TxOk p db' = if decide (Project rec = p) then Ok (Some (stamped now rec))
                                          else Get TxOk p db
  | Some _ => db' = db
  end
  /\ (Validate rec <> None -> err = Validate rec)
  /\ (forall b, Validate rec = None -> io = TxOk -> marshal (stamped now rec) = Ok b ->
        str_len (Project rec) <= MaxKeySize -> str_len b <= MaxValueSize -> err = None).
Proof.
  intros Hc. destruct (Put now io rec db) as [db' err] eqn:E. split_and!.
  - destruct err as [e|]; [by apply Put_err in E|].
    destruct (Put_ok _ _ _ _ _ E) as (Hv & _ & b & Em & Ep). split; [done|]. intros p.
    rewrite (Get_put _ _ _ _ p Ep). case_decide; [|done].
    destruct (stamped_fields now rec) as (_ & _ & _ & _ & Hs).
    by rewrite (json_round_trip _ _ ltac:(by rewrite Hs) Em).
  - intros Hv. unfold Put in E. destruct (Validate rec); [congruence|done].
  - intros b Hv -> Em Hk Hb. unfold Put in E. rewrite Hv in E. cbv zeta in E. rewrite Em in E.
    assert (Hp : Project rec <> EmptyString).
    { intros Hp. unfold Validate in Hv. rewrite Hp in Hv. simpl in Hv.
      by destruct (String.eqb (State rec) StateEnabled), (String.eqb (State rec) StateDisabled),
        (String.eqb (Reason rec) ""). }
    destruct (stamped_fields now rec) as (Es & _). rewrite Es in E.
    pose proof (put_ok db _ _ Hp Hk Hb) as Hok. simpl in E.
    destruct (bkt_put db (Project rec) b); [|done]. simpl in E. congruence.
Qed.

End lemmas.

(** * The property at a concrete input *)

#[export] Instance Record_eq_dec : EqDecision Record_.
Proof. solve_decision. Defined.
#[export] Instance Record_countable : Countable Record_ :=
  inj_countable' (fun r => (Project r, State r, Reason r, (Actor r, ChangedAt r)))
    (fun p => mkRecord p.1.1.1 p.1.1.2 p.1.2 p.2.1 p.2.2) ltac:(by intros []).

Definition record_codec : Codec Record_ := countable_codec Record_.

Lemma record_codec_laws : @JsonLaws record_codec.
Proof. constructor. intros r b _. apply (countable_codec_laws Record_). Qed.

End enablement.
