(* ===== verification/Furnish.v ===== *)
(** pkg/kube and pkg/furnish: converging a piece's manifests onto a cluster.

    client-go, the API server and kustomize are outside the repository. A cluster
    [S] is a class of requests with the laws the API documents ([ApiLaws]); the
    client's discovery cache [M] is what RESTMapping resets. A request may fail at
    any time, and one that fails may still have landed. A write may change the kinds
    the cluster serves (a CustomResourceDefinition is an object like another), and
    the cache may still map a kind as the cluster no longer serves it, so what an
    object is resolved to is said with the mappings the client had or the cluster
    served in the course of the run ([resolves]). During one operation nobody else
    writes to the cluster. *)

From S2P Require Import Prelude GoStrings GoPath.

(** * The cluster *)

Module kube.

(** An error, and what errors.Is and errors.As find in its chain. *)
Record kerr := mkKerr {
  ke_text : string;
  ke_notfound : bool;    (* apierrors.IsNotFound *)
  ke_nomatch : bool;     (* meta.IsNoMatchError *)
  ke_deadline : bool;    (* errors.Is(err, context.DeadlineExceeded) *)
  ke_status : bool       (* errors.As(err, *apierrors.APIStatus) *)
}.

Definition plain (text : string) : kerr := mkKerr text false false false false.

(** fmt.Errorf("...: %w", e): the chain is kept. *)
Definition wrap (prefix : string) (e : kerr) : kerr :=
  mkKerr (prefix +:+ ": " +:+ ke_text e) (ke_notfound e) (ke_nomatch e) (ke_deadline e) (ke_status e).

Record GVK := mkGVK { Group : string; Version : string; gvk_Kind : string }.
#[export] Instance GVK_eq_dec : EqDecision GVK.
Proof. solve_decision. Defined.
#[export] Instance GVK_countable : Countable GVK.
Proof.
  refine (inj_countable' (fun g => (Group g, Version g, gvk_Kind g))
            (fun '(a, b, c) => mkGVK a b c) _). by intros [].
Defined.

(** A declared object; [o_body] is the rest of its manifest. *)
Record obj := mkObj { o_gvk : GVK; o_namespace : string; o_name : string; o_body : string }.

Definition GetKind (o : obj) : string := gvk_Kind (o_gvk o).

(** What NestedInt64 finds in a live object, as int64; and whether its deletion was
    asked for and waits for its finalizers. *)
Record live := mkLive {
  spec_replicas : option Z; status_readyReplicas : option Z; terminating : bool
}.

Definition terminate (l : live) : live := mkLive (spec_replicas l) (status_readyReplicas l) true.

Record mapping := mkMapping { Resource : string; Namespaced : bool }.

(** The resource, the namespace (empty: cluster scope) and the name. *)
Definition rid : Type := string * string * string.

Class Api (S M : Type) := {
  api_objects : S -> gmap rid live;             (* what the server stores *)
  api_kinds : S -> GVK -> option mapping;       (* the kinds it serves *)
  api_get : S -> rid -> result kerr live;
  api_apply : S -> rid -> obj -> S * option kerr;
  api_delete : S -> rid -> S * option kerr;
  api_mapping : S -> M -> GVK -> M * result kerr mapping;
  api_cached : M -> GVK -> option mapping;      (* what the discovery cache holds *)
  api_resettable : M -> bool;
  api_reset : M -> M
}.

(** A deletion the server took: the object is gone, or it is terminating. *)
Definition dropped (o o' : gmap rid live) (r : rid) : Prop :=
  o' = delete r o \/ exists l, o !! r = Some l /\ o' = <[r := terminate l]> o.

Definition removed (o : gmap rid live) (r : rid) : Prop :=
  forall l, o !! r = Some l -> terminating l = true.

Class ApiLaws (S M : Type) `{Api S M} := {
  api_get_ok c r l : api_get c r = Ok l -> api_objects c !! r = Some l;
  api_get_notfound c r e : api_get c r = Err e -> ke_notfound e = true -> api_objects c !! r = None;
  api_apply_ok c r o : snd (api_apply c r o) = None ->
    exists l, api_objects (fst (api_apply c r o)) = <[r := l]> (api_objects c);
  api_apply_err c r o e : snd (api_apply c r o) = Some e ->
    api_objects (fst (api_apply c r o)) = api_objects c
    \/ exists l, api_objects (fst (api_apply c r o)) = <[r := l]> (api_objects c);
  api_delete_ok c r : snd (api_delete c r) = None ->
    dropped (api_objects c) (api_objects (fst (api_delete c r))) r;
  api_delete_notfound c r e : snd (api_delete c r) = Some e -> ke_notfound e = true ->
    api_objects c !! r = None /\ api_objects (fst (api_delete c r)) = api_objects c;
  api_delete_err c r e : snd (api_delete c r) = Some e ->
    api_objects (fst (api_delete c r)) = api_objects c
    \/ dropped (api_objects c) (api_objects (fst (api_delete c r))) r;
  (* an answer is the cache's or the server's, and so is what the cache learns *)
  api_mapping_sound c m k mp : snd (api_mapping c m k) = Ok mp ->
    api_kinds c k = Some mp \/ api_cached m k = Some mp;
  api_mapping_learns c m k k' mp : api_cached (fst (api_mapping c m k)) k' = Some mp ->
    api_kinds c k' = Some mp \/ api_cached m k' = Some mp;
  api_reset_forgets m k : api_cached (api_reset m) k = None
}.

Section client.
Context {S M : Type} `{Api S M}.
Variable quote : string -> string.   (* fmt's %q *)

(** Client.RESTMapping: one reset, and only on a no-match. *)
Definition RESTMapping (c : S) (m : M) (k : GVK) : M * result kerr mapping :=
  match api_mapping c m k with
  | (m1, Err e) =>
      if ke_nomatch e && api_resettable m1 then api_mapping c (api_reset m1) k else (m1, Err e)
  | ok => ok
  end.

(** RESTConfig, with clientcmd's answer: the host. *)
Definition RESTConfig (path : string) (loaded : result kerr string) : result kerr string :=
  match loaded with
  | Err e =>
      let where_ := if negb (String.eqb path "") then "path " +:+ quote path
                    else "$KUBECONFIG, then ~/.kube/config" in
      Err (wrap ("kube: load kubeconfig (" +:+ where_ +:+ ")") e)
  | Ok host => Ok host
  end.

(** The answers of the two constructors; the mapper they make is [m0]. *)
Definition FromKubeconfig (path : string) (loaded : result kerr string) (dyn disc : option kerr) (m0 : M)
    : result kerr M :=
  match RESTConfig path loaded with
  | Err e => Err e
  | Ok host =>
      match dyn, disc with
      | Some e, _ => Err (wrap ("kube: build dynamic client for " +:+ host) e)
      | None, Some e => Err (wrap ("kube: build discovery client for " +:+ host) e)
      | None, None => Ok m0
      end
  end.

(** The closure LazyClient returns: its variable before and after. *)
Definition LazyClient (build : result kerr M) (memo : option M) : option M * result kerr M :=
  match memo with
  | Some c => (memo, Ok c)
  | None => match build with
            | Err e => (None, Err e)
            | Ok built => (Some built, Ok built)
            end
  end.

(** The standalone probe, which a server that was not wired to a client uses:
    clientcmd's, the constructor's and the request's answers. *)
Definition APIServerReady (path : string) (loaded : result kerr string) (disc readyz : option kerr)
    : option kerr :=
  match RESTConfig path loaded with
  | Err e => Some e
  | Ok host =>
      match disc with
      | Some e => Some (wrap ("kube: build discovery client for " +:+ host) e)
      | None => wrap "apiserver /readyz" <$> readyz
      end
  end.

(** Client.Ready, with the answer of GET /readyz. *)
Definition Ready (readyz : option kerr) : option kerr := wrap "apiserver /readyz" <$> readyz.

End client.

End kube.

(** * The pieces *)

Module furnish.
Import kube.

(** An object's health: exactly one of measured, absent, indeterminate. *)
Record Item := mkItem {
  it_Kind : string; it_Name : string;
  Replicas : option Z;          (* *int32 *)
  ReadyReplicas : Z;
  Absent : bool;
  Indeterminate : bool;
  it_Reason : string
}.

Record ladder_row := mkRow { lr_kind : string; lr_name : string; lr_state : string; lr_detail : string }.

Definition wanted (i : Item) : Z := match Replicas i with Some r => r | None => 1 end.

Definition gated (kind : string) : bool := String.eqb kind "Deployment" || String.eqb kind "StatefulSet".

(** One turn of PieceHealth's loop: the row, and whether [healthy] survives it. *)
Definition row (i : Item) : ladder_row * bool :=
  let r := mkRow (it_Kind i) (it_Name i) in
  if Indeterminate i then (r "INDETERMINATE" (it_Reason i), false)
  else if Absent i then (r "RED" "declared but absent", false)
  else if gated (it_Kind i) then
    let want := wanted i in
    let detail := itoa (ReadyReplicas i) +:+ "/" +:+ itoa want +:+ " ready" in
    if ReadyReplicas i <? want then (r "RED" detail, false) else (r "GREEN" detail, true)
  else (r "GREEN" "present", true).

Fixpoint piece_loop (items : list Item) (healthy : bool) (results : list ladder_row)
    : bool * list ladder_row :=
  match items with
  | [] => (healthy, results)
  | i :: rest => let '(r, ok) := row i in piece_loop rest (healthy && ok) (results ++ [r])
  end.

Definition PieceHealth (items : list Item) : bool * list ladder_row := piece_loop items true [].

Record UpResult := mkUpResult { Applied : list string; Failed : gmap string string }.

Section ops.
Context {S M : Type} `{Api S M}.

(** os.ReadFile, the resources of the parsed aggregator, and a kustomization's
    objects, each of which may fail to convert. *)
Variable read_file : string -> result string string.
Variable yaml_resources : string -> result string (list string).
Variable kustomize : string -> result kerr (list (result kerr obj)).

Definition Pieces (kubeDir : string) : result string (list string) :=
  let path := path_join [kubeDir; "kustomization.yaml"] in
  match read_file path with
  | Err e => Err ("furnish: no aggregator at " +:+ path
                  +:+ " (point the manifest root at a checkout's kube/): " +:+ e)
  | Ok b =>
      match yaml_resources b with
      | Err e => Err ("furnish: " +:+ path +:+ " does not parse: " +:+ e)
      | Ok [] => Err ("furnish: " +:+ path +:+ " declares no resources")
      | Ok rs => Ok rs
      end
  end.

Fixpoint read_objs (dir : string) (l : list (result kerr obj)) : result kerr (list obj) :=
  match l with
  | [] => Ok []
  | Err e :: _ => Err (wrap ("furnish: read object in " +:+ dir) e)
  | Ok o :: r => match read_objs dir r with Err e => Err e | Ok os => Ok (o :: os) end
  end.

Definition buildPiece (dir : string) : result kerr (list obj) :=
  match kustomize dir with
  | Err e => Err (wrap ("furnish: build " +:+ dir) e)
  | Ok l => read_objs dir l
  end.

Definition resourceFor (c : S) (m : M) (u : obj) : M * result kerr rid :=
  match RESTMapping c m (o_gvk u) with
  | (m', Err e) => (m', Err (wrap ("furnish: resolve " +:+ GetKind u) e))
  | (m', Ok mp) =>
      (m', if Namespaced mp
           then if String.eqb (o_namespace u) ""
                then Err (plain ("furnish: " +:+ GetKind u +:+ "/" +:+ o_name u
                       +:+ " declares no namespace (every piece's namespaced objects must set one)"))
                else Ok (Resource mp, o_namespace u, o_name u)
           else Ok (Resource mp, "", o_name u))
  end.

Definition key (u : obj) : string := GetKind u +:+ "/" +:+ o_name u.

(** [firstErr == nil], then the failure is remembered. *)
Definition record_failure (res : UpResult) (first : option kerr) (k : string) (e : kerr) : UpResult * option kerr :=
  (mkUpResult (Applied res) (<[k := ke_text e]> (Failed res)),
   match first with None => Some e | Some _ => first end).

(** One turn of Up's loop. *)
Definition up_one (st : S * M * UpResult * option kerr) (u : obj) : S * M * UpResult * option kerr :=
  let '(c, m, res, first) := st in
  match resourceFor c m u with
  | (m', Err e) => let '(res', first') := record_failure res first (key u) e in (c, m', res', first')
  | (m', Ok r) =>
      match api_apply (M := M) c r u with
      | (c', Some e) =>
          let '(res', first') := record_failure res first (key u) (wrap ("furnish: apply " +:+ key u) e) in
          (c', m', res', first')
      | (c', None) => (c', m', mkUpResult (Applied res ++ [key u]) (Failed res), first)
      end
  end.

Definition up_loop (c : S) (m : M) (objs : list obj) : S * M * UpResult * option kerr :=
  fold_left up_one objs (c, m, mkUpResult [] ∅, None).

Definition no_error : kerr := plain "%!w(<nil>)".

Definition Up (c : S) (m : M) (pieceDir : string) : S * M * UpResult * option kerr :=
  match buildPiece pieceDir with
  | Err e => (c, m, mkUpResult [] ∅, Some e)
  | Ok objs =>
      let '(c', m', res, first) := up_loop c m objs in
      let n := Z.of_nat (size (Failed res)) in
      if 0 <? n
      then (c', m', res, Some (wrap ("furnish: " +:+ itoa n +:+ " of " +:+ itoa (Z.of_nat (length objs))
                                 +:+ " object(s) failed to apply in " +:+ pieceDir) (default no_error first)))
      else (c', m', res, None)
  end.

Fixpoint down_loop (c : S) (m : M) (objs : list obj) : S * M * option kerr :=
  match objs with
  | [] => (c, m, None)
  | u :: rest =>
      match resourceFor c m u with
      | (m', Err e) => (c, m', Some e)
      | (m', Ok r) =>
          match api_delete (M := M) c r with
          | (c', None) => down_loop c' m' rest
          | (c', Some e) =>
              if ke_notfound e then down_loop c' m' rest
              else (c', m', Some (wrap ("furnish: delete " +:+ GetKind u +:+ "/" +:+ o_name u) e))
          end
      end
  end.

Definition Down (c : S) (m : M) (pieceDir : string) : S * M * option kerr :=
  match buildPiece pieceDir with
  | Err e => (c, m, Some e)
  | Ok objs => down_loop c m objs
  end.

Definition liveItem (c : S) (m : M) (u : obj) : M * Item :=
  let item := mkItem (GetKind u) (o_name u) in
  match resourceFor c m u with
  | (m', Err e) => (m', item None 0 false true (ke_text e))
  | (m', Ok r) =>
      (m', match api_get (M := M) c r with
           | Err e =>
               if ke_notfound e then item None 0 true false ""
               else item None 0 false true
                      ("get " +:+ GetKind u +:+ "/" +:+ o_name u +:+ ": " +:+ ke_text e)
           | Ok l => item (wrap32 <$> spec_replicas l)
                       (match status_readyReplicas l with Some r => wrap32 r | None => 0 end) false false ""
           end)
  end.

Fixpoint health_loop (c : S) (m : M) (objs : list obj) : M * list Item :=
  match objs with
  | [] => (m, [])
  | u :: rest => let '(m1, i) := liveItem c m u in
                 let '(m2, items) := health_loop c m1 rest in (m2, i :: items)
  end.

Definition Health (c : S) (m : M) (pieceDir : string) : M * result kerr (list Item) :=
  match buildPiece pieceDir with
  | Err e => (m, Err e)
  | Ok objs => let '(m', items) := health_loop c m objs in (m', Ok items)
  end.

(** * What the operations promise *)

(** The one place of the cluster an object's mapping, namespace and name give it. *)
Definition place (mp : mapping) (u : obj) : option rid :=
  if Namespaced mp
  then if String.eqb (o_namespace u) "" then None else Some (Resource mp, o_namespace u, o_name u)
  else Some (Resource mp, "", o_name u).

(** Its place as the cluster serves its kind now. *)
Definition target (c : S) (u : obj) : option rid := api_kinds (M := M) c (o_gvk u) ≫= fun mp => place mp u.

(** A mapping of a kind that the cluster serves or the cache holds, and a place of an
    object under one. *)
Definition mapped (c : S) (m : M) (k : GVK) (mp : mapping) : Prop :=
  api_kinds (M := M) c k = Some mp \/ api_cached (S := S) m k = Some mp.

Definition located (c : S) (m : M) (u : obj) (r : rid) : Prop :=
  exists mp, mapped c m (o_gvk u) mp /\ place mp u = Some r.

(** The cache says nothing the cluster does not. *)
Definition coherent (c : S) (m : M) : Prop :=
  forall k mp, api_cached (S := S) m k = Some mp -> api_kinds (M := M) c k = Some mp.

(** [c'] is [c] after some requests of a client. *)
Inductive wrote (c' : S) : S -> Prop :=
| wrote_done : wrote c' c'
| wrote_apply c r u : wrote c' (fst (api_apply (M := M) c r u)) -> wrote c' c
| wrote_delete c r : wrote c' (fst (api_delete (M := M) c r)) -> wrote c' c.

(** A mapping the client had, or the cluster served between [c] and [c']. *)
Definition known (c : S) (m : M) (c' : S) (k : GVK) (mp : mapping) : Prop :=
  api_cached (S := S) m k = Some mp
  \/ exists c1, wrote c1 c /\ wrote c' c1 /\ api_kinds (M := M) c1 k = Some mp.

Definition resolves (c : S) (m : M) (c' : S) (u : obj) (r : rid) : Prop :=
  exists mp, known c m c' (o_gvk u) mp /\ place mp u = Some r.

(** A live object that is as ready as its kind asks. *)
Definition ready (kind : string) (l : live) : Prop :=
  gated kind = true ->
  match spec_replicas l with Some r => wrap32 r | None => 1 end
  <= match status_readyReplicas l with Some r => wrap32 r | None => 0 end.

End ops.

(** * Lemmas *)

Section lemmas.
Context {S M : Type} `{ApiLaws S M}.
Variable kustomize : string -> result kerr (list (result kerr obj)).
Implicit Types (c : S) (m : M) (u : obj).

Abbreviation objects := (api_objects (S := S) (M := M)).
Abbreviation target := (furnish.target (M := M)).
Abbreviation wrote := (furnish.wrote (S := S) (M := M)).

Lemma dropped_other o o' r r' : dropped o o' r -> r' <> r -> o' !! r' = o !! r'.
Proof. intros [->|(l & _ & ->)] Hn; [by apply lookup_delete_ne|by apply lookup_insert_ne]. Qed.

Lemma dropped_removed o o' r : dropped o o' r -> removed o' r.
Proof.
  intros [->|(l & _ & ->)] l'; [by rewrite lookup_delete_eq|]. rewrite lookup_insert_eq. by intros [= <-].
Qed.

Lemma dropped_keeps o o' r r' : dropped o o' r -> removed o r' -> removed o' r'.
Proof.
  intros Hd Hr. destruct (decide (r' = r)) as [->|Hn]; [by eapply dropped_removed|].
  intros l. rewrite (dropped_other _ _ _ _ Hd Hn). apply Hr.
Qed.

(** ** What the client resolves an object to *)

(** The cache [m'] holds what [m] did and what the cluster serves. *)
Definition learned c m m' : Prop := forall k mp, api_cached (S := S) m' k = Some mp -> mapped c m k mp.

Lemma learned_mapped c m m' k mp : learned c m m' -> mapped c m' k mp -> mapped c m k mp.
Proof. intros Hl [?|?]; [by left|by apply Hl]. Qed.

Lemma learned_located c m m' u r : learned c m m' -> located c m' u r -> located c m u r.
Proof. intros Hl (mp & Hm & Hp). exists mp. split; [by eapply learned_mapped|done]. Qed.

Lemma learned_refl c m : learned c m m.
Proof. by right. Qed.

Lemma learned_trans c m m1 m2 : learned c m m1 -> learned c m1 m2 -> learned c m m2.
Proof. intros H1 H2 k mp Hk. eapply learned_mapped; [done|by apply H2]. Qed.

Lemma RESTMapping_sound c m k :
  learned c m (fst (RESTMapping c m k))
  /\ forall mp, snd (RESTMapping c m k) = Ok mp -> mapped c m k mp.
Proof.
  unfold RESTMapping, mapped. pose proof (api_mapping_sound c m k) as Hs.
  assert (Hl : learned c m (fst (api_mapping c m k))) by (intros k' mp; apply api_mapping_learns).
  destruct (api_mapping c m k) as [m1 [mp1|e]]; cbn [fst snd] in *; [by split|].
  destruct (ke_nomatch e && api_resettable m1); [|by split].
  assert (Hr : forall k' mp, mapped c (api_reset m1) k' mp -> mapped c m k' mp).
  { intros k' mp [?|Hc]; [by left|]. by rewrite api_reset_forgets in Hc. }
  split.
  - intros k' mp Hk. apply Hr. by apply (api_mapping_learns c _ k).
  - intros mp Hk. apply Hr. by apply api_mapping_sound.
Qed.

Lemma resourceFor_located c m u :
  learned c m (fst (resourceFor c m u))
  /\ forall r, snd (resourceFor c m u) = Ok r -> located c m u r.
Proof.
  unfold resourceFor, located, place. destruct (RESTMapping_sound c m (o_gvk u)) as [Hl Hs].
  destruct (RESTMapping c m (o_gvk u)) as [m' [mp|e]]; cbn [fst snd] in *; (split; [done|]); [|done].
  intros r Hr. exists mp. split; [by apply Hs|].
  destruct (Namespaced mp); [destruct (String.eqb (o_namespace u) "")|]; simplify_eq; done.
Qed.

Lemma wrote_trans c c1 c2 : wrote c1 c -> wrote c2 c1 -> wrote c2 c.
Proof.
  induction 1 as [|c r u _ IH|c r _ IH]; intros H2; [done| |].
  - by eapply wrote_apply, IH.
  - by eapply wrote_delete, IH.
Qed.

Lemma wrote_one_apply c r u : wrote (fst (api_apply (M := M) c r u)) c.
Proof. eapply wrote_apply, wrote_done. Qed.
Lemma wrote_one_delete c r : wrote (fst (api_delete (M := M) c r)) c.
Proof. eapply wrote_delete, wrote_done. Qed.

(** Where a run that began at [c0] with the cache [m0] may be. *)
Definition within c0 m0 c m : Prop :=
  wrote c c0 /\ forall k mp, api_cached (S := S) m k = Some mp -> known c0 m0 c k mp.

Lemma within_start c m : within c m c m.
Proof. split; [apply wrote_done|by left]. Qed.

Lemma known_later c0 m0 c c' k mp : wrote c' c -> known c0 m0 c k mp -> known c0 m0 c' k mp.
Proof.
  intros Hw [?|(c1 & H1 & H2 & Hk)]; [by left|right]. exists c1. split_and!; [done|by eapply wrote_trans|done].
Qed.

Lemma resolves_later c0 m0 c c' u r : wrote c' c -> resolves c0 m0 c u r -> resolves c0 m0 c' u r.
Proof. intros Hw (mp & Hk & Hp). exists mp. split; [by eapply known_later|done]. Qed.

Lemma within_learns c0 m0 c m m' : within c0 m0 c m -> learned c m m' -> within c0 m0 c m'.
Proof.
  intros [Hw Hc] Hl. split; [done|]. intros k mp Hk. destruct (Hl k mp Hk) as [Hs|Hk']; [|by apply Hc].
  right. exists c. split_and!; [done|apply wrote_done|done].
Qed.

Lemma within_writes c0 m0 c m c' : within c0 m0 c m -> wrote c' c -> within c0 m0 c' m.
Proof.
  intros [Hw Hc] Hw'. split; [by eapply wrote_trans|]. intros k mp Hk. by eapply known_later, Hc.
Qed.

Lemma located_resolves c0 m0 c m c' u r :
  within c0 m0 c m -> wrote c' c -> located c m u r -> resolves c0 m0 c' u r.
Proof.
  intros [Hw Hc] Hw' (mp & Hm & Hp). exists mp. split; [|done]. eapply known_later; [exact Hw'|].
  destruct Hm as [Hs|Hk]; [|by apply Hc]. right. exists c. split_and!; [done|apply wrote_done|done].
Qed.

(** With a cache that says nothing else than the cluster, an object has one place. *)
Lemma coherent_located c m u r : coherent c m -> located c m u r <-> target c u = Some r.
Proof.
  intros Hc. unfold furnish.target. split.
  - intros (mp & Hm & Hp). assert (E : api_kinds (M := M) c (o_gvk u) = Some mp) by (destruct Hm; [done|by apply Hc]).
    by rewrite E.
  - destruct (api_kinds (M := M) c (o_gvk u)) as [mp|] eqn:E; [|done]. intros Hp. exists mp. split; [by left|done].
Qed.

(** And so it has in a run whose writes leave its kind as it was. *)
Lemma resolves_target c m c' u r :
  coherent c m -> (forall c1, wrote c1 c -> wrote c' c1 -> api_kinds (M := M) c1 (o_gvk u) = api_kinds c (o_gvk u)) ->
  resolves c m c' u r -> target c u = Some r.
Proof.
  intros Hc Hk (mp & Hm & Hp). apply (coherent_located c m u r Hc). exists mp. split; [left|done].
  destruct Hm as [?|(c1 & H1 & H2 & Hs)]; [by apply Hc|]. by rewrite <-(Hk c1 H1 H2).
Qed.

(** What one object's turn does to the cluster and to the report. *)
Lemma up_one_spec c0 m0 c m res first u c1 m1 res1 first1 :
  within c0 m0 c m -> up_one (c, m, res, first) u = (c1, m1, res1, first1) ->
  within c0 m0 c1 m1
  /\ (forall r, ~ resolves c0 m0 c1 u r -> objects c1 !! r = objects c !! r)
  /\ (forall r, is_Some (objects c !! r) -> is_Some (objects c1 !! r))
  /\ wrote c1 c
  /\ ((exists r, resolves c0 m0 c1 u r /\ is_Some (objects c1 !! r)
         /\ Applied res1 = Applied res ++ [key u] /\ Failed res1 = Failed res /\ first1 = first)
     \/ (Applied res1 = Applied res /\ is_Some first1
         /\ exists e, Failed res1 = <[key u := e]> (Failed res))).
Proof.
  intros Hin. unfold up_one. destruct (resourceFor_located c m u) as [Hl Ht].
  destruct (resourceFor c m u) as [m' [r|e]]; cbn [fst snd] in *.
  - pose proof (wrote_one_apply c r u) as Hw.
    pose proof (api_apply_ok c r u) as Hok. pose proof (api_apply_err c r u) as Herr.
    assert (Hr : resolves c0 m0 (fst (api_apply (M := M) c r u)) u r)
      by (eapply located_resolves; [exact Hin|exact Hw|by apply Ht]).
    pose proof (within_writes _ _ _ _ _ (within_learns _ _ _ _ _ Hin Hl) Hw) as Hin'.
    destruct (api_apply (M := M) c r u) as [c' [e|]]; cbn [fst snd] in *; intros [= <- <- <- <-].
    + assert (Hx : objects c' = objects c \/ exists l, objects c' = <[r := l]> (objects c))
        by (by eapply Herr). split_and!; [done| | |done|].
      * intros r' Hn. destruct Hx as [->|[l ->]]; [done|]. rewrite lookup_insert_ne; [done|congruence].
      * intros r' Hs. destruct Hx as [->|[l ->]]; [done|]. rewrite lookup_insert_is_Some'. by right.
      * right. split_and!; [done|by destruct first|by eexists].
    + destruct (Hok eq_refl) as [l Hx]. rewrite Hx. split_and!; [done| | |done|].
      * intros r' Hn. rewrite lookup_insert_ne; [done|congruence].
      * intros r' Hs. rewrite lookup_insert_is_Some'. by right.
      * left. exists r. split_and!; [done|by rewrite lookup_insert_eq|done..].
  - intros [= <- <- <- <-]. split_and!; [by eapply within_learns|done|done|apply wrote_done|]. right.
    split_and!; [done|by destruct first|by eexists].
Qed.

(** The report covers [seen], and what it claims is so in [c]. *)
Definition up_inv c0 m0 (seen : list obj) c m (res : UpResult) (first : option kerr) : Prop :=
  within c0 m0 c m
  /\ (forall r, (forall u, u ∈ seen -> ~ resolves c0 m0 c u r) -> objects c !! r = objects c0 !! r)
  /\ (forall u, u ∈ seen -> key u ∈ Applied res \/ is_Some (Failed res !! key u))
  /\ (forall k, k ∈ Applied res -> exists u r, u ∈ seen /\ key u = k /\ resolves c0 m0 c u r
        /\ is_Some (objects c !! r))
  /\ (Failed res = ∅ -> Applied res = key <$> seen /\ first = None
        /\ forall u, u ∈ seen -> exists r, resolves c0 m0 c u r /\ is_Some (objects c !! r))
  /\ (Failed res <> ∅ -> is_Some first).

Lemma up_one_inv c0 m0 seen c m res first u c1 m1 res1 first1 :
  up_inv c0 m0 seen c m res first -> up_one (c, m, res, first) u = (c1, m1, res1, first1) ->
  up_inv c0 m0 (seen ++ [u]) c1 m1 res1 first1.
Proof.
  intros (Iw & Iu & Ic & Ia & I0 & I1) Hu.
  apply (up_one_spec c0 m0 _ _ _ _ _ _ _ _ _ Iw) in Hu as (Hw & Hun & Hmono & Hc1 & Hr).
  unfold up_inv. split_and!; [done|..].
  - intros r Hn. rewrite Hun by (apply Hn; set_solver). apply Iu. intros v Hv Hx.
    apply (Hn v ltac:(set_solver)). by eapply resolves_later.
  - intros v [Hv| ->%list_elem_of_singleton]%elem_of_app.
    + destruct (Ic v Hv) as [Ha|Hf], Hr as [(r & _ & _ & -> & -> & _)|(-> & _ & e & ->)]; auto.
      * left. set_solver.
      * right. rewrite lookup_insert_is_Some'. by right.
    + destruct Hr as [(r & _ & _ & -> & _)|(_ & _ & e & ->)]; [left; set_solver|].
      right. by rewrite lookup_insert_eq.
  - intros k Hka.
    assert (Hold : k ∈ Applied res -> exists u0 r, u0 ∈ seen ++ [u] /\ key u0 = k /\ resolves c0 m0 c1 u0 r
        /\ is_Some (objects c1 !! r)).
    { intros Hin. destruct (Ia k Hin) as (v & r & Hv & Ek & Ht & Hs). exists v, r.
      split_and!; [set_solver|done|by eapply resolves_later|by apply Hmono]. }
    destruct Hr as [(r & Ht & Hs & Ea & _)|(Ea & _)]; rewrite Ea in Hka; [|by apply Hold].
    apply elem_of_app in Hka as [Hin| ->%list_elem_of_singleton]; [by apply Hold|].
    exists u, r. split_and!; [set_solver|done..].
  - intros He. destruct Hr as [(r & Ht & Hs & -> & Ef & ->)|(_ & _ & e & Ef)].
    + rewrite Ef in He. destruct (I0 He) as (-> & -> & Hall). split_and!; [by rewrite fmap_app|done|].
      intros v [Hv| ->%list_elem_of_singleton]%elem_of_app; [|by exists r].
      destruct (Hall v Hv) as (r' & ? & ?). exists r'. split; [by eapply resolves_later|by apply Hmono].
    + rewrite Ef in He. by apply insert_non_empty in He.
  - intros Hne. destruct Hr as [(r & _ & _ & _ & Ef & ->)|(_ & Hf & _)]; [|done]. rewrite Ef in Hne. auto.
Qed.

Lemma up_loop_inv c m objs c' m' res first :
  up_loop c m objs = (c', m', res, first) -> up_inv c m objs c' m' res first.
Proof.
  unfold up_loop.
  enough (forall done_ c1 m1 res1 first1, up_inv c m done_ c1 m1 res1 first1 ->
    fold_left up_one objs (c1, m1, res1, first1) = (c', m', res, first) ->
    up_inv c m (done_ ++ objs) c' m' res first) as Hgen.
  { intros Hf. apply (Hgen [] _ _ _ _) in Hf; [done|]. unfold up_inv. simpl.
    split_and!; try set_solver. apply within_start. }
  induction objs as [|u objs IH]; intros done_ c1 m1 res1 first1 Hi Hf; cbn [fold_left] in Hf.
  - injection Hf as <- <- <- <-. by rewrite app_nil_r.
  - destruct (up_one (c1, m1, res1, first1) u) as [[[c2 m2] res2] first2] eqn:E.
    rewrite (cons_middle u done_ objs), (app_assoc done_). eapply IH, Hf. by eapply up_one_inv.
Qed.

(** What Down left: every one of [objs] gone or terminating when it succeeded, else a
    prefix of them; [c'] differs from [c] nowhere else. *)
Definition down_post c0 m0 c (objs : list obj) c' (err : option kerr) : Prop :=
  wrote c' c
  /\ (forall r, (forall u, u ∈ objs -> ~ resolves c0 m0 c' u r) -> objects c' !! r = objects c !! r)
  /\ (forall r, removed (objects c) r -> removed (objects c') r)
  /\ (err = None -> forall u, u ∈ objs -> exists r, resolves c0 m0 c' u r /\ removed (objects c') r)
  /\ (is_Some err -> exists gone u rest, objs = gone ++ u :: rest
       /\ (forall v, v ∈ gone -> exists r, resolves c0 m0 c' v r /\ removed (objects c') r)
       /\ (forall r, (forall v, v ∈ gone ++ [u] -> ~ resolves c0 m0 c' v r) -> objects c' !! r = objects c !! r)).

(** An object that is removed, and the rest of the loop from there. *)
Lemma down_post_cons c0 m0 c c1 c' u objs r err :
  wrote c1 c -> resolves c0 m0 c1 u r ->
  dropped (objects c) (objects c1) r -> down_post c0 m0 c1 objs c' err -> down_post c0 m0 c (u :: objs) c' err.
Proof.
  intros Hw Ht Hc1 (Iw & Iu & In & I0 & I1).
  assert (Hr0 : removed (objects c') r) by (by eapply In, dropped_removed).
  assert (Ht' : resolves c0 m0 c' u r) by (by eapply resolves_later).
  assert (Hne : forall r' l, (forall v, v ∈ u :: l -> ~ resolves c0 m0 c' v r') -> objects c1 !! r' = objects c !! r').
  { intros r' l Hr. eapply dropped_other; [done|]. intros ->. by apply (Hr u); [left|]. }
  unfold down_post. split_and!; [by eapply wrote_trans|..].
  - intros r' Hr. rewrite Iu; [by eapply Hne|]. intros v Hv. apply Hr. by right.
  - intros r' Hr. by eapply In, dropped_keeps.
  - intros He v [->|Hv]%elem_of_cons; [by exists r|by apply I0].
  - intros Hs. destruct (I1 Hs) as (gone & v & rest & -> & Hg & Hu). exists (u :: gone), v, rest.
    split_and!; [done| |].
    + intros w [->|Hw']%elem_of_cons; [by exists r|by apply Hg].
    + intros r' Hr. rewrite Hu; [by eapply Hne|]. intros w Hw'. apply Hr. by right.
Qed.

(** A step that stops the loop with an error. *)
Lemma down_post_stop c0 m0 c c' u objs e :
  wrote c' c ->
  (objects c' = objects c \/ exists r, resolves c0 m0 c' u r /\ dropped (objects c) (objects c') r) ->
  down_post c0 m0 c (u :: objs) c' (Some e).
Proof.
  intros Hw Hx.
  assert (Hne : forall r', ~ resolves c0 m0 c' u r' -> objects c' !! r' = objects c !! r').
  { intros r' Hr. destruct Hx as [->|(r & Ht & Hd)]; [done|]. eapply dropped_other; [done|congruence]. }
  unfold down_post. split_and!; [done| | |done|].
  - intros r Hr. apply Hne, Hr. by left.
  - intros r Hr. destruct Hx as [->|(r' & _ & Hd)]; [done|]. by eapply dropped_keeps.
  - intros _. exists [], u, objs. split_and!; [done|set_solver|]. intros r Hr. apply Hne, Hr. by left.
Qed.

Lemma down_loop_spec c0 m0 c m objs c' m' err :
  within c0 m0 c m -> down_loop c m objs = (c', m', err) -> down_post c0 m0 c objs c' err.
Proof.
  revert c m. induction objs as [|u objs IH]; intros c m Hin; simpl.
  { intros [= <- <- <-]. unfold down_post. split_and!; [apply wrote_done|done|done|set_solver|by intros []]. }
  destruct (resourceFor_located c m u) as [Hl Ht].
  destruct (resourceFor c m u) as [m1 [r|e]]; cbn [fst snd] in *.
  2: { intros [= <- <- <-]. apply down_post_stop; [apply wrote_done|by left]. }
  pose proof (wrote_one_delete c r) as Hw.
  assert (Hr : resolves c0 m0 (fst (api_delete (M := M) c r)) u r)
    by (eapply located_resolves; [exact Hin|exact Hw|by apply Ht]).
  pose proof (within_writes _ _ _ _ _ (within_learns _ _ _ _ _ Hin Hl) Hw) as Hin'.
  pose proof (api_delete_ok c r) as Hok. pose proof (api_delete_err c r) as Herr.
  pose proof (api_delete_notfound c r) as Hnf.
  destruct (api_delete (M := M) c r) as [c1 [e|]]; cbn [fst snd] in *.
  - destruct (ke_notfound e) eqn:En.
    + destruct (Hnf e eq_refl En) as [Hn Hs]. intros Hd.
      eapply down_post_cons, IH, Hd; [exact Hw|exact Hr| |exact Hin']. left. by rewrite Hs, delete_id.
    + intros [= <- <- <-]. apply down_post_stop; [done|]. destruct (Herr e eq_refl) as [?|?]; eauto.
  - intros Hd. eapply down_post_cons, IH, Hd; [exact Hw|exact Hr|by apply Hok|exact Hin'].
Qed.

(** What an item says of its object's live state, at the place the client resolved. *)
Definition item_says c m u (i : Item) : Prop :=
  it_Kind i = GetKind u /\ it_Name i = o_name u
  /\ ((Indeterminate i = true /\ Absent i = false)
      \/ (Indeterminate i = false /\ Absent i = true
          /\ exists r, located c m u r /\ objects c !! r = None)
      \/ (Indeterminate i = false /\ Absent i = false
          /\ exists r l, located c m u r /\ objects c !! r = Some l
             /\ Replicas i = wrap32 <$> spec_replicas l
             /\ ReadyReplicas i = match status_readyReplicas l with Some r => wrap32 r | None => 0 end)).

Lemma item_says_learned c m m' u i : learned c m m' -> item_says c m' u i -> item_says c m u i.
Proof.
  intros Hl (Ek & En & Hs). split_and!; [done..|].
  destruct Hs as [?|[(Hi & Ha & r & Hr & Ho)|(Hi & Ha & r & l & Hr & Ho)]]; [by left|right; left|right; right].
  - split_and!; [done..|]. exists r. split; [by eapply learned_located|done].
  - split_and!; [done..|]. exists r, l. split; [by eapply learned_located|done].
Qed.

Lemma liveItem_says c m u : learned c m (fst (liveItem c m u)) /\ item_says c m u (snd (liveItem c m u)).
Proof.
  unfold liveItem, item_says. destruct (resourceFor_located c m u) as [Hl Ht].
  destruct (resourceFor c m u) as [m1 [r|e]]; cbn [fst snd] in *; (split; [done|]); [|by auto].
  specialize (Ht r eq_refl).
  pose proof (api_get_ok (M := M) c r) as Hok. pose proof (api_get_notfound (M := M) c r) as Hnf.
  destruct (api_get c r) as [l|e]; simpl.
  - split_and!; [done..|]. right. right. split_and!; [done..|]. exists r, l. by rewrite (Hok l).
  - destruct (ke_notfound e) eqn:En; simpl; (split_and!; [done..|]); [|by left].
    right. left. split_and!; [done..|]. exists r. split; [done|by eapply Hnf].
Qed.

Lemma health_loop_says c m objs :
  learned c m (fst (health_loop c m objs)) /\ Forall2 (item_says c m) objs (snd (health_loop c m objs)).
Proof.
  revert m. induction objs as [|u objs IH]; intros m; simpl; [split; [apply learned_refl|constructor]|].
  destruct (liveItem_says c m u) as [Hl Hi]. destruct (liveItem c m u) as [m1 i].
  destruct (IH m1) as [Hl' Hf]. destruct (health_loop c m1 objs) as [m2 items]. cbn [fst snd] in *.
  split; [by eapply learned_trans|]. constructor; [done|]. eapply Forall2_impl; [exact Hf|].
  intros u' i'. by apply item_says_learned.
Qed.

Lemma piece_loop_eq items healthy results :
  piece_loop items healthy results
  = (healthy && forallb (fun i => snd (row i)) items, results ++ ((fun i => fst (row i)) <$> items)).
Proof.
  revert healthy results. induction items as [|i items IH]; intros healthy results; simpl.
  { by rewrite andb_true_r, app_nil_r. }
  destruct (row i) as [r ok]. rewrite IH. simpl. by rewrite andb_assoc, <-app_assoc.
Qed.

Lemma PieceHealth_eq items :
  PieceHealth items = (forallb (fun i => snd (row i)) items, (fun i => fst (row i)) <$> items).
Proof. unfold PieceHealth. by rewrite piece_loop_eq. Qed.

(** What is stored at a place is there and as ready as the object's kind asks. *)
Definition green_at c u (r : rid) : Prop := exists l, objects c !! r = Some l /\ ready (GetKind u) l.

(** So it is at the place the client looked. *)
Definition green c m u : Prop := exists r, located c m u r /\ green_at c u r.

Lemma row_green c m u i : item_says c m u i -> snd (row i) = true -> green c m u.
Proof.
  intros (Ek & _ & Hs). unfold row. cbv zeta.
  destruct Hs as [[Hi _]|[(Hi & Ha & _)|(Hi & Ha & r & l & Ht & Hl & Er & Ey)]]; rewrite Hi, ?Ha; [done..|].
  rewrite Ek. intros Hg. exists r. split; [done|]. exists l. split; [done|]. intros Hgated.
  rewrite Hgated in Hg. unfold wanted in Hg. rewrite Er, Ey in Hg.
  destruct (Z.ltb_spec (match status_readyReplicas l with Some r => wrap32 r | None => 0 end)
    (match wrap32 <$> spec_replicas l with Some r0 => r0 | None => 1 end)) as [|Hle]; [done|].
  by destruct (spec_replicas l).
Qed.

Lemma row_not_green c m u i :
  item_says c m u i -> snd (row i) = false -> Indeterminate i = false ->
  exists r, located c m u r /\ ~ green_at c u r.
Proof.
  intros (Ek & _ & Hs) Hr Hi. unfold row in Hr. cbv zeta in Hr.
  destruct Hs as [[? _]|[(_ & _ & r & Ht & Hn)|(_ & Ha & r & l & Ht & Hl & Er & Ey)]]; [congruence|..];
    exists r; (split; [done|]); intros (l' & Hl' & Hg); [congruence|]. rewrite Hi, Ha in Hr.
  assert (l' = l) as -> by congruence.
  rewrite Ek in Hr. unfold ready in Hg. destruct (gated (GetKind u)); [|done]. specialize (Hg eq_refl).
  unfold wanted in Hr. rewrite Er, Ey in Hr.
  destruct (Z.ltb_spec (match status_readyReplicas l with Some r => wrap32 r | None => 0 end)
    (match wrap32 <$> spec_replicas l with Some r0 => r0 | None => 1 end)); [|done].
  destruct (spec_replicas l); simpl in *; lia.
Qed.

(** A success of Up or Down is a claim about every declared object. *)
Lemma up_truthful c m dir :
  let '(c', _, _, err) := Up kustomize c m dir in
  err = None -> exists objs, buildPiece kustomize dir = Ok objs
  /\ forall u, u ∈ objs -> exists r, resolves c m c' u r /\ is_Some (objects c' !! r).
Proof.
  unfold Up. destruct (buildPiece kustomize dir) as [objs|e]; [|done].
  destruct (up_loop c m objs) as [[[c' m'] res] first] eqn:E.
  apply up_loop_inv in E as (_ & _ & _ & _ & I0 & _).
  destruct (Z.ltb_spec 0 (Z.of_nat (size (Failed res)))) as [|Hs]; [done|]. intros _. exists objs.
  split; [done|]. apply I0, map_size_empty_inv. lia.
Qed.

Lemma down_truthful c m dir :
  let '(c', _, err) := Down kustomize c m dir in
  err = None -> exists objs, buildPiece kustomize dir = Ok objs
  /\ forall u, u ∈ objs -> exists r, resolves c m c' u r /\ removed (objects c') r.
Proof.
  unfold Down. destruct (buildPiece kustomize dir) as [objs|e]; [|done].
  destruct (down_loop c m objs) as [[c' m'] err] eqn:E.
  apply (down_loop_spec c m) in E as (_ & _ & _ & I0 & _); [|apply within_start].
  intros He. exists objs. split; [done|]. by apply I0.
Qed.

Lemma healthy_green c m objs items :
  Forall2 (item_says c m) objs items -> fst (PieceHealth items) = true -> forall u, u ∈ objs -> green c m u.
Proof.
  intros Hi. rewrite PieceHealth_eq. cbn [fst]. rewrite forallb_forall.
  intros Hall u [n Hn]%list_elem_of_lookup.
  destruct (Forall2_lookup_l _ _ _ _ _ Hi Hn) as (i & Hl & Hsays). eapply row_green; [done|].
  apply Hall, list_elem_of_In. by eapply list_elem_of_lookup_2.
Qed.

(** * Properties *)

(** C19. Up is an attempt on every declared object and reports it truly: it succeeds
    exactly when nothing failed, and then every object the piece declares is live
    and listed; otherwise each object is listed as applied or failed, what is
    listed as applied is live, and no object outside the piece is touched. An
    object is live where a mapping of its kind puts it that the client had or the
    cluster served in the course of the run, so a kind that the piece itself
    installs is found; when the client's cache agreed with the cluster and the
    piece changes no kind, that is the one place the cluster gives it. Nobody else
    writes to the cluster meanwhile. *)
Theorem Up_reports_truly c m dir objs :
  buildPiece kustomize dir = Ok objs ->
  let '(c', _, res, err) := Up kustomize c m dir in
  (err = None <-> Failed res = ∅)
  /\ (err = None -> Applied res = key <$> objs
       /\ forall u, u ∈ objs -> exists r, resolves c m c' u r /\ is_Some (objects c' !! r))
  /\ (forall u, u ∈ objs -> key u ∈ Applied res \/ is_Some (Failed res !! key u))
  /\ (forall k, k ∈ Applied res -> exists u r, u ∈ objs /\ key u = k /\ resolves c m c' u r
        /\ is_Some (objects c' !! r))
  /\ (forall r, (forall u, u ∈ objs -> ~ resolves c m c' u r) -> objects c' !! r = objects c !! r)
  /\ (coherent c m -> forall u r,
        (forall c1, wrote c1 c -> wrote c' c1 -> api_kinds (M := M) c1 (o_gvk u) = api_kinds c (o_gvk u)) ->
        resolves c m c' u r -> target c u = Some r).
Proof.
  intros Hb. unfold Up. rewrite Hb. destruct (up_loop c m objs) as [[[c' m'] res] first] eqn:E.
  apply up_loop_inv in E as (_ & Iu & Ic & Ia & I0 & _).
  pose proof (fun Hc u r Hk => resolves_target c m c' u r Hc Hk) as Hres.
  destruct (Z.ltb_spec 0 (Z.of_nat (size (Failed res)))) as [Hs|Hs]; (split_and!; [|..|done|done|done|done]).
  - split; [done|]. intros He. rewrite He, map_size_empty in Hs. lia.
  - done.
  - split; [|done]. intros _. apply map_size_empty_inv. lia.
  - intros _. destruct (I0 ltac:(apply map_size_empty_inv; lia)) as (-> & _ & Hall). done.
Qed.

(** Down that succeeds leaves each of the piece's objects gone or terminating, one
    that was already gone counting as removed; one that fails has removed a prefix
    of them and may have reached the next; and no other object is touched. *)
Lemma Down_removes_exactly c m dir objs :
  buildPiece kustomize dir = Ok objs ->
  let '(c', _, err) := Down kustomize c m dir in
  (err = None -> forall u, u ∈ objs -> exists r, resolves c m c' u r /\ removed (objects c') r)
  /\ (is_Some err -> exists gone u rest, objs = gone ++ u :: rest
       /\ (forall v, v ∈ gone -> exists r, resolves c m c' v r /\ removed (objects c') r)
       /\ (forall r, (forall v, v ∈ gone ++ [u] -> ~ resolves c m c' v r) -> objects c' !! r = objects c !! r))
  /\ (forall r, (forall u, u ∈ objs -> ~ resolves c m c' u r) -> objects c' !! r = objects c !! r).
Proof.
  intros Hb. unfold Down. rewrite Hb. destruct (down_loop c m objs) as [[c' m'] err] eqn:E.
  apply (down_loop_spec c m) in E as (_ & Iu & _ & I0 & I1); [done|apply within_start].
Qed.

(** C23. The health ladder does not lie: there is one row per declared object, in
    order; a piece is healthy only if every object it declares is live, where the
    client looked, and, for a workload, as ready as it asks; and when every object
    could be read, it is healthy as soon as they all are wherever the client may
    look. An object that could not be read is neither GREEN nor RED, and blinds no
    other. A client whose cache says nothing but what the cluster does looks at the
    one place the cluster gives an object, and there healthy is exactly that. *)
Theorem health_is_truthful c m dir objs :
  buildPiece kustomize dir = Ok objs ->
  exists items, snd (Health kustomize c m dir) = Ok items
  /\ Forall2 (item_says c m) objs items
  /\ (fst (PieceHealth items) = true -> forall u, u ∈ objs -> green c m u)
  /\ ((forall i, i ∈ items -> Indeterminate i = false) ->
       (forall u r, u ∈ objs -> located c m u r -> green_at c u r) -> fst (PieceHealth items) = true)
  /\ length (snd (PieceHealth items)) = length objs
  /\ (forall i, i ∈ items -> (lr_state (fst (row i)) = "INDETERMINATE" <-> Indeterminate i = true)
        /\ (lr_state (fst (row i)) = "GREEN" <-> snd (row i) = true))
  /\ (coherent c m ->
        (forall u r, located c m u r <-> target c u = Some r)
        /\ ((forall i, i ∈ items -> Indeterminate i = false) ->
             (fst (PieceHealth items) = true <->
              forall u, u ∈ objs -> exists r, target c u = Some r /\ green_at c u r))).
Proof.
  intros Hb. unfold Health. rewrite Hb. destruct (health_loop_says c m objs) as [_ Hi].
  destruct (health_loop c m objs) as [m' items]. simpl in Hi. exists items.
  pose proof (healthy_green c m objs items Hi) as Hg.
  assert (Hall : (forall i, i ∈ items -> Indeterminate i = false) ->
    (forall u r, u ∈ objs -> located c m u r -> green_at c u r) -> fst (PieceHealth items) = true).
  { intros Hdet Hall. rewrite PieceHealth_eq. apply forallb_forall. intros i Hin%list_elem_of_In.
    destruct (snd (row i)) eqn:E; [done|]. exfalso. pose proof Hin as [n Hn]%list_elem_of_lookup.
    destruct (Forall2_lookup_r _ _ _ _ _ Hi Hn) as (u & Hl & Hsays).
    destruct (row_not_green _ _ _ _ Hsays E (Hdet i Hin)) as (r & Hr & Hng).
    apply Hng, Hall; [by eapply list_elem_of_lookup_2|done]. }
  split_and!; [done|done|done|done| | |].
  - rewrite PieceHealth_eq. cbn [snd]. rewrite length_fmap. symmetry. by eapply Forall2_length.
  - intros i _. unfold row. destruct (Indeterminate i), (Absent i); [done..|].
    destruct (gated (it_Kind i)); [|done]. by destruct (_ <? _).
  - intros Hc. pose proof (fun u r => coherent_located c m u r Hc) as Hloc. split; [done|]. intros Hdet. split.
    + intros Hh u Hu. destruct (Hg Hh u Hu) as (r & Hr & ?). exists r. by rewrite <-Hloc.
    + intros Ht. apply Hall; [done|]. intros u r Hu Hr. destruct (Ht u Hu) as (r' & Hr' & ?).
      apply Hloc in Hr. by assert (r = r') as -> by congruence.
Qed.

(** The ladder does not read a deletion timestamp: an object that waits for its
    finalizers is reported as it was before Down. *)
Lemma terminating_is_green c m u r l :
  located c m u r -> objects c !! r = Some (terminate l) -> ready (GetKind u) l -> green c m u.
Proof. intros Ht Hl Hg. exists r. split; [done|]. by exists (terminate l). Qed.

End lemmas.

(** * The properties at a concrete cluster *)

(** A server that stores objects, never ready at once, refuses some names, and holds
    a finalizer on what is not in a namespace. *)
Record demo := mkDemo { dm_objects : gmap rid live; dm_refused : gmap string kerr }.

Definition demo_kinds (k : GVK) : option mapping :=
  if String.eqb (gvk_Kind k) "Deployment" then Some (mkMapping "deployments" true)
  else if String.eqb (gvk_Kind k) "ClusterRole" then Some (mkMapping "clusterroles" false) else None.

Definition not_found : kerr := mkKerr "not found" true false false true.
Definition refused (c : demo) (r : rid) : option kerr := dm_refused c !! r.2.

#[export] Instance demo_api : Api demo unit := {
  api_objects := dm_objects;
  api_kinds _ := demo_kinds;
  api_get c r := match refused c r, dm_objects c !! r with
                 | Some e, _ => Err (mkKerr (ke_text e) false false (ke_deadline e) (ke_status e))
                 | None, Some l => Ok l
                 | None, None => Err not_found
                 end;
  api_apply c r _ := match refused c r with
                     | Some e => (c, Some e)
                     | None => (mkDemo (<[r := default (mkLive (Some 1) None false) (dm_objects c !! r)]> (dm_objects c))
                                  (dm_refused c), None)
                     end;
  api_delete c r := match refused c r, dm_objects c !! r with
                    | Some e, _ => (c, Some (mkKerr (ke_text e) false false (ke_deadline e) (ke_status e)))
                    | None, None => (c, Some not_found)
                    | None, Some l => (mkDemo (if String.eqb r.1.2 "" then <[r := terminate l]> (dm_objects c)
                                             else delete r (dm_objects c)) (dm_refused c), None)
                    end;
  api_mapping _ m k := (m, match demo_kinds k with
                           | Some mp => Ok mp
                           | None => Err (mkKerr "no matches for kind" false true false false)
                           end);
  api_cached _ _ := None;
  api_resettable _ := true;
  api_reset m := m
}.

#[export] Instance demo_laws : ApiLaws demo unit.
Proof.
  split; simpl; intros c.
  - intros r l. destruct (refused c r), (dm_objects c !! r); congruence.
  - intros r e. destruct (refused c r), (dm_objects c !! r); intros [= <-]; simpl; congruence.
  - intros r o. destruct (refused c r); [done|]. eauto.
  - intros r o e. destruct (refused c r); [by left|done].
  - intros r. destruct (refused c r), (dm_objects c !! r) as [l|] eqn:El; try done. intros _. simpl.
    destruct (String.eqb r.1.2 ""); [right; by exists l|by left].
  - intros r e. destruct (refused c r), (dm_objects c !! r); intros [= <-]; simpl; done.
  - intros r e. destruct (refused c r), (dm_objects c !! r); intros [= <-]; simpl; by left.
  - intros m k mp. destruct (demo_kinds k); [left|]; congruence.
  - done.
  - done.
Qed.

Definition deployment (name : string) : obj := mkObj (mkGVK "apps" "v1" "Deployment") "fleet" name "".
Definition role (name : string) : obj := mkObj (mkGVK "rbac" "v1" "ClusterRole") "" name "".

Definition two_objects (_ : string) : result kerr (list (result kerr obj)) :=
  Ok [Ok (deployment "kafka"); Ok (role "kafka")].

Definition forbidden : kerr := mkKerr "forbidden" false false false true.
Definition empty_cluster : demo := mkDemo ∅ ∅.
Definition guarded_cluster : demo := mkDemo ∅ {["kafka" := forbidden]}.

(** A server that serves a kind once its definition is applied, the client's cache
    being what discovery said when it was last asked. *)
Record installer := mkInstaller { in_objects : gmap rid live; in_widgets : bool }.

Definition crd_gvk : GVK := mkGVK "apiextensions.k8s.io" "v1" "CustomResourceDefinition".
Definition widget_gvk : GVK := mkGVK "fleet.dev" "v1" "Widget".
Definition widgets : mapping := mkMapping "widgets" true.
(** The kinds, with and without the widgets. *)
Definition installer_kinds (b : bool) (k : GVK) : option mapping :=
  if String.eqb (gvk_Kind k) "CustomResourceDefinition" then Some (mkMapping "customresourcedefinitions" false)
  else if b && String.eqb (gvk_Kind k) "Widget" then Some widgets else None.
Definition crd : obj := mkObj crd_gvk "" "widgets.fleet.dev" "".
Definition widget : obj := mkObj widget_gvk "fleet" "w" "".

#[export] Instance installer_api : Api installer (option bool) := {
  api_objects := in_objects;
  api_kinds c := installer_kinds (in_widgets c);
  api_get c r := match in_objects c !! r with Some l => Ok l | None => Err not_found end;
  api_apply c r u := (mkInstaller (<[r := mkLive None None false]> (in_objects c))
                        (in_widgets c || String.eqb (GetKind u) "CustomResourceDefinition"), None);
  api_delete c r := match in_objects c !! r with
                    | Some _ => (mkInstaller (delete r (in_objects c)) (in_widgets c), None)
                    | None => (c, Some not_found)
                    end;
  api_mapping c m k := let known := default (in_widgets c) m in
                       (Some known, match installer_kinds known k with
                                    | Some mp => Ok mp
                                    | None => Err (mkKerr "no matches for kind" false true false false)
                                    end);
  api_cached m k := m ≫= fun known => installer_kinds known k;
  api_resettable _ := true;
  api_reset _ := None
}.

#[export] Instance installer_laws : ApiLaws installer (option bool).
Proof.
  split; simpl; intros c.
  - intros r l. destruct (in_objects c !! r); congruence.
  - intros r e. destruct (in_objects c !! r); [done|]. by intros [= <-].
  - eauto.
  - done.
  - intros r. destruct (in_objects c !! r) as [l|] eqn:El; [|done]. intros _. by left.
  - intros r e. by destruct (in_objects c !! r).
  - intros r e. destruct (in_objects c !! r); [done|]. by left.
  - intros [known|] k mp; simpl; case_match; intros [= <-]; auto.
  - intros [known|] k k' mp; simpl; auto.
  - done.
Qed.

(** The definition's kind is known to the client, the widget's to nobody yet. *)
Definition before_crd : installer := mkInstaller ∅ false.
Definition stale : option bool := Some false.
Definition crd_piece (_ : string) : result kerr (list (result kerr obj)) := Ok [Ok crd; Ok widget].

(** A piece that installs a kind and an object of it comes up, though the cluster it
    began on had no place for the object; and a piece one of whose objects the cluster
    declines reports that object as failed. *)
Lemma Up_reports_truly_witness :
  target (M := option bool) before_crd widget = None
  /\ (exists r, is_Some (in_objects (fst (fst (fst (Up crd_piece before_crd stale "widgets")))) !! r)
        /\ resolves before_crd stale (fst (fst (fst (Up crd_piece before_crd stale "widgets")))) widget r)
  /\ is_Some (Failed (snd (fst (Up (M := unit) two_objects guarded_cluster tt "kafka"))) !! "Deployment/kafka").
Proof.
  split; [vm_compute; reflexivity|]. split.
  - pose proof (Up_reports_truly crd_piece before_crd stale "widgets" [crd; widget] eq_refl) as H.
    destruct (Up crd_piece before_crd stale "widgets") as [[[c' m'] res] err] eqn:E. cbn [fst snd].
    destruct H as (_ & Ha & _). vm_compute in E. injection E as <- <- <- <-.
    destruct (Ha eq_refl) as [_ Hall]. destruct (Hall widget ltac:(right; left)) as (r & Hr & Hl).
    exists r. split; [exact Hl|exact Hr].
  - pose proof (Up_reports_truly (M := unit) two_objects guarded_cluster tt "kafka"
      [deployment "kafka"; role "kafka"] eq_refl) as H.
    destruct (Up two_objects guarded_cluster tt "kafka") as [[[c' m'] res] err] eqn:E. cbn [fst snd].
    destruct H as (_ & _ & H3 & _). vm_compute in E. injection E as <- <- <- <-.
    destruct (H3 (deployment "kafka") ltac:(by left)) as [Ha|Hf]; [by apply elem_of_nil in Ha|exact Hf].
Defined.

Lemma health_is_truthful_witness :
  exists items, snd (Health (M := unit) two_objects empty_cluster tt "kafka") = Ok items
  /\ fst (PieceHealth items) = false /\ length (snd (PieceHealth items)) = 2%nat.
Proof.
  destruct (health_is_truthful (M := unit) two_objects empty_cluster tt "kafka"
    [deployment "kafka"; role "kafka"] eq_refl) as (items & E & _ & _ & _ & Hl & _).
  exists items. split; [exact E|]. split; [|exact Hl]. vm_compute in E. injection E as <-. reflexivity.
Defined.

End furnish.
