(* ===== verification/Model.v ===== *)
(** pkg/model: hosted models as declared deployments.

    An enum of the Go code is a string type, so an invalid value is an ordinary
    one until Validate. YAML, files and the network are inputs; the JSON values of
    the rendered config are [value]s. *)

From S2P Require Import Prelude GoStrings.

Module model.

(** * The descriptor *)

Definition ArchEncode : string := "encode".
Definition ArchEncodeDecode : string := "encode-decode".
Definition ArchDecode : string := "decode".
Definition BackendOllama : string := "ollama".
Definition BackendXinference : string := "xinference".
Definition BackendLlamaCPP : string := "llama-cpp".
Definition BackendTransformers : string := "transformers".

Definition architectures : list string := [ArchEncode; ArchEncodeDecode; ArchDecode].
Definition roles : list string := ["chat"; "completion"; "embedding"].
Definition backends : list string :=
  [BackendOllama; BackendXinference; BackendLlamaCPP; BackendTransformers].

Fixpoint oneOf (v : string) (allowed : list string) : bool :=
  match allowed with
  | [] => false
  | a :: r => if String.eqb v a then true else oneOf v r
  end.

Record TraefikRoute := mkTraefikRoute { Host : string; PathPrefix : string; ServicePort : Z }.

Record DeploymentDescriptor := mkDeployment {
  Name : string;
  Location : string;
  Architecture : string;
  Role : string;
  Backend : string;
  Route : TraefikRoute;
  ContextWindow : Z;
  LiteLLMModelName : string
}.

Definition servedByOllama (d : DeploymentDescriptor) : bool := String.eqb (Backend d) BackendOllama.

Section validation.
Variable quote : string -> string.   (* fmt's %q *)

(** An [Some] is the error; the checks run in order and the first one wins. *)
Definition orelse (a b : option string) : option string := match a with Some e => Some e | None => b end.

Definition route_validate (deployment : string) (r : TraefikRoute) : option string :=
  if String.eqb (trim_space (Host r)) "" then
    Some ("deployment " +:+ quote deployment +:+ ": traefik_route.host is required")
  else if (ServicePort r <? 1) || (65535 <? ServicePort r) then
    Some ("deployment " +:+ quote deployment +:+ ": traefik_route.service_port "
          +:+ itoa (ServicePort r) +:+ " out of range 1..65535")
  else None.

Definition validateRequired (d : DeploymentDescriptor) : option string :=
  if String.eqb (trim_space (Name d)) "" then Some "deployment: name is required"
  else if String.eqb (trim_space (Location d)) "" then
    Some ("deployment " +:+ quote (Name d) +:+ ": location is required")
  else if ContextWindow d <? 0 then
    Some ("deployment " +:+ quote (Name d) +:+ ": context_window " +:+ itoa (ContextWindow d)
          +:+ " must be >= 1")
  else None.

Definition validateEnums (d : DeploymentDescriptor) : option string :=
  if negb (oneOf (Architecture d) architectures) then
    Some ("deployment " +:+ quote (Name d) +:+ ": invalid architecture " +:+ quote (Architecture d)
          +:+ " (want encode|encode-decode|decode)")
  else if negb (oneOf (Role d) roles) then
    Some ("deployment " +:+ quote (Name d) +:+ ": invalid role " +:+ quote (Role d)
          +:+ " (want chat|completion|embedding)")
  else if negb (oneOf (Backend d) backends) then
    Some ("deployment " +:+ quote (Name d) +:+ ": invalid backend " +:+ quote (Backend d)
          +:+ " (want ollama|xinference|llama-cpp|transformers)")
  else None.

Definition validateCoherence (d : DeploymentDescriptor) : option string :=
  if servedByOllama d && negb (String.eqb (Architecture d) ArchDecode) then
    Some ("deployment " +:+ quote (Name d) +:+ ": backend 'ollama' serves decoder-only models; architecture "
          +:+ quote (Architecture d) +:+ " must use 'xinference' or 'transformers'")
  else None.

Definition Validate (d : DeploymentDescriptor) : option string :=
  orelse (validateRequired d)
    (orelse (validateEnums d) (orelse (route_validate (Name d) (Route d)) (validateCoherence d))).

(** DeploymentSet.Validate's loop, from the names seen so far. *)
Fixpoint validate_set (seen : gset string) (ds : list DeploymentDescriptor) : option string :=
  match ds with
  | [] => None
  | d :: r =>
      match Validate d with
      | Some e => Some e
      | None => if decide (Name d ∈ seen) then Some ("duplicate deployment name: " +:+ quote (Name d))
                else validate_set ({[Name d]} ∪ seen) r
      end
  end.

(** LoadDeploymentSet, with os.Open's error and the strict decoder's answer. *)
Definition LoadDeploymentSet (open : string -> option string)
    (decode : string -> result string (list DeploymentDescriptor)) (path : string)
    : result string (list DeploymentDescriptor) :=
  match open path with
  | Some e => Err ("open deployment set " +:+ quote path +:+ ": " +:+ e)
  | None =>
      match decode path with
      | Err e => Err ("parse deployment set " +:+ quote path +:+ ": " +:+ e)
      | Ok set => match validate_set ∅ set with
                  | Some e => Err ("invalid deployment set " +:+ quote path +:+ ": " +:+ e)
                  | None => Ok set
                  end
      end
  end.

Fixpoint ByName (set : list DeploymentDescriptor) (name : string) : option DeploymentDescriptor :=
  match set with
  | [] => None
  | d :: r => if String.eqb (Name d) name then Some d else ByName r name
  end.

Definition ResolvedLiteLLMModelName (d : DeploymentDescriptor) : string :=
  if negb (String.eqb (LiteLLMModelName d) "") then LiteLLMModelName d
  else if servedByOllama d then "ollama/" +:+ Location d
  else "openai/" +:+ Name d.

Definition IsHFCacheLocation (d : DeploymentDescriptor) : bool :=
  has_prefix (Location d) "/" || has_suffix (Location d) ".gguf" || contains (Location d) "huggingface".

(** * The derived LiteLLM config *)

Inductive value := VString (s : string) | VInt (z : Z) | VBool (b : bool) | VStrings (l : list string).

Record LiteLLMModel := mkLiteLLMModel {
  ModelName : string; LiteLLMParams : gmap string value; ModelInfo : gmap string value
}.

Record LiteLLMConfig := mkLiteLLMConfig {
  ModelList : list LiteLLMModel; GeneralSettings : gmap string value; LiteLLMSettings : gmap string value
}.

Definition host_port (r : TraefikRoute) : string := "http://" +:+ Host r +:+ ":" +:+ itoa (ServicePort r).

Definition litellmParams (d : DeploymentDescriptor) : gmap string value :=
  let base : gmap string value := {["model" := VString (ResolvedLiteLLMModelName d)]} in
  let routed :=
    if servedByOllama d then <["api_base" := VString (host_port (Route d))]> base
    else <["api_key" := VString "sk-local"]>
           (<["api_base" := VString (host_port (Route d) +:+ PathPrefix (Route d))]> base) in
  if 0 <? ContextWindow d then <["max_tokens" := VInt (ContextWindow d)]> routed else routed.

Definition render_model (d : DeploymentDescriptor) : LiteLLMModel :=
  mkLiteLLMModel (Name d) (litellmParams d)
    (list_to_map [("architecture", VString (Architecture d)); ("role", VString (Role d));
                  ("backend", VString (Backend d)); ("location", VString (Location d));
                  ("traefik_host", VString (Host (Route d)))]).

Definition RenderLiteLLM (set : list DeploymentDescriptor) : LiteLLMConfig :=
  mkLiteLLMConfig (map render_model set) {["telemetry" := VBool false]}
    (list_to_map [("callbacks", VStrings ["prometheus"]); ("drop_params", VBool true)]).

(** * Plans *)

Record UpPlan := mkUpPlan {
  up_Deployment : string; up_Backend : string; up_Architecture : string; up_Role : string;
  BindsTo : string; up_Route : TraefikRoute; up_Location : string; up_ModelName : string;
  up_Steps : list string
}.

Record DownPlan := mkDownPlan { dn_Deployment : string; dn_Backend : string; dn_Steps : list string }.

Definition BringUp (d : DeploymentDescriptor) : UpPlan :=
  let loc := quote (Location d) in
  let '(steps, binds) :=
    if String.eqb (Backend d) BackendOllama then
      (["ollama list | grep -q " +:+ loc +:+ " || ollama create " +:+ loc +:+ " -f modelfiles/"
          +:+ Name d +:+ ".Modelfile";
        "ollama ps | grep -q " +:+ loc +:+ " || ollama run " +:+ loc +:+ " --keepalive 30m </dev/null"],
       "ollama (bare-metal, Metal)")
    else if String.eqb (Backend d) BackendTransformers then
      (["test -e " +:+ loc +:+ "  # weights present for the in-process consumer to load"],
       "transformers/MLX, in-process in the consumer (no standalone server)")
    else if String.eqb (Backend d) BackendLlamaCPP then
      (["llama-server -m " +:+ loc +:+ " --host 127.0.0.1 --port " +:+ itoa (ServicePort (Route d)) +:+ " -ngl 999"],
       "llama.cpp server (bare-metal, Metal)")
    else if String.eqb (Backend d) BackendXinference then
      (["# xinference container register -- not wired yet"], "xinference (container) -- not wired")
    else ([], "") in
  mkUpPlan (Name d) (Backend d) (Architecture d) (Role d) binds (Route d) (Location d)
    (ResolvedLiteLLMModelName d) steps.

Definition Teardown (d : DeploymentDescriptor) : DownPlan :=
  mkDownPlan (Name d) (Backend d)
    (if String.eqb (Backend d) BackendOllama then
       ["ollama stop " +:+ quote (Location d) +:+ "  # unload from RAM; registration and weights stay"]
     else if String.eqb (Backend d) BackendTransformers then
       ["# nothing to stop -- the model is loaded inside the consumer's process"]
     else if String.eqb (Backend d) BackendLlamaCPP then
       ["pkill -f 'port " +:+ itoa (ServicePort (Route d)) +:+ "'  # stop the bare-metal server"]
     else if String.eqb (Backend d) BackendXinference then
       ["# xinference container stop -- not wired yet"]
     else []).

(** * The health ladder *)

(** observability.v1.HealthState, by its number. *)
Definition StateUnspecified : Z := 0.
Definition StateGreen : Z := 1.
Definition StateYellow : Z := 2.
Definition StateRed : Z := 3.

Record TierResult := mkTier { Tier : string; tr_State : Z; Detail : string }.
Record LadderReport := mkLadder {
  lad_Deployment : string; lad_Backend : string; Overall : Z; Tiers : list TierResult
}.

Record Probe := mkProbe { URL : string; Reachable : bool; Status : Z; p_Error : string }.

Definition HealthURL (d : DeploymentDescriptor) : string :=
  if String.eqb (Backend d) BackendOllama then host_port (Route d) +:+ "/"
  else host_port (Route d) +:+ "/health".

(** os.Stat's error, and the status of a GET. *)
Variable stat : string -> option string.
Variable http_get : string -> result string Z.

Definition ProbeURL (url : string) : Probe :=
  match http_get url with
  | Err _ => mkProbe url false 0 "unreachable"
  | Ok status => mkProbe url true status ""
  end.

Definition tierDeclared (d : DeploymentDescriptor) : TierResult :=
  if IsHFCacheLocation d then
    match stat (Location d) with
    | Some _ => mkTier "declared" StateRed ("weights not found at " +:+ Location d)
    | None => mkTier "declared" StateGreen "weights present on disk"
    end
  else mkTier "declared" StateGreen "declared (location is a backend handle, not a path)".

Definition tierReachable (d : DeploymentDescriptor) : TierResult :=
  let p := ProbeURL (HealthURL d) in
  if negb (Reachable p) then mkTier "reachable" StateRed (URL p +:+ " unreachable")
  else mkTier "reachable" StateGreen (URL p +:+ " -> " +:+ itoa (Status p)).

Definition worstState (tiers : list TierResult) : Z :=
  fold_left (fun worst t => if worst <? tr_State t then tr_State t else worst) tiers StateUnspecified.

Definition Ladder (d : DeploymentDescriptor) : LadderReport :=
  let tiers := [tierDeclared d; tierReachable d] in
  mkLadder (Name d) (Backend d) (worstState tiers) tiers.

(** [None] is found = false. *)
Definition Ladders (set : list DeploymentDescriptor) (name : string) : option (list LadderReport) :=
  if negb (String.eqb name "")
  then match ByName set name with
       | None => None
       | Some d => Some [Ladder d]
       end
  else Some (map Ladder set).

(** * The model commands *)

(** What a command prints, and whether it fails. *)
Inductive printed :=
| PSet (set : list DeploymentDescriptor)
| PConfig (c : LiteLLMConfig)
| PUp (p : UpPlan)
| PDown (p : DownPlan)
| PHealth (healthy : bool) (results : list LadderReport).

Definition cli : Type := list printed * option string.

Definition withDeployment (loaded : result string (list DeploymentDescriptor)) (name : string)
    (fn : DeploymentDescriptor -> cli) : cli :=
  match loaded with
  | Err e => ([], Some e)
  | Ok set => match ByName set name with
              | None => ([], Some ("unknown deployment " +:+ quote name))
              | Some d => fn d
              end
  end.

Definition cmd_list (loaded : result string (list DeploymentDescriptor)) : cli :=
  match loaded with Err e => ([], Some e) | Ok set => ([PSet set], None) end.

Definition cmd_render (loaded : result string (list DeploymentDescriptor)) : cli :=
  match loaded with Err e => ([], Some e) | Ok set => ([PConfig (RenderLiteLLM set)], None) end.

Definition cmd_up (loaded : result string (list DeploymentDescriptor)) (name : string) : cli :=
  withDeployment loaded name (fun d => ([PUp (BringUp d)], None)).

Definition cmd_down (loaded : result string (list DeploymentDescriptor)) (name : string) : cli :=
  withDeployment loaded name (fun d => ([PDown (Teardown d)], None)).

(** [name] is empty when no argument was given. *)
Definition cmd_health (loaded : result string (list DeploymentDescriptor)) (name : string) : cli :=
  match loaded with
  | Err e => ([], Some e)
  | Ok set =>
      match Ladders set name with
      | None => ([], Some ("unknown deployment " +:+ quote name))
      | Some reports =>
          let healthy := forallb (fun r => negb (Overall r =? StateRed)) reports in
          ([PHealth healthy reports],
           if negb healthy then Some "one or more deployments unhealthy" else None)
      end
  end.

Definition defaultDeploymentsPath (config_root home : string) : string :=
  (if String.eqb config_root "" then home +:+ "/etc" else config_root)
  +:+ "/delightd/model-deployments.yaml".

(** * What a set promises *)

(** A descriptor delightd may act on. *)
Definition coherent (d : DeploymentDescriptor) : Prop :=
  trim_space (Name d) <> "" /\ trim_space (Location d) <> "" /\ 0 <= ContextWindow d
  /\ Architecture d ∈ architectures /\ Role d ∈ roles /\ Backend d ∈ backends
  /\ trim_space (Host (Route d)) <> "" /\ 1 <= ServicePort (Route d) <= 65535
  /\ (Backend d = BackendOllama -> Architecture d = ArchDecode).

Definition well_formed (set : list DeploymentDescriptor) : Prop :=
  Forall coherent set /\ NoDup (Name <$> set).

(** * Lemmas *)

Lemma oneOf_spec v l : oneOf v l = true <-> v ∈ l.
Proof.
  clear quote stat http_get.
  induction l as [|a l IH]; simpl; [by split; [|intros ?%elem_of_nil]|].
  rewrite elem_of_cons, <-IH. destruct (String.eqb_spec v a); naive_solver.
Qed.

Lemma orelse_None a b : orelse a b = None <-> a = None /\ b = None.
Proof.
  clear quote stat http_get. destruct a; simpl; naive_solver. Qed.

(** A chain of guarded errors succeeds when no guard fires. *)
Lemma guard_None (b : bool) (e : string) (k : option string) :
  (if b then Some e else k) = None <-> b = false /\ k = None.
Proof.
  clear quote stat http_get. destruct b; naive_solver. Qed.

Lemma Validate_None d : Validate d = None <-> coherent d.
Proof.
  clear stat http_get.
  unfold Validate, validateRequired, validateEnums, route_validate, validateCoherence, coherent, servedByOllama.
  rewrite !orelse_None, !guard_None, !negb_false_iff, !String.eqb_neq, !oneOf_spec.
  rewrite orb_false_iff, !Z.ltb_ge.
  assert (Hc : String.eqb (Backend d) BackendOllama && negb (String.eqb (Architecture d) ArchDecode) = false
    <-> (Backend d = BackendOllama -> Architecture d = ArchDecode)).
  { destruct (String.eqb_spec (Backend d) BackendOllama), (String.eqb_spec (Architecture d) ArchDecode);
      simpl; naive_solver. }
  rewrite Hc. naive_solver lia.
Qed.

Lemma validate_set_None seen ds :
  validate_set seen ds = None
  <-> Forall coherent ds /\ NoDup (Name <$> ds) /\ forall d, d ∈ ds -> Name d ∉ seen.
Proof.
  clear stat http_get.
  revert seen. induction ds as [|d ds IH]; intros seen; cbn [validate_set].
  { split; [|done]. intros _. split_and!; [constructor|constructor|set_solver]. }
  rewrite Forall_cons, fmap_cons, NoDup_cons, <-Validate_None.
  assert (Hnm : Name d ∈ Name <$> ds <-> exists d', d' ∈ ds /\ Name d' = Name d).
  { rewrite list_elem_of_fmap. naive_solver. }
  rewrite Hnm. destruct (Validate d); [naive_solver|].
  destruct (decide (Name d ∈ seen)) as [Hin|Hn].
  - split; [done|]. intros (_ & _ & Hs). by destruct (Hs d ltac:(by left)).
  - rewrite IH. split.
    + intros (Hf & Hd & Hs). split_and!; [done|done| |done|].
      * intros (d' & Hd' & E). apply (Hs d' Hd'). set_solver.
      * intros d' [->|Hd']%elem_of_cons; [done|]. specialize (Hs d' Hd'). set_solver.
    + intros ((_ & Hf) & (Hx & Hd) & Hs). split_and!; [done..|].
      intros d' Hd'. pose proof (Hs d' ltac:(by right)). set_unfold. naive_solver.
Qed.

Lemma ByName_spec set name d :
  NoDup (Name <$> set) -> ByName set name = Some d <-> d ∈ set /\ Name d = name.
Proof.
  clear quote stat http_get.
  induction set as [|x set IH]; intros Hd; simpl; [by split; [|intros [?%elem_of_nil ?]]|].
  rewrite fmap_cons, NoDup_cons in Hd. destruct Hd as [Hx Hd]. rewrite elem_of_cons.
  destruct (String.eqb_spec (Name x) name) as [<-|Hn].
  - split; [by intros [= ->]; auto|]. intros [[->|Hin] E]; [done|].
    destruct Hx. apply list_elem_of_fmap. eauto.
  - rewrite IH by done. naive_solver.
Qed.

Lemma worst_step l w :
  let r := fold_left (fun worst t => if worst <? tr_State t then tr_State t else worst) l w in
  w <= r /\ (forall t, t ∈ l -> tr_State t <= r) /\ (r = w \/ exists t, t ∈ l /\ tr_State t = r).
Proof.
  revert w. induction l as [|t l IH]; intros w; cbn [fold_left]; [split_and!; [lia|set_solver|by left]|].
  destruct (IH (if w <? tr_State t then tr_State t else w)) as (I1 & I2 & I3).
  destruct (Z.ltb_spec w (tr_State t)); split_and!; try lia.
  - intros t' [->|Ht]%elem_of_cons; [done|by apply I2].
  - right. destruct I3 as [E|(t' & Ht & E)]; [exists t; split; [by left|done]|exists t'; split; [by right|done]].
  - intros t' [->|Ht]%elem_of_cons; [lia|by apply I2].
  - destruct I3 as [E|(t' & Ht & E)]; [by left|right; exists t'; split; [by right|done]].
Qed.

(** worstState is the greatest state of the rungs. *)
Lemma worstState_max tiers :
  (forall t, t ∈ tiers -> StateUnspecified <= tr_State t) -> tiers <> [] ->
  (forall t, t ∈ tiers -> tr_State t <= worstState tiers)
  /\ exists t, t ∈ tiers /\ tr_State t = worstState tiers.
Proof.
  intros H0 Hne. destruct (worst_step tiers StateUnspecified) as (H1 & H2 & H3). split; [done|].
  destruct H3 as [E|?]; [|done]. destruct tiers as [|t l]; [done|]. exists t. split; [by left|].
  unfold worstState. rewrite E. pose proof (H2 t ltac:(by left)) as Ht. rewrite E in Ht.
  pose proof (H0 t ltac:(by left)). lia.
Qed.

Lemma Ladder_overall d :
  Overall (Ladder d) = StateRed
  \/ (Overall (Ladder d) = StateGreen
      /\ tr_State (tierDeclared d) = StateGreen /\ tr_State (tierReachable d) = StateGreen).
Proof.
  unfold Ladder, tierDeclared, tierReachable, ProbeURL. cbn [Overall].
  destruct (IsHFCacheLocation d), (stat (Location d)), (http_get (HealthURL d)); simpl; auto.
Qed.

Lemma Ladder_green d :
  Overall (Ladder d) = StateGreen
  <-> (IsHFCacheLocation d = true -> stat (Location d) = None)
      /\ exists code, http_get (HealthURL d) = Ok code.
Proof.
  unfold Ladder, tierDeclared, tierReachable, ProbeURL. cbn [Overall].
  destruct (IsHFCacheLocation d), (stat (Location d)), (http_get (HealthURL d)); cbn; split;
    try naive_solver.
Qed.

(** pkill -f takes its argument as a pattern of the whole command line: the teardown
    of one llama.cpp server names every other whose port only begins like its own. *)
Lemma teardown_matches_longer_ports d d' :
  Backend d = BackendLlamaCPP -> Backend d' = BackendLlamaCPP ->
  has_prefix (itoa (ServicePort (Route d'))) (itoa (ServicePort (Route d))) = true ->
  dn_Steps (Teardown d) = ["pkill -f 'port " +:+ itoa (ServicePort (Route d)) +:+ "'  # stop the bare-metal server"]
  /\ exists server, up_Steps (BringUp d') = [server]
     /\ contains server ("port " +:+ itoa (ServicePort (Route d))) = true.
Proof.
  clear stat http_get. intros E E' (rest & Hr)%has_prefix_spec. unfold Teardown, BringUp. rewrite E, E'. cbn [dn_Steps].
  split; [done|]. eexists. split; [reflexivity|]. apply contains_spec. rewrite Hr.
  exists ("llama-server -m " +:+ quote (Location d') +:+ " --host 127.0.0.1 --"), (rest +:+ " -ngl 999").
  change " --host 127.0.0.1 --port " with (" --host 127.0.0.1 --" +:+ "port "). by rewrite !str_app_assoc.
Qed.

(** * Properties *)

(** C35. A deployment set that loads is one delightd may act on: LoadDeploymentSet
    returns the decoded set exactly when it could be read and decoded, every
    descriptor is coherent (named, placed, in the enums, a port in range, and never
    an encoder behind ollama) and no name is declared twice; then a name finds the
    one deployment declared under it. *)
Theorem LoadDeploymentSet_admits_exactly open decode path set :
  (LoadDeploymentSet open decode path = Ok set
   <-> open path = None /\ decode path = Ok set /\ well_formed set)
  /\ (LoadDeploymentSet open decode path = Ok set -> forall name d,
        ByName set name = Some d <-> d ∈ set /\ Name d = name).
Proof.
  clear stat http_get.
  assert (Hiff : LoadDeploymentSet open decode path = Ok set
    <-> open path = None /\ decode path = Ok set /\ well_formed set).
  { unfold LoadDeploymentSet, well_formed. destruct (open path); [naive_solver|].
    destruct (decode path) as [ds|e]; [|naive_solver].
    destruct (validate_set ∅ ds) eqn:E.
    - split; [done|]. intros (_ & [= ->] & Hf & Hd).
      assert (validate_set ∅ set = None) by (apply validate_set_None; set_solver). congruence.
    - apply validate_set_None in E as (Hf & Hd & _). naive_solver. }
  split; [exact Hiff|]. intros Hl name d. apply ByName_spec. by apply Hiff in Hl as (_ & _ & _ & ?).
Qed.

(** The rendered LiteLLM config is the declared set and nothing else: one entry
    per deployment, in order and under its name, whose route is the deployment's
    own; only an ollama deployment is reached natively, every other one through its
    path prefix with the placeholder key; and the context window is passed exactly
    when it is set. *)
Lemma RenderLiteLLM_is_the_set set :
  ModelName <$> ModelList (RenderLiteLLM set) = Name <$> set
  /\ forall i d, set !! i = Some d -> exists e, ModelList (RenderLiteLLM set) !! i = Some e
     /\ LiteLLMParams e !! "model" = Some (VString (ResolvedLiteLLMModelName d))
     /\ LiteLLMParams e !! "api_base"
        = Some (VString (host_port (Route d) +:+ if servedByOllama d then "" else PathPrefix (Route d)))
     /\ (LiteLLMParams e !! "api_key" = None <-> Backend d = BackendOllama)
     /\ LiteLLMParams e !! "max_tokens" = (if 0 <? ContextWindow d then Some (VInt (ContextWindow d)) else None)
     /\ ModelInfo e !! "backend" = Some (VString (Backend d)).
Proof.
  split.
  - unfold RenderLiteLLM. cbn [ModelList]. induction set as [|d set IH]; [done|]. simpl. by f_equal.
  - intros i d Hi. exists (render_model d). split.
    { unfold RenderLiteLLM. cbn [ModelList]. change (map render_model set) with (render_model <$> set).
      by rewrite list_lookup_fmap, Hi. }
    unfold render_model. cbn [LiteLLMParams ModelInfo].
    assert (Ho : servedByOllama d = true <-> Backend d = BackendOllama) by apply String.eqb_eq.
    unfold litellmParams. destruct (servedByOllama d), (0 <? ContextWindow d); simpl_map;
      rewrite ?str_app_nil_r; split_and!; try done; naive_solver.
Qed.

(** The health command fails when a deployment asked for is down: it reports one
    ladder per deployment asked for, each RED or GREEN, GREEN exactly when its
    weights (if they are a path) are there and its endpoint answers, whatever the
    status; and its exit is zero exactly when the set loads, the name (if one is
    given) is declared, and every ladder is GREEN. *)
Lemma model_health_command loaded name :
  (snd (cmd_health loaded name) = None <->
     exists set ds, loaded = Ok set
       /\ (if String.eqb name "" then ds = set else exists d, ByName set name = Some d /\ ds = [d])
       /\ Forall (fun d => (IsHFCacheLocation d = true -> stat (Location d) = None)
                           /\ exists code, http_get (HealthURL d) = Ok code) ds)
  /\ (forall healthy reports, PHealth healthy reports ∈ fst (cmd_health loaded name) ->
        (healthy = true <-> snd (cmd_health loaded name) = None)
        /\ Forall (fun r => Overall r = StateRed \/ Overall r = StateGreen) reports).
Proof.
  assert (Hall : forall ds, forallb (fun r => negb (Overall r =? StateRed)) (map Ladder ds) = true
    <-> Forall (fun d => (IsHFCacheLocation d = true -> stat (Location d) = None)
                         /\ exists code, http_get (HealthURL d) = Ok code) ds).
  { intros ds. induction ds as [|d ds IH]; cbn [map forallb]; [done|].
    rewrite andb_true_iff, Forall_cons, IH, <-Ladder_green, negb_true_iff, Z.eqb_neq.
    destruct (Ladder_overall d) as [->|(-> & _)]; unfold StateRed, StateGreen; naive_solver lia. }
  assert (Hb : forall (b : bool) (e : string), b = true <-> (if negb b then Some e else None) = None)
    by (by intros []).
  assert (Hrg : forall ds, Forall (fun r => Overall r = StateRed \/ Overall r = StateGreen) (map Ladder ds)).
  { intros ds. induction ds as [|d ds IH]; constructor; [|done]. destruct (Ladder_overall d) as [?|[? _]]; auto. }
  unfold cmd_health, Ladders. destruct loaded as [set|e].
  2: { split; [naive_solver|]. by intros ? ? ?%elem_of_nil. }
  destruct (String.eqb name ""); cbn [negb].
  - split.
    + specialize (Hall set). destruct (forallb _ (map Ladder set)); cbn [negb snd].
      * split; [|done]. intros _. exists set, set. split_and!; [done..|by apply Hall].
      * split; [done|]. intros (set' & ds & [= <-] & -> & Hf). by apply Hall in Hf.
    + intros healthy reports [= -> ->]%list_elem_of_singleton. split; [|apply Hrg].
      by apply Hb.
  - destruct (ByName set name) as [d|] eqn:En.
    2: { split; [|by intros ? ? ?%elem_of_nil]. split; [done|].
         intros (set' & ds & [= <-] & (d & Hd & _) & _). congruence. }
    change [Ladder d] with (map Ladder [d]). split.
    + specialize (Hall [d]). destruct (forallb _ (map Ladder [d])); cbn [negb snd].
      * split; [|done]. intros _. exists set, [d]. split_and!; [done|by exists d|by apply Hall].
      * split; [done|]. intros (set' & ds & [= <-] & (d' & Hd & ->) & Hf).
        assert (d' = d) as -> by congruence. by apply Hall in Hf.
    + intros healthy reports [= -> ->]%list_elem_of_singleton. split; [|apply (Hrg [d])].
      by apply Hb.
Qed.

End validation.

(** * The properties at concrete inputs *)

Definition w_route : TraefikRoute := mkTraefikRoute "mac.local" "/v1" 11434.
Definition w_chat : DeploymentDescriptor := mkDeployment "chat" "mistral:7b" "decode" "chat" "ollama" w_route 4096 "".
Definition w_flan : DeploymentDescriptor :=
  mkDeployment "flan" "/models/flan-t5" "encode-decode" "completion" "transformers" w_route 0 "".
Definition w_set : list DeploymentDescriptor := [w_chat; w_flan].

(** The declared set loads; with the seq2seq model on ollama it would not. *)
Lemma LoadDeploymentSet_admits_exactly_witness :
  LoadDeploymentSet (fun s => s) (fun _ => None) (fun _ => Ok w_set) "m.yaml" = Ok w_set
  /\ (ByName w_set "flan" = Some w_flan <-> w_flan ∈ w_set /\ Name w_flan = "flan")
  /\ is_ok (LoadDeploymentSet (fun s => s) (fun _ => None)
       (fun _ => Ok [mkDeployment "flan" "flan-t5" "encode-decode" "completion" "ollama" w_route 0 ""]) "m.yaml") = false.
Proof.
  assert (E : LoadDeploymentSet (fun s => s) (fun _ => None) (fun _ => Ok w_set) "m.yaml" = Ok w_set)
    by (vm_compute; reflexivity).
  split; [exact E|]. split; [|vm_compute; reflexivity].
  exact (proj2 (LoadDeploymentSet_admits_exactly (fun s => s) (fun _ => None) (fun _ => Ok w_set) "m.yaml" w_set)
    E "flan" w_flan).
Defined.

End model.
