(* ===== verification/Skills.v ===== *)
(** pkg/skills: the fleet's agent tools, their dispatch over MCP, and the
    generated command-line router.

    JSON, files, processes, the network and net/url's parser are inputs. A map the
    code ranges over is an association list in the order of the iteration, which
    Go leaves open: a theorem holds for every order. What HandleMCP sends outside
    is the list of its [effect]s. *)

From S2P Require Import Prelude GoStrings GoPath.
From Stdlib Require Import Ascii.

Module skills.

Record HandlerDef := mkHandlerDef {
  h_Type : string; h_Method : string; h_URL : string; h_Command : string; h_Args : list string
}.

Record Tool := mkTool {
  t_Name : string; t_Description : string; t_InputSchema : string; t_Handler : HandlerDef
}.

(** * Placeholders *)

Definition lbrace : ascii := "{"%char.
Definition rbrace : ascii := "}"%char.

Definition placeholder (name : string) : string := "{" +:+ name +:+ "}".

(** The loop over the arguments. *)
Definition fill (args : list (string * string)) (s : string) : string :=
  fold_left (fun s a => replace_all s (placeholder a.1) a.2) args s.

Section dispatch.
Variable quote : string -> string.          (* fmt's %q *)
Context {V : Type}.
Variable Sprint : V -> string.              (* fmt.Sprint of a decoded JSON value *)

Definition renderURL (rawURL : string) (args : list (string * V)) : result string string :=
  let u := fill (map (fun a => (a.1, PathEscape (Sprint a.2))) args) rawURL in
  if contains_any2 u lbrace rbrace then Err ("unfilled path parameter in " +:+ quote u) else Ok u.

Fixpoint renderArgs (args : list string) (callArgs : list (string * V)) : result string (list string) :=
  match args with
  | [] => Ok []
  | a :: r =>
      let a' := fill (map (fun x => (x.1, Sprint x.2)) callArgs) a in
      if contains_any2 a' lbrace rbrace then Err ("unfilled command argument in " +:+ quote a')
      else match renderArgs r callArgs with Err e => Err e | Ok out => Ok (a' :: out) end
  end.

(** positionalURL's loop from the [i]-th placeholder; each turn removes a brace,
    so the length is fuel enough ([positional_fuel]). *)
Fixpoint positional (fuel : nat) (i : Z) (rawURL : string) : string :=
  match fuel with
  | O => rawURL
  | S k =>
      match cut lbrace rawURL with
      | (_, _, false) => rawURL
      | (before, rest, true) =>
          match cut rbrace rest with
          | (_, _, false) => rawURL
          | (_, after, true) => positional k (i + 1) (before +:+ "$" +:+ itoa i +:+ after)
          end
      end
  end.

Definition positionalURL (rawURL : string) : string := positional (String.length rawURL) 1 rawURL.

Definition isMutatingMethod (method : string) : bool :=
  let m := to_upper method in
  String.eqb m "POST" || String.eqb m "PUT" || String.eqb m "PATCH" || String.eqb m "DELETE".

(** url.Parse and Hostname. *)
Variable url_hostname : string -> result string string.

Definition isLoopbackURL (rawURL : string) : bool :=
  match url_hostname rawURL with
  | Err _ => false
  | Ok host => String.eqb host "127.0.0.1" || String.eqb host "localhost" || String.eqb host "::1"
  end.

(** What leaves the process: a command with its argv, or a request with its
    bearer (empty: no Authorization header). *)
Inductive effect :=
| Exec (command : string) (argv : list string)
| Http (method url bearer : string).

(** The outside: CombinedOutput, and client.Do with the body read. *)
Record Outside := mkOutside {
  exec_cmd : string -> list string -> string * option string;
  http_new : string -> string -> option string;                (* http.NewRequest *)
  http_do : string -> string -> string -> result string (Z * string * string)  (* code, status line, body *)
}.
Variable out : Outside.

(** doHTTP: what it sent, the body and the error. *)
Definition doHTTP (method rawURL bearer : string) : list effect * (string * option string) :=
  let method := if String.eqb method "" then "GET" else method in
  match http_new out method rawURL with
  | Some e => ([], ("", Some e))
  | None =>
      ([Http method rawURL bearer],
       match http_do out method rawURL bearer with
       | Err e => ("", Some e)
       | Ok (code, status_line, b) =>
           let body := trim_space b in
           if negb (Z.quot code 100 =? 2)
           then (body, Some ("control port returned " +:+ status_line)) else (body, None)
       end)
  end.

(** * The aggregator *)

Record Aggregator := mkAggregator {
  workDir : string; selfManifest : string; tools : gmap string Tool; controlToken : string
}.

Definition NewAggregator (workDir : string) : Aggregator := mkAggregator workDir "" ∅ "".
Definition UseControlToken (tok : string) (a : Aggregator) : Aggregator :=
  mkAggregator (workDir a) (selfManifest a) (tools a) tok.
Definition SetSelfManifest (path : string) (a : Aggregator) : Aggregator :=
  mkAggregator (workDir a) path (tools a) (controlToken a).

(** os.ReadFile with json.Unmarshal: the manifest's tools, or either's error. *)
Variable read_manifest : string -> result string (list Tool).

Definition rename (prefix : string) (t : Tool) : Tool :=
  mkTool (prefix +:+ "_" +:+ t_Name t) (t_Description t) (t_InputSchema t) (t_Handler t).

Definition loadManifest (path prefix : string) (ts : gmap string Tool) : gmap string Tool :=
  match read_manifest path with
  | Err _ => ts
  | Ok manifest => fold_left (fun ts t => <[t_Name (rename prefix t) := rename prefix t]> ts) manifest ts
  end.

Definition ScanProjects (projects : list string) (a : Aggregator) : Aggregator :=
  let ts := fold_left (fun ts proj => loadManifest (path_join [workDir a; proj; "mcp.json"]) proj ts)
              projects ∅ in
  let ts := if negb (String.eqb (selfManifest a) "") then loadManifest (selfManifest a) "delightd" ts else ts in
  mkAggregator (workDir a) (selfManifest a) ts (controlToken a).

(** GetTools lists the map in some order; this is one. *)
Definition GetTools (a : Aggregator) : list Tool := (map_to_list (tools a)).*2.
Definition GetTool (name : string) (a : Aggregator) : option Tool := tools a !! name.

(** * MCP *)

Definition maxMCPBodyBytes : Z := 2 ^ 20.

Inductive rpc_result :=
| RTools (ts : list Tool)
| RContent (text : string) (isError : bool)
| RError (code : Z) (message : string).

Inductive mcp_response :=
| MHttpError (code : Z) (text : string)
| MRpc (id : string) (r : rpc_result).

(** The decoder on the (cut) body: the id, the method and the raw params. *)
Variable decode_rpc : string -> result string (string * string * string).
(** The name and the arguments of raw params. *)
Variable decode_params : string -> result string (string * list (string * V)).

(** The switch on the handler's type: the effects, the output and isErr. *)
Definition call_tool (a : Aggregator) (h : HandlerDef) (args : list (string * V))
    : list effect * (string * bool) :=
  if String.eqb (h_Type h) "command" then
    match renderArgs (h_Args h) args with
    | Err e => ([], (e, true))
    | Ok rendered =>
        ([Exec (h_Command h) rendered],
         match exec_cmd out (h_Command h) rendered with
         | (o, Some e) => (e +:+ ": " +:+ o, true)
         | (o, None) => (o, false)
         end)
    end
  else if String.eqb (h_Type h) "http" then
    match renderURL (h_URL h) args with
    | Err e => ([], (e, true))
    | Ok rendered =>
        let bearer := if isMutatingMethod (h_Method h) && isLoopbackURL rendered
                      then controlToken a else "" in
        let '(es, (resp, err)) := doHTTP (h_Method h) rendered bearer in
        (es, match err with
             | Some e => (if String.eqb resp "" then e else resp, true)
             | None => (resp, false)
             end)
    end
  else ([], ("unsupported handler type: " +:+ h_Type h, true)).

Definition HandleMCP (a : Aggregator) (method body : string) : list effect * mcp_response :=
  if negb (String.eqb method "POST") then ([], MHttpError 405 "Method not allowed")
  else match decode_rpc (take_str (Z.to_nat maxMCPBodyBytes) body) with
       | Err e => ([], MHttpError 400 e)
       | Ok (id, rpc_method, raw) =>
           if String.eqb rpc_method "tools/list" then ([], MRpc id (RTools (GetTools a)))
           else if String.eqb rpc_method "tools/call" then
             match decode_params raw with
             | Err _ => ([], MRpc id (RError (-32602) "Invalid params"))
             | Ok (name, args) =>
                 match GetTool name a with
                 | None => ([], MRpc id (RError (-32601) "Tool not found"))
                 | Some tool => let '(es, (o, isErr)) := call_tool a (t_Handler tool) args in
                                (es, MRpc id (RContent o isErr))
                 end
             end
           else ([], MRpc id (RError (-32601) "Method not found"))
       end.

End dispatch.

(** * The generated router *)

Definition cli_header : string :=
  join "" (map script_line
    ["#!/usr/bin/env bash"; "";
     "CONTROL_TOKEN_FILE=`${DELIGHT_CONTROL_TOKEN_FILE:-/run/delightd/control-token}`";
     "_authcfg() {";
     "  [ -s `$CONTROL_TOKEN_FILE` ] || { echo `control token not provisioned at $CONTROL_TOKEN_FILE` >&2; exit 1; }";
     "  local cfg; cfg=$(mktemp) || { echo 'cannot create temp curl config' >&2; exit 1; }";
     "  chmod 600 `$cfg`";
     "  printf 'header = `Authorization: Bearer %s`\n' `$(cat `$CONTROL_TOKEN_FILE`)` >`$cfg`";
     "  printf '%s' `$cfg`"; "}"; "";
     "_call() {";
     "  local method=`$1` url=`$2`; shift 2";
     "  local out code";
     "  out=$(curl -s -w $'\n%{http_code}' -X `$method` `$url` `$@`)";
     "  code=`${out##*$'\n'}`";
     "  printf '%s\n' `${out%$'\n'*}`";
     "  case `$code` in 2[0-9][0-9]) return 0 ;; *) return 1 ;; esac"; "}"; "";
     "SERVICE=$1"; "ACTION=$2"; "shift 2"; "";
     "case `${SERVICE}_${ACTION}` in"]).

Definition cli_tool (t : Tool) : string :=
  let h := t_Handler t in
  bq "  `" +:+ t_Name t +:+ script_line "`)"
  +:+ (if String.eqb (h_Type h) "command" then
         "    exec " +:+ h_Command h +:+ " " +:+ join " " (h_Args h) +:+ script_line " `$@`"
       else if String.eqb (h_Type h) "http" then
         if isMutatingMethod (h_Method h)
         then "    cfg=$(_authcfg); _call " +:+ h_Method h +:+ bq " `" +:+ positionalURL (h_URL h)
              +:+ script_line "` -K `$cfg` -d `$*`; rc=$?; rm -f `$cfg`; exit $rc"
         else "    _call " +:+ h_Method h +:+ bq " `" +:+ positionalURL (h_URL h) +:+ script_line "` -d `$*`"
       else if String.eqb (h_Type h) "internal" then
         if String.eqb (h_Method h) "backup"
         then script_line "    cfg=$(_authcfg); _call POST `http://localhost:8088/projects/$1/backup` -K `$cfg`; rc=$?; rm -f `$cfg`; exit $rc"
         else ""
       else "    echo 'unsupported handler type'" +:+ nl)
  +:+ "    ;;" +:+ nl.

Definition cli_usage (t : Tool) : string :=
  match cut "_"%char (t_Name t) with
  | (service, action, true) =>
      "    echo '  delight " +:+ service +:+ " " +:+ action +:+ " - " +:+ t_Description t +:+ "'" +:+ nl
  | _ => ""
  end.

(** The script's text. *)
Definition cli_script (ts : list Tool) : string :=
  cli_header +:+ join "" (map cli_tool ts)
  +:+ join "" (map script_line ["  *)"; "    echo 'Usage: delight <service> <action> [args]'";
                                "    echo 'Available commands:'"])
  +:+ join "" (map cli_usage ts)
  +:+ join "" (map script_line ["    exit 1"; "    ;;"; "esac"]).

(** How os.WriteFile goes: it may fail to open the file, or after it was truncated and
    some of it written. *)
Inductive write_file := WriteDone | WriteRefused (e : string) | WriteTorn (written : nat) (e : string).

(** [mkdir] is os.MkdirAll's error; the files are by path. *)
Definition GenerateCLIWrapper (mkdir : option string) (write : write_file) (varBinDir : string) (ts : list Tool)
    (files : gmap string string) : gmap string string * option string :=
  match mkdir with
  | Some e => (files, Some e)
  | None =>
      let cliPath := path_join [varBinDir; "delight"] in
      match write with
      | WriteRefused e => (files, Some e)
      | WriteTorn n e => (<[cliPath := take_str n (cli_script ts)]> files, Some e)
      | WriteDone => (<[cliPath := cli_script ts]> files, None)
      end
  end.

(** * Reference definitions *)

Definition no_brace (s : string) : Prop := contains_any2 s lbrace rbrace = false.

(** Simultaneous substitution: [st] is the text since an open brace. *)
Fixpoint sub (m : gmap string string) (st : option string) (s : string) : string :=
  match s with
  | EmptyString => match st with None => EmptyString | Some acc => String lbrace acc end
  | String c r =>
      match st with
      | None => if Ascii.eqb c lbrace then sub m (Some "") r else String c (sub m None r)
      | Some acc =>
          if Ascii.eqb c lbrace then String lbrace acc +:+ sub m (Some "") r
          else if Ascii.eqb c rbrace
          then match m !! acc with Some v => v | None => placeholder acc end +:+ sub m None r
          else sub m (Some (acc +:+ String c "")) r
      end
  end.

Definition substitute (m : gmap string string) (s : string) : string := sub m None s.

(** Placeholders do not nest. *)
Fixpoint template (open : bool) (s : string) : bool :=
  match s with
  | EmptyString => true
  | String c r => if Ascii.eqb c lbrace then negb open && template true r
                  else if Ascii.eqb c rbrace then template false r else template open r
  end.

(** * Lemmas *)

Lemma no_brace_app a b : no_brace (a +:+ b) <-> no_brace a /\ no_brace b.
Proof.
  unfold no_brace. induction a as [|c a IH]; cbn [String.app contains_any2]; [naive_solver|].
  rewrite !orb_false_iff, IH. tauto.
Qed.

Lemma no_brace_cons c s : no_brace (String c s) <-> c <> lbrace /\ c <> rbrace /\ no_brace s.
Proof. unfold no_brace. cbn [contains_any2]. rewrite !orb_false_iff, !Ascii.eqb_neq. tauto. Qed.

Lemma no_brace_snoc acc c : no_brace acc -> c <> lbrace -> c <> rbrace -> no_brace (acc +:+ String c "").
Proof. intros. apply no_brace_app. split; [done|]. by apply no_brace_cons. Qed.

Section replace.
Variables n v : string.
Hypothesis Hn : no_brace n.

Abbreviation rep s := (replace_all s (placeholder n) v) (only parsing).

Lemma replace_skip t s : replace_go (placeholder n) v (String.length t) (t +:+ s) = rep s.
Proof. induction t as [|c t IH]; [done|]. cbn. apply IH. Qed.

Lemma replace_hit s : rep (placeholder n +:+ s) = v +:+ rep s.
Proof.
  pose proof (has_prefix_app (placeholder n) s) as Hp.
  change (placeholder n +:+ s) with (String lbrace ((n +:+ "}") +:+ s)) in *.
  unfold replace_all at 1. cbn [replace_go]. rewrite Hp. f_equal.
  replace (String.length (placeholder n) - 1)%nat with (String.length (n +:+ "}")) by (cbn; lia).
  apply replace_skip.
Qed.

Lemma replace_miss c r : has_prefix (String c r) (placeholder n) = false -> rep (String c r) = String c (rep r).
Proof. intros H. unfold replace_all at 1. cbn [replace_go]. by rewrite H. Qed.

Lemma replace_head c r : c <> lbrace -> rep (String c r) = String c (rep r).
Proof.
  intros Hc. apply replace_miss. destruct (has_prefix (String c r) (placeholder n)) eqn:E; [|done].
  apply has_prefix_spec in E as (x & E). injection E as E _. by destruct Hc.
Qed.

Lemma replace_plain t s : no_brace t -> rep (t +:+ s) = t +:+ rep s.
Proof.
  induction t as [|c t IH]; [done|]. intros (Hl & _ & Ht)%no_brace_cons. cbn [String.app].
  rewrite replace_head by done. by rewrite IH.
Qed.

(** A brace-free name ends at the first brace after it. *)
Lemma prefix_name (acc name : string) c r :
  no_brace acc -> no_brace name -> (c = lbrace \/ c = rbrace) ->
  has_prefix (acc +:+ String c r) (name +:+ "}") = true -> acc = name /\ c = rbrace.
Proof.
  intros Ha Hm Hc. revert name Hm. induction acc as [|d acc IH]; intros [|e name] Hm; cbn [String.app has_prefix];
    rewrite andb_true_iff; intros [<-%Ascii.eqb_eq Hp].
  - done.
  - apply no_brace_cons in Hm as (? & ? & _). by destruct Hc.
  - by apply no_brace_cons in Ha as (_ & ? & _).
  - apply no_brace_cons in Ha as (_ & _ & Ha). apply no_brace_cons in Hm as (_ & _ & Hm).
    by destruct (IH Ha name Hm Hp) as [-> ->].
Qed.

Lemma prefix_end (acc name : string) : no_brace acc -> has_prefix acc (name +:+ "}") = false.
Proof.
  revert name. induction acc as [|d acc IH]; intros [|e name] Ha; cbn [String.app has_prefix]; try done.
  - apply no_brace_cons in Ha as (_ & Hr & _). apply andb_false_iff. left. apply Ascii.eqb_neq.
    by intros <-.
  - apply no_brace_cons in Ha as (_ & _ & Ha). rewrite (IH name Ha). apply andb_false_r.
Qed.

Lemma replace_open acc c r :
  no_brace acc -> (c = lbrace \/ (c = rbrace /\ acc <> n)) ->
  rep (String lbrace (acc +:+ String c r)) = String lbrace (acc +:+ rep (String c r)).
Proof.
  intros Ha Hc. rewrite replace_miss; [by rewrite replace_plain|].
  unfold placeholder. cbn [String.app has_prefix]. rewrite Ascii.eqb_refl. cbn [andb].
  destruct (has_prefix (acc +:+ String c r) (n +:+ "}")) eqn:E; [|done].
  apply prefix_name in E as [-> ->]; [|done|done|naive_solver]. naive_solver.
Qed.

(** ReplaceAll of one placeholder is a substitution. *)
Lemma replace_sub s :
  rep s = sub {[n := v]} None s
  /\ forall acc, no_brace acc -> rep (String lbrace (acc +:+ s)) = sub {[n := v]} (Some acc) s.
Proof.
  induction s as [|c s [IH1 IH2]]; cbn [sub].
  { split; [done|]. intros acc Ha. rewrite str_app_nil_r, replace_miss.
    - f_equal. rewrite <-(str_app_nil_r acc) at 1. rewrite replace_plain by done. apply str_app_nil_r.
    - unfold placeholder. cbn [String.app has_prefix]. by rewrite prefix_end, andb_false_r. }
  split.
  - destruct (Ascii.eqb_spec c lbrace) as [->|Hl]; [by apply (IH2 "")|].
    rewrite replace_head by done. by rewrite IH1.
  - intros acc Ha. destruct (Ascii.eqb_spec c lbrace) as [->|Hl].
    { rewrite replace_open by auto. cbn [String.app]. do 2 f_equal. by apply (IH2 ""). }
    destruct (Ascii.eqb_spec c rbrace) as [->|Hr].
    { destruct (decide (acc = n)) as [->|Hne].
      - rewrite lookup_singleton_eq. rewrite <-IH1, <-replace_hit. f_equal. unfold placeholder.
        cbn [String.app]. by rewrite <-str_app_assoc.
      - rewrite lookup_singleton_ne by done. rewrite replace_open by auto. unfold placeholder.
        cbn [String.app]. rewrite <-str_app_assoc. cbn [String.app]. do 2 f_equal.
        rewrite replace_head by done. by rewrite IH1. }
    rewrite <-IH2 by (by apply no_brace_snoc). by rewrite <-str_app_assoc.
Qed.

End replace.

Lemma sub_plain m t s : no_brace t -> sub m None (t +:+ s) = t +:+ sub m None s.
Proof.
  induction t as [|c t IH]; [done|]. intros (Hl & _ & Ht)%no_brace_cons. cbn [String.app sub].
  rewrite (proj2 (Ascii.eqb_neq c lbrace) Hl). by rewrite IH.
Qed.

Lemma sub_acc m acc acc' s : no_brace acc -> sub m (Some acc') (acc +:+ s) = sub m (Some (acc' +:+ acc)) s.
Proof.
  revert acc'. induction acc as [|c acc IH]; intros acc'; [by rewrite str_app_nil_r|].
  intros (Hl & Hr & Ha)%no_brace_cons. cbn [String.app sub].
  rewrite (proj2 (Ascii.eqb_neq c lbrace) Hl), (proj2 (Ascii.eqb_neq c rbrace) Hr), IH by done.
  by rewrite <-str_app_assoc.
Qed.

Lemma sub_open m acc s : no_brace acc -> sub m None (String lbrace (acc +:+ s)) = sub m (Some acc) s.
Proof. intros Ha. cbn [sub]. rewrite Ascii.eqb_refl. by rewrite sub_acc. Qed.

(** One substitution after another, of brace-free values, is the two at once. *)
Lemma sub_sub m1 m2 s :
  (forall k v, m1 !! k = Some v -> no_brace v) ->
  (template false s = true -> sub m2 None (sub m1 None s) = sub (m1 ∪ m2) None s)
  /\ (template true s = true -> forall acc, no_brace acc ->
       sub m2 None (sub m1 (Some acc) s) = sub (m1 ∪ m2) (Some acc) s).
Proof.
  intros Hv. induction s as [|c s [IH1 IH2]]; cbn [sub template].
  { split; [done|]. intros _ acc Ha. change (sub m2 None (String lbrace acc) = String lbrace acc).
    rewrite <-(str_app_nil_r acc) at 1. by rewrite sub_open. }
  split.
  - destruct (Ascii.eqb_spec c lbrace) as [->|Hl]; [intros Ht; by apply IH2|].
    destruct (Ascii.eqb_spec c rbrace) as [->|Hr]; intros Ht;
      rewrite <-IH1 by done; cbn [sub]; by rewrite ?(proj2 (Ascii.eqb_neq c lbrace) Hl).
  - destruct (Ascii.eqb_spec c lbrace) as [->|Hl]; [done|].
    destruct (Ascii.eqb_spec c rbrace) as [->|Hr]; intros Ht acc Ha.
    2: { apply IH2; [done|]. by apply no_brace_snoc. }
    rewrite <-IH1 by done. destruct (m1 !! acc) as [v|] eqn:E.
    + rewrite (lookup_union_Some_l _ _ _ _ E), sub_plain by (by eapply Hv). done.
    + rewrite lookup_union_r by done. unfold placeholder. cbn [String.app]. rewrite <-str_app_assoc.
      cbn [String.app]. rewrite sub_open by done. done.
Qed.

(** Substituted text is a template of the same shape. *)
Lemma template_sub m s :
  (forall k v, m !! k = Some v -> no_brace v) ->
  (template false s = true -> template false (sub m None s) = true)
  /\ (template true s = true -> forall acc, no_brace acc -> template false (sub m (Some acc) s) = true).
Proof.
  intros Hv.
  assert (Hpl : forall b t x, no_brace t -> template b (t +:+ x) = template b x).
  { intros b t x. induction t as [|c t IH]; [done|]. intros (Hl & Hr & Ht)%no_brace_cons. cbn.
    rewrite (proj2 (Ascii.eqb_neq c lbrace) Hl), (proj2 (Ascii.eqb_neq c rbrace) Hr). by apply IH. }
  induction s as [|c s [IH1 IH2]]; cbn [sub template].
  { split; [done|]. intros _ acc Ha. rewrite <-(str_app_nil_r acc). cbn [template]. cbn. by rewrite Hpl. }
  split.
  - destruct (Ascii.eqb_spec c lbrace) as [->|Hl]; [intros Ht; by apply IH2|].
    intros Ht. cbn [template]. rewrite (proj2 (Ascii.eqb_neq c lbrace) Hl).
    destruct (Ascii.eqb_spec c rbrace); by apply IH1.
  - destruct (Ascii.eqb_spec c lbrace) as [->|Hl]; [done|].
    destruct (Ascii.eqb_spec c rbrace) as [->|Hr]; intros Ht acc Ha.
    2: { apply IH2; [done|]. by apply no_brace_snoc. }
    destruct (m !! acc) as [v|] eqn:E; [rewrite Hpl by (by eapply Hv); by apply IH1|].
    unfold placeholder. cbn [String.app]. rewrite <-str_app_assoc. cbn. rewrite Hpl by done. cbn. by apply IH1.
Qed.

(** The loop is the simultaneous substitution, whatever its order. *)
Lemma fill_substitute args s :
  NoDup args.*1 -> Forall (fun a => no_brace a.1 /\ no_brace a.2) args -> template false s = true ->
  fill args s = substitute (list_to_map args) s.
Proof.
  unfold fill, substitute. intros Hd Hf. revert s. induction Hf as [|[k v] args [Hk Hv] Hf IH]; intros s Ht.
  - simpl. clear. induction s as [|c s IH]; [done|]. cbn [sub].
    enough (Hgen : forall s, (sub ∅ None s = s) /\ forall acc, sub ∅ (Some acc) s = String lbrace (acc +:+ s)).
    { destruct (Ascii.eqb_spec c lbrace) as [->|]; [by rewrite (proj2 (Hgen s) "")|by rewrite <-IH]. }
    clear. intros s. induction s as [|c s [IH1 IH2]]; cbn [sub].
    { split; [done|]. intros acc. by rewrite str_app_nil_r. }
    split.
    + destruct (Ascii.eqb_spec c lbrace) as [->|]; [by rewrite (IH2 "")|by rewrite IH1].
    + intros acc. destruct (Ascii.eqb_spec c lbrace) as [->|]; [by rewrite (IH2 "")|].
      destruct (Ascii.eqb_spec c rbrace) as [->|].
      * rewrite lookup_empty, IH1. unfold placeholder. cbn [String.app]. by rewrite <-str_app_assoc.
      * rewrite IH2. by rewrite <-str_app_assoc.
  - cbn [fold_left fst snd list_to_map]. rewrite fmap_cons in Hd. apply NoDup_cons in Hd as [Hnin Hd].
    assert (Hm : forall k0 v0, ({[k := v]} : gmap string string) !! k0 = Some v0 -> no_brace v0)
      by (intros k0 v0 [_ <-]%lookup_singleton_Some; done).
    rewrite (proj1 (replace_sub k v Hk s)), IH; [|done|by apply template_sub].
    rewrite (proj1 (sub_sub _ _ s Hm)) by done. f_equal. symmetry. apply insert_union_singleton_l.
Qed.

Lemma hex_digit_plain n : (n < 16)%nat -> hex_digit n <> lbrace /\ hex_digit n <> rbrace.
Proof. intros Hn. do 16 (destruct n as [|n]; [by split|]). lia. Qed.

Lemma PathEscape_no_brace s : no_brace (PathEscape s).
Proof.
  induction s as [|c s IH]; [done|]. cbn [PathEscape]. destruct (path_safe c) eqn:E.
  - apply no_brace_cons. split_and!; [by intros ->|by intros ->|done].
  - destruct (hex_digit_plain (nat_of_ascii c / 16)).
    { apply Nat.Div0.div_lt_upper_bound. pose proof (nat_ascii_bounded c). lia. }
    destruct (hex_digit_plain (nat_of_ascii c mod 16)); [by apply Nat.mod_upper_bound|].
    repeat (apply no_brace_cons; split_and!); done.
Qed.

Lemma fill_perm args args' s :
  NoDup args.*1 -> Forall (fun a => no_brace a.1 /\ no_brace a.2) args -> template false s = true ->
  args' ≡ₚ args -> fill args' s = fill args s.
Proof.
  intros Hd Hf Ht Hp. rewrite !fill_substitute; try done.
  - f_equal. apply list_to_map_proper; [by rewrite Hp|done].
  - by rewrite Hp.
  - by rewrite Hp.
Qed.

(** One placeholder alone is filled with its value. *)
Lemma fill_one name v : no_brace name -> fill [(name, v)] (placeholder name) = v.
Proof.
  intros Hn. unfold fill. cbn [fold_left fst snd]. rewrite <-(str_app_nil_r (placeholder name)) at 1.
  rewrite replace_hit. apply str_app_nil_r.
Qed.

(** ** positionalURL *)

Fixpoint count_char (c : ascii) (s : string) : nat :=
  match s with EmptyString => 0 | String d r => (if Ascii.eqb d c then 1 else 0) + count_char c r end%nat.

Lemma count_char_app c a b : count_char c (a +:+ b) = (count_char c a + count_char c b)%nat.
Proof. induction a as [|d a IH]; [done|]. cbn. rewrite IH. lia. Qed.

Lemma count_char_length c s : (count_char c s <= String.length s)%nat.
Proof. induction s as [|d s IH]; [done|]. cbn. destruct (Ascii.eqb d c); lia. Qed.

Lemma pretty_N_plain c x s : (forall k, pretty_N_char k <> c) -> count_char c (pretty_N_go x s) = count_char c s.
Proof.
  intros Hc. revert s. induction (N.lt_wf_0 x) as [x _ IH]; intros s.
  destruct (decide (0 < x)%N) as [Hx|Hx].
  - rewrite pretty_N_go_step by done. rewrite IH by (apply N.div_lt; lia). cbn.
    by rewrite (proj2 (Ascii.eqb_neq _ _) (Hc _)).
  - assert (x = 0)%N as -> by lia. done.
Qed.

Lemma itoa_no_lbrace i : count_char lbrace (itoa i) = 0%nat.
Proof.
  assert (Hd : forall k, pretty_N_char k <> lbrace).
  { intros k. unfold pretty_N_char. by repeat case_match. }
  assert (HN : forall n : N, count_char lbrace (pretty n) = 0%nat).
  { intros n. unfold pretty, pretty_N. destruct (decide (n = 0)%N); [done|]. by rewrite pretty_N_plain. }
  destruct i as [|p|p]; [done|exact (HN (N.pos p))|exact (HN (N.pos p))].
Qed.

Lemma cut_spec c s :
  match cut c s with
  | (b, a, true) => s = b +:+ String c a
  | (_, _, false) => count_char c s = 0%nat
  end.
Proof.
  induction s as [|d s IH]; [done|]. cbn [cut count_char]. destruct (Ascii.eqb_spec d c) as [->|Hd]; [done|].
  destruct (cut c s) as [[b a] []]; [by rewrite IH|done].
Qed.

(** No placeholder is left: the fuel of positionalURL is enough. *)
Lemma positional_done fuel i s :
  (count_char lbrace s <= fuel)%nat ->
  let '(_, rest, ok) := cut lbrace (positional fuel i s) in ok = true -> (cut rbrace rest).2 = false.
Proof.
  revert i s. induction fuel as [|k IH]; intros i s Hc; cbn [positional].
  - pose proof (cut_spec lbrace s) as Hs. destruct (cut lbrace s) as [[b a] []]; [|done].
    rewrite Hs, count_char_app in Hc. cbn in Hc. lia.
  - pose proof (cut_spec lbrace s) as Hs. destruct (cut lbrace s) as [[b a] []] eqn:E; [|by rewrite E].
    pose proof (cut_spec rbrace a) as Ha. destruct (cut rbrace a) as [[nm after] []] eqn:E2.
    + apply IH. rewrite Hs, Ha, !count_char_app in Hc. cbn in Hc. rewrite !count_char_app.
      cbn [count_char]. rewrite !count_char_app in *. cbn in *. rewrite itoa_no_lbrace. lia.
    + rewrite E, E2. done.
Qed.

Lemma positional_fuel s :
  let '(_, rest, ok) := cut lbrace (positionalURL s) in ok = true -> (cut rbrace rest).2 = false.
Proof. apply positional_done, count_char_length. Qed.

(** ** The aggregate *)

Section aggregate.
Variable read_manifest : string -> result string (list Tool).

(** What one manifest says, under its prefix: nothing when it does not load. *)
Definition manifest_tools (path prefix : string) : list Tool :=
  match read_manifest path with Ok ms => rename prefix <$> ms | Err _ => [] end.

Definition named (k : string) (l : list Tool) : list Tool := filter (fun t => t_Name t = k) l.

(** Tools registered one after the other: the last of a name stands. *)
Definition add_tools (ts : gmap string Tool) (l : list Tool) : gmap string Tool :=
  fold_left (fun ts t => <[t_Name t := t]> ts) l ts.

Lemma add_tools_lookup l ts k :
  add_tools ts l !! k = match last (named k l) with Some t => Some t | None => ts !! k end.
Proof.
  unfold add_tools, named. induction l as [|t l IH] using rev_ind; [done|].
  rewrite fold_left_app, filter_app, filter_cons, filter_nil. cbn [fold_left].
  case_decide as Hk; [rewrite last_snoc, <-Hk; apply lookup_insert_eq|].
  rewrite app_nil_r, lookup_insert_ne by done. apply IH.
Qed.

Lemma loadManifest_adds path prefix ts :
  loadManifest read_manifest path prefix ts = add_tools ts (manifest_tools path prefix).
Proof.
  unfold loadManifest, manifest_tools, add_tools. destruct (read_manifest path) as [ms|e]; [|done].
  revert ts. induction ms as [|t ms IH]; intros ts; [done|]. cbn. apply IH.
Qed.

(** The tools of a manifest that loads are there, the last of a name winning. *)
Lemma loadManifest_has path prefix ts ms t0 :
  read_manifest path = Ok ms -> t0 ∈ ms ->
  exists t1, t1 ∈ ms /\ t_Name t1 = t_Name t0
  /\ loadManifest read_manifest path prefix ts !! (prefix +:+ "_" +:+ t_Name t0) = Some (rename prefix t1).
Proof.
  intros Hr Hin. unfold loadManifest. rewrite Hr. clear Hr. revert ts. induction ms as [|x ms IH] using rev_ind; intros ts.
  { by apply elem_of_nil in Hin. }
  rewrite fold_left_app. cbn [fold_left]. destruct (decide (t_Name x = t_Name t0)) as [E|Hne].
  - exists x. split_and!; [set_solver|done|]. cbn [t_Name rename]. rewrite E. apply lookup_insert_eq.
  - assert (Hin' : t0 ∈ ms) by set_solver. destruct (IH Hin' ts) as (t1 & H1 & H2 & H3).
    exists t1. split_and!; [set_solver|done|]. rewrite lookup_insert_ne; [done|]. cbn [t_Name rename].
    intros Heq. apply Hne. by apply str_app_inv_l, str_app_inv_l in Heq.
Qed.

Definition project_manifest (a : Aggregator) (proj : string) : string :=
  path_join [workDir a; proj; "mcp.json"].

(** Every tool the manifests declare, in the order ScanProjects registers them. *)
Definition offered (ps : list string) (a : Aggregator) : list Tool :=
  (ps ≫= fun p => manifest_tools (project_manifest a p) p)
  ++ (if negb (String.eqb (selfManifest a) "") then manifest_tools (selfManifest a) "delightd" else []).

Lemma add_tools_app ts l1 l2 : add_tools ts (l1 ++ l2) = add_tools (add_tools ts l1) l2.
Proof. apply fold_left_app. Qed.

Lemma scan_adds a ps ts :
  fold_left (fun ts proj => loadManifest read_manifest (project_manifest a proj) proj ts) ps ts
  = add_tools ts (ps ≫= fun p => manifest_tools (project_manifest a p) p).
Proof.
  revert ts. induction ps as [|p ps IH]; intros ts; [done|]. cbn [fold_left].
  rewrite IH, loadManifest_adds, bind_cons. by rewrite add_tools_app.
Qed.

Lemma ScanProjects_adds ps a : tools (ScanProjects read_manifest ps a) = add_tools ∅ (offered ps a).
Proof.
  unfold ScanProjects, offered. cbn [tools]. rewrite add_tools_app, <-scan_adds.
  destruct (negb (String.eqb (selfManifest a) "")); [|done]. by rewrite loadManifest_adds.
Qed.

Lemma offered_spec ps a t :
  t ∈ offered ps a <->
  (exists p ms t0, p ∈ ps /\ read_manifest (project_manifest a p) = Ok ms /\ t0 ∈ ms /\ t = rename p t0)
  \/ (exists ms t0, selfManifest a <> "" /\ read_manifest (selfManifest a) = Ok ms /\ t0 ∈ ms /\ t = rename "delightd" t0).
Proof.
  assert (Hm : forall path prefix, t ∈ manifest_tools path prefix <->
    exists ms t0, read_manifest path = Ok ms /\ t0 ∈ ms /\ t = rename prefix t0).
  { intros path prefix. unfold manifest_tools. destruct (read_manifest path) as [ms|e].
    - rewrite list_elem_of_fmap. split; [intros (t0 & -> & Hin); by exists ms, t0|].
      intros (ms' & t0 & [= <-] & Hin & ->). by exists t0.
    - split; [by intros ?%elem_of_nil|by intros (? & ? & ? & _)]. }
  unfold offered. rewrite elem_of_app, list_elem_of_bind.
  split; (intros [Hx|Hx]; [left|right]).
  - destruct Hx as (p & Hin & Hp). apply Hm in Hin as (ms & t0 & ? & ? & ?). by exists p, ms, t0.
  - destruct (String.eqb_spec (selfManifest a) "") as [|Hs]; cbn [negb] in Hx; [by apply elem_of_nil in Hx|].
    apply Hm in Hx as (ms & t0 & ? & ? & ?). by exists ms, t0.
  - destruct Hx as (p & ms & t0 & Hp & ? & ? & ?). exists p. split; [|done]. apply Hm. by exists ms, t0.
  - destruct Hx as (ms & t0 & Hs & ? & ? & ?). apply String.eqb_neq in Hs. rewrite Hs. cbn [negb].
    apply Hm. by exists ms, t0.
Qed.

(** C34. The aggregate is what the manifests declare, no more and no less: under a
    name is the last tool of that name that the readable manifests of the scanned
    projects, in order, and then delightd's own, declare under their namespaces; so
    every tool a project declares is there under its name, unless a later manifest
    has the same one; a manifest that does not load costs no other its tools; and
    no project can take the place of one of delightd's own. *)
Theorem ScanProjects_aggregates ps a :
  (forall k, GetTool k (ScanProjects read_manifest ps a) = last (named k (offered ps a)))
  /\ (forall t, t ∈ offered ps a <->
        (exists p ms t0, p ∈ ps /\ read_manifest (project_manifest a p) = Ok ms /\ t0 ∈ ms /\ t = rename p t0)
        \/ (exists ms t0, selfManifest a <> "" /\ read_manifest (selfManifest a) = Ok ms /\ t0 ∈ ms
             /\ t = rename "delightd" t0))
  /\ (forall p ms t0, p ∈ ps -> read_manifest (project_manifest a p) = Ok ms -> t0 ∈ ms ->
        exists t, GetTool (p +:+ "_" +:+ t_Name t0) (ScanProjects read_manifest ps a) = Some t
        /\ t_Name t = p +:+ "_" +:+ t_Name t0 /\ t ∈ offered ps a)
  /\ (forall ps1 p ps2 e, ps = ps1 ++ p :: ps2 -> read_manifest (project_manifest a p) = Err e ->
        ScanProjects read_manifest ps a = ScanProjects read_manifest (ps1 ++ ps2) a)
  /\ (forall ms t0, selfManifest a <> "" -> read_manifest (selfManifest a) = Ok ms -> t0 ∈ ms ->
        exists t1, t1 ∈ ms /\ t_Name t1 = t_Name t0
        /\ GetTool ("delightd_" +:+ t_Name t0) (ScanProjects read_manifest ps a) = Some (rename "delightd" t1)).
Proof.
  assert (Hg : forall k, GetTool k (ScanProjects read_manifest ps a) = last (named k (offered ps a))).
  { intros k. unfold GetTool. rewrite ScanProjects_adds, add_tools_lookup, lookup_empty. by destruct (last _). }
  split_and!; [exact Hg|intros t; apply offered_spec|..].
  - intros p ms t0 Hp Hr Hin. rewrite Hg.
    assert (Hn : rename p t0 ∈ named (p +:+ "_" +:+ t_Name t0) (offered ps a)).
    { apply list_elem_of_filter. split; [done|]. apply offered_spec. left. by exists p, ms, t0. }
    destruct (last (named _ _)) as [t|] eqn:El.
    + apply last_Some_elem_of, list_elem_of_filter in El as [? ?]. by exists t.
    + apply last_None in El. rewrite El in Hn. by apply elem_of_nil in Hn.
  - intros ps1 p ps2 e -> He. unfold ScanProjects. rewrite !fold_left_app. cbn [fold_left].
    assert (Hid : forall ts, loadManifest read_manifest (path_join [workDir a; p; "mcp.json"]) p ts = ts).
    { intros ts. unfold loadManifest. unfold project_manifest in He. by rewrite He. }
    by rewrite Hid.
  - intros ms t0 Hs Hr Hin. unfold ScanProjects, GetTool. cbn [tools].
    rewrite (proj2 (String.eqb_neq _ _) Hs). cbn [negb]. apply (loadManifest_has _ "delightd" _ _ _ Hr Hin).
Qed.

End aggregate.

(** ** Dispatch *)

Section properties.
Variable quote : string -> string.
Context {V : Type}.
Variable Sprint : V -> string.
Variable url_hostname : string -> result string string.
Variable out : Outside.
Variable decode_rpc : string -> result string (string * string * string).
Variable decode_params : string -> result string (string * list (string * V)).

Lemma renderURL_no_brace url args u : renderURL quote Sprint url args = Ok u -> no_brace u.
Proof. unfold renderURL, no_brace. case_match; [done|]. by intros [= <-]. Qed.

Lemma renderArgs_length args callArgs l :
  renderArgs quote Sprint args callArgs = Ok l -> length l = length args /\ Forall no_brace l.
Proof.
  revert l. induction args as [|a args IH]; intros l; cbn [renderArgs]; [by intros [= <-]|].
  destruct (contains_any2 _ lbrace rbrace) eqn:E; [done|].
  destruct (renderArgs quote Sprint args callArgs) as [l'|e]; [|done]. intros [= <-].
  destruct (IH l' eq_refl) as [Hl Hf]. split; [cbn; by rewrite Hl|by constructor].
Qed.

(** C30. A tool's URL is filled by substitution, not by luck: for a URL whose
    placeholders do not nest, the result is that of putting every argument,
    path-escaped, in place of its placeholder at once, in whatever order the map of
    arguments is read; it is refused exactly when a placeholder or a brace is left,
    so a URL that is sent has neither. *)
Theorem renderURL_substitutes url args :
  NoDup args.*1 -> Forall (fun a => no_brace a.1) args -> template false url = true ->
  let u := substitute (list_to_map ((fun a => (a.1, PathEscape (Sprint a.2))) <$> args)) url in
  renderURL quote Sprint url args
  = (if contains_any2 u lbrace rbrace then Err ("unfilled path parameter in " +:+ quote u) else Ok u)
  /\ (forall args', args' ≡ₚ args -> renderURL quote Sprint url args' = renderURL quote Sprint url args)
  /\ (forall u', renderURL quote Sprint url args = Ok u' -> no_brace u').
Proof.
  intros Hd Hf Ht. cbn zeta. set (esc := fun a : string * V => (a.1, PathEscape (Sprint a.2))).
  assert (Hd' : NoDup (esc <$> args).*1) by (by rewrite <-list_fmap_compose).
  assert (Hf' : Forall (fun a => no_brace a.1 /\ no_brace a.2) (esc <$> args)).
  { apply Forall_fmap. eapply Forall_impl; [exact Hf|]. intros x Hx. split; [done|apply PathEscape_no_brace]. }
  split_and!.
  - unfold renderURL. change (map _ args) with (esc <$> args). by rewrite fill_substitute.
  - intros args' Hp. unfold renderURL. change (map _ args) with (esc <$> args).
    change (map _ args') with (esc <$> args').
    rewrite (fill_perm (esc <$> args) (esc <$> args')); [done..|]. by rewrite Hp.
  - apply renderURL_no_brace.
Qed.

(** A command tool's arguments are not filled so: a value that contains a brace
    is refused although its placeholder was filled, and a value that spells another
    placeholder is run or refused as the map's order has it. *)
Lemma renderArgs_confuses_values name x :
  no_brace name -> ~ no_brace (Sprint x) ->
  renderArgs quote Sprint [placeholder name] [(name, x)]
    = Err ("unfilled command argument in " +:+ quote (Sprint x))
  /\ renderArgs quote (fun v : string => v) ["{a}"] [("a", "{b}"); ("b", "x")] = Ok ["x"]
  /\ is_ok (renderArgs quote (fun v : string => v) ["{a}"] [("b", "x"); ("a", "{b}")]) = false.
Proof.
  intros Hn Hb. split_and!; [|vm_compute; reflexivity|vm_compute; reflexivity].
  cbn [renderArgs map]. rewrite fill_one by done. unfold no_brace in Hb. cbn [fst snd].
  by destruct (contains_any2 (Sprint x) lbrace rbrace).
Qed.

(** What a tool may do: [t] is its handler, [args] the call's arguments. *)
Definition permitted (a : Aggregator) (t : HandlerDef) (args : list (string * V)) (e : effect) : Prop :=
  match e with
  | Exec c argv => c = h_Command t /\ renderArgs quote Sprint (h_Args t) args = Ok argv
      /\ length argv = length (h_Args t)
  | Http m url bearer => renderURL quote Sprint (h_URL t) args = Ok url
      /\ (isMutatingMethod m && isLoopbackURL url_hostname url = true -> bearer = controlToken a)
      /\ (bearer <> "" -> bearer = controlToken a /\ isMutatingMethod m = true
           /\ isLoopbackURL url_hostname url = true)
  end.

Lemma doHTTP_effects m url bearer es resp :
  doHTTP out m url bearer = (es, resp) ->
  let m' := if String.eqb m "" then "GET" else m in
  (es = [] /\ is_Some (snd resp)) \/ es = [Http m' url bearer].
Proof.
  unfold doHTTP. destruct (http_new out _ url) as [e|]; [intros [= <- <-]; left; by eexists|].
  intros [= <- _]. by right.
Qed.

Lemma call_tool_permitted a t args es o isErr :
  call_tool quote Sprint url_hostname out a t args = (es, (o, isErr)) ->
  (es = [] /\ isErr = true) \/ exists e, es = [e] /\ permitted a t args e.
Proof.
  unfold call_tool. destruct (String.eqb (h_Type t) "command").
  - destruct (renderArgs quote Sprint (h_Args t) args) as [argv|e] eqn:Er; [|intros [= <- _ <-]; by left].
    destruct (exec_cmd out (h_Command t) argv) as [o' err]. intros H. right.
    exists (Exec (h_Command t) argv). split; [destruct err; congruence|].
    split_and!; [done|done|by apply renderArgs_length in Er as [? _]].
  - destruct (String.eqb (h_Type t) "http"); [|intros [= <- _ <-]; by left].
    destruct (renderURL quote Sprint (h_URL t) args) as [url|e] eqn:Er; [|intros [= <- _ <-]; by left].
    destruct (isMutatingMethod (h_Method t) && isLoopbackURL url_hostname url) eqn:Em;
      destruct (doHTTP out (h_Method t) url _) as [es' [resp err]] eqn:Ed;
      apply doHTTP_effects in Ed as [[-> [e He]]|Hes];
      try (cbn in He; subst err; intros [= <- _ <-]; by left);
      intros H; right; (eexists; split; [injection H as <- _; exact Hes|]); split_and!; try done.
    + apply andb_true_iff in Em as [Em1 Em2]. intros _. split_and!; [done| |done].
      by destruct (String.eqb_spec (h_Method t) "") as [E|]; [rewrite E in Em1|].
    + by destruct (String.eqb_spec (h_Method t) "") as [E|]; [|rewrite Em].
Qed.

(** A call that acts names a registered tool. *)
Lemma HandleMCP_calls a method body es resp :
  HandleMCP quote Sprint url_hostname out decode_rpc decode_params a method body = (es, resp) ->
  (es = [] /\ forall id o, resp <> MRpc id (RContent o false))
  \/ exists k tool args id o isErr, method = "POST" /\ tools a !! k = Some tool
      /\ call_tool quote Sprint url_hostname out a (t_Handler tool) args = (es, (o, isErr))
      /\ resp = MRpc id (RContent o isErr).
Proof.
  unfold HandleMCP. destruct (String.eqb_spec method "POST") as [->|]; cbn [negb]; [|by intros [= <- <-]; left].
  destruct (decode_rpc _) as [[[id m] raw]|e]; [|by intros [= <- <-]; left].
  destruct (String.eqb m "tools/list"); [by intros [= <- <-]; left|].
  destruct (String.eqb m "tools/call"); [|by intros [= <- <-]; left].
  destruct (decode_params raw) as [[name args]|e]; [|by intros [= <- <-]; left].
  unfold GetTool. destruct (tools a !! name) as [tool|] eqn:Et; [|by intros [= <- <-]; left].
  destruct (call_tool _ _ _ _ _ _ _) as [es' [o isErr]] eqn:Ec. intros [= <- <-]. right.
  by exists name, tool, args, id, o, isErr.
Qed.

(** What an MCP call can make delightd do: at most one action, and only for a
    tools/call of a registered tool. A command is the tool's own, with exactly its
    declared number of arguments; a request goes to the tool's rendered URL, and
    carries the control-port token exactly when it mutates and its host is
    loopback, so the token leaves for no other host and with no read. A call that
    did nothing is reported as an error. *)
Lemma mcp_call_is_bounded a method body es resp :
  HandleMCP quote Sprint url_hostname out decode_rpc decode_params a method body = (es, resp) ->
  (es = [] \/ exists e k tool args, es = [e] /\ method = "POST" /\ tools a !! k = Some tool
                /\ permitted a (t_Handler tool) args e)
  /\ (forall id o, resp = MRpc id (RContent o false) -> es <> []).
Proof.
  intros [[-> Hr]|(k & tool & args & id & o & isErr & -> & Hk & Hc & ->)]%HandleMCP_calls.
  - split; [by left|]. intros id o ->. by destruct (Hr id o).
  - apply call_tool_permitted in Hc as [[-> ->]|(e & -> & Hp)]; [by split; [left|]|].
    split; [right; by exists e, k, tool, args|done].
Qed.

End properties.

(** * The properties at concrete inputs *)

Definition up_tool : Tool :=
  mkTool "furnish_up" "" "" (mkHandlerDef "http" "POST" "http://127.0.0.1:8088/furnish/{piece}/up" "" []).
Definition log_tool : Tool := mkTool "tail" "" "" (mkHandlerDef "command" "" "" "/bin/tail" ["-n"; "{n}"; "{file}"]).

Definition w_manifests (path : string) : result string (list Tool) :=
  if String.eqb path "/w/logs/mcp.json" then Ok [log_tool]
  else if String.eqb path "/etc/mcp.json" then Ok [up_tool] else Err "no such file".

Definition w_agg : Aggregator :=
  ScanProjects w_manifests ["logs"; "gone"]
    (UseControlToken "sesame" (SetSelfManifest "/etc/mcp.json" (NewAggregator "/w"))).

Definition w_out : Outside :=
  mkOutside (fun c argv => (join " " (c :: argv), None)) (fun _ _ => None) (fun _ _ _ => Ok (200, "200 OK", "done")).

Definition w_host (url : string) : result string string :=
  if has_prefix url "http://127.0.0.1:" then Ok "127.0.0.1" else Ok "elsewhere".

Definition w_call (name : string) (args : list (string * string)) : list effect * mcp_response :=
  HandleMCP (fun s => s) (fun v : string => v) w_host w_out (fun _ => Ok ("1", "tools/call", "params"))
    (fun _ => Ok (name, args)) w_agg "POST" "{...}".

(** delightd's own tool and the project's; a project whose manifest is missing has
    none. *)
Lemma ScanProjects_aggregates_witness :
  (exists t1, t_Name t1 = "furnish_up" /\ GetTool "delightd_furnish_up" w_agg = Some (rename "delightd" t1))
  /\ (exists t, GetTool "logs_tail" w_agg = Some t /\ t_Name t = "logs_tail")
  /\ GetTool "gone_tail" w_agg = None.
Proof.
  destruct (ScanProjects_aggregates w_manifests ["logs"; "gone"]
    (UseControlToken "sesame" (SetSelfManifest "/etc/mcp.json" (NewAggregator "/w")))) as (Hg & _ & Hp & _ & H).
  split_and!.
  - destruct (H [up_tool] up_tool ltac:(discriminate) eq_refl ltac:(by left)) as (t1 & _ & Hn & Ht).
    exists t1. split; [exact Hn|exact Ht].
  - destruct (Hp "logs" [log_tool] log_tool ltac:(by left) eq_refl ltac:(by left)) as (t & Ht & Hn & _).
    exists t. split; [exact Ht|exact Hn].
  - exact (Hg "gone_tail").
Defined.

Lemma renderURL_substitutes_witness :
  renderURL (fun s => s) (fun v : string => v) "http://h/{a}/{b}" [("a", "{b}"); ("b", "x/y")]
  = Ok "http://h/%7Bb%7D/x%2Fy".
Proof.
  rewrite (proj1 (renderURL_substitutes (fun s => s) (fun v : string => v) "http://h/{a}/{b}"
    [("a", "{b}"); ("b", "x/y")] ltac:(by apply (bool_decide_unpack (NoDup _)); vm_compute)
    ltac:(by repeat constructor) eq_refl)).
  vm_compute. reflexivity.
Defined.

End skills.
