(* ===== verification/Exports.v ===== *)
(** pkg/exports: the engine that keeps the fleet's commands in the bin directory.

    The bin directory is a map from a name to what stands there, the wrapper
    scripts and the archive are maps by path; project and bin names are single path
    elements. What ranging over a Go map yields is an input ([rangeP], [rangeB]):
    the map's entries in some order. A system call that fails is an input too. *)

From S2P Require Import Prelude GoStrings GoPath.
From Stdlib Require Import Ascii.

Module exports.

Definition TypeBinary : string := "binary".
Definition TypeDockerRun : string := "docker-run".
Definition TypeDockerExec : string := "docker-exec".

Record ExportDef := mkExportDef {
  Bin : string; Type_ : string; Target : string; Container : string; Command : string;
  Image : string; Workdir : string
}.

#[export] Instance ExportDef_eq_dec : EqDecision ExportDef.
Proof. solve_decision. Defined.

Record ProjectExports := mkProjectExports { pe_Name : string; Exports : list ExportDef }.

Record Engine := mkEngine {
  registryPath : string; varBinDir : string; stateDir : string; archiveDir : string; workDir : string
}.

(** [lookup] is os.LookupEnv, [home] os.UserHomeDir (empty when it fails). *)
Definition NewEngine (lookup : string -> option string) (home workDir : string) : Engine :=
  let home := if String.eqb home "" then "/" else home in
  let getEnv key fallback := default fallback (lookup key) in
  mkEngine (getEnv "DELIGHT_EXPORTS_REGISTRY" (path_join [home; "etc"; "delight-registry.yaml"]))
    (getEnv "DELIGHT_EXPORTS_BIN" (path_join [home; "var"; "bin"]))
    (getEnv "DELIGHT_EXPORTS_STATE" (path_join [home; "var"; "runtime"; "delightd"; "exports"]))
    (getEnv "DELIGHT_EXPORTS_ARCHIVE" (path_join [home; "var"; "archive"; "delightd"; "exports"]))
    workDir.

(** * Templates *)

Definition docker_run (d : ExportDef) : string :=
  join "" (map script_line ["#!/usr/bin/env bash"; "# Generated by delightd"; "# Type: docker-run"; "";
                            "exec docker run --rm -i \"])
  +:+ bq "  -v `$(pwd):" +:+ Workdir d +:+ script_line "` \"
  +:+ bq "  -w `" +:+ Workdir d +:+ script_line "` \"
  +:+ bq "  `" +:+ Image d +:+ script_line "` `$@`".

Definition docker_exec (d : ExportDef) : string :=
  join "" (map script_line ["#!/usr/bin/env bash"; "# Generated by delightd"; "# Type: docker-exec"; ""])
  +:+ bq "exec docker exec -i `" +:+ Container d +:+ bq "` " +:+ Command d +:+ script_line " `$@`".

Definition GenerateWrapper (d : ExportDef) : result string string :=
  if String.eqb (Type_ d) TypeDockerRun then Ok (docker_run d)
  else if String.eqb (Type_ d) TypeDockerExec then Ok (docker_exec d)
  else Err ("cannot generate wrapper for type " +:+ Type_ d).

(** * The scan of a project's bin *)

(** A directory entry: name, IsDir, and the mode Info gives (None: it failed). *)
Record dirent := mkDirent { de_name : string; de_dir : bool; de_mode : option Z }.

Definition executable (mode : Z) : bool := negb (Z.land mode 73 =? 0).   (* 0111 *)

Fixpoint scan_entries (binDir : string) (es : list dirent) : list ExportDef :=
  match es with
  | [] => []
  | e :: r =>
      if de_dir e then scan_entries binDir r
      else match de_mode e with
           | None => scan_entries binDir r
           | Some mode =>
               if executable mode
               then mkExportDef (de_name e) TypeBinary (path_join [binDir; de_name e]) "" "" "" ""
                      :: scan_entries binDir r
               else scan_entries binDir r
           end
  end.

Definition ScanProject (readdir : string -> option (list dirent)) (projPath : string) : list ExportDef :=
  let binDir := path_join [projPath; "bin"] in
  match readdir binDir with
  | None => []
  | Some es => scan_entries binDir es
  end.

Definition HasBashFragment (readdir : string -> option (list dirent)) (e : Engine) (project : string) : bool :=
  match readdir (path_join [stateDir e; project]) with
  | None => false
  | Some es => existsb (fun d => negb (de_dir d) && has_suffix (de_name d) ".sh") es
  end.

(** * Sync *)

Inductive entry := Link (target : string) | Other.
Inductive archived := ALink (target : string) | AScript (content : string).
(** [OTruncate]: of a write that failed, whether the file was emptied first, as
    os.WriteFile does once it has opened it. *)
Inductive fop := OReadDir | ORemove | OSymlink | OWrite | OTruncate | ORename.

Definition expectation : Type := gmap string (gmap string ExportDef).

Record FS := mkFS {
  f_bin : gmap string entry;            (* the bin directory, by name *)
  f_files : gmap string string;         (* wrapper scripts, by path *)
  f_archive : gmap string archived;     (* by path *)
  f_state : option expectation          (* state.json *)
}.

Definition set_bin (fs : FS) (b : gmap string entry) : FS := mkFS b (f_files fs) (f_archive fs) (f_state fs).

(** What the registry file and the scans say together. *)
Definition add_registry (ps : list ProjectExports) (m : expectation) : expectation :=
  fold_left (fun m p =>
    let own := default ∅ (m !! pe_Name p) in
    <[pe_Name p := fold_left (fun own ex => <[Bin ex := ex]> own) (Exports p) own]> m) ps m.

Definition add_scan (own : gmap string ExportDef) (ex : ExportDef) : gmap string ExportDef :=
  match own !! Bin ex with Some _ => own | None => <[Bin ex := ex]> own end.

Definition add_known (scan : string -> list ExportDef) (workDir : string) (names : list string)
    (m : expectation) : expectation :=
  fold_left (fun m n =>
    <[n := fold_left add_scan (scan (path_join [workDir; n])) (default ∅ (m !! n))]> m) names m.

Section sync.
Variable e : Engine.
Variable fails : fop -> string -> bool.
Variables cwd ts : string.    (* the working directory, and the archive's stamp *)
Variable rangeP : expectation -> list (string * gmap string ExportDef).
Variable rangeB : gmap string ExportDef -> list (string * ExportDef).
Variable dryRun : bool.

Definition ensureSymlink (target name : string) (fs : FS) : FS :=
  let link := path_join [varBinDir e; name] in
  let go (fs : FS) :=
    if fails OSymlink link then fs
    else match f_bin fs !! name with
         | Some _ => fs                                     (* os.Symlink: file exists *)
         | None => set_bin fs (<[name := Link target]> (f_bin fs))
         end in
  match f_bin fs !! name with
  | Some (Link t) =>
      if String.eqb t target then fs
      else if dryRun then fs
      else go (if fails ORemove link then fs else set_bin fs (delete name (f_bin fs)))
  | Some Other =>
      if dryRun then fs
      else go (if fails ORemove link then fs else set_bin fs (delete name (f_bin fs)))
  | None => if dryRun then fs else go fs
  end.

Definition rel_to_bin (target : string) : string := default target (path_rel (varBinDir e) target).

Definition wrapperPath (project bin : string) : string :=
  path_join [path_join [stateDir e; project]; bin +:+ ".sh"].

(** One turn of the inner loop. *)
Definition sync_one (x : string * (string * ExportDef)) (fs : FS) : FS :=
  let '(pName, (binName, def)) := x in
  if String.eqb (Type_ def) TypeBinary then ensureSymlink (rel_to_bin (Target def)) binName fs
  else
    let w := wrapperPath pName binName in
    match GenerateWrapper def with
    | Err _ => fs
    | Ok code =>
        if dryRun then ensureSymlink (rel_to_bin w) binName fs
        else if fails OWrite w then
          (if fails OTruncate w then mkFS (f_bin fs) (<[w := EmptyString]> (f_files fs)) (f_archive fs) (f_state fs) else fs)
        else ensureSymlink (rel_to_bin w) binName
               (mkFS (f_bin fs) (<[w := code]> (f_files fs)) (f_archive fs) (f_state fs))
    end.

(** The two loops, as the list of their turns. *)
Definition turns (m : expectation) : list (string * (string * ExportDef)) :=
  flat_map (fun x => map (fun y => (x.1, y)) (rangeB x.2)) (rangeP m).

Definition isWrapper (target : string) : bool := contains target "delightd/exports".
Definition isNative (target : string) : bool := contains target "/work/".

(** os.Rename resolves a relative path against the working directory. *)
Definition resolve (target : string) : string :=
  if is_rooted target then clean target else path_join [cwd; target].

Definition archive_wrapper (target dst : string) (fs : FS) : FS :=
  let src := resolve target in
  match f_files fs !! src with
  | Some content => if fails ORename src then fs
                    else mkFS (f_bin fs) (delete src (f_files fs)) (<[dst := AScript content]> (f_archive fs)) (f_state fs)
  | None => fs
  end.

Definition archive_one (expected : gset string) (binName : string) (fs : FS) : FS :=
  if decide (binName ∈ expected) then fs
  else match f_bin fs !! binName with
       | Some (Link target) =>
           if negb (isWrapper target) && negb (isNative target) then fs
           else if dryRun then fs
           else
             let archDir := path_join [archiveDir e; ts] in
             let fs1 := if isWrapper target
                        then archive_wrapper target (path_join [archDir; binName +:+ ".sh"]) fs else fs in
             if fails ORename (path_join [varBinDir e; binName]) then fs1
             else mkFS (delete binName (f_bin fs1)) (f_files fs1)
                    (<[path_join [archDir; binName] := ALink target]> (f_archive fs1)) (f_state fs1)
       | _ => fs
       end.

(** os.ReadDir lists the directory once, in order. *)
Definition archiveOrphans (expected : gset string) (fs : FS) : FS :=
  if fails OReadDir (varBinDir e) then fs
  else fold_left (fun fs n => archive_one expected n fs) (sort_strings (elements (dom (f_bin fs)))) fs.

Definition dumpState (m : expectation) (fs : FS) : FS :=
  if dryRun then fs
  else let stateFile := path_join [stateDir e; "state.json"] in
  if fails OWrite stateFile then
    (if fails OTruncate stateFile then mkFS (f_bin fs) (f_files fs) (f_archive fs) None else fs)
  else mkFS (f_bin fs) (f_files fs) (f_archive fs) (Some m).

(** [registry] is what the registry file decoded to, nothing when it did not. *)
Definition Sync (registry : list ProjectExports) (scan : string -> list ExportDef)
    (knownProjects : list string) (fs : FS) : FS :=
  let expected := add_known scan (workDir e) knownProjects (add_registry registry ∅) in
  let fs1 := fold_left (fun fs x => sync_one x fs) (turns expected) fs in
  let names : gset string := list_to_set (map (fun x => x.2.1) (turns expected)) in
  dumpState expected (archiveOrphans names fs1).

(** * Lemmas *)

Definition expects (m : expectation) (p b : string) (d : ExportDef) : Prop :=
  exists own, m !! p = Some own /\ own !! b = Some d.

(** Ranging over a map yields its entries, each once. *)
Hypothesis HrangeP : forall m, rangeP m ≡ₚ map_to_list m.
Hypothesis HrangeB : forall m, rangeB m ≡ₚ map_to_list m.

Lemma rangeP_spec m p own : In (p, own) (rangeP m) <-> m !! p = Some own.
Proof. rewrite <-list_elem_of_In, HrangeP. apply elem_of_map_to_list. Qed.

Lemma rangeB_spec own b d : In (b, d) (rangeB own) <-> own !! b = Some d.
Proof. rewrite <-list_elem_of_In, HrangeB. apply elem_of_map_to_list. Qed.

Lemma turns_spec m p b d : (p, (b, d)) ∈ turns m <-> expects m p b d.
Proof.
  unfold turns, expects. rewrite list_elem_of_In, in_flat_map. split.
  - intros ([q own] & Hq & Hx). apply in_map_iff in Hx as ([b' d'] & [= -> -> ->] & Hb).
    exists own. split; [by apply rangeP_spec|by apply rangeB_spec].
  - intros (own & Hp & Hb). exists (p, own). split; [by apply rangeP_spec|].
    apply in_map_iff. exists (b, d). split; [done|by apply rangeB_spec].
Qed.

Lemma ensureSymlink_other target name fs b :
  b <> name -> f_bin (ensureSymlink target name fs) !! b = f_bin fs !! b.
Proof.
  intros Hne. unfold ensureSymlink. destruct (f_bin fs !! name) as [[t|]|]; destruct dryRun;
    repeat case_match; cbn [f_bin set_bin]; rewrite ?lookup_insert_ne, ?lookup_delete_ne by done; done.
Qed.

Lemma ensureSymlink_dry target name fs : dryRun = true -> ensureSymlink target name fs = fs.
Proof. intros Hd. unfold ensureSymlink. rewrite Hd. by repeat case_match. Qed.

Lemma ensureSymlink_set target name fs :
  dryRun = false -> (forall op p, fails op p = false) ->
  f_bin (ensureSymlink target name fs) !! name = Some (Link target).
Proof.
  intros Hd Hf. unfold ensureSymlink. rewrite Hd, !Hf.
  destruct (f_bin fs !! name) as [[t|]|] eqn:E; cbn [f_bin set_bin]; rewrite ?lookup_delete_eq, ?E;
    try (cbn [f_bin set_bin]; by rewrite lookup_insert_eq).
  destruct (String.eqb_spec t target) as [->|]; [done|].
  cbn [f_bin set_bin]. by rewrite lookup_insert_eq.
Qed.

(** The link an expected export is given. *)
Definition link_of (p b : string) (d : ExportDef) : option string :=
  if String.eqb (Type_ d) TypeBinary then Some (rel_to_bin (Target d))
  else match GenerateWrapper d with Ok _ => Some (rel_to_bin (wrapperPath p b)) | Err _ => None end.

Lemma sync_one_other p b d fs b' : b' <> b -> f_bin (sync_one (p, (b, d)) fs) !! b' = f_bin fs !! b'.
Proof.
  intros Hne. unfold sync_one. destruct (String.eqb (Type_ d) TypeBinary); [by apply ensureSymlink_other|].
  destruct (GenerateWrapper d); [|done]. destruct dryRun; [by apply ensureSymlink_other|].
  destruct (fails OWrite _); [by destruct (fails OTruncate _)|]. by rewrite ensureSymlink_other.
Qed.

Lemma sync_one_set p b d fs :
  dryRun = false -> (forall op q, fails op q = false) ->
  f_bin (sync_one (p, (b, d)) fs) !! b
  = match link_of p b d with Some t => Some (Link t) | None => f_bin fs !! b end.
Proof.
  intros Hd Hf. unfold sync_one, link_of.
  destruct (String.eqb (Type_ d) TypeBinary); [by apply ensureSymlink_set|].
  destruct (GenerateWrapper d); [|done]. rewrite Hd, Hf. by apply ensureSymlink_set.
Qed.

Lemma sync_one_dry x fs : dryRun = true -> sync_one x fs = fs.
Proof.
  intros Hd. unfold sync_one. destruct x as [p [b d]].
  destruct (String.eqb (Type_ d) TypeBinary); [by apply ensureSymlink_dry|].
  destruct (GenerateWrapper d); [|done]. rewrite Hd. by apply ensureSymlink_dry.
Qed.

Lemma sync_fold_other l fs b :
  (forall p d, (p, (b, d)) ∉ l) -> f_bin (fold_left (fun fs x => sync_one x fs) l fs) !! b = f_bin fs !! b.
Proof.
  revert fs. induction l as [|[p [b' d]] l IH]; intros fs Hl; [done|]. cbn [fold_left].
  rewrite IH by (intros q d' Hin; by apply (Hl q d'); right).
  apply sync_one_other. intros ->. by apply (Hl p d); left.
Qed.

(** Whatever the order, a bin that one project exports ends with its link. *)
Lemma sync_fold_set l fs p b d :
  dryRun = false -> (forall op q, fails op q = false) ->
  (p, (b, d)) ∈ l -> (forall p' d', (p', (b, d')) ∈ l -> p' = p /\ d' = d) ->
  f_bin (fold_left (fun fs x => sync_one x fs) l fs) !! b
  = match link_of p b d with Some t => Some (Link t) | None => f_bin fs !! b end.
Proof.
  intros Hd Hf. revert fs. induction l as [|[p' [b' d']] l IH]; intros fs Hin Hu; [by apply elem_of_nil in Hin|].
  cbn [fold_left]. assert (Hu' : forall q x, (q, (b, x)) ∈ l -> q = p /\ x = d) by (intros q x Hx; apply Hu; by right).
  destruct (decide (b' = b)) as [->|Hne].
  - destruct (Hu p' d' ltac:(by left)) as [-> ->].
    destruct (decide ((p, (b, d)) ∈ l)) as [Hl|Hl].
    + rewrite IH by done. destruct (link_of p b d) eqn:E; [done|]. rewrite sync_one_set by done. by rewrite E.
    + rewrite sync_fold_other; [by apply sync_one_set|]. intros q x Hx.
      destruct (Hu' q x Hx) as [-> ->]. done.
  - assert (Hl : (p, (b, d)) ∈ l) by (apply elem_of_cons in Hin as [[= -> -> ->]|?]; done).
    rewrite IH by done. destruct (link_of p b d); [done|]. apply sync_one_other. congruence.
Qed.

Lemma archive_wrapper_bin target dst fs : f_bin (archive_wrapper target dst fs) = f_bin fs.
Proof. unfold archive_wrapper. by repeat case_match. Qed.

Lemma archive_one_other exp n fs b : b <> n -> f_bin (archive_one exp n fs) !! b = f_bin fs !! b.
Proof.
  intros Hne. unfold archive_one. case_decide; [done|]. destruct (f_bin fs !! n) as [[t|]|]; [|done..].
  destruct (negb (isWrapper t) && negb (isNative t)); [done|]. destruct dryRun; [done|].
  destruct (fails ORename _), (isWrapper t); cbn [f_bin]; rewrite ?archive_wrapper_bin, ?lookup_delete_ne; done.
Qed.

(** Is it one of delightd's links? *)
Definition managed (x : option entry) : bool :=
  match x with Some (Link t) => isWrapper t || isNative t | _ => false end.

Lemma archive_one_at exp n fs :
  dryRun = false -> (forall op q, fails op q = false) ->
  f_bin (archive_one exp n fs) !! n
  = (if decide (n ∈ exp) then f_bin fs !! n else if managed (f_bin fs !! n) then None else f_bin fs !! n).
Proof.
  intros Hd Hf. unfold archive_one, managed. case_decide; [done|].
  destruct (f_bin fs !! n) as [[t|]|] eqn:E; [|by rewrite E..].
  rewrite Hd, Hf. destruct (isWrapper t), (isNative t); cbn [negb andb orb]; cbn [f_bin];
    rewrite ?archive_wrapper_bin; rewrite ?lookup_delete_eq; done.
Qed.

Lemma archive_fold l exp fs b :
  dryRun = false -> (forall op q, fails op q = false) -> NoDup l ->
  f_bin (fold_left (fun fs n => archive_one exp n fs) l fs) !! b
  = (if decide (b ∈ l) then if decide (b ∈ exp) then f_bin fs !! b
                            else if managed (f_bin fs !! b) then None else f_bin fs !! b
     else f_bin fs !! b).
Proof.
  intros Hd Hf. revert fs. induction l as [|n l IH]; intros fs Hnd; cbn [fold_left]; [done|].
  apply NoDup_cons in Hnd as [Hn Hnd]. rewrite IH by done.
  destruct (decide (b = n)) as [->|Hne].
  - rewrite decide_False by done. rewrite archive_one_at by done. by rewrite (decide_True (P := n ∈ n :: l)) by (by left).
  - rewrite archive_one_other by done. destruct (decide (b ∈ l)).
    + by rewrite (decide_True (P := b ∈ n :: l)) by (by right).
    + by rewrite (decide_False (P := b ∈ n :: l)) by (rewrite not_elem_of_cons; done).
Qed.

Lemma archiveOrphans_bin exp fs b :
  dryRun = false -> (forall op q, fails op q = false) ->
  f_bin (archiveOrphans exp fs) !! b
  = (if decide (b ∈ exp) then f_bin fs !! b else if managed (f_bin fs !! b) then None else f_bin fs !! b).
Proof.
  intros Hd Hf. unfold archiveOrphans. rewrite Hf, archive_fold; [|done|done|].
  2: { rewrite sort_strings_perm. apply NoDup_elements. }
  destruct (decide (b ∈ sort_strings (elements (dom (f_bin fs))))) as [|Hn]; [done|].
  rewrite sort_strings_perm, elem_of_elements, not_elem_of_dom in Hn. rewrite Hn. by destruct (decide (b ∈ exp)).
Qed.

Lemma dumpState_bin m fs : f_bin (dumpState m fs) = f_bin fs.
Proof. unfold dumpState. by repeat case_match. Qed.

Lemma archive_one_dry exp n fs : dryRun = true -> archive_one exp n fs = fs.
Proof. intros Hd. unfold archive_one. rewrite Hd. by repeat case_match. Qed.

Lemma Sync_dry registry scan known fs : dryRun = true -> Sync registry scan known fs = fs.
Proof.
  intros Hd. unfold Sync, dumpState, archiveOrphans. rewrite Hd.
  assert (Hs : forall l fs0, fold_left (fun fs x => sync_one x fs) l fs0 = fs0).
  { induction l as [|x l IH]; intros fs0; cbn [fold_left]; [done|]. by rewrite sync_one_dry, IH. }
  assert (Ha : forall exp l fs0, fold_left (fun fs n => archive_one exp n fs) l fs0 = fs0).
  { intros exp l. induction l as [|x l IH]; intros fs0; cbn [fold_left]; [done|]. by rewrite archive_one_dry, IH. }
  rewrite Hs. destruct (fails OReadDir _); [done|]. apply Ha.
Qed.

(** * Property *)

(** C21. Sync makes the bin directory what is expected, whatever order Go ranges its
    maps in: a bin that one project exports ends as the link to its target, or to
    its generated wrapper; a link of delightd's that nobody expects is gone; every
    other entry is left alone, an expected one too when its wrapper cannot be
    generated; and a dry run changes nothing at all. *)
Theorem Sync_reconciles registry scan known fs :
  let m := add_known scan (workDir e) known (add_registry registry ∅) in
  let fs' := Sync registry scan known fs in
  (dryRun = true -> fs' = fs)
  /\ (dryRun = false -> (forall op q, fails op q = false) ->
       (forall p b d, expects m p b d -> (forall p' d', expects m p' b d' -> p' = p) ->
          f_bin fs' !! b = match link_of p b d with Some t => Some (Link t) | None => f_bin fs !! b end)
       /\ (forall b, (forall p d, ~ expects m p b d) ->
          f_bin fs' !! b = if managed (f_bin fs !! b) then None else f_bin fs !! b)).
Proof.
  cbn zeta. set (m := add_known scan (workDir e) known (add_registry registry ∅)).
  split; [apply Sync_dry|]. unfold Sync. fold m.
  intros Hd Hf.
  assert (Hnm : forall b, b ∈ (list_to_set (map (fun x => x.2.1) (turns m)) : gset string)
                  <-> exists p d, expects m p b d).
  { intros b. rewrite elem_of_list_to_set, list_elem_of_fmap. split.
    - intros ([p [b' d]] & -> & Hx). exists p, d. by apply turns_spec.
    - intros (p & d & Hx). exists (p, (b, d)). split; [done|]. by apply turns_spec. }
  split.
  + intros p b d Hx Hu. rewrite dumpState_bin, archiveOrphans_bin by done.
    rewrite decide_True by (apply Hnm; eauto). apply sync_fold_set; [done|done|by apply turns_spec|].
    intros p' d' Hin%turns_spec. assert (p' = p) as -> by (by eapply Hu). split; [done|].
    destruct Hx as (own & Ho & Hb), Hin as (own' & Ho' & Hb'). congruence.
  + intros b Hn. rewrite dumpState_bin, archiveOrphans_bin by done.
    rewrite decide_False by (rewrite Hnm; intros (p & d & ?); by eapply Hn).
    rewrite !sync_fold_other; [done|..]; intros p d Hx%turns_spec; by eapply Hn.
Qed.

End sync.

(** * At concrete inputs *)

Definition w_engine : Engine := NewEngine (fun _ => None) "/home/j" "/home/j/work".
Definition w_export : ExportDef := mkExportDef "psql" TypeDockerExec "" "db" "psql -U x" "" "".
Definition w_registry : list ProjectExports := [mkProjectExports "db" [w_export]].
Definition w_native (path : string) : list ExportDef :=
  if String.eqb path "/home/j/work/tool"
  then scan_entries "/home/j/work/tool/bin" [mkDirent "run" false (Some 493); mkDirent "doc" false (Some 420)]
  else [].

Definition w_empty : FS := mkFS {["mine" := Other; "old" := Link "/home/j/work/gone/bin/old"]} ∅ ∅ None.

Definition w_sync (dryRun : bool) (registry : list ProjectExports) (known : list string) : FS -> FS :=
  Sync w_engine (fun _ _ => false) "/" "20260101000000" map_to_list map_to_list dryRun registry w_native known.

Lemma Sync_reconciles_witness :
  f_bin (w_sync false w_registry ["tool"] w_empty) !! "run" = Some (Link "../../work/tool/bin/run")
  /\ f_bin (w_sync false w_registry ["tool"] w_empty) !! "old" = None
  /\ f_bin (w_sync false w_registry ["tool"] w_empty) !! "mine" = Some Other.
Proof.
  destruct (proj2 (Sync_reconciles w_engine (fun _ _ => false) "/" "20260101000000" map_to_list map_to_list false
    (fun m => reflexivity _) (fun m => reflexivity _) w_registry w_native ["tool"] w_empty)
    eq_refl (fun _ _ => eq_refl)) as [_ Hn].
  split; [vm_compute; reflexivity|]. split.
  - refine (eq_trans (Hn "old" _) _); [|vm_compute; reflexivity].
    intros p d (own & Hp & Hb).
    assert (Hm : add_known w_native (workDir w_engine) ["tool"] (add_registry w_registry ∅)
        = <["tool" := {["run" := mkExportDef "run" TypeBinary "/home/j/work/tool/bin/run" "" "" "" ""]}]>
            ({["db" := {["psql" := w_export]}]} : expectation)) by (vm_compute; reflexivity).
    change (add_known w_native (workDir w_engine) ["tool"] (add_registry w_registry ∅) !! p = Some own) in Hp.
    rewrite Hm in Hp. apply lookup_insert_Some in Hp as [[_ <-]|[_ Hp]].
    + apply lookup_singleton_Some in Hb as [Hb _]. discriminate.
    + apply lookup_singleton_Some in Hp as [_ <-]. apply lookup_singleton_Some in Hb as [Hb _]. discriminate.
  - vm_compute. reflexivity.
Defined.

(** The wrapper of an orphaned export stays: its link is relative to the bin
    directory, and is resolved against the daemon's working directory. *)
Lemma orphaned_wrapper_is_left :
  let fs := w_sync false [] [] (w_sync false w_registry [] w_empty) in
  f_bin fs !! "psql" = None
  /\ f_archive fs !! "/home/j/var/archive/delightd/exports/20260101000000/psql"
     = Some (ALink "../runtime/delightd/exports/db/psql.sh")
  /\ f_archive fs !! "/home/j/var/archive/delightd/exports/20260101000000/psql.sh" = None
  /\ is_Some (f_files fs !! "/home/j/var/runtime/delightd/exports/db/psql.sh").
Proof. vm_compute. repeat split. by eexists. Qed.

End exports.
