(* ===== verification/Discovery.v ===== *)
(** pkg/discovery, pkg/traefik, pkg/metrics and pkg/introspect: the local model
    servers and the routes derived from them, the counters and their endpoint, and
    the backup introspection of a service.

    What a probe meets is an input, and so is the order in which the counters' map
    is ranged over. A handler that would dereference nil is [None]. *)

From S2P Require Import Prelude GoStrings GoPath State Config Exports.
From Stdlib Require Import Ascii.

(** * Local model servers *)

Module discovery.

Record ModelSource := mkModelSource {
  Provider : string; URL : string; Models : list string; Healthy : bool
}.

Section discover.
(** Whether http.NewRequest takes the URL; Do's error, or the status and what the
    body decodes to as Ollama's tags. *)
Variable request_ok : string -> bool.
Variable http_get : string -> result string (Z * result string (list string)).

Definition checkOllama (baseURL name : string) : ModelSource :=
  let source := mkModelSource name baseURL [] false in
  let url := baseURL +:+ "/api/tags" in
  if negb (request_ok url) then source
  else match http_get url with
       | Err _ => source
       | Ok (code, tags) =>
           if code =? 200
           then mkModelSource name baseURL (match tags with Ok ms => ms | Err _ => [] end) true
           else source
       end.

(** The second NewRequest's error is dropped, and Do panics on a nil request. *)
Definition checkLlamaCpp (baseURL name : string) : option ModelSource :=
  let source := mkModelSource name baseURL [] false in
  let health := baseURL +:+ "/health" in
  let models := baseURL +:+ "/v1/models" in
  if negb (request_ok health) then Some source
  else if match http_get health with Ok (code, _) => code =? 200 | Err _ => false end
  then Some (mkModelSource name baseURL ["unknown-llama-model"] true)
  else if negb (request_ok models) then None
  else Some (match http_get models with
             | Ok (code, _) => if code =? 200
                               then mkModelSource name baseURL ["openai-compatible-model"] true else source
             | Err _ => source
             end).

(** Append the source if it is healthy. *)
Definition keep (sources : list ModelSource) (s : ModelSource) : list ModelSource :=
  if Healthy s then sources ++ [s] else sources.

Definition isOpenAI (ty : string) : bool :=
  String.eqb ty "llama_cpp" || String.eqb ty "openai" || String.eqb ty "apfel".

Fixpoint check_providers (ps : list config.LLMProviderConfig) (sources : list ModelSource)
    : option (list ModelSource) :=
  match ps with
  | [] => Some sources
  | p :: r =>
      if String.eqb (config.lp_Type p) "ollama"
      then check_providers r (keep sources (checkOllama (config.lp_URL p) (config.lp_Name p)))
      else if isOpenAI (config.lp_Type p)
      then match checkLlamaCpp (config.lp_URL p) (config.lp_Name p) with
           | None => None
           | Some s => check_providers r (keep sources s)
           end
      else check_providers r sources
  end.

(** The loop over the ports 8000 to 8020. *)
Fixpoint check_ports (n : nat) (port : Z) (sources : list ModelSource) : option (list ModelSource) :=
  match n with
  | O => Some sources
  | S k => match checkLlamaCpp ("http://host.docker.internal:" +:+ itoa port) "llama.cpp" with
           | None => None
           | Some s => check_ports k (port + 1) (keep sources s)
           end
  end.

Definition DiscoverLocalLLMs (cfg : config.DelightConfig) : option (list ModelSource) :=
  let providers := config.Providers (config.LLMDiscovery (config.System cfg)) in
  match providers with
  | _ :: _ => check_providers providers []
  | [] => check_ports 21 8000
            (keep [] (checkOllama "http://host.docker.internal:11434" "ollama"))
  end.

(** ** Reference: the probes that are made, and what one answers *)

Definition probes (cfg : config.DelightConfig) : list config.LLMProviderConfig :=
  match config.Providers (config.LLMDiscovery (config.System cfg)) with
  | [] => config.mkLLMProviderConfig "ollama" "ollama" "http://host.docker.internal:11434"
          :: map (fun port => config.mkLLMProviderConfig "llama.cpp" "llama_cpp"
                                ("http://host.docker.internal:" +:+ itoa port)) (seqZ 8000 21)
  | ps => ps
  end.

Definition up (url : string) : bool :=
  request_ok url && match http_get url with Ok (code, _) => code =? 200 | Err _ => false end.

(** The models of a provider, if one of the endpoints of its type answers 200. *)
Definition answer (p : config.LLMProviderConfig) : option (list string) :=
  let at_ path := config.lp_URL p +:+ path in
  if String.eqb (config.lp_Type p) "ollama" then
    if up (at_ "/api/tags")
    then Some (match http_get (at_ "/api/tags") with Ok (_, Ok ms) => ms | _ => [] end) else None
  else if isOpenAI (config.lp_Type p) then
    if up (at_ "/health") then Some ["unknown-llama-model"]
    else if up (at_ "/v1/models") then Some ["openai-compatible-model"] else None
  else None.

Definition found (p : config.LLMProviderConfig) : option ModelSource :=
  ms ← answer p; Some (mkModelSource (config.lp_Name p) (config.lp_URL p) ms true).

(** Whether a URL is well formed is decided by what stands before its path. *)
Definition same_base : Prop :=
  forall base, request_ok (base +:+ "/health") = request_ok (base +:+ "/v1/models").

(** ** Lemmas *)

Lemma keep_ollama sources p :
  String.eqb (config.lp_Type p) "ollama" = true ->
  keep sources (checkOllama (config.lp_URL p) (config.lp_Name p)) = sources ++ option_list (found p).
Proof.
  intros Ht. unfold keep, checkOllama, found, answer, up. rewrite Ht.
  destruct (request_ok _); cbn [negb andb Healthy]; [|by rewrite app_nil_r].
  destruct (http_get _) as [[code tags]|e]; [|by rewrite app_nil_r].
  destruct (code =? 200); [|by rewrite app_nil_r]. by destruct tags.
Qed.

Lemma keep_llama sources p :
  same_base -> String.eqb (config.lp_Type p) "ollama" = false -> isOpenAI (config.lp_Type p) = true ->
  exists s, checkLlamaCpp (config.lp_URL p) (config.lp_Name p) = Some s
  /\ keep sources s = sources ++ option_list (found p).
Proof.
  intros Hb Ho Ht. unfold checkLlamaCpp, found, answer, up. rewrite Ho, Ht, <-Hb.
  destruct (request_ok _); cbn [negb andb]; [|eexists; split; [done|by rewrite app_nil_r]].
  destruct (http_get (_ +:+ "/health")) as [[code tags]|e]; [destruct (code =? 200); [by eexists|]|];
    (eexists; split; [done|]);
    (destruct (http_get (_ +:+ "/v1/models")) as [[code' tags']|e']; [destruct (code' =? 200)|]; [done|..];
     by rewrite app_nil_r).
Qed.

Lemma omap_cons {A B} (f : A -> option B) x l : omap f (x :: l) = option_list (f x) ++ omap f l.
Proof. cbn. by destruct (f x). Qed.

Lemma check_providers_spec ps sources :
  same_base -> check_providers ps sources = Some (sources ++ omap found ps).
Proof.
  intros Hb. revert sources. induction ps as [|p ps IH]; intros sources; cbn [check_providers];
    [by rewrite app_nil_r|].
  assert (Hc : forall s, keep sources s = sources ++ option_list (found p) ->
    check_providers ps (keep sources s) = Some (sources ++ omap found (p :: ps))).
  { intros s ->. by rewrite IH, <-app_assoc, <-omap_cons. }
  destruct (String.eqb (config.lp_Type p) "ollama") eqn:Ho; [by apply Hc, keep_ollama|].
  destruct (isOpenAI (config.lp_Type p)) eqn:Ht.
  - destruct (keep_llama sources p Hb Ho Ht) as (s & -> & Hk). by apply Hc.
  - assert (found p = None) as E by (unfold found, answer; by rewrite Ho, Ht).
    rewrite IH, omap_cons. by rewrite E.
Qed.

Lemma check_ports_providers n port sources :
  check_ports n port sources
  = check_providers (map (fun port => config.mkLLMProviderConfig "llama.cpp" "llama_cpp"
                            ("http://host.docker.internal:" +:+ itoa port)) (seqZ port (Z.of_nat n))) sources.
Proof.
  revert port sources. induction n as [|n IH]; intros port sources; [done|].
  rewrite seqZ_cons by lia. replace (Z.pred (Z.of_nat (S n))) with (Z.of_nat n) by lia.
  cbn [check_ports check_providers map]. rewrite <-Z.add_1_r.
  change (String.eqb (config.lp_Type _) "ollama") with false. change (isOpenAI (config.lp_Type _)) with true.
  cbn [config.lp_URL config.lp_Name]. destruct (checkLlamaCpp _ _); [apply IH|done].
Qed.

(** The probes that answer, in the order they are made. *)
Lemma DiscoverLocalLLMs_spec cfg : same_base -> DiscoverLocalLLMs cfg = Some (omap found (probes cfg)).
Proof.
  intros Hb. unfold DiscoverLocalLLMs, probes.
  destruct (config.Providers _) as [|p ps]; [|by rewrite check_providers_spec].
  rewrite check_ports_providers, check_providers_spec by done.
  set (o := config.mkLLMProviderConfig "ollama" "ollama" "http://host.docker.internal:11434").
  pose proof (keep_ollama [] o eq_refl) as E. cbn [config.lp_URL config.lp_Name o] in E. rewrite E.
  by rewrite omap_cons.
Qed.

End discover.

End discovery.

(** * Traefik routes *)

Module traefik.
Import discovery.

Record Router := mkRouter { Rule : string; r_Service : string }.

(** A service is its servers' URLs. *)
Record DynamicConfig := mkDynamicConfig { Routers : gmap string Router; Services : gmap string (list string) }.

Definition service_name (source : ModelSource) (idx : nat) : string :=
  "llm-" +:+ Provider source +:+ "-" +:+ itoa (Z.of_nat idx).

Definition router_of (source : ModelSource) (idx : nat) : Router :=
  mkRouter ("Host(`models.local`) && PathPrefix(`/llms/" +:+ Provider source +:+ "/`)") (service_name source idx).

(** One turn of the loop; the flag is hasActive. *)
Definition route_one (x : nat * ModelSource) (acc : DynamicConfig * bool) : DynamicConfig * bool :=
  let '(idx, source) := x in
  if negb (Healthy source) || bool_decide (Models source = []) then acc
  else let n := service_name source idx in
       (mkDynamicConfig (<[n := router_of source idx]> (Routers (fst acc)))
          (<[n := [URL source]]> (Services (fst acc))), true).

Definition enumerate {A} (l : list A) : list (nat * A) := combine (seq 0 (length l)) l.

Definition build_routes (sources : list ModelSource) : DynamicConfig * bool :=
  fold_left (fun acc x => route_one x acc) (enumerate sources) (mkDynamicConfig ∅ ∅, false).

(** The calls' errors; removing the file fails with [io_remove], and a failed write,
    which truncates the file first, comes with what it left to read. *)
Record Io := mkIo {
  io_home : option string; io_mkdir : option string; io_remove : bool;
  io_marshal : option string; io_write : option (string * option DynamicConfig)
}.

(** llms.yml, [None] when there is none to read. *)
Definition SyncLLMRoutes (io : Io) (sources : list ModelSource) (file : option DynamicConfig)
    : option DynamicConfig * option string :=
  match io_home io with
  | Some e => (file, Some e)
  | None =>
      match io_mkdir io with
      | Some e => (file, Some e)
      | None =>
          let '(conf, hasActive) := build_routes sources in
          if negb hasActive then (if io_remove io then file else None, None)
          else match io_marshal io with
               | Some e => (file, Some e)
               | None => match io_write io with
                         | Some (e, rest) => (rest, Some e)
                         | None => (Some conf, None)
                         end
               end
      end
  end.

(** ** Lemmas *)

Lemma split_last_dash a a' b b' :
  has_char "-" b = false -> has_char "-" b' = false ->
  a +:+ String "-" b = a' +:+ String "-" b' -> a = a' /\ b = b'.
Proof.
  intros Hb Hb'. revert a'. induction a as [|c a IH]; intros [|c' a'] E; cbn [String.app] in E.
  - by injection E.
  - injection E as <- E. by rewrite E, has_char_app, orb_true_r in Hb.
  - injection E as -> E. by rewrite <-E, has_char_app, orb_true_r in Hb'.
  - injection E as <- E. by destruct (IH a' E) as [-> ->].
Qed.

Lemma service_name_inj s s' i j : service_name s i = service_name s' j -> i = j.
Proof.
  unfold service_name. intros E%str_app_inv_l.
  change ("-" +:+ itoa (Z.of_nat i)) with (String "-" (itoa (Z.of_nat i))) in E.
  change ("-" +:+ itoa (Z.of_nat j)) with (String "-" (itoa (Z.of_nat j))) in E.
  apply split_last_dash in E as [_ E]; [|by apply itoa_no_dash; lia..].
  apply (inj pretty) in E. lia.
Qed.

Lemma active_iff source :
  negb (Healthy source) || bool_decide (Models source = []) = false <-> Healthy source = true /\ Models source <> [].
Proof. rewrite orb_false_iff, negb_false_iff, bool_decide_eq_false. done. Qed.

Lemma enumerate_snoc {A} (l : list A) x : enumerate (l ++ [x]) = enumerate l ++ [(length l, x)].
Proof.
  unfold enumerate. rewrite length_app, Nat.add_1_r, seq_S.
  assert (Hc : forall (a : list nat) (b : list A) y z, length a = length b ->
    combine (a ++ [y]) (b ++ [z]) = combine a b ++ [(y, z)]).
  { induction a as [|? a IH]; intros [|? b] y z Hl; simplify_eq/=; [done|]. by rewrite IH. }
  rewrite Hc by (by rewrite length_seq). done.
Qed.

(** A source that is given a route, at its place in the list. *)
Definition routed (sources : list ModelSource) (i : nat) (s : ModelSource) : Prop :=
  sources !! i = Some s /\ Healthy s = true /\ Models s <> [].

Lemma routed_snoc l x i s :
  routed (l ++ [x]) i s <-> routed l i s \/ (i = length l /\ s = x /\ Healthy x = true /\ Models x <> []).
Proof.
  unfold routed. rewrite lookup_app_Some. split.
  - intros ([Hl|[Hi Hx]] & Hh & Hm); [by left|right].
    apply list_lookup_singleton_Some in Hx as [Hi' <-]. split_and!; [lia|done..].
  - intros [(? & ? & ?)|(-> & -> & Hh & Hm)]; [by split_and!; [left|..]|].
    split_and!; [right|done..]. by rewrite Nat.sub_diag.
Qed.

(** One entry per routed source: no two sources share a name. *)
Lemma build_routes_spec sources :
  (snd (build_routes sources) = true <-> exists i s, routed sources i s)
  /\ (forall n v, Services (fst (build_routes sources)) !! n = Some v
        <-> exists i s, routed sources i s /\ n = service_name s i /\ v = [URL s])
  /\ (forall n v, Routers (fst (build_routes sources)) !! n = Some v
        <-> exists i s, routed sources i s /\ n = service_name s i /\ v = router_of s i).
Proof.
  induction sources as [|x l IH] using rev_ind.
  { unfold routed. cbn. split_and!; [|intros n v; rewrite lookup_empty..]; naive_solver. }
  unfold build_routes in *. rewrite enumerate_snoc, fold_left_app. cbn [fold_left].
  set (acc := fold_left _ (enumerate l) _) in *. destruct IH as (Ha & Hs & Hr). unfold route_one.
  destruct (negb (Healthy x) || bool_decide (Models x = [])) eqn:E.
  { assert (Hn : ~ (Healthy x = true /\ Models x <> [])) by (by rewrite <-active_iff, E).
    assert (Hx : forall i s, routed (l ++ [x]) i s <-> routed l i s) by (intros; rewrite routed_snoc; naive_solver).
    setoid_rewrite Hx. done. }
  apply active_iff in E as [Hh Hm]. cbn [fst snd Services Routers].
  assert (Hins : forall {B} (m : gmap string B) (f : nat -> ModelSource -> B),
    (forall n v, m !! n = Some v <-> exists i s, routed l i s /\ n = service_name s i /\ v = f i s) ->
    forall n v, <[service_name x (length l) := f (length l) x]> m !! n = Some v
      <-> exists i s, routed (l ++ [x]) i s /\ n = service_name s i /\ v = f i s).
  { intros B m f Hf n v. rewrite lookup_insert_Some, Hf. setoid_rewrite routed_snoc. split.
    - intros [[<- <-]|[_ (i & s & ? & ? & ?)]]; [exists (length l), x|exists i, s]; naive_solver.
    - intros (i & s & [Hi|(-> & -> & _)] & -> & ->); [right|by left].
      split; [|by exists i, s]. intros E%service_name_inj. destruct Hi as [Hi%lookup_lt_Some _]. lia. }
  split_and!.
  - split; [|done]. intros _. exists (length l), x. apply routed_snoc. naive_solver.
  - by apply (Hins _ _ (fun _ s => [URL s])).
  - by apply (Hins _ _ (fun i s => router_of s i)).
Qed.

Lemma SyncLLMRoutes_ok io sources file file' :
  io_remove io = false -> SyncLLMRoutes io sources file = (file', None) ->
  file' = if snd (build_routes sources) then Some (fst (build_routes sources)) else None.
Proof.
  unfold SyncLLMRoutes. intros ->. destruct (io_home io), (io_mkdir io); try done.
  destruct (build_routes sources) as [conf []]; cbn [negb fst snd]; [|by intros [= <-]].
  destruct (io_marshal io), (io_write io) as [[e' rest]|]; intros [= <-]; done.
Qed.

Lemma SyncLLMRoutes_err io sources file file' e :
  SyncLLMRoutes io sources file = (file', Some e) -> file' = file \/ io_write io = Some (e, file').
Proof.
  unfold SyncLLMRoutes. destruct (io_home io), (io_mkdir io); try naive_solver.
  destruct (build_routes sources) as [conf []]; cbn [negb]; [|done].
  destruct (io_marshal io), (io_write io) as [[]|]; naive_solver.
Qed.

(** C28. A turn of the model discovery publishes what answers: the sources are the
    configured providers (or the default ports) one of whose endpoints answered 200,
    in order, and when the sync succeeds the routes are one service with its URL and
    one router per source that has a model, none overwritten by another and none
    left from an earlier turn; with no such source the file is gone. A sync that
    fails leaves the file, unless it is the write that failed. *)
Theorem routes_follow_answers request_ok http_get cfg io file :
  same_base request_ok -> io_remove io = false ->
  exists sources, DiscoverLocalLLMs request_ok http_get cfg = Some sources
  /\ sources = omap (found request_ok http_get) (probes cfg)
  /\ match SyncLLMRoutes io sources file with
     | (file', Some e) => file' = file \/ io_write io = Some (e, file')
     | (None, None) => forall i s, ~ routed sources i s
     | (Some c, None) =>
         (exists i s, routed sources i s)
         /\ (forall n urls, Services c !! n = Some urls
               <-> exists i s, routed sources i s /\ n = service_name s i /\ urls = [URL s])
         /\ (forall n r, Routers c !! n = Some r
               <-> exists i s, routed sources i s /\ n = service_name s i /\ r = router_of s i)
     end.
Proof.
  intros Hb Hr. eexists. split; [by apply DiscoverLocalLLMs_spec|]. split; [done|].
  set (sources := omap _ _). pose proof (build_routes_spec sources) as (Ha & Hs & Hro).
  destruct (SyncLLMRoutes io sources file) as [file' [e|]] eqn:E;
    [apply SyncLLMRoutes_err in E; by destruct file'|].
  apply SyncLLMRoutes_ok in E as ->; [|done].
  destruct (snd (build_routes sources)); [by split_and!; [apply Ha|..]|].
  intros i s Hi. assert (false = true) by (apply Ha; eauto). done.
Qed.

(** Two sources of one provider are given one rule, and Traefik takes either. *)
Lemma same_provider_same_rule s s' i j :
  Provider s = Provider s' -> Rule (router_of s i) = Rule (router_of s' j).
Proof. intros E. cbn. by rewrite E. Qed.

(** ** At concrete inputs *)

Definition w_cfg : config.DelightConfig :=
  config.mkDelightConfig config.no_system [] false [].

(** Ollama answers with one model, and the server on port 8001 to /v1/models. *)
Definition w_get (url : string) : result string (Z * result string (list string)) :=
  if String.eqb url "http://host.docker.internal:11434/api/tags" then Ok (200, Ok ["qwen"])
  else if String.eqb url "http://host.docker.internal:8001/v1/models" then Ok (200, Err "eof")
  else Err "connection refused".

Lemma routes_follow_answers_witness :
  exists sources c, DiscoverLocalLLMs (fun _ => true) w_get w_cfg = Some sources
  /\ SyncLLMRoutes (mkIo None None false None None) sources None = (Some c, None)
  /\ Services c !! "llm-llama.cpp-1" = Some ["http://host.docker.internal:8001"].
Proof.
  destruct (routes_follow_answers (fun _ => true) w_get w_cfg (mkIo None None false None None) None
    (fun _ => eq_refl) eq_refl) as (sources & Hd & Hs & Hm).
  destruct (SyncLLMRoutes _ sources None) as [[c|] [e|]] eqn:E; [destruct Hm as [Hm|Hm]; discriminate| | |].
  - exists sources, c. split_and!; [exact Hd|exact E|]. apply Hm. exists 1%nat. eexists.
    split_and!; [split_and!; [rewrite Hs; vm_compute; reflexivity|reflexivity|discriminate]|reflexivity|reflexivity].
  - rewrite Hs in E. vm_compute in E. discriminate.
  - exfalso. apply (Hm 0%nat (mkModelSource "ollama" "http://host.docker.internal:11434" ["qwen"] true)).
    split_and!; [rewrite Hs; vm_compute; reflexivity|reflexivity|discriminate].
Defined.

End traefik.

(** * Counters *)

Module metrics.

(** The registry's map; a counter is an int64. *)
Definition Inc (key : string) (counters : gmap string Z) : gmap string Z :=
  <[key := wrap64 (default 0 (counters !! key) + 1)]> counters.

Definition line (kv : string * Z) : string := kv.1 +:+ " " +:+ itoa kv.2 +:+ nl.

(** The text of the endpoint, in the order [range] yields the counters. *)
Definition Handler (range : gmap string Z -> list (string * Z)) (counters : gmap string Z) : string :=
  join "" (map line (range counters)).

Definition Reset : gmap string Z := ∅.

Fixpoint occurrences (key : string) (keys : list string) : Z :=
  match keys with [] => 0 | k :: r => (if String.eqb k key then 1 else 0) + occurrences key r end.

Lemma occurrences_snoc key keys k :
  occurrences key (keys ++ [k]) = occurrences key keys + (if String.eqb k key then 1 else 0).
Proof. induction keys as [|k' keys IH]; cbn [occurrences app]; [lia|]. rewrite IH. lia. Qed.

Lemma occurrences_bound key keys : 0 <= occurrences key keys <= Z.of_nat (length keys).
Proof. induction keys as [|k keys IH]; cbn [occurrences length]; [lia|]. destruct (String.eqb k key); lia. Qed.

(** A counter is the number of times it was incremented. *)
Lemma Inc_counts keys key :
  Z.of_nat (length keys) < 2 ^ 63 ->
  default 0 (fold_left (fun m k => Inc k m) keys Reset !! key) = occurrences key keys.
Proof.
  induction keys as [|k keys IH] using rev_ind; [done|].
  rewrite length_app, fold_left_app, occurrences_snoc. cbn [length fold_left]. intros Hl. unfold Inc at 1.
  pose proof (occurrences_bound key keys). destruct (String.eqb_spec k key) as [->|Hne].
  - rewrite lookup_insert_eq, IH by lia. cbn [default from_option]. apply wrap64_id. unfold in_int64. cbn. lia.
  - rewrite lookup_insert_ne, IH by (done || lia). lia.
Qed.

End metrics.

(** * Introspection *)

Module introspect.

Record ServiceBackupStatus := mkServiceBackupStatus {
  ServiceName : string; IsKnownToDaemon : bool; IsActivelyBackingUp : bool; HasBashFragment : bool
}.

(** [fragment] is the FragmentChecker. *)
Definition ServiceStatus (name : string) (machines : gmap string state.Machine) (fragment : string -> bool)
    : ServiceBackupStatus :=
  match machines !! name with
  | Some m => mkServiceBackupStatus name true (bool_decide (state.GetState m = state.StateBackingUp)) (fragment name)
  | None => mkServiceBackupStatus name false false (fragment name)
  end.

End introspect.
