(* ===== verification/Events.v ===== *)
(** pkg/events and pkg/schemaregistry: backup events on the bus, and the two
    clients of the schema registry.

    A publisher is its configuration and the two fields its mutex guards. What the
    network answers comes with each call; the protobuf encoder is a [Codec]. *)

From S2P Require Import Prelude GoStrings Proto.
From Stdlib Require Import Ascii.
Import proto.

(** * The schema registry's read client *)

Module schemaregistry.

(** The status of a GET, or the error of NewRequest or Do. *)
Definition SubjectExists (quote : string -> string) (http_get : string -> result string Z)
    (baseURL subject : string) : result string bool :=
  if String.eqb baseURL "" then Err "schema registry URL is not configured"
  else match http_get (baseURL +:+ "/subjects/" +:+ PathEscape subject +:+ "/versions") with
       | Err e => Err e
       | Ok code =>
           if code =? 200 then Ok true
           else if code =? 404 then Ok false
           else Err ("schema registry returned " +:+ itoa code +:+ " for subject " +:+ quote subject)
       end.

Definition New (baseURL : string) : string := trim_right_char "/"%char baseURL.

End schemaregistry.

(** * The publisher *)

Module events.

Definition backupEventSubject : string := "delight.v1.BackupEvent".
Definition wireMagicByte : ascii := ascii_of_nat 0.

Record Publisher := mkPublisher {
  cfg_url : string; cfg_topic : string; schemaText : string;
  schemaID : Z;           (* int32 *)
  registered : bool
}.

Record Record_ := mkRecord { r_Topic : string; r_Key : string; r_Value : string }.

Definition byte_of (z : Z) : ascii := ascii_of_nat (Z.to_nat (z mod 256)).

(** binary.BigEndian.PutUint32 *)
Definition be32 (z : Z) : string :=
  String (byte_of (Z.shiftr z 24)) (String (byte_of (Z.shiftr z 16))
    (String (byte_of (Z.shiftr z 8)) (String (byte_of z) EmptyString))).

Section publisher.
Context `{Codec BackupEvent}.

Definition encode (p : Publisher) (ev : BackupEvent) : result string string :=
  match marshal ev with
  | Err e => Err e
  | Ok payload =>
      Ok (String wireMagicByte (be32 (u32 (schemaID p)) +:+ String (ascii_of_nat 0) payload))
  end.

(** What one registration meets: json.Marshal and NewRequest, Do with the status
    and the body, and the decoded id. *)
Record Net := mkNet {
  n_request : string -> string -> option string;      (* URL, schema text *)
  n_post : string -> string -> result string (Z * string);
  n_decode : string -> result string Z;      (* an int32, or the decoder's error *)
  n_produce : Record_ -> option string
}.

Definition registerSchema (net : Net) (p : Publisher) : result string Z :=
  let url := trim_right_char "/"%char (cfg_url p) +:+ "/subjects/" +:+ backupEventSubject +:+ "/versions" in
  match n_request net url (schemaText p) with
  | Some e => Err e
  | None =>
      match n_post net url (schemaText p) with
      | Err e => Err e
      | Ok (code, body) =>
          if negb (code =? 200)
          then Err ("registry returned " +:+ itoa code +:+ ": " +:+ trim_space body)
          else n_decode net body
      end
  end.

(** Under the mutex: registered once, and never a failure remembered. *)
Definition ensureRegistered (net : Net) (p : Publisher) : Publisher * option string :=
  if registered p then (p, None)
  else match registerSchema net p with
       | Err e => (p, Some e)
       | Ok id => (mkPublisher (cfg_url p) (cfg_topic p) (schemaText p) id true, None)
       end.

(** A publisher's call: its state, the record it handed to the producer, and the
    error. A nil publisher is [None]. *)
Definition PublishBackup (net : Net) (ev : BackupEvent) (p : option Publisher)
    : option Publisher * option Record_ * option string :=
  match p with
  | None => (None, None, None)
  | Some p =>
      match ensureRegistered net p with
      | (p', Some e) => (Some p', None, Some ("schema registration: " +:+ e))
      | (p', None) =>
          match encode p' ev with
          | Err e => (Some p', None, Some e)
          | Ok frame =>
              let rec := mkRecord (cfg_topic p') (be_project_name ev) frame in
              (Some p', Some rec, n_produce net rec)
          end
      end
  end.

(** The errors of kgo.NewClient and Ping come with the call. *)
Definition New (brokers : list string) (newClient ping : option string) (url topic schema : string)
    : result string Publisher :=
  if bool_decide (brokers = []) then Err "no kafka brokers configured"
  else match newClient with
       | Some e => Err e
       | None => match ping with
                 | Some e => Err ("kafka unreachable: " +:+ e)
                 | None => Ok (mkPublisher url topic schema 0 false)
                 end
       end.

(** A run of calls, each with its network: the records produced, in order. *)
Fixpoint publish_all (calls : list (Net * BackupEvent)) (p : option Publisher)
    : option Publisher * list (BackupEvent * Record_) :=
  match calls with
  | [] => (p, [])
  | (net, ev) :: rest =>
      let '(p', rec, _) := PublishBackup net ev p in
      let '(p'', recs) := publish_all rest p' in
      (p'', match rec with Some r => (ev, r) :: recs | None => recs end)
  end.

(** The calls that reached the schema registry. *)
Fixpoint registrations (calls : list (Net * BackupEvent)) (p : option Publisher) : nat :=
  match calls with
  | [] => 0%nat
  | (net, ev) :: rest =>
      let '(p', _, _) := PublishBackup net ev p in
      ((match p with Some q => if registered q then 0 else 1 | None => 0 end) + registrations rest p')%nat
  end.

End publisher.

(** * Reference: what a consumer of the Confluent format reads *)

Definition of_byte (c : ascii) : Z := Z.of_nat (nat_of_ascii c).

Definition be32_decode (a b c d : ascii) : Z :=
  of_byte a * 2 ^ 24 + of_byte b * 2 ^ 16 + of_byte c * 2 ^ 8 + of_byte d.

(** The schema id and the payload of a frame whose message index is the first. *)
Definition parse_frame (s : string) : option (Z * string) :=
  match s with
  | String m (String a (String b (String c (String d (String i payload))))) =>
      if Ascii.eqb m wireMagicByte && Ascii.eqb i (ascii_of_nat 0) then Some (be32_decode a b c d, payload) else None
  | _ => None
  end.

(** * Lemmas *)

Lemma of_byte_byte_of z : of_byte (byte_of z) = z mod 256.
Proof.
  unfold of_byte, byte_of. pose proof (Z.mod_pos_bound z 256 ltac:(lia)).
  rewrite nat_ascii_embedding by lia. lia.
Qed.

Lemma be32_round z : 0 <= z < 2 ^ 32 ->
  be32_decode (byte_of (Z.shiftr z 24)) (byte_of (Z.shiftr z 16)) (byte_of (Z.shiftr z 8)) (byte_of z) = z.
Proof.
  intros Hz. unfold be32_decode. rewrite !of_byte_byte_of, !Z.shiftr_div_pow2 by lia.
  pose proof (Z.div_mod z 256 ltac:(lia)). pose proof (Z.div_mod (z / 256) 256 ltac:(lia)).
  pose proof (Z.div_mod (z / 256 / 256) 256 ltac:(lia)).
  assert (E8 : z / 2 ^ 8 = z / 256) by done.
  assert (E16 : z / 2 ^ 16 = z / 256 / 256) by (by rewrite Z.div_div).
  assert (E24 : z / 2 ^ 24 = z / 256 / 256 / 256) by (by rewrite !Z.div_div).
  rewrite E8, E16, E24. assert (Hs : 0 <= z / 256 / 256 / 256 < 256).
  { rewrite !Z.div_div by lia. split; [apply Z.div_pos; lia|apply Z.div_lt_upper_bound; lia]. }
  rewrite (Z.mod_small (z / 256 / 256 / 256)) by done. lia.
Qed.

Section lemmas.
Context `{CodecLaws BackupEvent}.

(** A consumer reads back the id and the event of a frame. *)
Lemma encode_parse p ev frame :
  encode p ev = Ok frame ->
  exists payload, parse_frame frame = Some (u32 (schemaID p), payload) /\ unmarshal payload = Ok ev.
Proof.
  unfold encode. destruct (marshal ev) as [payload|e] eqn:E; [|done]. intros [= <-]. exists payload.
  split; [|by apply unmarshal_marshal]. cbn. f_equal. f_equal. apply be32_round.
  apply Z.mod_pos_bound. lia.
Qed.

(** One call: it registers at most once, keeps a registration, and produces only
    with one. *)
Lemma PublishBackup_step net ev p p' rec err :
  PublishBackup net ev (Some p) = (Some p', rec, err) ->
  (registered p = true -> p' = p)
  /\ (forall r, rec = Some r -> registered p' = true /\ encode p' ev = Ok (r_Value r)
        /\ r_Key r = be_project_name ev)
  /\ (registered p = false -> registered p' = true ->
        exists id, registerSchema net p = Ok id /\ schemaID p' = id)
  /\ (registered p = false -> registered p' = false ->
        p' = p /\ is_Some err /\ is_ok (registerSchema net p) = false).
Proof.
  unfold PublishBackup, ensureRegistered. destruct (registered p) eqn:Er.
  - destruct (encode p ev) as [frame|e] eqn:Ee; intros [= <- <- <-]; split_and!; try done.
    intros r [= <-]. cbn. by rewrite Er, Ee.
  - destruct (registerSchema net p) as [id|e].
    + set (q := mkPublisher (cfg_url p) (cfg_topic p) (schemaText p) id true).
      destruct (encode q ev) as [frame|e] eqn:Ee; intros [= <- <- <-]; split_and!; try done.
      * intros r [= <-]. cbn [r_Value r_Key]. by rewrite Ee.
      * intros _ _. by exists id.
      * intros _ _. by exists id.
    + intros [= <- <- <-]. split_and!; [done|done|congruence|]. intros _ _. by split_and!; [|eexists|].
Qed.

Lemma PublishBackup_some net ev p : exists p' rec err, PublishBackup net ev (Some p) = (Some p', rec, err).
Proof.
  unfold PublishBackup. destruct (ensureRegistered net p) as [p' [e|]]; [by eexists _, _, _|].
  destruct (encode p' ev); by eexists _, _, _.
Qed.

Lemma publish_all_some calls p : exists p' recs, publish_all calls (Some p) = (Some p', recs).
Proof.
  revert p. induction calls as [|[net ev] calls IH]; intros p; cbn [publish_all]; [by eexists _, _|].
  destruct (PublishBackup_some net ev p) as (q & rec & err & ->).
  destruct (IH q) as (p' & recs & ->). by eexists _, _.
Qed.

Lemma publish_all_registered calls p p' recs :
  registered p = true -> publish_all calls (Some p) = (Some p', recs) ->
  p' = p /\ registrations calls (Some p) = 0%nat
  /\ Forall (fun x => encode p x.1 = Ok (r_Value x.2) /\ r_Key x.2 = be_project_name x.1) recs.
Proof.
  intros Hr. revert recs. induction calls as [|[net ev] calls IH]; intros recs; cbn [publish_all registrations].
  { intros [= <- <-]. by split_and!. }
  destruct (PublishBackup_some net ev p) as (q & rec & err & E). rewrite E.
  destruct (PublishBackup_step _ _ _ _ _ _ E) as (H1 & H2 & _ & _). specialize (H1 Hr). subst q.
  destruct (publish_all calls (Some p)) as [p'' recs'] eqn:E2. intros [= -> <-].
  destruct (IH recs' eq_refl) as (-> & Hc & Hf). rewrite Hr, Hc. split_and!; [done..|].
  destruct rec as [r|]; [|done]. constructor; [|done]. by destruct (H2 r eq_refl) as (_ & ? & ?).
Qed.

(** * Property *)

(** C27. Whatever the order of publishes and outages, a consumer reads every frame
    back as the event published, under the id of the one registration that
    succeeded; before it nothing is produced, every call before it tries again, and
    after it the registry is not asked again. A nil publisher does nothing. *)
Theorem published_frames_decode calls p p' recs :
  registered p = false -> publish_all calls (Some p) = (p', recs) ->
  (forall net ev, PublishBackup net ev None = (None, None, None))
  /\ ((recs = [] /\ p' = Some p /\ registrations calls (Some p) = length calls)
      \/ exists before net ev after id, calls = before ++ (net, ev) :: after
         /\ registerSchema net p = Ok id
         /\ registrations calls (Some p) = (length before + 1)%nat
         /\ (forall net' ev', (net', ev') ∈ before -> is_ok (registerSchema net' p) = false)
         /\ Forall (fun x => r_Key x.2 = be_project_name x.1
              /\ exists payload, parse_frame (r_Value x.2) = Some (u32 id, payload)
                 /\ unmarshal payload = Ok x.1) recs).
Proof.
  intros Hr Hp. split; [done|]. revert recs Hp.
  induction calls as [|[net ev] calls IH]; intros recs; cbn [publish_all registrations length].
  { intros [= <- <-]. by left. }
  destruct (PublishBackup_some net ev p) as (q & rec & err & E). rewrite E.
  destruct (PublishBackup_step _ _ _ _ _ _ E) as (_ & H2 & H3 & H4).
  destruct (publish_all calls (Some q)) as [p'' recs'] eqn:E2. intros [= -> <-]. rewrite Hr.
  destruct (registered q) eqn:Eq.
  - destruct (H3 Hr eq_refl) as (id & Hid & Hs). right. exists [], net, ev, calls, id.
    destruct (publish_all_some calls q) as (pp & rs & Hq). rewrite E2 in Hq. injection Hq as -> ->.
    rename E2 into Hq.
    destruct (publish_all_registered calls q pp rs Eq Hq) as (_ & Hc & Hf).
    rewrite Hc. split_and!; [done|done|done|by intros ? ? ?%elem_of_nil|].
    assert (Hd : forall e r, encode q e = Ok (r_Value r) /\ r_Key r = be_project_name e ->
      r_Key r = be_project_name e /\ exists payload, parse_frame (r_Value r) = Some (u32 id, payload)
        /\ unmarshal payload = Ok e).
    { intros e r [He Hk]. split; [done|]. apply encode_parse in He. by rewrite Hs in He. }
    assert (Hf' : Forall (fun x => r_Key x.2 = be_project_name x.1
              /\ exists payload, parse_frame (r_Value x.2) = Some (u32 id, payload)
                 /\ unmarshal payload = Ok x.1) rs).
    { eapply Forall_impl; [exact Hf|]. intros x Hx. by apply Hd. }
    destruct rec as [r|]; [|done]. constructor; [|done]. destruct (H2 r eq_refl) as (_ & ? & ?). by apply Hd.
  - destruct (H4 Hr eq_refl) as (-> & _ & Hfail).
    assert (Hrec : rec = None) by (destruct rec as [r|]; [by destruct (H2 r eq_refl) as [? _]; congruence|done]).
    subst rec.
    destruct (IH recs' E2) as [(-> & -> & Hc)|(before & net' & ev' & after & id & -> & Hid & Hc & Hb & Hf)].
    + left. by rewrite Hc.
    + right. exists ((net, ev) :: before), net', ev', after, id. rewrite Hc. split_and!; [done|done|done| |done].
      intros n v [[= -> ->]|Hin]%elem_of_cons; [done|by apply (Hb n v)].
Qed.

End lemmas.

Section demo.

Definition demo_event : BackupEvent := mkBackupEvent "alpha" true 2048 1024 250 None.

#[local] Instance BackupEvent_eq_dec : EqDecision BackupEvent.
Proof. solve_decision. Defined.

(** A codec for one event, enough to run a publisher. *)
#[local] Instance demo_codec : Codec BackupEvent := {
  marshal ev := if decide (ev = demo_event) then Ok "event" else Err "unknown event";
  unmarshal s := if String.eqb s "event" then Ok demo_event else Err "truncated"
}.

#[local] Instance demo_codec_laws : CodecLaws BackupEvent.
Proof. split; intros v b; cbn; case_decide; [intros [= <-]; by subst|done]. Qed.

Definition demo_net (code : Z) : Net :=
  mkNet (fun _ _ => None) (fun _ _ => Ok (code, " down ")) (fun _ => Ok 258) (fun _ => None).

(** The registry is down for the first publish and back for the next two. *)
Definition demo_calls : list (Net * BackupEvent) :=
  [(demo_net 503, demo_event); (demo_net 200, demo_event); (demo_net 503, demo_event)].

Lemma published_frames_decode_witness :
  exists p' recs, publish_all demo_calls (Some (mkPublisher "http://sr/" "backups" "syntax" 0 false)) = (p', recs)
  /\ length recs = 2%nat
  /\ ((recs = [] /\ p' = Some (mkPublisher "http://sr/" "backups" "syntax" 0 false)
        /\ registrations demo_calls (Some (mkPublisher "http://sr/" "backups" "syntax" 0 false)) = length demo_calls)
      \/ exists before net ev after id, demo_calls = before ++ (net, ev) :: after
         /\ registerSchema net (mkPublisher "http://sr/" "backups" "syntax" 0 false) = Ok id
         /\ registrations demo_calls (Some (mkPublisher "http://sr/" "backups" "syntax" 0 false)) = (length before + 1)%nat
         /\ (forall net' ev', (net', ev') ∈ before ->
               is_ok (registerSchema net' (mkPublisher "http://sr/" "backups" "syntax" 0 false)) = false)
         /\ Forall (fun x => r_Key x.2 = be_project_name x.1
              /\ exists payload, parse_frame (r_Value x.2) = Some (u32 id, payload)
                 /\ unmarshal payload = Ok x.1) recs).
Proof.
  eexists _, _. split; [reflexivity|]. split; [reflexivity|].
  eapply published_frames_decode; [reflexivity|reflexivity].
Defined.

End demo.

End events.
