(* ===== verification/HttpAuth.v ===== *)
(** pkg/httpapi/auth.go and the routing of pkg/httpapi: requests and responses,
    the bearer gate, and the part of net/http's ServeMux that picks a handler.

    A handler maps a request and the daemon's state [W] to the state after it
    and what the client sees. A path is its decoded segments, and it is clean: the mux
    never hands a handler a path with an empty element or a dot, which it redirects
    (HttpWire.v has the escaped path and the redirect). *)

From S2P Require Import Prelude GoStrings State Enablement Config GitState Furnish Skills Discovery.
From Stdlib Require Import Ascii.

Module httpauth.

Record readinessCheck := mkReadinessCheck { rc_Name : string; rc_OK : bool; rc_Error : string }.

Record stateResponse := mkStateResponse {
  st_Project : string; st_State : string; st_Recorded : bool; st_Reason : string; st_Actor : string;
  st_ChangedAt : string
}.

(** The JSON bodies, by shape. *)
Inductive body :=
| BError (text : string)
| BTransition (e : state.TransitionError)
| BStoreError (e : enablement.enerr)
| BDegraded
| BHealth (status : string) (active : Z) (dry_run degraded : bool) (warnings : list config.warning)
| BReady (ready : bool) (checks : list readinessCheck)
| BDiagnostics (d : state.Diagnostics)
| BAction (status project : string)
| BList (key : string) (items : list string)    (* {status: "ok", key: [raw messages]} *)
| BRaw (message : string)
| BState (r : stateResponse)
| BStates (rs : list stateResponse)
| BGit (ps : list gitstate.ProjectGit)
| BProjectGit (p : gitstate.ProjectGit)
| BPieces (kubeDir : string) (pieces : list string)
| BLadders (healthy : bool) (results : gmap string (list furnish.ladder_row))
| BFurnished (command piece : string) (applied : list string)
| BRemoved (command piece : string)             (* {command, piece, removed: true} *)
| BFurnishError (error : string) (applied : list string) (failed : gmap string string)
| BSources (sources : list discovery.ModelSource)
| BIntrospect (status : introspect.ServiceBackupStatus)
| BRpc (id : string) (r : skills.rpc_result)     (* a JSON-RPC answer *)
| BPlain (text : string).                        (* a text body *)

(** [challenge]: the WWW-Authenticate header is set. *)
Record Response := mkResponse { status : Z; challenge : bool; body_of : body }.

Definition writeJSON (code : Z) (b : body) : Response := mkResponse code false b.

Record Request := mkRequest {
  method : string;
  segments : list string;
  query_type : string;               (* r.URL.Query().Get("type") *)
  authorization : string;            (* the header, empty when absent *)
  req_body : result string string    (* what reading the body gives *)
}.

(** A handler answers, or panics (net/http then drops the connection). *)
Inductive outcome := Resp (r : Response) | Panicked.

(** [params] are the values of the pattern's wildcards. *)
Definition handler (W : Type) : Type := list (string * string) -> Request -> W -> W * outcome.

Definition PathValue (params : list (string * string)) (name : string) : string :=
  match find (fun p => String.eqb p.1 name) params with Some p => p.2 | None => "" end.

(** * The gate *)

Definition bearerPrefix : string := "Bearer ".

Definition isMutatingPattern (pattern : string) : bool :=
  let '(m, _, _) := cut " "%char pattern in
  String.eqb m "POST" || String.eqb m "PUT" || String.eqb m "PATCH" || String.eqb m "DELETE".

Definition requireBearer {W} (controlToken : string) (next : handler W) : handler W :=
  fun params r w =>
    if String.eqb controlToken "" then
      (w, Resp (writeJSON 503 (BError "control token not provisioned")))
    else if negb (has_prefix (authorization r) bearerPrefix) then
      (w, Resp (mkResponse 401 true (BError "missing or invalid bearer token")))
    else if negb (String.eqb (trim_prefix (authorization r) bearerPrefix) controlToken) then
      (w, Resp (mkResponse 401 true (BError "missing or invalid bearer token")))
    else next params r w.

(** * The mux *)

(** [routePatterns] and [openMutations] are the Server's fields of the name. *)
Record ServeMux (W : Type) := mkServeMux {
  routes : list (string * handler W);
  routePatterns : list string;
  openMutations : list string
}.
Arguments mkServeMux {W}. Arguments routes {W}. Arguments routePatterns {W}. Arguments openMutations {W}.

Definition register {W} (token : string) (pattern : string) (h : handler W) (m : ServeMux W)
    : ServeMux W :=
  let h' := if isMutatingPattern pattern then requireBearer token h else h in
  mkServeMux (routes m ++ [(pattern, h')]) (routePatterns m ++ [pattern]) (openMutations m).

Definition registerCitizenRoute {W} (pattern : string) (h : handler W) (m : ServeMux W) : ServeMux W :=
  mkServeMux (routes m ++ [(pattern, h)]) (routePatterns m ++ [pattern]) (openMutations m ++ [pattern]).

(** A wildcard segment {name} takes one non-empty segment. *)
Definition wildcard (seg : string) : option string :=
  match seg with
  | String "{"%char r => if has_suffix r "}" then Some (take_str (String.length r - 1) r) else None
  | _ => None
  end.

Fixpoint match_segments (pat segs : list string) : option (list (string * string)) :=
  match pat, segs with
  | [], [] => Some []
  | p :: pat', s :: segs' =>
      match wildcard p with
      | Some name => if String.eqb s "" then None
                     else (fun ps => (name, s) :: ps) <$> match_segments pat' segs'
      | None => if String.eqb p s then match_segments pat' segs' else None
      end
  | _, _ => None
  end.

Definition pattern_method (pattern : string) : string := let '(m, _, _) := cut " "%char pattern in m.
Definition pattern_path (pattern : string) : list string :=
  let '(_, p, _) := cut " "%char pattern in tail (split_on "/"%char p).

(** A GET pattern also takes HEAD. *)
Definition method_matches (pattern : string) (m : string) : bool :=
  String.eqb (pattern_method pattern) m
  || (String.eqb (pattern_method pattern) "GET" && String.eqb m "HEAD").

(** The handler of a clean path. *)
Definition find_route {W} (m : ServeMux W) (r : Request) : option (handler W * list (string * string)) :=
  let fix go (l : list (string * handler W)) :=
    match l with
    | [] => None
    | (pattern, h) :: l' =>
        if method_matches pattern (method r)
        then match match_segments (pattern_path pattern) (segments r) with
             | Some ps => Some (h, ps)
             | None => go l'
             end
        else go l'
    end in
  go (routes m).

(** A path some pattern takes under another method is 405, else 404. *)
Definition other_method {W} (m : ServeMux W) (r : Request) : bool :=
  existsb (fun ph => match match_segments (pattern_path ph.1) (segments r) with
                     | Some _ => true | None => false end) (routes m).

Definition serve {W} (m : ServeMux W) (r : Request) (w : W) : W * outcome :=
  match find_route m r with
  | Some (h, ps) => h ps r w
  | None => (w, Resp (mkResponse (if other_method m r then 405 else 404) false (BPlain "")))
  end.

(** * What the gate promises *)

(** The request carries the operator's token, and there is one. *)
Definition authorized (token : string) (r : Request) : Prop :=
  token <> "" /\ authorization r = bearerPrefix +:+ token.

#[export] Instance authorized_dec token r : Decision (authorized token r).
Proof. unfold authorized. apply _. Defined.

(** A handler that leaves the state alone, up to the state's equivalence: what a
    reader may warm, such as a client's cache, is not told apart by [≡]. *)
Definition read_only {W} `{Equiv W} (h : handler W) : Prop := forall ps r w, fst (h ps r w) ≡ w.

(** Every route is an ungated reader, one of [open], or behind the gate. *)
Definition guarded {W} `{Equiv W} (token : string) (open : list string) (m : ServeMux W) : Prop :=
  forall pattern h, (pattern, h) ∈ routes m ->
    (isMutatingPattern pattern = false /\ read_only h) \/ pattern ∈ open
    \/ exists next, h = requireBearer token next.

Definition is_write (m : string) : bool :=
  String.eqb m "POST" || String.eqb m "PUT" || String.eqb m "PATCH" || String.eqb m "DELETE".

(** The request takes one of the open routes. *)
Definition takes_open (open : list string) (r : Request) : Prop :=
  exists pattern, pattern ∈ open /\ method_matches pattern (method r) = true
    /\ is_Some (match_segments (pattern_path pattern) (segments r)).

(** * Lemmas *)

Lemma requireBearer_changes {W} token (next : handler W) ps r w :
  fst (requireBearer token next ps r w) <> w -> authorized token r.
Proof.
  unfold requireBearer, authorized.
  destruct (String.eqb_spec token "") as [|Ht]; [done|].
  destruct (has_prefix (authorization r) bearerPrefix) eqn:Ep; simpl; [|done].
  destruct (String.eqb_spec (trim_prefix (authorization r) bearerPrefix) token) as [Ea|]; [|done].
  intros _. split; [done|]. apply has_prefix_spec in Ep as (x & Ex).
  rewrite Ex in Ea |- *. by rewrite trim_prefix_app in Ea; subst.
Qed.

Lemma requireBearer_pass {W} token (next : handler W) ps r w :
  authorized token r -> requireBearer token next ps r w = next ps r w.
Proof.
  intros [Ht Ha]. unfold requireBearer. apply String.eqb_neq in Ht. rewrite Ht, Ha.
  rewrite has_prefix_app, trim_prefix_app, String.eqb_refl. done.
Qed.

Lemma requireBearer_refuses {W} token (next : handler W) ps r w :
  ~ authorized token r ->
  requireBearer token next ps r w
  = (w, Resp (if String.eqb token "" then writeJSON 503 (BError "control token not provisioned")
              else mkResponse 401 true (BError "missing or invalid bearer token"))).
Proof.
  intros Hn. unfold requireBearer. destruct (String.eqb_spec token "") as [|Ht]; [done|].
  destruct (has_prefix (authorization r) bearerPrefix) eqn:Ep; simpl; [|done].
  destruct (String.eqb_spec (trim_prefix (authorization r) bearerPrefix) token) as [Ea|]; [|done].
  destruct Hn. split; [done|]. apply has_prefix_spec in Ep as (x & Ex).
  rewrite Ex in Ea |- *. by rewrite trim_prefix_app in Ea; subst.
Qed.

Lemma guarded_nil {W} `{Equiv W} token open : guarded token open (mkServeMux (W := W) [] [] []).
Proof. by intros pattern h ?%elem_of_nil. Qed.

Lemma guarded_register {W} `{Equiv W} token open pattern (h : handler W) m :
  guarded token open m -> isMutatingPattern pattern = true \/ read_only h ->
  guarded token open (register token pattern h m).
Proof.
  intros Hm Hh p h' [Hin|Hin]%elem_of_app; [by eapply Hm|].
  apply list_elem_of_singleton in Hin as [= -> ->].
  destruct (isMutatingPattern pattern) eqn:E; [right; right; by eexists|].
  left. split; [done|]. by destruct Hh.
Qed.

Lemma guarded_citizen {W} `{Equiv W} token open pattern (h : handler W) m :
  guarded token open m -> pattern ∈ open -> guarded token open (registerCitizenRoute pattern h m).
Proof.
  intros Hm Hp p h' [Hin|Hin]%elem_of_app; [by eapply Hm|].
  apply list_elem_of_singleton in Hin as [= -> ->]. by right; left.
Qed.

Lemma find_route_elem {W} (m : ServeMux W) r h ps :
  find_route m r = Some (h, ps) ->
  exists pattern, (pattern, h) ∈ routes m /\ method_matches pattern (method r) = true
    /\ match_segments (pattern_path pattern) (segments r) = Some ps.
Proof.
  unfold find_route. induction (routes m) as [|[p h'] l IH]; [done|]. intros Hf.
  assert (Hr : find_route (mkServeMux l [] []) r = Some (h, ps) ->
    exists pattern, (pattern, h) ∈ (p, h') :: l /\ method_matches pattern (method r) = true
      /\ match_segments (pattern_path pattern) (segments r) = Some ps).
  { intros H. destruct (IH H) as (pattern & Hin & ?). exists pattern. split; [by right|done]. }
  destruct (method_matches p (method r)) eqn:Em; [|by apply Hr].
  destruct (match_segments (pattern_path p) (segments r)) as [ps'|] eqn:Es; [|by apply Hr].
  simplify_eq. exists p. split_and!; [by left|done|done].
Qed.

Lemma write_method pattern m :
  is_write m = true -> method_matches pattern m = true -> isMutatingPattern pattern = true.
Proof.
  unfold method_matches, isMutatingPattern, pattern_method, is_write.
  destruct (cut " "%char pattern) as [[pm pp] ok]. intros Hw.
  destruct (String.eqb_spec pm m) as [->|]; [done|].
  destruct (String.eqb_spec pm "GET"); [|done]. simpl. intros ->%String.eqb_eq. done.
Qed.

(** A served request that changed the state was authorized, or took an open route. *)
Lemma guarded_changes {W} `{Equiv W, !Equivalence (≡@{W})} token open (m : ServeMux W) r w :
  guarded token open m -> ~ fst (serve m r w) ≡ w -> authorized token r \/ takes_open open r.
Proof.
  intros Hg. unfold serve. destruct (find_route m r) as [[h ps]|] eqn:Ef; [|by intros []].
  apply find_route_elem in Ef as (pattern & Hin & Hm & Hs).
  destruct (Hg _ _ Hin) as [[_ Hr]|[Ho|[next ->]]].
  - intros Hn. by destruct (Hn (Hr ps r w)).
  - intros _. right. exists pattern. by rewrite Hs.
  - intros Hc. left. eapply (requireBearer_changes token next ps r w). intros E. apply Hc. by rewrite E.
Qed.

(** A write without the token is answered by the gate or by nobody. *)
Lemma guarded_refuses {W} `{Equiv W} token open (m : ServeMux W) r w :
  guarded token open m -> is_write (method r) = true -> ~ authorized token r -> ~ takes_open open r ->
  serve m r w = (w, Resp (match find_route m r with
    | Some _ => if String.eqb token "" then writeJSON 503 (BError "control token not provisioned")
                else mkResponse 401 true (BError "missing or invalid bearer token")
    | None => mkResponse (if other_method m r then 405 else 404) false (BPlain "")
    end)).
Proof.
  intros Hg Hw Ha Ho. unfold serve. destruct (find_route m r) as [[h ps]|] eqn:Ef; [|done].
  apply find_route_elem in Ef as (pattern & Hin & Hm & Hs).
  destruct (Hg _ _ Hin) as [[Hn _]|[Hop|[next ->]]].
  - by rewrite (write_method _ _ Hw Hm) in Hn.
  - destruct Ho. exists pattern. by rewrite Hs.
  - by apply requireBearer_refuses.
Qed.

#[export] Hint Resolve guarded_nil guarded_register guarded_citizen : delight.

End httpauth.
