(* ===== verification/HttpWire.v ===== *)
(** net/http and net/url around the handlers: from the text of a URL to the request a
    handler sees.

    [Request] (HttpAuth.v) is a request whose path is clean. What a client writes goes
    through [parse_target] (url.Parse of the part after the host) and reaches the mux as
    a [Wire]; the mux answers an unclean path with a redirect to the clean one and
    touches no handler ([ServeHTTP]), and the client follows it ([Do]). The redirect is
    net/http's of Go 1.26, which go.mod and the Dockerfile ask for: 307, so the method
    is kept. *)

From S2P Require Import Prelude GoStrings GoPath HttpAuth.
From Stdlib Require Import Ascii.
Import httpauth.

Module httpwire.

(** * net/url *)

(** shouldEscape for a path, negated. *)
Definition url_safe (c : ascii) : bool :=
  byte_in c 48 57 || byte_in c 65 90 || byte_in c 97 122
  || existsb (Ascii.eqb c) ["-"; "_"; "."; "~"; "$"; "&"; "+"; ","; "/"; ":"; ";"; "="; "@"]%char.

Fixpoint escape (s : string) : string :=
  match s with
  | EmptyString => EmptyString
  | String c r =>
      if url_safe c then String c (escape r)
      else String "%"%char (String (hex_digit (nat_of_ascii c / 16))
             (String (hex_digit (nat_of_ascii c mod 16)) (escape r)))
  end.

(** ishex and unhex. *)
Definition unhex (c : ascii) : option nat :=
  let n := nat_of_ascii c in
  if byte_in c 48 57 then Some (n - 48)%nat
  else if byte_in c 97 102 then Some (n - 87)%nat
  else if byte_in c 65 70 then Some (n - 55)%nat else None.

(** unescape of a path or a fragment; the error is the text of the bad escape. *)
Fixpoint unescape (s : string) : result string string :=
  match s with
  | EmptyString => Ok EmptyString
  | String c r =>
      if Ascii.eqb c "%"%char then
        match r with
        | String a (String b r') =>
            match unhex a, unhex b with
            | Some x, Some y => match unescape r' with
                                | Ok t => Ok (String (ascii_of_nat (16 * x + y)) t)
                                | Err e => Err e
                                end
            | _, _ => Err (take_str 3 s)
            end
        | _ => Err s
        end
      else match unescape r with Ok t => Ok (String c t) | Err e => Err e end
  end.

(** QueryUnescape. *)
Definition unescape_query (s : string) : result string string := unescape (replace_all s "+" " ").

(** Query().Get(key): the first value of the key; a pair with a semicolon or a bad
    escape is dropped. *)
Definition query_get (key query : string) : string :=
  let value pair :=
    let '(k, v, _) := cut "="%char pair in
    if has_char ";"%char pair then None
    else match unescape_query k, unescape_query v with
         | Ok k', Ok v' => if String.eqb k' key then Some v' else None
         | _, _ => None
         end in
  default "" (head (omap value (split_on "&"%char query))).

(** validEncoded for a path. *)
Fixpoint valid_encoded (s : string) : bool :=
  match s with
  | EmptyString => true
  | String c r => (url_safe c || existsb (Ascii.eqb c) ["!"; "'"; "("; ")"; "*"; "["; "]"; "%"]%char)
                  && valid_encoded r
  end.

Definition control_char (c : ascii) : bool := byte_in c 0 31 || byte_in c 127 127.

Fixpoint has_control (s : string) : bool :=
  match s with EmptyString => false | String c r => control_char c || has_control r end.

Inductive url_err := ControlCharacter | BadEscape (text : string).

(** What url.Parse makes of a URL after its host: EscapedPath and RawQuery. The
    fragment stays with the client. *)
Definition parse_target (t : string) : result url_err (string * string) :=
  let '(u, frag, _) := cut "#"%char t in
  let '(p, q, _) := cut "?"%char u in
  if has_control u then Err ControlCharacter
  else match unescape p, unescape frag with
       | Err e, _ => Err (BadEscape e)
       | _, Err e => Err (BadEscape e)
       | Ok path, Ok _ => Ok (if valid_encoded p then p else escape path, q)
       end.

(** * net/http *)

(** A request line and what the handlers read besides. *)
Record Wire := mkWire {
  wr_method : string;
  wr_path : string;                 (* the escaped path *)
  wr_query : string;                (* RawQuery *)
  wr_authorization : string;
  wr_body : result string string
}.

(** The mux's cleanPath: a trailing slash is kept. *)
Definition cleanPath (p : string) : string :=
  let p := if has_prefix p "/" then p else "/" +:+ p in
  let np := clean p in
  if has_suffix p "/" && negb (String.eqb np "/") then np +:+ "/" else np.

(** The request a handler gets: the segments are decoded one by one. *)
Definition decoded (x : Wire) : Request :=
  mkRequest (wr_method x)
    (map (fun seg => match unescape seg with Ok s => s | Err _ => seg end) (tail (split_on "/"%char (wr_path x))))
    (query_get "type" (wr_query x)) (wr_authorization x) (wr_body x).

(** A handler's outcome, or the Location of a redirect (307). *)
Inductive hop := Served (out : outcome) | Moved (path query : string).

Definition bad_request : Response := mkResponse 400 false (BPlain "400 Bad Request").

(** The server on one request: a space in the query breaks the request line; an
    unclean path is redirected. *)
Definition ServeHTTP {W} (m : ServeMux W) (x : Wire) (w : W) : W * hop :=
  if has_char " "%char (wr_query x) then (w, Served (Resp bad_request))
  else if String.eqb (cleanPath (wr_path x)) (wr_path x)
       then let '(w', out) := serve m (decoded x) w in (w', Served out)
       else (w, Moved (escape (cleanPath (wr_path x))) (wr_query x)).

(** http.Client.Do on a request with no body and no header, which is sent again as it
    was: ten requests in all. *)
Fixpoint Do {W} (fuel : nat) (m : ServeMux W) (x : Wire) (w : W) : W * result string outcome :=
  match ServeHTTP m x w with
  | (w', Served out) => (w', Ok out)
  | (w', Moved p q) =>
      match fuel with
      | O => (w', Err "stopped after 10 redirects")
      | Datatypes.S f => Do f m (mkWire (wr_method x) p q "" (Ok "")) w'
      end
  end.

Definition max_redirects : nat := 9.

(** * Lemmas *)

Lemma ServeHTTP_moves {W} (m : ServeMux W) x w :
  fst (ServeHTTP m x w) <> w ->
  cleanPath (wr_path x) = wr_path x /\ fst (ServeHTTP m x w) = fst (serve m (decoded x) w).
Proof.
  unfold ServeHTTP. destruct (has_char _ _); [done|].
  destruct (String.eqb_spec (cleanPath (wr_path x)) (wr_path x)); [|done]. by destruct (serve _ _ _).
Qed.

Lemma unescape_escape_char c r :
  url_safe c = false ->
  unescape (String "%"%char (String (hex_digit (nat_of_ascii c / 16)) (String (hex_digit (nat_of_ascii c mod 16)) r)))
  = match unescape r with Ok t => Ok (String c t) | Err e => Err e end.
Proof.
  assert (Hx : unhex (hex_digit (nat_of_ascii c / 16)) = Some (nat_of_ascii c / 16)%nat
               /\ unhex (hex_digit (nat_of_ascii c mod 16)) = Some (nat_of_ascii c mod 16)%nat
               /\ ascii_of_nat (16 * (nat_of_ascii c / 16) + nat_of_ascii c mod 16) = c)
    by (by destruct c as [[] [] [] [] [] [] [] []]).
  destruct Hx as (E1 & E2 & E3). intros _. cbn [unescape Ascii.eqb Bool.eqb]. by rewrite E1, E2, E3.
Qed.

Lemma unescape_safe c r :
  url_safe c = true -> unescape (String c r) = match unescape r with Ok t => Ok (String c t) | Err e => Err e end.
Proof. intros Hs. cbn [unescape]. destruct (Ascii.eqb_spec c "%"%char) as [->|]; [discriminate|done]. Qed.

Lemma unescape_escape s : unescape (escape s) = Ok s.
Proof.
  induction s as [|c r IH]; [done|]. cbn [escape]. destruct (url_safe c) eqn:E.
  - by rewrite unescape_safe, IH.
  - by rewrite unescape_escape_char, IH.
Qed.

(** Escaping leaves the slashes where they are. *)
Lemma hex_no_slash n : (n < 16)%nat -> Ascii.eqb (hex_digit n) "/"%char = false.
Proof. intros Hn. do 16 (destruct n as [|n]; [reflexivity|]). lia. Qed.

Lemma split_escape s : split_on "/"%char (escape s) = map escape (split_on "/"%char s).
Proof.
  induction s as [|c r IH]; [done|]. cbn [escape split_on].
  assert (Hb : (nat_of_ascii c / 16 < 16)%nat /\ (nat_of_ascii c mod 16 < 16)%nat).
  { split; [|by apply Nat.mod_upper_bound]. apply Nat.Div0.div_lt_upper_bound. apply nat_ascii_bounded. }
  destruct (Ascii.eqb_spec c "/"%char) as [->|Hc].
  - cbn [url_safe existsb orb]. change (url_safe "/"%char) with true. cbn [split_on]. rewrite Ascii.eqb_refl, IH. done.
  - destruct (url_safe c) eqn:E; cbn [split_on].
    + apply Ascii.eqb_neq in Hc. rewrite Hc, IH. destruct (split_on "/"%char r); cbn [map escape]; by rewrite E.
    + rewrite !hex_no_slash by apply Hb. change (Ascii.eqb "%"%char "/"%char) with false. cbv iota. rewrite IH.
      destruct (split_on "/"%char r); cbn [map escape]; by rewrite E.
Qed.

(** The segments of a request that was redirected are those of the clean path. *)
Lemma redirected_segments method p q auth body :
  segments (decoded (mkWire method (escape p) q auth body)) = tail (split_on "/"%char p).
Proof.
  cbn [decoded segments wr_path]. rewrite split_escape. destruct (split_on "/"%char p) as [|x l]; [done|].
  cbn [map tail]. rewrite map_map. erewrite map_ext; [apply map_id|]. intros s. by rewrite unescape_escape.
Qed.

(** ** Cleaning *)

Lemma escape_app a b : escape (a +:+ b) = escape a +:+ escape b.
Proof. induction a as [|c a IH]; [done|]. cbn [escape String.app]. rewrite IH. by destruct (url_safe c). Qed.

Lemma escape_inj a b : escape a = escape b -> a = b.
Proof. intros E. pose proof (unescape_escape a) as Ha. rewrite E, unescape_escape in Ha. by injection Ha. Qed.

Lemma escape_eqb a b : escape b = b -> String.eqb (escape a) b = String.eqb a b.
Proof.
  intros Hb. destruct (String.eqb_spec a b) as [->|Hn]; [by apply String.eqb_eq|].
  apply String.eqb_neq. intros E. apply Hn, escape_inj. by rewrite E.
Qed.

Lemma escape_join l : escape (join slash_str l) = join slash_str (map escape l).
Proof.
  induction l as [|x [|y l] IH]; [done|done|].
  change (join slash_str (x :: y :: l)) with (x +:+ slash_str +:+ join slash_str (y :: l)).
  rewrite !escape_app, IH. done.
Qed.

Lemma clean_step_escape rooted acc c :
  clean_step rooted (map escape acc) (escape c) = map escape (clean_step rooted acc c).
Proof.
  unfold clean_step. rewrite !escape_eqb by done. destruct (String.eqb c "" || String.eqb c "."); [done|].
  destruct (String.eqb c ".."); [|done]. destruct acc as [|t r]; [by destruct rooted|]. cbn [map].
  rewrite escape_eqb by done. by destruct (String.eqb t "..").
Qed.

Lemma rooted_escape s : is_rooted (escape s) = is_rooted s.
Proof.
  destruct s as [|c r]; [done|]. cbn [escape]. unfold is_rooted.
  destruct (Ascii.eqb_spec "/"%char c) as [<-|Hn]; [reflexivity|]. apply Ascii.eqb_neq in Hn as Hb.
  destruct (url_safe c); cbn [has_prefix]; [done|]. rewrite Hb. reflexivity.
Qed.

Lemma clean_escape s : clean (escape s) = escape (clean s).
Proof.
  unfold clean, clean_elems. rewrite rooted_escape. unfold slash. rewrite split_escape.
  assert (Hf : forall l acc, fold_left (clean_step (is_rooted s)) (map escape l) (map escape acc)
                             = map escape (fold_left (clean_step (is_rooted s)) l acc)).
  { induction l as [|c l IH]; intros acc; [done|]. cbn [map fold_left]. by rewrite clean_step_escape, IH. }
  rewrite (Hf _ []), <-map_rev, <-escape_join. destruct (is_rooted s); [done|].
  rewrite escape_eqb by done. by destruct (String.eqb _ "").
Qed.

Lemma slash_end s : has_suffix s "/" = true <-> last (split_on "/"%char s) = Some "" /\ s <> "".
Proof.
  split.
  - intros (r & ->)%has_suffix_spec. split; [|by destruct r].
    change (r +:+ "/") with (r +:+ String "/"%char ""). rewrite split_on_concat. apply last_snoc.
  - intros [Hl Hs]. apply has_suffix_spec. apply last_Some in Hl as [l Hl].
    pose proof (join_split "/"%char s) as Hj. rewrite Hl in Hj. destruct l as [|x l].
    + cbn in Hj. by subst s.
    + exists (join slash_str (x :: l)). rewrite <-Hj.
      exact (join_snoc (x :: l) "" ltac:(done)).
Qed.

Lemma slash_end_escape s : has_suffix (escape s) "/" = has_suffix s "/".
Proof.
  apply Bool.eq_iff_eq_true. rewrite !slash_end, split_escape. change (map escape) with (fmap escape : list string -> list string). rewrite fmap_last.
  destruct (last (split_on "/"%char s)) as [x|]; cbn; [|by split; intros [? _]].
  split; intros [E Hs]; injection E as E.
  - split; [by rewrite (escape_inj x "" E)|by intros ->].
  - subst x. split; [done|]. intros E'. by apply Hs, escape_inj.
Qed.

(** A clean rooted path ends in a slash only as the root. *)
Lemma clean_no_slash_end s : is_rooted s = true -> has_suffix (clean s) "/" = true -> clean s = "/".
Proof.
  intros Hr Hs. unfold clean in *. rewrite Hr in *. unfold clean_elems in *.
  pose proof (clean_stack_elems _ _ (clean_elems_stack true s)) as He.
  set (st := fold_left (clean_step true) (split_on slash s) []) in *.
  apply slash_end in Hs as [Hl _].
  change (slash_str +:+ join slash_str (rev st)) with (String "/"%char (join slash_str (rev st))) in *.
  change (split_on "/"%char (String "/"%char (join slash_str (rev st)))) with ("" :: split_on "/"%char (join slash_str (rev st))) in Hl.
  destruct st as [|x st]; [done|]. exfalso. apply Forall_cons in He as [[Hx Hne] He].
  assert (Hf : Forall (fun y => has_char "/"%char y = false) (rev (x :: st))).
  { eapply Permutation_Forall; [apply Permutation_rev|]. constructor; [done|].
    eapply Forall_impl; [exact He|]. by intros y []. }
  rewrite (split_join "/"%char) in Hl; [|by cbn; destruct (rev st)|exact Hf].
  cbn [rev] in Hl. change ("" :: rev st ++ [x]) with (("" :: rev st) ++ [x]) in Hl. rewrite last_snoc in Hl. congruence.
Qed.

(** The path with its leading slash. *)
Definition rooted_path (p : string) : string := if has_prefix p "/" then p else "/" +:+ p.

Lemma rooted_path_rooted p : is_rooted (rooted_path p) = true.
Proof. unfold rooted_path, is_rooted. destruct (has_prefix p "/") eqn:E; [done|]. apply has_prefix_app. Qed.

Lemma clean_rooted_eq p : is_rooted p = true -> cleanPath p
  = if has_suffix p "/" && negb (String.eqb (clean p) "/") then clean p +:+ "/" else clean p.
Proof. unfold cleanPath, is_rooted. by intros ->. Qed.

Lemma cleanPath_rooted_path p : cleanPath p = cleanPath (rooted_path p).
Proof. rewrite (clean_rooted_eq (rooted_path p)) by apply rooted_path_rooted. done. Qed.

Lemma cleanPath_idem p : cleanPath (cleanPath p) = cleanPath p.
Proof.
  rewrite (cleanPath_rooted_path p). pose proof (rooted_path_rooted p) as Hr. revert Hr.
  generalize (rooted_path p). clear p. intros p Hr. rewrite (clean_rooted_eq p Hr).
  pose proof (clean_rooted p Hr) as Hc. destruct (String.eqb_spec (clean p) "/") as [E|Hne].
  { by rewrite E, andb_false_r. }
  destruct (has_suffix p "/"); cbn [andb negb].
  - assert (Hc2 : is_rooted (clean p +:+ "/") = true).
    { apply has_prefix_spec in Hc as (r & ->). by apply has_prefix_spec; exists (r +:+ "/"). }
    rewrite clean_rooted_eq by done. change "/" with slash_str. rewrite clean_trailing by apply clean_nonempty.
    rewrite clean_idempotent, has_suffix_app. apply String.eqb_neq in Hne. unfold slash_str. by rewrite Hne.
  - rewrite clean_rooted_eq, clean_idempotent by done. destruct (has_suffix (clean p) "/") eqn:Es; [|done].
    by destruct Hne; apply clean_no_slash_end.
Qed.

Lemma cleanPath_escape p : is_rooted p = true -> cleanPath (escape p) = escape (cleanPath p).
Proof.
  intros Hr. rewrite !clean_rooted_eq, clean_escape, slash_end_escape, escape_eqb by (done || by rewrite rooted_escape).
  destruct (_ && _); [|done]. by rewrite escape_app.
Qed.

Lemma cleanPath_is_rooted p : is_rooted (cleanPath p) = true.
Proof.
  rewrite cleanPath_rooted_path, clean_rooted_eq by apply rooted_path_rooted.
  pose proof (clean_rooted _ (rooted_path_rooted p)) as Hc. destruct (_ && _); [|done].
  apply has_prefix_spec in Hc as (r & ->). by apply has_prefix_spec; exists (r +:+ "/").
Qed.

(** ** Where a client's request lands *)

(** The request that is served in the end: the mux sends a client at most once to
    another path. *)
Definition landed (x : Wire) : Request :=
  if String.eqb (cleanPath (wr_path x)) (wr_path x) then decoded x
  else decoded (mkWire (wr_method x) (escape (cleanPath (wr_path x))) (wr_query x) "" (Ok "")).

Lemma Do_lands {W} f (m : ServeMux W) x w :
  Do (Datatypes.S f) m x w
  = if has_char " "%char (wr_query x) then (w, Ok (Resp bad_request))
    else let '(w', out) := serve m (landed x) w in (w', Ok out).
Proof.
  assert (Hs : forall f x, cleanPath (wr_path x) = wr_path x ->
    Do f m x w = if has_char " "%char (wr_query x) then (w, Ok (Resp bad_request))
                 else let '(w', out) := serve m (decoded x) w in (w', Ok out)).
  { intros f' x' Hc. destruct f'; cbn [Do]; unfold ServeHTTP; (destruct (has_char _ _); [done|]);
      rewrite Hc, String.eqb_refl; by destruct (serve m (decoded x') w). }
  unfold landed. destruct (String.eqb_spec (cleanPath (wr_path x)) (wr_path x)) as [E|Hn]; [by apply Hs|].
  cbn [Do]. unfold ServeHTTP. destruct (has_char " "%char (wr_query x)) eqn:Eq; [done|].
  apply String.eqb_neq in Hn. rewrite Hn. rewrite Hs by (cbn [wr_path]; rewrite cleanPath_escape by apply cleanPath_is_rooted;
    by rewrite cleanPath_idem). cbn [wr_query]. by rewrite Eq.
Qed.

(** A clean path that is one segment. *)
Lemma one_segment p n : tail (split_on "/"%char (cleanPath p)) = [n] -> cleanPath p = "/" +:+ n.
Proof.
  intros Ht. pose proof (cleanPath_is_rooted p) as (r & Hr)%has_prefix_spec. rewrite Hr in *.
  change (split_on "/"%char ("/" +:+ r)) with ("" :: split_on "/"%char r) in Ht. cbn [tail] in Ht.
  rewrite <-(join_split "/"%char r), Ht. done.
Qed.

End httpwire.
