(* ===== verification/HttpApi.v ===== *)
(** pkg/httpapi: the handlers of the control port and its route table.

    [World] is the state the handlers share with the rest of the daemon: the
    backup machines, the two stores (absent when their files did not open) and
    the NotRegistered events put on the bus. [Env] is everything one request
    asks of the outside: clocks, transactions, git, the schema registry, the
    network. A handler is a function of both. The routes of other packages
    (metrics, discovery, introspection, the skill aggregator) appear in the table
    of HttpServe.v with their handlers as inputs. *)

From S2P Require Import Prelude GoStrings GoPath State Proto KV Registry Enablement Config GitState HttpAuth.
Import proto bbolt httpauth.

Module httpapi.

Section server.
Context {B EB : Type} `{Bucket B} `{Bucket EB}.
Context `{Codec Registration} `{Codec enablement.Record_} `{Codec RegisterRequest}
  `{Codec RegisterResponse} `{Codec ResolvedService} `{Codec Service} `{Codec Project}.

(** fmt's %q, and time.Format of a record's stamp. *)
Variable quote : string -> string.
Variable format_time : Z -> string.

(** protoreflect.FullName(s).IsValid() *)
Variable valid_full_name : string -> bool.

Record World := mkWorld {
  w_machines : gmap string state.Machine;
  w_reg : option B;
  w_enablement : option EB;
  w_events : list NotRegistered
}.

Record Server := mkServer {
  s_cfg : config.DelightConfig;
  s_dryRun : bool;
  s_has_events : bool;
  s_controlToken : string
}.

Record Env := mkEnv {
  e_clock : state.Clock;
  e_unix : Z;                                (* time.Now, from the Unix epoch *)
  e_time : Z;                                (* time.Now, from the zero time *)
  e_reg_tx : txio;
  e_put_tx : txio;
  e_get_tx : txio;
  e_subject : string -> result string bool;  (* the schema registry *)
  e_http_get : string -> result string Z;    (* the status of a GET *)
  e_readdir : string -> option string;
  e_cluster : option string;
  e_git : gitstate.Host;
  e_late : nat -> bool;
  e_sched : list nat;
  e_decode_put : string -> result string (string * string * string)  (* state, reason, actor *)
}.

(** The environment of a request whose cluster probe says [c]. *)
Definition set_cluster (c : option string) (e : Env) : Env :=
  mkEnv (e_clock e) (e_unix e) (e_time e) (e_reg_tx e) (e_put_tx e) (e_get_tx e) (e_subject e)
    (e_http_get e) (e_readdir e) c (e_git e) (e_late e) (e_sched e) (e_decode_put e).

Variable env : Env.
Variable s : Server.

Abbreviation cfg := (s_cfg s).
Abbreviation projects := (config.Projects cfg).

Definition set_machines (w : World) (m : gmap string state.Machine) : World :=
  mkWorld m (w_reg w) (w_enablement w) (w_events w).
Definition set_reg (w : World) (db : B) : World :=
  mkWorld (w_machines w) (Some db) (w_enablement w) (w_events w).
Definition set_enablement (w : World) (db : EB) : World :=
  mkWorld (w_machines w) (w_reg w) (Some db) (w_events w).
Definition add_event (w : World) (ev : NotRegistered) : World :=
  mkWorld (w_machines w) (w_reg w) (w_enablement w) (w_events w ++ [ev]).

(** * Health and readiness *)

Definition handleHealth : handler World := fun _ _ w =>
  (w, Resp (writeJSON 200
    (BHealth (if config.Degraded cfg then "degraded" else "ok") (Z.of_nat (length projects))
       (s_dryRun s) (config.Degraded cfg) (config.LoadWarnings cfg)))).

Fixpoint check_roots (roots : list (string * string)) : readinessCheck :=
  match roots with
  | [] => mkReadinessCheck "roots_readable" true ""
  | (name, path) :: r =>
      if String.eqb path "" then mkReadinessCheck "roots_readable" false (name +:+ " is unset")
      else match e_readdir env path with
           | Some e => mkReadinessCheck "roots_readable" false
                         (name +:+ " (" +:+ path +:+ "): " +:+ e)
           | None => check_roots r
           end
  end.

Definition checkRootsReadable : readinessCheck :=
  let sys := config.System cfg in
  check_roots [("monitor_root", config.MonitorRoot sys); ("daemon_root", config.DaemonRoot sys);
               ("config_root", config.ConfigRoot sys)].

Definition checkClusterReady : readinessCheck :=
  match e_cluster env with
  | Some e => mkReadinessCheck "apiserver_reachable" false e
  | None => mkReadinessCheck "apiserver_reachable" true ""
  end.

Definition handleReadyz : handler World := fun _ _ w =>
  let checks := [checkRootsReadable; checkClusterReady] in
  let ready := forallb rc_OK checks in
  (w, Resp (writeJSON (if ready then 200 else 503) (BReady ready checks))).

(** * The roster and the composed services *)

Definition projectKind (k : string) : Kind :=
  if String.eqb (to_lower (trim_space k)) "listener" then KIND_LISTENER else KIND_WATCHER.

Definition projectToProto (p : config.ProjectConfig) (remoteURL : string) : Project :=
  mkProject (config.Name p) (config.Path p) (Some (config.Essential p))
    (Some (mkDeploy (config.d_Kind (config.Deploy p)) (config.d_Deployment (config.Deploy p))
             (config.d_Command (config.Deploy p))))
    (if String.eqb remoteURL "" then None else Some remoteURL)
    (projectKind (config.Kind p)).

(** The loops that marshal a list and give up at the first error. *)
Fixpoint marshal_all {M} `{Codec M} (ms : list M) : option (list string) :=
  match ms with
  | [] => Some []
  | m :: r => match marshal m with
              | Err _ => None
              | Ok b => (fun bs => b :: bs) <$> marshal_all r
              end
  end.

Definition list_response (key error : string) (bs : option (list string)) : outcome :=
  match bs with
  | None => Resp (writeJSON 500 (BError error))
  | Some bs => Resp (writeJSON 200 (BList key bs))
  end.

Definition handleProjectsAll : handler World := fun _ _ w =>
  (w, list_response "projects" "failed to encode roster"
        (marshal_all (map (fun p => projectToProto p (gitstate.RemoteURL (e_git env) (config.Path p)))
                        projects))).

Definition handleRegistrations : handler World := fun _ _ w =>
  let regs := match w_reg w with Some db => registry.List (e_reg_tx env) db | None => [] end in
  (w, list_response "registrations" "failed to encode registrations" (marshal_all regs)).

Definition git_all : list gitstate.ProjectGit :=
  gitstate.CollectAll (e_git env) (e_late env) (e_sched env) projects.

Definition handleGitAll : handler World := fun _ _ w => (w, Resp (writeJSON 200 (BGit git_all))).

Definition find_project (name : string) : option config.ProjectConfig :=
  find (fun p => String.eqb (config.Name p) name) projects.

Definition handleProjectGit : handler World := fun ps _ w =>
  (w, Resp match find_project (PathValue ps "name") with
           | Some p => writeJSON 200 (BProjectGit (gitstate.mkProjectGit (config.Name p)
                                        (gitstate.Collect (e_git env) (config.Path p))))
           | None => writeJSON 404 (BError "project not found")
           end).

Definition parseServiceType (raw : string) : ServiceType * bool :=
  let t := to_lower (trim_space raw) in
  if String.eqb t "service" then (SERVICE_TYPE_SERVICE, true)
  else if String.eqb t "model" then (SERVICE_TYPE_MODEL, true)
  else (SERVICE_TYPE_UNSPECIFIED, false).

(** On a read failure clean is absent. Unpushed is narrowed to 32 bits. *)
Definition composeGitFacet (gs : gitstate.GitState) : GitFacet :=
  mkGitFacet (if String.eqb (gitstate.Error gs) "" then Some (negb (gitstate.Dirty gs)) else None)
    (gitstate.Branch gs) (wrap32 (gitstate.Unpushed gs)) (gitstate.Error gs).

Definition composeService (w : World) (p : config.ProjectConfig) (gs : gitstate.GitState) : Service :=
  let reg := match w_reg w with
             | Some db => registry.Get (e_reg_tx env) (config.Name p) db
             | None => None
             end in
  mkService (config.Name p) SERVICE_TYPE_SERVICE (Some (composeGitFacet gs))
    (match reg with Some _ => Some true | None => None end)
    (match w_machines w !! config.Name p with
     | Some m => Some (mkBackupFacet (state.State_text (state.GetState m)))
     | None => None
     end)
    (match reg with Some r => rg_endpoint r | None => None end).

Definition handleServicesAll : handler World := fun _ r w =>
  let raw := trim_space (query_type r) in
  let '(want, ok) := if String.eqb raw "" then (SERVICE_TYPE_UNSPECIFIED, true) else parseServiceType raw in
  if negb ok then (w, Resp (writeJSON 400 (BError ("unknown service type: " +:+ raw))))
  else
    let gitByName : gmap string gitstate.GitState :=
      fold_left (fun m pg => <[gitstate.pg_Name pg := gitstate.Git pg]> m) git_all ∅ in
    let svcs := map (fun p => composeService w p
                       (default gitstate.zero_state (gitByName !! config.Name p))) projects in
    let wanted := filter (fun sv => want = SERVICE_TYPE_UNSPECIFIED \/ sv_type sv = want) svcs in
    (w, list_response "services" "failed to encode services" (marshal_all wanted)).

Definition handleServiceByName : handler World := fun ps _ w =>
  (w, Resp match find_project (PathValue ps "name") with
           | Some p =>
               match marshal (composeService w p (gitstate.Collect (e_git env) (config.Path p))) with
               | Err _ => writeJSON 500 (BError "failed to encode service")
               | Ok b => writeJSON 200 (BRaw b)
               end
           | None => writeJSON 404 (BError "service not found")
           end).

Definition handleResolve : handler World := fun ps _ w =>
  let name := PathValue ps "name" in
  (w, Resp match w_reg w with
           | None => writeJSON 404 (BError "service not resolvable")
           | Some db =>
               match registry.Get (e_reg_tx env) name db with
               | None => writeJSON 404 (BError "service not resolvable")
               | Some reg =>
                   match marshal (mkResolvedService name (get_scheme (rg_endpoint reg))
                                    (get_address (rg_endpoint reg))) with
                   | Err _ => writeJSON 500 (BError "failed to encode resolution")
                   | Ok b => writeJSON 200 (BRaw b)
                   end
               end
           end).

(** * The backup machines *)

Definition handleProjectState : handler World := fun ps _ w =>
  (w, Resp match w_machines w !! PathValue ps "name" with
           | None => writeJSON 404 (BError "project not found")
           | Some m => writeJSON 200 (BDiagnostics (state.GetDiagnostics m))
           end).

Variable f2i : Z -> Z.   (* time.Duration of a float out of range: see State.v *)

Definition machine_action (event : state.Event) (done : string) : handler World := fun ps _ w =>
  let name := PathValue ps "name" in
  match w_machines w !! name with
  | None => (w, Resp (writeJSON 404 (BError "project not found")))
  | Some m =>
      let '(m', err) := state.Transition f2i (e_clock env) m event in
      let w' := set_machines w (<[name := m']> (w_machines w)) in
      match err with
      | Some e => (w', Resp (writeJSON 409 (BTransition e)))
      | None => (w', Resp (writeJSON 200 (BAction done name)))
      end
  end.

Definition handleBackup : handler World := machine_action state.EventTriggerBackup "backup_triggered".
Definition handleReset : handler World := machine_action state.EventClearError "error_cleared".

(** * Enablement *)

Definition renderState (project : string) (rec : option enablement.Record_) : stateResponse :=
  match rec with
  | None => mkStateResponse project enablement.StateDisabled false "" "" ""
  | Some r => mkStateResponse project (enablement.State r) true (enablement.Reason r)
                (enablement.Actor r) (format_time (enablement.ChangedAt r))
  end.

Definition knownProject (name : string) : bool :=
  existsb (fun p => String.eqb (config.Name p) name) projects.

Fixpoint state_all (db : EB) (ps : list config.ProjectConfig) : result enablement.enerr (list stateResponse) :=
  match ps with
  | [] => Ok []
  | p :: r => match enablement.Get (e_get_tx env) (config.Name p) db with
              | Err e => Err e
              | Ok rec => match state_all db r with
                          | Err e => Err e
                          | Ok out => Ok (renderState (config.Name p) rec :: out)
                          end
              end
  end.

Definition handleStateAll : handler World := fun _ _ w =>
  (w, Resp match w_enablement w with
           | None => writeJSON 503 BDegraded
           | Some db => match state_all db projects with
                        | Err e => writeJSON 500 (BStoreError e)
                        | Ok out => writeJSON 200 (BStates out)
                        end
           end).

Definition state_response (name : string) (db : EB) : Response :=
  match enablement.Get (e_get_tx env) name db with
  | Err e => writeJSON 500 (BStoreError e)
  | Ok rec => writeJSON 200 (BState (renderState name rec))
  end.

Definition handleStateGet : handler World := fun ps _ w =>
  let name := PathValue ps "name" in
  (w, Resp match w_enablement w with
           | None => writeJSON 503 BDegraded
           | Some db => if negb (knownProject name) then writeJSON 404 (BError "project not found")
                        else state_response name db
           end).

Definition handleStatePut : handler World := fun ps r w =>
  let name := PathValue ps "name" in
  match w_enablement w with
  | None => (w, Resp (writeJSON 503 BDegraded))
  | Some db =>
      if negb (knownProject name) then (w, Resp (writeJSON 404 (BError "project not found")))
      else match (match req_body r with Err e => Err e | Ok b => e_decode_put env b end) with
           | Err e => (w, Resp (writeJSON 400 (BError ("body does not parse: " +:+ e))))
           | Ok (st, reason, actor) =>
               let rec := enablement.mkRecord name st reason actor 0 in
               let '(db', err) := enablement.Put (e_time env) (e_put_tx env) rec db in
               match err with
               | Some e => (set_enablement w db', Resp (writeJSON 400 (BStoreError e)))
               | None => (set_enablement w db', Resp (state_response name db'))
               end
           end
  end.

End server.

(** * Lemmas *)

Section lemmas.
Context {B EB : Type} `{Bucket B} `{BucketLaws EB}.
Context `{Codec Registration} `{enablement.JsonLaws}.
Variable format_time : Z -> string.
Variable f2i : Z -> Z.
Variable env : Env.
Variable s : Server.
Implicit Types (w : World (B := B) (EB := EB)).

Lemma set_machines_same w : set_machines w (w_machines w) = w.
Proof. by destruct w. Qed.

Lemma composeGitFacet_clean gs b :
  gf_clean (composeGitFacet gs) = Some b <-> gitstate.Error gs = "" /\ b = negb (gitstate.Dirty gs).
Proof.
  unfold composeGitFacet. simpl. destruct (String.eqb_spec (gitstate.Error gs) ""); naive_solver.
Qed.

Lemma composeService_fields w p gs :
  let sv := composeService env w p gs in
  sv_name sv = config.Name p /\ sv_git sv = Some (composeGitFacet gs)
  /\ (sv_reachable sv = Some true <-> exists db r, w_reg w = Some db
        /\ registry.Get (e_reg_tx env) (config.Name p) db = Some r /\ sv_endpoint sv = rg_endpoint r)
  /\ (sv_reachable sv = None -> sv_endpoint sv = None)
  /\ sv_reachable sv <> Some false.
Proof.
  unfold composeService. simpl. destruct (w_reg w) as [db|]; simpl.
  - destruct (registry.Get _ _ db) as [r|] eqn:Eg; split_and!; try done.
    + split; [|done]. intros _. by exists db, r.
    + split; [done|]. intros (db' & r' & ? & ? & _). by simplify_eq.
  - split_and!; try done. split; [done|]. by intros (? & ? & ? & _).
Qed.

Lemma trigger_result c m :
  let '(m', err) := state.Transition f2i c m state.EventTriggerBackup in
  match err with
  | Some e => m' = m /\ e = state.ErrBackoff (state.NextRetryAt m)
              /\ state.CurrentState m = state.StateError /\ state.clk_now c < state.NextRetryAt m
  | None => state.CurrentState m' = state.StateBackingUp
            /\ (state.CurrentState m = state.StateError -> state.NextRetryAt m <= state.clk_now c)
            /\ (state.CurrentState m = state.StateBackingUp -> m' = m)
  end.
Proof.
  unfold state.Transition. case_bool_decide as Hs.
  - destruct (bool_decide (state.CurrentState m = state.StateError)
              && (state.clk_now c <? state.NextRetryAt m)) eqn:E.
    + apply andb_true_iff in E as [E1%bool_decide_eq_true E2%Z.ltb_lt]. done.
    + destruct (state.touch_fields c (state.CurrentState m) (state.set_state m state.StateBackingUp))
        as (E1 & _). rewrite E1. split_and!; [done| |].
      * intros He. rewrite bool_decide_eq_true_2 in E by done. simpl in E. by apply Z.ltb_ge in E.
      * intros He. rewrite He in Hs. naive_solver.
  - assert (He : state.CurrentState m = state.StateBackingUp)
      by (destruct (state.CurrentState m); naive_solver).
    unfold state.touch. rewrite decide_True by done. split_and!; [done| |done]. by rewrite He.
Qed.

Lemma trigger_count c m :
  state.ErrorCount (fst (state.Transition f2i c m state.EventTriggerBackup)) = state.ErrorCount m.
Proof.
  unfold state.Transition. repeat case_match; try done; cbn [fst];
    by edestruct state.touch_fields as (_ & -> & _).
Qed.

Lemma reset_result c m :
  let '(m', err) := state.Transition f2i c m state.EventClearError in
  err = None
  /\ (if decide (state.CurrentState m = state.StateError)
      then state.CurrentState m' = state.StateFallow /\ state.ErrorCount m' = 0 /\ state.NextRetryAt m' = 0
      else m' = m).
Proof.
  unfold state.Transition. split; [done|]. case_decide as He.
  - destruct (state.touch_fields c (state.CurrentState m)
      (state.set_errors (state.set_state m state.StateFallow) 0 0)) as (E1 & E2 & E3 & _).
    by rewrite E1, E2, E3.
  - unfold state.touch. by rewrite decide_True.
Qed.

(** * Properties *)

(** The backup and reset routes act on the machine they name and on nothing
    else. A project without a machine is 404. A backup is refused, with 409 and no
    change, exactly in an unexpired backoff; otherwise it is 200 and the machine is
    backing up (unchanged if it already was). A reset is always 200: it clears a
    machine in error and leaves any other as it was. *)
Lemma machine_routes ps r w :
  let name := PathValue ps "name" in
  let '(wb, ob) := handleBackup env f2i ps r w in
  let '(wr, or) := handleReset env f2i ps r w in
  (forall n, n <> name -> w_machines wb !! n = w_machines w !! n /\ w_machines wr !! n = w_machines w !! n)
  /\ w_reg wb = w_reg w /\ w_enablement wb = w_enablement w /\ w_events wb = w_events w
  /\ w_reg wr = w_reg w /\ w_enablement wr = w_enablement w /\ w_events wr = w_events w
  /\ match w_machines w !! name with
     | None => wb = w /\ wr = w /\ ob = Resp (writeJSON 404 (BError "project not found")) /\ or = ob
     | Some m =>
         (if decide (state.CurrentState m = state.StateError
                     /\ state.clk_now (e_clock env) < state.NextRetryAt m)
          then wb = w /\ ob = Resp (writeJSON 409 (BTransition (state.ErrBackoff (state.NextRetryAt m))))
          else ob = Resp (writeJSON 200 (BAction "backup_triggered" name))
               /\ (exists m', w_machines wb !! name = Some m'
                     /\ state.CurrentState m' = state.StateBackingUp
                     /\ (state.CurrentState m = state.StateBackingUp -> m' = m)))
         /\ or = Resp (writeJSON 200 (BAction "error_cleared" name))
         /\ exists m', w_machines wr !! name = Some m'
             /\ (if decide (state.CurrentState m = state.StateError)
                 then state.CurrentState m' = state.StateFallow /\ state.ErrorCount m' = 0
                      /\ state.NextRetryAt m' = 0
                 else m' = m)
     end.
Proof.
  cbv zeta. unfold handleBackup, handleReset, machine_action. set (name := PathValue ps "name").
  destruct (w_machines w !! name) as [m|] eqn:Em; [|done].
  pose proof (trigger_result (e_clock env) m) as Ht. pose proof (reset_result (e_clock env) m) as Hr.
  destruct (state.Transition f2i (e_clock env) m state.EventTriggerBackup) as [mb [eb|]];
    destruct (state.Transition f2i (e_clock env) m state.EventClearError) as [mr er];
    destruct Hr as [-> Hr]; simpl.
  - destruct Ht as (-> & -> & Hs & Hlt). split_and!; try done.
    + intros n Hn. by rewrite !lookup_insert_ne.
    + rewrite decide_True by done. rewrite insert_id by done. by rewrite set_machines_same.
    + exists mr. by rewrite lookup_insert_eq.
  - destruct Ht as (Hb & Hle & Hsame). split_and!; try done.
    + intros n Hn. by rewrite !lookup_insert_ne.
    + rewrite decide_False by (intros [He Hlt]; specialize (Hle He); lia). split; [done|].
      exists mb. by rewrite lookup_insert_eq.
    + exists mr. by rewrite lookup_insert_eq.
Qed.

(** The composed entry invents nothing: its git facet says clean only for a
    tree whose status was read and was clean, it says nothing about cleanliness
    when the read failed, and it is reachable, with that endpoint, exactly when
    the registry holds a registration under its name. *)
Lemma composed_service_is_observed w p :
  gitstate.errors_say (e_git env) ->
  let sv := composeService env w p (gitstate.Collect (e_git env) (config.Path p)) in
  (sv_git sv ≫= gf_clean = Some true ->
     exists repo head, gitstate.answered (e_git env) (config.Path p) repo head true)
  /\ (sv_git sv ≫= gf_clean = None <-> gitstate.Error (gitstate.Collect (e_git env) (config.Path p)) <> "")
  /\ (sv_reachable sv = Some true <-> exists db r, w_reg w = Some db
        /\ registry.Get (e_reg_tx env) (config.Name p) db = Some r /\ sv_endpoint sv = rg_endpoint r)
  /\ (sv_reachable sv = None -> sv_endpoint sv = None).
Proof.
  intros Hs sv. subst sv.
  destruct (composeService_fields w p (gitstate.Collect (e_git env) (config.Path p)))
    as (_ & Eg & Hr & Hn & _). rewrite Eg. cbn [mbind option_bind]. split_and!; [| |done|done].
  - intros (He & Hd)%composeGitFacet_clean.
    destruct (gitstate.Collect_error _ _ Hs He) as (repo & head & clean & Ha).
    pose proof (gitstate.Collect_answered _ _ _ _ _ Ha) as (_ & Hd' & _).
    exists repo, head. rewrite Hd' in Hd. by destruct clean.
  - unfold composeGitFacet. simpl.
    by destruct (String.eqb_spec (gitstate.Error (gitstate.Collect (e_git env) (config.Path p))) "").
Qed.

(** C37. The enablement surface: without a store every answer is 503 and with one
    an unknown project is 404, and neither writes; a project without a record
    reads disabled and unrecorded; a PUT that is accepted answers with the record,
    which every later GET of that project then returns, and changes no other
    project's answer; a PUT that is refused, over its values or over a body that
    cannot be read or does not parse, is 400 and changes nothing. Of a record whose
    text JSON would not keep (it is not UTF-8) nothing is said. *)
Theorem enablement_surface ps r w :
  let name := PathValue ps "name" in
  let get ps w := snd (handleStateGet format_time env s ps r w) in
  let '(w', out) := handleStatePut format_time env s ps r w in
  e_get_tx env = TxOk ->
  match w_enablement w with
  | None => w' = w /\ out = Resp (writeJSON 503 BDegraded) /\ get ps w = out
  | Some db =>
      if knownProject s name then
        (enablement.Get TxOk name db = Ok None ->
           get ps w = Resp (writeJSON 200 (BState (mkStateResponse name "disabled" false "" "" ""))))
        /\ ((forall body, req_body r = Ok body -> is_ok (e_decode_put env body) = false) ->
             w' = w /\ exists e, out = Resp (writeJSON 400 (BError e)))
        /\ forall body st reason actor,
            req_body r = Ok body -> e_decode_put env body = Ok (st, reason, actor) ->
            let rec := enablement.mkRecord name st reason actor 0 in
            enablement.clean_text rec = true ->
            (exists e, out = Resp (writeJSON 400 (BStoreError e)) /\ w' = w)
            \/ (out = Resp (writeJSON 200
                     (BState (renderState format_time name (Some (enablement.stamped (e_time env) rec)))))
                /\ get ps w' = out
                /\ forall ps', PathValue ps' "name" <> name -> get ps' w' = get ps' w)
      else w' = w /\ out = Resp (writeJSON 404 (BError "project not found")) /\ get ps w = out
  end.
Proof.
  cbv zeta. set (name := PathValue ps "name").
  destruct (handleStatePut format_time env s ps r w) as [w' out] eqn:E. intros Htx.
  unfold handleStateGet, handleStatePut in *. fold name in E |- *.
  destruct (w_enablement w) as [db|] eqn:Ew; [|by simplify_eq].
  destruct (knownProject s name) eqn:Ek; simpl in E |- *; [|by simplify_eq].
  unfold state_response in *. rewrite Htx in *. split; [by intros ->|]. split.
  { intros Hb. destruct (req_body r) as [bd|e0]; [specialize (Hb bd eq_refl)|by simplify_eq; split; [|eexists]].
    destruct (e_decode_put env bd); [done|]. by simplify_eq; split; [|eexists]. }
  intros bd st reason actor Eb Ed Hc. rewrite Eb, Ed in E.
  set (rec := enablement.mkRecord name st reason actor 0) in *.
  destruct (enablement.Put (e_time env) (e_put_tx env) rec db) as [db' [e|]] eqn:Ep.
  - left. exists e. simplify_eq. split; [done|]. rewrite (enablement.Put_err _ _ _ _ _ _ Ep).
    destruct w. simpl in *. by subst.
  - right. destruct (enablement.Put_ok _ _ _ _ _ Ep) as (_ & _ & b & Em & Hput).
    destruct (enablement.stamped_fields (e_time env) rec) as (Es & _ & _ & _ & Ecl).
    pose proof (enablement.Get_put _ _ _ _ name Hput) as Hg.
    rewrite decide_True in Hg by done.
    rewrite (enablement.json_round_trip _ _ ltac:(by rewrite Ecl) Em) in Hg.
    rewrite Hg in E. injection E as <- <-. split_and!; [done| |].
    + simpl. by rewrite Hg.
    + intros ps' Hne. simpl. rewrite (enablement.Get_put _ _ _ _ _ Hput).
      by rewrite decide_False by (simpl; congruence).
Qed.

End lemmas.

End httpapi.
