(* ===== verification/HttpRegister.v ===== *)
(** pkg/httpapi/register.go: the broker of POST /register.

    The handler is a sequence of gates, each of which declines with a status, a
    code and a reason, and one atomic Upsert at the end. [admitted] is what the
    gates together ask. *)

From S2P Require Import Prelude GoStrings State Proto KV Registry Config HttpAuth HttpApi.
Import proto bbolt httpauth httpapi.

Module httpregister.

Definition requiredEmitSubject : string := "observability.v1.ServiceHealthHeartbeat".
Definition notRegisteredSubject : string := "registry.v1.NotRegistered".

(** A registration that does not complete: the HTTP status, the claimed project
    and endpoint, the code and the reason. *)
Record decline := mkDecline {
  dc_status : Z; dc_project : string; dc_endpoint : string; dc_code : string; dc_reason : string
}.

(** io.LimitReader(r.Body, n) *)
Fixpoint limit_reader (n : Z) (b : string) : string :=
  match b with
  | EmptyString => EmptyString
  | String c r => if n <=? 0 then EmptyString else String c (limit_reader (n - 1) r)
  end.

Section register.
Context {B EB : Type} `{Bucket B}.
Context `{Codec Registration} `{Codec RegisterRequest} `{Codec RegisterResponse}.
Variable quote : string -> string.            (* fmt's %q *)
Variable valid_full_name : string -> bool.    (* protoreflect.FullName.IsValid *)
Variable env : Env.
Variable s : Server.

Definition guaranteeHealthCheck (e : Endpoint) : option string :=
  let scheme := if String.eqb (ep_scheme e) "" then "http" else ep_scheme e in
  match e_http_get env (scheme +:+ "://" +:+ ep_address e +:+ "/health") with
  | Err err => Some err
  | Ok code => if (code <? 200) || (300 <=? code) then Some ("/health returned " +:+ itoa code) else None
  end.

Definition managesProject (name : string) : bool :=
  existsb (fun p => String.eqb (config.Name p) name) (config.Projects (s_cfg s)).

Definition firstEndpointAddress (endpoints : list Endpoint) : string :=
  match endpoints with [] => "" | e :: _ => ep_address e end.

Definition hasSubject (refs : list ContractRef) (subject : string) : bool :=
  existsb (fun ref => String.eqb (cr_subject ref) subject) refs.

(** The bus subjects, in the order emits then consumes: stop at the first that
    cannot be verified or is not registered. *)
Fixpoint check_subjects (refs : list ContractRef) : option (Z * string * string) :=
  match refs with
  | [] => None
  | ref :: r =>
      match e_subject env (cr_subject ref) with
      | Err e => Some (503, "verify_unavailable",
                   "could not verify subject " +:+ quote (cr_subject ref)
                   +:+ " against the schema registry: " +:+ e)
      | Ok false => Some (422, "unknown_subject",
                     "subject " +:+ quote (cr_subject ref) +:+ " is not registered with the schema registry")
      | Ok true => check_subjects r
      end
  end.

Fixpoint check_serves (refs : list ContractRef) : option (Z * string * string) :=
  match refs with
  | [] => None
  | ref :: r =>
      if valid_full_name (cr_subject ref) then check_serves r
      else Some (422, "malformed_serves",
             "serves subject " +:+ quote (cr_subject ref) +:+ " is not a well-formed fully-qualified name")
  end.

Definition verifyContracts (d : option ContractDescriptor) : option (Z * string * string) :=
  if negb (hasSubject (get_emits d) requiredEmitSubject)
  then Some (422, "missing_required_subject",
         "descriptor must emit the required subject " +:+ quote requiredEmitSubject)
  else match check_subjects (get_emits d ++ get_consumes d) with
       | Some e => Some e
       | None => check_serves (get_serves d)
       end.

(** The gates before the store. *)
Definition gates (req : RegisterRequest) : option decline :=
  let project := rq_project req in
  let addr := firstEndpointAddress (rq_endpoints req) in
  if negb (managesProject project) then
    Some (mkDecline 404 project addr "unknown_project" "project not found")
  else if negb (String.eqb (get_id_project (rq_identity req)) project) then
    Some (mkDecline 422 project addr "inconsistent_identity"
            ("internally inconsistent: request.project=" +:+ quote project
             +:+ " but identity.project=" +:+ quote (get_id_project (rq_identity req))))
  else match rq_endpoints req with
       | [] => Some (mkDecline 422 project "" "no_endpoint" "no endpoint with an address was reported")
       | endpoint :: _ =>
           if String.eqb addr "" then
             Some (mkDecline 422 project "" "no_endpoint" "no endpoint with an address was reported")
           else match verifyContracts (rq_contracts req) with
                | Some (status, code, reason) => Some (mkDecline status project addr code reason)
                | None =>
                    match guaranteeHealthCheck endpoint with
                    | Some err => Some (mkDecline 422 project addr "unreachable"
                                    ("endpoint " +:+ quote addr +:+ " did not pass its /health guarantee: " +:+ err))
                    | None => None
                    end
                end
       end.

(** The event carries the time of the emit. *)
Definition emitNotRegistered (d : decline) (w : World (B := B) (EB := EB)) : World :=
  if s_has_events s
  then add_event w (mkNotRegistered (dc_project d) (dc_endpoint d) (dc_code d) (dc_reason d)
                      (ts_new (e_unix env)))
  else w.

Definition notRegistered (d : decline) (w : World (B := B) (EB := EB)) : World * outcome :=
  (emitNotRegistered d w, Resp (writeJSON (dc_status d) (BError (dc_reason d)))).

Definition registration_of (req : RegisterRequest) (endpoint : Endpoint) : Registration :=
  mkRegistration (rq_project req) (rq_identity req) (rq_contracts req) (Some endpoint)
    (Some (ts_new (e_unix env))) (Some (ts_new (e_unix env + registry.DefaultLeaseTTL))).

Definition response_of (req : RegisterRequest) (endpoint : Endpoint) : RegisterResponse :=
  mkRegisterResponse (rq_identity req) (Some endpoint) (u32 (registry.DefaultLeaseTTL / Second)).

(** s.reg.Upsert(reg): on a nil registry the encoding comes first, then the
    nil database is dereferenced. *)
Definition upsert (reg : Registration) (w : World (B := B) (EB := EB))
    : option (World * (string * option registry.regerr)) :=
  match w_reg w with
  | None => match marshal reg with
            | Err e => Some (w, ("", Some (registry.ErrMarshal e)))
            | Ok _ => None
            end
  | Some db => let '(db', res) := registry.Upsert (e_reg_tx env) reg db in Some (set_reg w db', res)
  end.

Definition handleRegister : handler (World (B := B) (EB := EB)) := fun _ r w =>
  match req_body r with
  | Err _ => notRegistered (mkDecline 400 "" "" "unreadable_body" "could not read request body") w
  | Ok body =>
      match unmarshal (limit_reader (2 ^ 20) body) with
      | Err e => notRegistered (mkDecline 400 "" "" "malformed_request" ("invalid RegisterRequest: " +:+ e)) w
      | Ok req =>
          match gates req, rq_endpoints req with
          | Some d, _ => notRegistered d w
          | None, [] => (w, Panicked)   (* index out of range: excluded by the gates *)
          | None, endpoint :: _ =>
              let addr := firstEndpointAddress (rq_endpoints req) in
              match upsert (registration_of req endpoint) w with
              | None => (w, Panicked)
              | Some (w', (holder, Some _)) =>
                  if negb (String.eqb holder "")
                  then notRegistered (mkDecline 409 (rq_project req) addr "endpoint_held"
                         ("endpoint " +:+ quote addr +:+ " is already held by project " +:+ quote holder)) w'
                  else (w', Resp (writeJSON 500 (BError "failed to record registration")))
              | Some (w', (_, None)) =>
                  match marshal (response_of req endpoint) with
                  | Err _ => (w', Resp (writeJSON 500 (BError "failed to encode RegisterResponse")))
                  | Ok b => (w', Resp (writeJSON 200 (BRaw b)))
                  end
              end
          end
      end
  end.

(** * What the gates ask *)

(** The project is managed, the identity agrees, the first endpoint has an
    address, the descriptor holds and the endpoint answers its health check. *)
Definition admitted (req : RegisterRequest) (endpoint : Endpoint) : Prop :=
  (exists p, p ∈ config.Projects (s_cfg s) /\ config.Name p = rq_project req)
  /\ get_id_project (rq_identity req) = rq_project req
  /\ (exists rest, rq_endpoints req = endpoint :: rest) /\ ep_address endpoint <> ""
  /\ (exists ref, ref ∈ get_emits (rq_contracts req) /\ cr_subject ref = requiredEmitSubject)
  /\ (forall ref, ref ∈ get_emits (rq_contracts req) ++ get_consumes (rq_contracts req) ->
        e_subject env (cr_subject ref) = Ok true)
  /\ (forall ref, ref ∈ get_serves (rq_contracts req) -> valid_full_name (cr_subject ref) = true)
  /\ exists code, e_http_get env ((if String.eqb (ep_scheme endpoint) "" then "http" else ep_scheme endpoint)
                                  +:+ "://" +:+ ep_address endpoint +:+ "/health") = Ok code
                  /\ 200 <= code < 300.

(** * Lemmas *)

Lemma check_subjects_None refs :
  check_subjects refs = None <-> forall ref, ref ∈ refs -> e_subject env (cr_subject ref) = Ok true.
Proof.
  induction refs as [|x refs IH]; cbn [check_subjects].
  - split; [by intros _ ref ?%elem_of_nil|done].
  - destruct (e_subject env (cr_subject x)) as [[]|e] eqn:Ex.
    + rewrite IH. split.
      * intros Hf ref [->|Hin]%elem_of_cons; [done|by apply Hf].
      * intros Hf ref Hin. apply Hf. by right.
    + split; [done|]. intros Hf. specialize (Hf x ltac:(by left)). congruence.
    + split; [done|]. intros Hf. specialize (Hf x ltac:(by left)). congruence.
Qed.

Lemma check_serves_None refs :
  check_serves refs = None <-> forall ref, ref ∈ refs -> valid_full_name (cr_subject ref) = true.
Proof.
  induction refs as [|x refs IH]; cbn [check_serves].
  - split; [by intros _ ref ?%elem_of_nil|done].
  - destruct (valid_full_name (cr_subject x)) eqn:Ex.
    + rewrite IH. split.
      * intros Hf ref [->|Hin]%elem_of_cons; [done|by apply Hf].
      * intros Hf ref Hin. apply Hf. by right.
    + split; [done|]. intros Hf. specialize (Hf x ltac:(by left)). congruence.
Qed.

Lemma verifyContracts_None d :
  verifyContracts d = None <->
  (exists ref, ref ∈ get_emits d /\ cr_subject ref = requiredEmitSubject)
  /\ (forall ref, ref ∈ get_emits d ++ get_consumes d -> e_subject env (cr_subject ref) = Ok true)
  /\ (forall ref, ref ∈ get_serves d -> valid_full_name (cr_subject ref) = true).
Proof.
  unfold verifyContracts. rewrite <-check_subjects_None, <-check_serves_None.
  assert (Hh : hasSubject (get_emits d) requiredEmitSubject = true
    <-> exists ref, ref ∈ get_emits d /\ cr_subject ref = requiredEmitSubject).
  { unfold hasSubject. rewrite existsb_elem_of. by setoid_rewrite String.eqb_eq. }
  rewrite <-Hh. destruct (hasSubject (get_emits d) requiredEmitSubject); simpl; [|naive_solver].
  destruct (check_subjects _); naive_solver.
Qed.

Lemma guaranteeHealthCheck_None e :
  guaranteeHealthCheck e = None <->
  exists code, e_http_get env ((if String.eqb (ep_scheme e) "" then "http" else ep_scheme e)
                               +:+ "://" +:+ ep_address e +:+ "/health") = Ok code /\ 200 <= code < 300.
Proof.
  unfold guaranteeHealthCheck. cbv zeta. destruct (e_http_get env _) as [code|err]; [|naive_solver].
  destruct ((code <? 200) || (300 <=? code)) eqn:E.
  - split; [done|]. intros (c & [= <-] & Hc). apply orb_true_iff in E as [E%Z.ltb_lt|E%Z.leb_le]; lia.
  - apply orb_false_iff in E as [E1%Z.ltb_ge E2%Z.leb_gt]. split; [|done]. intros _. exists code. split; [done|lia].
Qed.

Lemma gates_None req :
  gates req = None <-> exists endpoint, admitted req endpoint.
Proof.
  unfold gates, admitted. cbv zeta.
  assert (Hm : managesProject (rq_project req) = true
    <-> exists p, p ∈ config.Projects (s_cfg s) /\ config.Name p = rq_project req).
  { unfold managesProject. rewrite existsb_elem_of. by setoid_rewrite String.eqb_eq. }
  setoid_rewrite <-Hm. destruct (managesProject (rq_project req)); simpl; [|naive_solver].
  destruct (String.eqb_spec (get_id_project (rq_identity req)) (rq_project req)); simpl; [|naive_solver].
  destruct (rq_endpoints req) as [|ep rest]; simpl; [naive_solver|].
  destruct (String.eqb_spec (ep_address ep) ""); [naive_solver|].
  destruct (verifyContracts (rq_contracts req)) as [[[st code] reason]|] eqn:Ev.
  - split; [done|]. intros (ep' & _ & _ & (? & [= <- <-]) & _ & V1 & V2 & V3 & _).
    assert (verifyContracts (rq_contracts req) = None); [|congruence]. by apply verifyContracts_None.
  - apply verifyContracts_None in Ev as (V1 & V2 & V3).
    destruct (guaranteeHealthCheck ep) as [err|] eqn:Eg.
    + split; [done|]. intros (ep' & _ & _ & (? & [= <- <-]) & _ & _ & _ & _ & V4).
      apply guaranteeHealthCheck_None in V4. congruence.
    + split; [|done]. intros _. apply guaranteeHealthCheck_None in Eg. exists ep. split_and!; eauto.
Qed.

Lemma gates_status req d :
  gates req = Some d -> dc_project d = rq_project req /\ dc_status d ∈ [404; 422; 503].
Proof.
  unfold gates. cbv zeta. intros Hg.
  destruct (managesProject _); simpl in Hg; [|simplify_eq; split; [done|set_solver]].
  destruct (String.eqb _ (rq_project req)); simpl in Hg; [|simplify_eq; split; [done|set_solver]].
  destruct (rq_endpoints req) as [|ep rest]; [simplify_eq; split; [done|set_solver]|].
  destruct (String.eqb _ ""); [simplify_eq; split; [done|set_solver]|].
  destruct (verifyContracts (rq_contracts req)) as [[[st code] reason]|] eqn:Ev.
  - simplify_eq. split; [done|]. simpl. unfold verifyContracts in Ev.
    destruct (hasSubject _ _); simpl in Ev; [|simplify_eq; set_solver].
    destruct (check_subjects _) as [[[st' c'] r']|] eqn:Es.
    + simplify_eq. clear -Es. induction (get_emits _ ++ get_consumes _) as [|x l IH]; [done|].
      simpl in Es. destruct (e_subject env _) as [[]|]; [by apply IH|simplify_eq; set_solver..].
    + clear -Ev. induction (get_serves _) as [|x l IH]; [done|].
      simpl in Ev. destruct (valid_full_name _); [by apply IH|simplify_eq; set_solver].
  - destruct (guaranteeHealthCheck ep); [|done]. simplify_eq. split; [done|set_solver].
Qed.

End register.

(** * Properties *)

Section properties.
Context {B EB : Type} `{BucketLaws B}.
Context `{CodecLaws Registration} `{Codec RegisterRequest} `{Codec RegisterResponse}.
Variable quote : string -> string.
Variable valid_full_name : string -> bool.
Variable env : Env.
Variable s : Server.
Implicit Types (w : World (B := B) (EB := EB)).

Definition request_of (r : Request) (req : RegisterRequest) : Prop :=
  exists body, req_body r = Ok body /\ unmarshal (limit_reader (2 ^ 20) body) = Ok req.

Lemma set_reg_same w db : w_reg w = Some db -> set_reg w db = w.
Proof. destruct w. simpl. by intros ->. Qed.

Lemma request_unique r req req' : request_of r req -> request_of r req' -> req = req'.
Proof. intros (b & E1 & E2) (b' & E3 & E4). congruence. Qed.

(** The cases of the handler, gate by gate. *)
Lemma handleRegister_cases ps r w :
  (exists d, handleRegister quote valid_full_name env s ps r w = notRegistered env s d w
             /\ dc_status d ∈ [400; 404; 409; 422; 503]
             /\ ((forall req, ~ request_of r req)
                 \/ exists req, request_of r req /\ dc_project d = rq_project req
                     /\ ((forall ep, ~ admitted valid_full_name env s req ep)
                         \/ exists ep db, admitted valid_full_name env s req ep /\ w_reg w = Some db
                             /\ snd (snd (registry.Upsert (e_reg_tx env) (registration_of env req ep) db)) <> None)))
  \/ exists req ep, request_of r req /\ admitted valid_full_name env s req ep
     /\ match w_reg w with
        | None => handleRegister quote valid_full_name env s ps r w
                  = (w, if is_ok (marshal (registration_of env req ep)) then Panicked
                        else Resp (writeJSON 500 (BError "failed to record registration")))
        | Some db =>
            match registry.Upsert (e_reg_tx env) (registration_of env req ep) db with
            | (_, (_, Some _)) => handleRegister quote valid_full_name env s ps r w
                = (w, Resp (writeJSON 500 (BError "failed to record registration")))
            | (db', (_, None)) => handleRegister quote valid_full_name env s ps r w
                = (set_reg w db', Resp (match marshal (response_of req ep) with
                     | Ok b => writeJSON 200 (BRaw b)
                     | Err _ => writeJSON 500 (BError "failed to encode RegisterResponse") end))
            end
        end.
Proof.
  unfold handleRegister.
  destruct (req_body r) as [body|e] eqn:Eb.
  2: { left. eexists. split_and!; [done|set_solver|]. left. intros req (? & ? & _). congruence. }
  destruct (unmarshal (limit_reader (2 ^ 20) body)) as [req|e] eqn:Eu.
  2: { left. eexists. split_and!; [done|set_solver|]. left. intros req (? & ? & ?). congruence. }
  assert (Hreq : request_of r req) by (by exists body).
  destruct (gates quote valid_full_name env s req) as [d|] eqn:Eg.
  { left. exists d. destruct (gates_status _ _ _ _ _ _ Eg) as [Hp Hs]. split_and!; [done|set_solver|].
    right. exists req. split_and!; [done..|]. left. intros ep Ha.
    assert (gates quote valid_full_name env s req = None); [|congruence].
    apply gates_None. by exists ep. }
  apply gates_None in Eg as (ep & Ha). pose proof Ha as (_ & _ & (rest & Ee) & _). rewrite Ee.
  unfold upsert. destruct (w_reg w) as [db|] eqn:Ew.
  - destruct (registry.Upsert (e_reg_tx env) (registration_of env req ep) db) as [db' [holder err]] eqn:Eup.
    destruct err as [e|].
    + pose proof (registry.Upsert_failed _ _ _ _ _ _ Eup) as ->. rewrite (set_reg_same w db Ew).
      destruct (String.eqb holder ""); simpl.
      * right. exists req, ep. split_and!; [done..|]. by rewrite Eup.
      * left. eexists. split_and!; [done|set_solver|]. right. exists req. split_and!; [done..|].
        right. exists ep, db. by rewrite Eup.
    + right. exists req, ep. split_and!; [done..|]. rewrite Eup.
      by destruct (marshal (response_of req ep)).
  - right. exists req, ep. split_and!; [done..|].
    by destruct (marshal (registration_of env req ep)).
Qed.

(** C4. A registration either joins whole or not at all, and is never silent
    about not joining: the handler never touches machines or enablement, and it
    ends in one of four ways. It declines, with an HTTP error, the store as it
    was and, when a publisher is wired, a NotRegistered event that says why; the
    store fails, with 500 and nothing changed; every gate passed, the address was
    free, and the registry now holds exactly this registration besides what it
    held; or no store is wired and the request dies. *)
Theorem register_never_silent ps r w :
  let '(w', out) := handleRegister quote valid_full_name env s ps r w in
  (exists d, out = Resp (writeJSON (dc_status d) (BError (dc_reason d)))
             /\ dc_status d ∈ [400; 404; 409; 422; 503] /\ w_reg w' = w_reg w
             /\ w_events w' = w_events w ++
                  (if s_has_events s
                   then [mkNotRegistered (dc_project d) (dc_endpoint d) (dc_code d) (dc_reason d)
                           (ts_new (e_unix env))] else []))
  \/ (out = Resp (writeJSON 500 (BError "failed to record registration")) /\ w' = w)
  \/ (exists req ep db db', request_of r req /\ admitted valid_full_name env s req ep
        /\ w_reg w = Some db /\ w' = set_reg w db'
        /\ registry.free (registry.abs db) (registration_of env req ep)
        /\ registry.abs db' = <[rq_project req := registration_of env req ep]> (registry.abs db)
        /\ exists resp, out = Resp resp /\ (status resp = 200 \/ status resp = 500))
  \/ (w_reg w = None /\ out = Panicked /\ w' = w).
Proof.
  destruct (handleRegister_cases ps r w) as [(d & -> & Hs & _)|(req & ep & Hreq & Ha & Hw)].
  - unfold notRegistered. cbv iota beta. left. exists d. unfold emitNotRegistered. destruct w, (s_has_events s); simpl; rewrite ?app_nil_r; done.
  - destruct (w_reg w) as [db|] eqn:Ew.
    + destruct (registry.Upsert _ _ db) as [db' [h [e|]]] eqn:Eup; rewrite Hw; cbv iota beta;
        [by right; left|].
      right. right. left. apply registry.Upsert_abs in Eup as (_ & _ & Hf & _ & Habs).
      exists req, ep, db, db'. split_and!; try done. eexists. split; [done|].
      destruct (marshal (response_of req ep)); simpl; tauto.
    + rewrite Hw. cbv iota beta. destruct (is_ok _); [by right; right; right|by right; left].
Qed.

(** C5. Registration admits exactly those who pass: with a working store and a
    registration it can hold, the answer is 200 exactly when the project is
    managed, the identity agrees, an endpoint is reported, the heartbeat subject
    is emitted, every bus subject is registered, every served name is well
    formed, the endpoint answers its health check with a 2xx, and no other
    project holds its address. *)
Theorem register_admits_exactly ps r w db req :
  w_reg w = Some db -> request_of r req -> e_reg_tx env = TxOk ->
  (forall ep rest, rq_endpoints req = ep :: rest ->
     registry.storable (registration_of env req ep) /\ is_ok (marshal (response_of req ep)) = true) ->
  (exists resp, snd (handleRegister quote valid_full_name env s ps r w) = Resp resp /\ status resp = 200)
  <-> exists ep, admitted valid_full_name env s req ep
      /\ registry.free (registry.abs db) (registration_of env req ep).
Proof.
  intros Ew Hreq Htx Hst.
  destruct (handleRegister_cases ps r w) as [(d & Eh & Hs & Hd)|(req' & ep & Hreq' & Ha & Hw)].
  - rewrite Eh. simpl. split.
    { intros (resp & [= <-] & Hc). simpl in Hc. rewrite Hc in Hs. set_solver. }
    intros (ep & Ha & Hf). exfalso. destruct Hd as [Hn|(req' & Hreq' & _ & Hd)]; [by eapply Hn|].
    rewrite (request_unique r req' req Hreq' Hreq) in Hd. destruct Hd as [Hn|(ep' & db' & Ha' & Ew' & Hu)].
    { by eapply Hn. }
    rewrite Ew in Ew'. injection Ew' as <-. rewrite Htx in Hu.
    destruct Ha as (_ & _ & (r1 & E1) & _), Ha' as (_ & _ & (r2 & E2) & _).
    rewrite E1 in E2. injection E2 as <- <-.
    destruct (registry.Upsert_storable _ db (proj1 (Hst ep _ E1)) Hf) as (db2 & E). by rewrite E in Hu.
  - rewrite (request_unique r req' req Hreq' Hreq) in Ha, Hw. rewrite Ew in Hw.
    destruct (registry.Upsert _ _ db) as [db' [h [e|]]] eqn:Eup; rewrite Hw; simpl.
    + split; [by intros (resp & [= <-] & ?)|]. intros (ep' & Ha' & Hf). exfalso.
      destruct Ha as (_ & _ & (r1 & E1) & _), Ha' as (_ & _ & (r2 & E2) & _).
      rewrite E1 in E2. injection E2 as <- <-.
      destruct (registry.Upsert_storable _ db (proj1 (Hst ep _ E1)) Hf) as (db2 & E). rewrite Htx in Eup. congruence.
    + apply registry.Upsert_abs in Eup as (_ & _ & Hf & _ & _). split; [intros _; by exists ep|].
      intros _. destruct Ha as (_ & _ & (r1 & E1) & _).
      destruct (Hst ep _ E1) as [_ Hm]. destruct (marshal (response_of req ep)); [|done]. by eexists.
Qed.

End properties.

End httpregister.
