(* ===== verification/HttpFurnish.v ===== *)
(** pkg/httpapi/furnish.go: the /furnish routes.

    [Fleet] is the cluster and the client the daemon holds on it; the client is
    built on first use and kept (kube.LazyClient). Two fleets are equivalent when
    their clusters are equal: the client's discovery cache is warmed by readers. *)

From S2P Require Import Prelude GoStrings GoPath Furnish HttpAuth.
Import kube furnish httpauth.

Module httpfurnish.

Section handlers.
Context {S M : Type} `{Api S M}.
Variable quote : string -> string.   (* fmt's %q *)

(** UseFurnish's wiring, and what the routes read from outside: the build of the
    client, the manifest root and its files. *)
Record FurnishEnv := mkFurnishEnv {
  fe_wired : bool;
  fe_build : result kerr M;
  fe_kubeDir : string;
  fe_read_file : string -> result string string;
  fe_yaml_resources : string -> result string (list string);
  fe_kustomize : string -> result kerr (list (result kerr obj));
  fe_readyz : option kerr                    (* the API server's answer to GET /readyz *)
}.

Record Fleet := mkFleet { fl_cluster : S; fl_client : option M }.

#[global] Instance fleet_equiv : Equiv Fleet := fun a b => fl_cluster a = fl_cluster b.
#[global] Instance fleet_equivalence : Equivalence (≡@{Fleet}).
Proof. split; [intros ?|intros ? ?|intros ? ? ?]; unfold equiv, fleet_equiv; congruence. Qed.

Variable env : FurnishEnv.

Definition furnishMutateTimeout : string := "1m0s".
Definition furnishHealthTimeout : string := "15s".

Definition pieces : result string (list string) :=
  Pieces (fe_read_file env) (fe_yaml_resources env) (fe_kubeDir env).

Definition writeFurnishError (op piece timeout : string) (err : kerr)
    (extra : option (list string * gmap string string)) : Response :=
  let body text := match extra with
                   | Some (applied, failed) => BFurnishError text applied failed
                   | None => BError text
                   end in
  if ke_deadline err then
    writeJSON 504 (body (op +:+ " " +:+ piece +:+ ": deadline exceeded after " +:+ timeout
                     +:+ " waiting on the cluster: " +:+ ke_text err))
  else if ke_status err then writeJSON 502 (body (ke_text err))
  else writeJSON 500 (body (ke_text err)).

(** The client, or the 503 that was written; the fleet keeps a client once built. *)
Definition furnishCluster (w : Fleet) : Fleet * result Response M :=
  if negb (fe_wired env)
  then (w, Err (writeJSON 503 (BError "furnish not wired: no cluster client")))
  else match LazyClient (fe_build env) (fl_client w) with
       | (memo, Ok c) => (mkFleet (fl_cluster w) memo, Ok c)
       | (memo, Err e) => (mkFleet (fl_cluster w) memo,
                           Err (writeJSON 503 (BError ("cluster unavailable: " +:+ ke_text e))))
       end.

(** The readiness probe, through the same client; [unwired] is what the probe of a
    server without one says. *)
Definition clusterReady (unwired : option string) (w : Fleet) : Fleet * option string :=
  if negb (fe_wired env) then (w, unwired)
  else let '(memo, c) := LazyClient (fe_build env) (fl_client w) in
       (mkFleet (fl_cluster w) memo,
        match c with
        | Err e => Some (ke_text e)
        | Ok _ => ke_text <$> Ready (fe_readyz env)
        end).

Definition furnishPiece (name : string) : result Response string :=
  match pieces with
  | Err e => Err (writeJSON 500 (BError e))
  | Ok ps => if existsb (fun p => String.eqb p name) ps
             then Ok (path_join [fe_kubeDir env; name])
             else Err (writeJSON 404 (BError ("unknown piece " +:+ quote name)))
  end.

Definition handleFurnishPieces : handler Fleet := fun _ _ w =>
  (w, Resp match pieces with
           | Err e => writeJSON 500 (BError e)
           | Ok ps => writeJSON 200 (BPieces (fe_kubeDir env) ps)
           end).

(** The loop over the pieces: the client, [healthy], and the ladders by piece. *)
Fixpoint health_pieces (c : S) (m : M) (names : list string) (healthy : bool)
    (results : gmap string (list ladder_row)) : M * bool * gmap string (list ladder_row) :=
  match names with
  | [] => (m, healthy, results)
  | p :: rest =>
      match Health (fe_kustomize env) c m (path_join [fe_kubeDir env; p]) with
      | (m', Err e) =>
          health_pieces c m' rest false (<[p := [mkRow "piece" p "INDETERMINATE" (ke_text e)]]> results)
      | (m', Ok items) =>
          let '(ok, ladder) := PieceHealth items in
          health_pieces c m' rest (if negb ok then false else healthy) (<[p := ladder]> results)
      end
  end.

Definition health_names (p : string) : result Response (list string) :=
  if negb (String.eqb p "")
  then match furnishPiece p with Err e => Err e | Ok _ => Ok [p] end
  else match pieces with Err e => Err (writeJSON 500 (BError e)) | Ok ps => Ok ps end.

Definition handleFurnishHealth : handler Fleet := fun ps _ w =>
  match health_names (PathValue ps "piece") with
  | Err resp => (w, Resp resp)
  | Ok names =>
      match furnishCluster w with
      | (w', Err resp) => (w', Resp resp)
      | (w', Ok m) =>
          let '(m', healthy, results) := health_pieces (fl_cluster w') m names true ∅ in
          (mkFleet (fl_cluster w') (Some m'),
           Resp (writeJSON (if negb healthy then 503 else 200) (BLadders healthy results)))
      end
  end.

Definition handleFurnishUp : handler Fleet := fun ps _ w =>
  let name := PathValue ps "piece" in
  match furnishPiece name with
  | Err resp => (w, Resp resp)
  | Ok dir =>
      match furnishCluster w with
      | (w', Err resp) => (w', Resp resp)
      | (w', Ok m) =>
          let '(c', m', result, err) := Up (fe_kustomize env) (fl_cluster w') m dir in
          (mkFleet c' (Some m'),
           Resp match err with
                | Some e => writeFurnishError "furnish.up" name furnishMutateTimeout e
                              (Some (Applied result, Failed result))
                | None => writeJSON 200 (BFurnished "furnish.up" name (Applied result))
                end)
      end
  end.

Definition handleFurnishDown : handler Fleet := fun ps _ w =>
  let name := PathValue ps "piece" in
  match furnishPiece name with
  | Err resp => (w, Resp resp)
  | Ok dir =>
      match furnishCluster w with
      | (w', Err resp) => (w', Resp resp)
      | (w', Ok m) =>
          let '(c', m', err) := Down (fe_kustomize env) (fl_cluster w') m dir in
          (mkFleet c' (Some m'),
           Resp match err with
                | Some e => writeFurnishError "furnish.down" name furnishMutateTimeout e None
                | None => writeJSON 200 (BRemoved "furnish.down" name)
                end)
      end
  end.

End handlers.

(** * Lemmas *)

Section lemmas.
Context {S M : Type} `{ApiLaws S M}.
Variable quote : string -> string.
Variable env : FurnishEnv (M := M).
Implicit Types w : Fleet (S := S) (M := M).

Lemma furnishCluster_same w : fst (furnishCluster env w) ≡ w.
Proof.
  unfold furnishCluster. destruct (negb (fe_wired env)); [done|].
  by destruct (LazyClient (fe_build env) (fl_client w)) as [memo [c|e]].
Qed.

Lemma handleFurnishPieces_reads : read_only (handleFurnishPieces (S := S) env).
Proof. done. Qed.

Lemma handleFurnishHealth_reads : read_only (handleFurnishHealth (S := S) quote env).
Proof.
  intros ps r w. unfold handleFurnishHealth.
  destruct (health_names quote env (PathValue ps "piece")) as [names|resp]; [|done].
  pose proof (furnishCluster_same w) as Hs. destruct (furnishCluster env w) as [w' [m|resp]]; [|done].
  by destruct (health_pieces env (fl_cluster w') m names true ∅) as [[m' healthy] results].
Qed.

(** The client a request works with: the one the daemon holds, else a new one. *)
Definition client_of w (m : M) : Prop := snd (LazyClient (fe_build env) (fl_client w)) = Ok m.

(** A client that was built stays, and an answer is given with a client in hand. *)
Lemma furnishCluster_ok w w' m :
  furnishCluster env w = (w', Ok m) ->
  fe_wired env = true /\ fl_cluster w' = fl_cluster w /\ client_of w m.
Proof.
  unfold furnishCluster, client_of, LazyClient. destruct (fe_wired env); [|done]. simpl.
  destruct (fl_client w) as [c|] eqn:Ec; [by intros [= <- <-]|].
  destruct (fe_build env); [|done]. by intros [= <- <-].
Qed.

Lemma furnishPiece_ok name dir :
  furnishPiece quote env name = Ok dir ->
  (exists ps, pieces env = Ok ps /\ name ∈ ps) /\ dir = path_join [fe_kubeDir env; name].
Proof.
  unfold furnishPiece. destruct (pieces env) as [ps|]; [|done].
  destruct (existsb (fun p => String.eqb p name) ps) eqn:E; [|done]. intros [= <-].
  split; [|done]. exists ps. split; [done|]. apply existsb_exists in E as (p & Hp & ->%String.eqb_eq).
  by apply list_elem_of_In.
Qed.

(** One piece of the report. *)
Definition reported (c : S) (m : M) (p : string) (rows : list ladder_row) (ok : bool) : Prop :=
  match buildPiece (fe_kustomize env) (path_join [fe_kubeDir env; p]) with
  | Err e => rows = [mkRow "piece" p "INDETERMINATE" (ke_text e)] /\ ok = false
  | Ok objs => exists items, Forall2 (item_says c m) objs items /\ (ok, rows) = PieceHealth items
  end.

Lemma reported_learned c m m' p rows ok : learned c m m' -> reported c m' p rows ok -> reported c m p rows ok.
Proof.
  intros Hl. unfold reported. destruct (buildPiece _ _) as [objs|e]; [|done].
  intros (items & Hf & Eq). exists items. split; [|done]. eapply Forall2_impl; [exact Hf|].
  intros u i. by apply item_says_learned.
Qed.

Lemma Health_reported c m p :
  match Health (fe_kustomize env) c m (path_join [fe_kubeDir env; p]) with
  | (m', Err e) => learned c m m' /\ reported c m p [mkRow "piece" p "INDETERMINATE" (ke_text e)] false
  | (m', Ok items) => learned c m m' /\ reported c m p (snd (PieceHealth items)) (fst (PieceHealth items))
  end.
Proof.
  unfold Health, reported. destruct (buildPiece _ _) as [objs|e]; [|split; [apply learned_refl|done]].
  destruct (health_loop_says c m objs) as [Hl Hs]. destruct (health_loop c m objs) as [m' items].
  split; [done|]. exists items. split; [done|]. by destruct (PieceHealth items).
Qed.

Lemma health_pieces_spec c m names healthy results :
  let '(_, h, res) := health_pieces env c m names healthy results in
  (forall p, p ∉ names -> res !! p = results !! p)
  /\ (forall p, p ∈ names -> exists rows ok, res !! p = Some rows /\ reported c m p rows ok)
  /\ (h = true -> healthy = true /\ forall p, p ∈ names -> exists rows, reported c m p rows true).
Proof.
  revert m healthy results. induction names as [|p names IH]; intros m healthy results; cbn [health_pieces].
  { split_and!; [done|set_solver|]. intros ->. split; [done|set_solver]. }
  pose proof (Health_reported c m p) as Hr.
  destruct (Health (fe_kustomize env) c m (path_join [fe_kubeDir env; p])) as [m' [items|e]];
    destruct Hr as [Hl Hr].
  - destruct (PieceHealth items) as [ok ladder]. simpl in Hr.
    specialize (IH m' (if negb ok then false else healthy) (<[p := ladder]> results)).
    destruct (health_pieces env c m' names _ _) as [[m2 h] res]. destruct IH as (I1 & I2 & I3). split_and!.
    + intros q Hq. rewrite I1 by set_solver. rewrite lookup_insert_ne; set_solver.
    + intros q Hq. destruct (decide (q ∈ names)) as [Hin|Hn].
      { destruct (I2 q Hin) as (rows & ok' & ? & ?). exists rows, ok'. split; [done|by eapply reported_learned]. }
      assert (q = p) as -> by set_solver. exists ladder, ok. by rewrite I1, lookup_insert_eq.
    + intros Hh. destruct (I3 Hh) as [Hx Hall]. destruct ok; [|done]. simpl in Hx. split; [done|].
      intros q [->|Hq]%elem_of_cons; [by exists ladder|].
      destruct (Hall q Hq) as [rows ?]. exists rows. by eapply reported_learned.
  - specialize (IH m' false (<[p := [mkRow "piece" p "INDETERMINATE" (ke_text e)]]> results)).
    destruct (health_pieces env c m' names _ _) as [[m2 h] res]. destruct IH as (I1 & I2 & I3). split_and!.
    + intros q Hq. rewrite I1 by set_solver. rewrite lookup_insert_ne; set_solver.
    + intros q Hq. destruct (decide (q ∈ names)) as [Hin|Hn].
      { destruct (I2 q Hin) as (rows & ok' & ? & ?). exists rows, ok'. split; [done|by eapply reported_learned]. }
      assert (q = p) as -> by set_solver. eexists _, false. rewrite I1, lookup_insert_eq by done.
      by split.
    + intros Hh. by destruct (I3 Hh).
Qed.

(** The statuses the two mutations answer with. *)
Definition furnish_statuses : list Z := [200; 404; 500; 502; 503; 504].

Lemma writeFurnishError_status op piece timeout e extra :
  status (writeFurnishError op piece timeout e extra) ∈ furnish_statuses
  /\ status (writeFurnishError op piece timeout e extra) <> 200.
Proof. unfold writeFurnishError. destruct (ke_deadline e), (ke_status e); simpl; (split; [set_solver|lia]). Qed.

Lemma furnishPiece_status name resp :
  furnishPiece quote env name = Err resp -> status resp ∈ furnish_statuses /\ status resp <> 200.
Proof.
  unfold furnishPiece. destruct (pieces env); [destruct (existsb _ _)|]; intros [= <-]; simpl;
    (split; [set_solver|lia]).
Qed.

Lemma furnishCluster_status w w' resp :
  furnishCluster env w = (w', Err resp) -> status resp = 503.
Proof.
  unfold furnishCluster. destruct (negb (fe_wired env)); [by intros [= _ <-]|].
  destruct (LazyClient (fe_build env) (fl_client w)) as [memo [c|e]]; [done|]. by intros [= _ <-].
Qed.

(** A mutation answers before the cluster is touched, or runs its operation on it. *)
Lemma mutation_cases w name (run : S -> M -> string -> Fleet (S := S) (M := M) * outcome) :
  let out := match furnishPiece quote env name with
             | Err resp => (w, Resp resp)
             | Ok dir => match furnishCluster env w with
                         | (w', Err resp) => (w', Resp resp)
                         | (w', Ok m) => run (fl_cluster w') m dir
                         end
             end in
  (exists resp, snd out = Resp resp /\ status resp ∈ furnish_statuses /\ status resp <> 200)
  \/ exists m, client_of w m /\ out = run (fl_cluster w) m (path_join [fe_kubeDir env; name]).
Proof.
  cbn zeta. destruct (furnishPiece quote env name) as [dir|resp] eqn:Ep.
  - apply furnishPiece_ok in Ep as [_ ->]. destruct (furnishCluster env w) as [w' [m|resp]] eqn:Ec.
    + apply furnishCluster_ok in Ec as (_ & <- & ?). right. by exists m.
    + apply furnishCluster_status in Ec. left. exists resp. rewrite Ec. split_and!; [done|set_solver|lia].
  - left. exists resp. by apply furnishPiece_status in Ep as [? ?].
Qed.

Lemma handleFurnishUp_truthful w ps r resp :
  snd (handleFurnishUp quote env ps r w) = Resp resp ->
  status resp ∈ furnish_statuses
  /\ (status resp = 200 ->
       exists m objs, client_of w m
       /\ buildPiece (fe_kustomize env) (path_join [fe_kubeDir env; PathValue ps "piece"]) = Ok objs
       /\ forall u, u ∈ objs -> exists i,
            resolves (fl_cluster w) m (fl_cluster (fst (handleFurnishUp quote env ps r w))) u i
            /\ is_Some (api_objects (M := M) (fl_cluster (fst (handleFurnishUp quote env ps r w))) !! i)).
Proof.
  set (name := PathValue ps "piece"). set (dir := path_join [fe_kubeDir env; name]).
  set (run := fun c m d => let '(c', m', result, err) := Up (fe_kustomize env) c m d in
    (mkFleet c' (Some m'), Resp match err with
      | Some e => writeFurnishError "furnish.up" name furnishMutateTimeout e (Some (Applied result, Failed result))
      | None => writeJSON 200 (BFurnished "furnish.up" name (Applied result)) end)).
  destruct (mutation_cases w name run) as [(resp' & E & Hin & Hne)|(m & Hc & E)].
  - change (snd (handleFurnishUp quote env ps r w) = Resp resp') in E. rewrite E. by intros [= <-].
  - change (handleFurnishUp quote env ps r w = run (fl_cluster w) m dir) in E. rewrite E. unfold run.
    pose proof (up_truthful (fe_kustomize env) (fl_cluster w) m dir) as Hu.
    destruct (Up (fe_kustomize env) (fl_cluster w) m dir) as [[[c' m'] res] err]. cbn [fst snd fl_cluster].
    destruct err as [e|]; intros [= <-].
    + destruct (writeFurnishError_status "furnish.up" name furnishMutateTimeout e (Some (Applied res, Failed res))).
      by split.
    + split; [set_solver|]. intros _. destruct (Hu eq_refl) as (objs & ? & ?). by exists m, objs.
Qed.

Lemma handleFurnishDown_truthful w ps r resp :
  snd (handleFurnishDown quote env ps r w) = Resp resp ->
  status resp ∈ furnish_statuses
  /\ (status resp = 200 ->
       exists m objs, client_of w m
       /\ buildPiece (fe_kustomize env) (path_join [fe_kubeDir env; PathValue ps "piece"]) = Ok objs
       /\ forall u, u ∈ objs -> exists i,
            resolves (fl_cluster w) m (fl_cluster (fst (handleFurnishDown quote env ps r w))) u i
            /\ removed (api_objects (M := M) (fl_cluster (fst (handleFurnishDown quote env ps r w)))) i).
Proof.
  set (name := PathValue ps "piece"). set (dir := path_join [fe_kubeDir env; name]).
  set (run := fun c m d => let '(c', m', err) := Down (fe_kustomize env) c m d in
    (mkFleet c' (Some m'), Resp match err with
      | Some e => writeFurnishError "furnish.down" name furnishMutateTimeout e None
      | None => writeJSON 200 (BRemoved "furnish.down" name) end)).
  destruct (mutation_cases w name run) as [(resp' & E & Hin & Hne)|(m & Hc & E)].
  - change (snd (handleFurnishDown quote env ps r w) = Resp resp') in E. rewrite E. by intros [= <-].
  - change (handleFurnishDown quote env ps r w = run (fl_cluster w) m dir) in E. rewrite E. unfold run.
    pose proof (down_truthful (fe_kustomize env) (fl_cluster w) m dir) as Hu.
    destruct (Down (fe_kustomize env) (fl_cluster w) m dir) as [[c' m'] err]. cbn [fst snd fl_cluster].
    destruct err as [e|]; intros [= <-].
    + destruct (writeFurnishError_status "furnish.down" name furnishMutateTimeout e None). by split.
    + split; [set_solver|]. intros _. destruct (Hu eq_refl) as (objs & ? & ?). by exists m, objs.
Qed.

Lemma reported_green c m p rows :
  reported c m p rows true ->
  exists objs, buildPiece (fe_kustomize env) (path_join [fe_kubeDir env; p]) = Ok objs
    /\ forall u, u ∈ objs -> green c m u.
Proof.
  unfold reported. destruct (buildPiece _ _) as [objs|e]; [|by intros [_ ?]].
  intros (items & Hf & Eq). exists objs. split; [done|]. apply (healthy_green c m objs items Hf). by rewrite <-Eq.
Qed.

(** The names a health request reports on. *)
Lemma health_names_ok name names :
  health_names quote env name = Ok names ->
  forall p, (if String.eqb name "" then exists all, pieces env = Ok all /\ p ∈ all else p = name) -> p ∈ names.
Proof.
  unfold health_names. destruct (String.eqb name ""); simpl.
  - destruct (pieces env) as [all|]; [|done]. intros [= <-] p (all' & [= <-] & ?). done.
  - destruct (furnishPiece quote env name); [|done]. intros [= <-] p ->. by left.
Qed.

Lemma health_names_status name resp : health_names quote env name = Err resp -> status resp <> 200.
Proof.
  unfold health_names. destruct (String.eqb name ""); simpl.
  - destruct (pieces env); [done|]. by intros [= <-].
  - destruct (furnishPiece quote env name) eqn:E; [done|]. intros [= <-]. by apply furnishPiece_status in E as [_ ?].
Qed.

Lemma handleFurnishHealth_truthful w ps r resp :
  snd (handleFurnishHealth quote env ps r w) = Resp resp -> status resp = 200 ->
  exists m, client_of w m
  /\ forall p, (if String.eqb (PathValue ps "piece") "" then exists all, pieces env = Ok all /\ p ∈ all
              else p = PathValue ps "piece") ->
     exists objs, buildPiece (fe_kustomize env) (path_join [fe_kubeDir env; p]) = Ok objs
     /\ forall u, u ∈ objs -> green (fl_cluster w) m u.
Proof.
  unfold handleFurnishHealth. destruct (health_names quote env (PathValue ps "piece")) as [names|e] eqn:En.
  2: { intros [= <-] Hs. by apply health_names_status in En. }
  pose proof (furnishCluster_status w) as Hst. pose proof (furnishCluster_ok w) as Hok.
  destruct (furnishCluster env w) as [w' [m|e]].
  2: { intros [= <-] Hs. by rewrite (Hst _ _ eq_refl) in Hs. }
  destruct (Hok _ _ eq_refl) as (_ & <- & Hm).
  pose proof (health_pieces_spec (fl_cluster w') m names true ∅) as Hp.
  destruct (health_pieces env (fl_cluster w') m names true ∅) as [[m' healthy] results].
  destruct Hp as (_ & _ & Hh). intros [= <-] Hs. destruct healthy; [|done].
  destruct (Hh eq_refl) as [_ Hall]. exists m. split; [exact Hm|]. intros p Hin%(health_names_ok _ _ En).
  destruct (Hall p Hin) as [rows Hr]. by eapply reported_green.
Qed.

(** * Property *)

(** C31. The furnish routes say what happened to the cluster. An undeclared piece
    never reaches it. Up answers 200 only when every object of the piece is live,
    and Down only when each is gone or terminating, where the daemon's client
    resolved it: under a mapping of its kind that the client had cached or that the
    cluster served in the course of the request, so a kind the request itself
    installs or removes counts; every other answer names a missing declaration
    (404), a broken manifest root or piece (500), an absent cluster (503), a
    decline (502) or a deadline (504). Health answers 200 only when every declared
    object of every piece asked for is live and ready where the client looked, and
    never changes the cluster. Nobody else writes to the cluster during a request. *)
Theorem furnish_routes_truthful w ps r :
  let name := PathValue ps "piece" in
  let dir := path_join [fe_kubeDir env; name] in
  (forall all, pieces env = Ok all -> name ∉ all ->
     fst (handleFurnishUp quote env ps r w) = w /\ fst (handleFurnishDown quote env ps r w) = w)
  /\ (forall resp, snd (handleFurnishUp quote env ps r w) = Resp resp ->
       status resp ∈ furnish_statuses
       /\ (status resp = 200 -> exists m objs, client_of w m /\ buildPiece (fe_kustomize env) dir = Ok objs
            /\ forall u, u ∈ objs -> exists i,
                 resolves (fl_cluster w) m (fl_cluster (fst (handleFurnishUp quote env ps r w))) u i
                 /\ is_Some (api_objects (M := M) (fl_cluster (fst (handleFurnishUp quote env ps r w))) !! i)))
  /\ (forall resp, snd (handleFurnishDown quote env ps r w) = Resp resp ->
       status resp ∈ furnish_statuses
       /\ (status resp = 200 -> exists m objs, client_of w m /\ buildPiece (fe_kustomize env) dir = Ok objs
            /\ forall u, u ∈ objs -> exists i,
                 resolves (fl_cluster w) m (fl_cluster (fst (handleFurnishDown quote env ps r w))) u i
                 /\ removed (api_objects (M := M) (fl_cluster (fst (handleFurnishDown quote env ps r w)))) i))
  /\ (fst (handleFurnishHealth quote env ps r w) ≡ w
      /\ forall resp, snd (handleFurnishHealth quote env ps r w) = Resp resp -> status resp = 200 ->
         exists m, client_of w m
         /\ forall p, (if String.eqb name "" then exists all, pieces env = Ok all /\ p ∈ all else p = name) ->
            exists objs, buildPiece (fe_kustomize env) (path_join [fe_kubeDir env; p]) = Ok objs
            /\ forall u, u ∈ objs -> green (fl_cluster w) m u).
Proof.
  cbn zeta. split_and!.
  - intros all Ha Hn.
    assert (Hp : exists resp, furnishPiece quote env (PathValue ps "piece") = Err resp).
    { destruct (furnishPiece quote env (PathValue ps "piece")) as [dir|resp] eqn:E; [|by eexists].
      apply furnishPiece_ok in E as [(all' & Ha' & Hin) _]. congruence. }
    destruct Hp as [resp Hp]. unfold handleFurnishUp, handleFurnishDown. by rewrite Hp.
  - intros resp. apply handleFurnishUp_truthful.
  - intros resp. apply handleFurnishDown_truthful.
  - apply handleFurnishHealth_reads.
  - intros resp. apply handleFurnishHealth_truthful.
Qed.

End lemmas.

End httpfurnish.
