(* ===== verification/HttpSurface.v ===== *)
(** The routes of pkg/httpapi whose handlers are other packages': the counters,
    model discovery, introspection and the agent tools' endpoint.

    They share a [Surface]: the counters, and what the agent tools sent out of the
    process, oldest first. [Ports] is what they ask of the outside, with the
    aggregator and the export engine as the server was given them. *)

From S2P Require Import Prelude GoStrings State Config Skills Exports Discovery HttpAuth.
Import httpauth.

Module httpsurface.

Record Surface := mkSurface {
  sf_counters : gmap string Z;
  sf_outbox : list skills.effect
}.

Record Ports (V : Type) := mkPorts {
  po_range : gmap string Z -> list (string * Z);        (* the order of the counters *)
  po_request_ok : string -> bool;
  po_get : string -> result string (Z * result string (list string));
  po_engine : exports.Engine;
  po_readdir : string -> option (list exports.dirent);
  po_agg : skills.Aggregator;
  po_Sprint : V -> string;
  po_hostname : string -> result string string;
  po_out : skills.Outside;
  po_decode_rpc : string -> result string (string * string * string);
  po_decode_params : string -> result string (string * list (string * V))
}.
Arguments mkPorts {V}.
Arguments po_range {V}.
Arguments po_request_ok {V}.
Arguments po_get {V}.
Arguments po_engine {V}.
Arguments po_readdir {V}.
Arguments po_agg {V}.
Arguments po_Sprint {V}.
Arguments po_hostname {V}.
Arguments po_out {V}.
Arguments po_decode_rpc {V}.
Arguments po_decode_params {V}.

Section handlers.
Context {V : Type}.
Variable quote : string -> string.
Variable po : Ports V.
Variable cfg : config.DelightConfig.

Definition handleMetrics : handler Surface := fun _ _ sf =>
  (sf, Resp (mkResponse 200 false (BPlain (metrics.Handler (po_range po) (sf_counters sf))))).

Definition handleDiscovery : handler Surface := fun _ _ sf =>
  (sf, match discovery.DiscoverLocalLLMs (po_request_ok po) (po_get po) cfg with
       | Some sources => Resp (writeJSON 200 (BSources sources))
       | None => Panicked
       end).

Definition handleIntrospect (machines : gmap string state.Machine) : handler Surface := fun ps _ sf =>
  (sf, Resp (writeJSON 200 (BIntrospect
         (introspect.ServiceStatus (PathValue ps "name") machines
            (exports.HasBashFragment (po_readdir po) (po_engine po)))))).

Definition mcp_outcome (resp : skills.mcp_response) : outcome :=
  match resp with
  | skills.MHttpError code text => Resp (mkResponse code false (BPlain text))
  | skills.MRpc id r => Resp (writeJSON 200 (BRpc id r))
  end.

(** A body that does not read fails the decoder. *)
Definition handleMCP : handler Surface := fun _ r sf =>
  let '(es, resp) :=
    skills.HandleMCP quote (po_Sprint po) (po_hostname po) (po_out po)
      (match req_body r with Ok _ => po_decode_rpc po | Err e => fun _ => Err e end)
      (po_decode_params po) (po_agg po) (method r)
      (match req_body r with Ok b => b | Err _ => "" end) in
  (mkSurface (sf_counters sf) (sf_outbox sf ++ es), mcp_outcome resp).

End handlers.

(** What a request an agent tool sends is on arrival: its method, and the header
    that Header.Set made of the bearer. *)
Definition arrives (e : skills.effect) (r : Request) : Prop :=
  match e with
  | skills.Exec _ _ => False
  | skills.Http m _ bearer =>
      method r = m /\ authorization r = if String.eqb bearer "" then "" else bearerPrefix +:+ bearer
  end.

(** ** Instances for the properties' inputs *)

Definition demo_ports : Ports string :=
  mkPorts map_to_list (fun _ => true) traefik.w_get exports.w_engine (fun _ => None) skills.w_agg
    (fun v => v) skills.w_host skills.w_out
    (fun b => if String.eqb b "call" then Ok ("1", "tools/call", "params") else Err "unexpected end of JSON input")
    (fun _ => Ok ("delightd_furnish_up", [("piece", "kafka")])).

Definition demo_surface : Surface := mkSurface ∅ [].

End httpsurface.
