(* ===== verification/HttpServe.v ===== *)
(** pkg/httpapi: the route table, and what the whole control surface promises.

    [Mux] registers the routes in the order of Server.Mux. The state is the
    handlers' [World], the [Fleet] the furnish routes work on, and the [Surface] of
    the routes of other packages; states are equivalent when their worlds and
    surfaces are equal and their fleets equivalent. *)

From S2P Require Import Prelude GoStrings State Proto KV Registry Enablement Config GitState Furnish HttpAuth HttpApi Skills HttpRegister HttpFurnish HttpSurface.
From Stdlib Require Import Ascii.
Import proto bbolt kube httpauth httpapi httpregister httpfurnish httpsurface.

Module httpserve.

Section mux.
Context {B EB : Type} `{Bucket B} `{Bucket EB}.
Context `{Codec Registration} `{Codec enablement.Record_} `{Codec RegisterRequest}
  `{Codec RegisterResponse} `{Codec ResolvedService} `{Codec Service} `{Codec Project}.
Context {S M : Type} `{ApiLaws S M}.
Variable quote : string -> string.
Variable format_time : Z -> string.
Variable valid_full_name : string -> bool.
Variable f2i : Z -> Z.
Variable env : Env.
Variable s : Server.
Variable fenv : FurnishEnv (M := M).

Abbreviation World_ := (World (B := B) (EB := EB)).
Abbreviation State_ := (World_ * Fleet (S := S) (M := M) * Surface)%type.

#[local] Instance world_equiv : Equiv World_ := (=).
#[local] Instance world_equivalence : Equivalence (≡@{World_}).
Proof. unfold equiv, world_equiv. apply _. Qed.
#[local] Instance surface_equiv : Equiv Surface := (=).
#[local] Instance surface_equivalence : Equivalence (≡@{Surface}).
Proof. unfold equiv, surface_equiv. apply _. Qed.

Context {V : Type}.
Variable po : Ports V.

Definition on_world (h : handler World_) : handler State_ := fun ps r w =>
  let '(w1, out) := h ps r w.1.1 in ((w1, w.1.2, w.2), out).
Definition on_fleet (h : handler (Fleet (S := S) (M := M))) : handler State_ := fun ps r w =>
  let '(f, out) := h ps r w.1.2 in ((w.1.1, f, w.2), out).
Definition on_surface (h : World_ -> handler Surface) : handler State_ := fun ps r w =>
  let '(sf, out) := h w.1.1 ps r w.2 in ((w.1, sf), out).

(** GET /readyz: the cluster probe goes through the furnish client once it is wired. *)
Definition readyz_route : handler State_ := fun ps r w =>
  let '(fl, c) := clusterReady fenv (e_cluster env) w.1.2 in
  let '(w1, out) := handleReadyz (set_cluster c env) s ps r w.1.1 in ((w1, fl, w.2), out).

Definition mcpEnabled : bool :=
  let skills := config.AgentSkills (config.System (s_cfg s)) in
  config.Enabled skills && existsb (fun v => String.eqb v "mcp") (config.ExposeVia skills).

Inductive entry := Route (pattern : string) (h : handler State_)
                 | Citizen (pattern : string) (h : handler State_).

Definition add_route (m : ServeMux State_) (e : entry) : ServeMux State_ :=
  match e with
  | Route p h => register (s_controlToken s) p h m
  | Citizen p h => registerCitizenRoute p h m
  end.

Definition route_table : list entry :=
  [ Route "GET /health" (on_world (handleHealth s));
    Route "GET /readyz" readyz_route;
    Route "GET /metrics" (on_surface (fun _ => handleMetrics po));
    Route "GET /discovery/llms" (on_surface (fun _ => handleDiscovery po (s_cfg s)));
    Route "GET /projects/{name}/state" (on_world handleProjectState);
    Route "POST /projects/{name}/backup" (on_world (handleBackup env f2i));
    Route "POST /projects/{name}/reset" (on_world (handleReset env f2i));
    Route "GET /projects" (on_world (handleProjectsAll env s));
    Route "GET /registrations" (on_world (handleRegistrations env));
    Citizen "POST /register" (on_world (handleRegister quote valid_full_name env s));
    Route "GET /state" (on_world (handleStateAll format_time env s));
    Route "GET /state/{name}" (on_world (handleStateGet format_time env s));
    Route "PUT /state/{name}" (on_world (handleStatePut format_time env s));
    Route "GET /git" (on_world (handleGitAll env s));
    Route "GET /projects/{name}/git" (on_world (handleProjectGit env s));
    Route "GET /resolve/{name}" (on_world (handleResolve env));
    Route "GET /services" (on_world (handleServicesAll env s));
    Route "GET /services/{name}" (on_world (handleServiceByName env s));
    Route "GET /projects/{name}/introspect" (on_surface (fun w => handleIntrospect po (w_machines w)));
    Route "GET /furnish/pieces" (on_fleet (handleFurnishPieces fenv));
    Route "GET /furnish/health" (on_fleet (handleFurnishHealth quote fenv));
    Route "GET /furnish/health/{piece}" (on_fleet (handleFurnishHealth quote fenv));
    Route "POST /furnish/{piece}/up" (on_fleet (handleFurnishUp quote fenv));
    Route "POST /furnish/{piece}/down" (on_fleet (handleFurnishDown quote fenv)) ]
  ++ (if mcpEnabled then [Route "POST /mcp" (on_surface (fun _ => handleMCP quote po))] else []).

Definition Mux : ServeMux State_ := fold_left add_route route_table (mkServeMux [] [] []).

Definition serve_request (r : Request) (w : State_) : State_ * outcome := serve Mux r w.

(** * Lemmas *)

Definition entry_ok (e : entry) : Prop :=
  match e with
  | Route p h => isMutatingPattern p = true \/ read_only h
  | Citizen p _ => p = "POST /register"
  end.

Lemma guarded_fold es m :
  guarded (s_controlToken s) ["POST /register"] m -> Forall entry_ok es ->
  guarded (s_controlToken s) ["POST /register"] (fold_left add_route es m).
Proof.
  intros Hm He. revert m Hm. induction He as [|e es He _ IH]; intros m Hm; [done|].
  apply IH. destruct e as [p h|p h]; cbn [add_route].
  - by apply guarded_register.
  - apply guarded_citizen; [done|]. simpl in He. subst. by left.
Qed.

Lemma on_world_reads h : (forall ps r w, fst (h ps r w) = w) -> read_only (on_world h).
Proof.
  intros Hh ps r [[w f] sf]. unfold on_world. pose proof (Hh ps r w) as E. cbn [fst snd].
  destruct (h ps r w) as [w1 out]. simpl in E. by subst w1.
Qed.

Lemma on_fleet_reads h : read_only h -> read_only (on_fleet h).
Proof.
  intros Hh ps r [[w f] sf]. unfold on_fleet. pose proof (Hh ps r f) as E. cbn [fst snd].
  by destruct (h ps r f) as [f1 out].
Qed.

Lemma on_surface_reads h : (forall w, read_only (h w)) -> read_only (on_surface h).
Proof.
  intros Hh ps r [[w f] sf]. unfold on_surface. pose proof (Hh w ps r sf) as E. cbn [fst snd].
  by destruct (h w ps r sf) as [sf1 out].
Qed.

Lemma readyz_reads : read_only readyz_route.
Proof.
  intros ps r [[w f] sf]. unfold readyz_route, clusterReady, LazyClient. cbn [fst snd].
  destruct (fe_wired fenv); cbn [negb]; [|done].
  by destruct (fl_client f), (fe_build fenv).
Qed.

Lemma handleServicesAll_reads ps r w : fst (handleServicesAll (B := B) (EB := EB) env s ps r w) = w.
Proof.
  unfold handleServicesAll. cbv zeta.
  destruct (if String.eqb (trim_space (query_type r)) "" then _ else _) as [want []]; done.
Qed.

Lemma route_table_ok : Forall entry_ok route_table.
Proof.
  unfold route_table. apply Forall_app. split.
  - repeat (apply Forall_cons; split); [..|by apply Forall_nil];
      try first [by left|reflexivity|by right; apply readyz_reads|by right; apply on_world_reads|by right; apply on_surface_reads|by right; intros ps r w].
    + right. apply on_world_reads, handleServicesAll_reads.
    + right. apply on_fleet_reads, handleFurnishHealth_reads.
    + right. apply on_fleet_reads, handleFurnishHealth_reads.
  - destruct mcpEnabled; [|constructor]. apply Forall_cons. split; [by left|constructor].
Qed.

Lemma Mux_guarded : guarded (s_controlToken s) ["POST /register"] Mux.
Proof. apply guarded_fold; [apply guarded_nil|apply route_table_ok]. Qed.

Lemma literal_segments x segs ps :
  wildcard x = None -> match_segments [x] segs = Some ps -> segs = [x] /\ ps = [].
Proof.
  intros Hx. destruct segs as [|y [|z l]]; cbn [match_segments]; rewrite ?Hx; [done|..];
    destruct (String.eqb_spec x y) as [<-|]; done || by intros [= <-].
Qed.

Lemma post_method path m : method_matches ("POST " +:+ path) m = true -> m = "POST".
Proof.
  unfold method_matches, pattern_method. change ("POST " +:+ path) with ("POST" +:+ String " "%char path).
  rewrite cut_app by done. cbn [String.eqb]. rewrite orb_false_r. by intros <-%String.eqb_eq.
Qed.

Lemma takes_register r :
  takes_open ["POST /register"] r -> method r = "POST" /\ segments r = ["register"].
Proof.
  intros (p & ->%list_elem_of_singleton & Hm & [ps Hs]).
  apply (literal_segments "register") in Hs as [Hs _]; [|done]. by apply (post_method "/register") in Hm.
Qed.

(** A write without the token is answered by the gate, or by nobody. *)
Lemma serve_refuses r w :
  is_write (method r) = true -> ~ authorized (s_controlToken s) r ->
  ~ (method r = "POST" /\ segments r = ["register"]) ->
  fst (serve_request r w) = w
  /\ exists resp, snd (serve_request r w) = Resp resp
     /\ (status resp = (if String.eqb (s_controlToken s) "" then 503 else 401)
        \/ (find_route Mux r = None /\ (status resp = 404 \/ status resp = 405))).
Proof.
  intros Hw Ha Hn.
  assert (Ho : ~ takes_open ["POST /register"] r) by (by intros Ho%takes_register).
  unfold serve_request. rewrite (guarded_refuses _ _ _ r w Mux_guarded Hw Ha Ho).
  split; [done|]. eexists. split; [done|]. destruct (find_route Mux r) as [hp|].
  + left. by destruct (String.eqb (s_controlToken s) "").
  + right. split; [done|]. destruct (other_method Mux r); simpl; auto.
Qed.

(** ** What a route may send out *)

Definition entry_handler (e : entry) : handler State_ := match e with Route _ h | Citizen _ h => h end.

(** The handler the mux is given. *)
Definition installed (e : entry) : string * handler State_ :=
  match e with
  | Route p h => (p, if isMutatingPattern p then requireBearer (s_controlToken s) h else h)
  | Citizen p h => (p, h)
  end.

Lemma routes_fold es m : routes (fold_left add_route es m) = routes m ++ map installed es.
Proof.
  revert m. induction es as [|e es IH]; intros m; cbn [fold_left map]; [by rewrite app_nil_r|].
  rewrite IH. destruct e; cbn [add_route installed register registerCitizenRoute routes]; by rewrite <-app_assoc.
Qed.

(** It leaves what the agent tools sent, and the counters, alone. *)
Definition quiet (h : handler State_) : Prop := forall ps r w, snd (fst (h ps r w)) = snd w.

Lemma quiet_world h : quiet (on_world h).
Proof. intros ps r [[w f] sf]. unfold on_world. cbn [fst snd]. by destruct (h ps r w). Qed.

Lemma quiet_fleet h : quiet (on_fleet h).
Proof. intros ps r [[w f] sf]. unfold on_fleet. cbn [fst snd]. by destruct (h ps r f). Qed.

Lemma quiet_readyz : quiet readyz_route.
Proof.
  intros ps r [[w f] sf]. unfold readyz_route. cbn [fst snd]. by destruct (clusterReady _ _ f).
Qed.

Lemma quiet_bearer token h : quiet h -> quiet (requireBearer token h).
Proof. intros Hh ps r w. unfold requireBearer. by repeat case_match. Qed.

Definition mcp_route : entry := Route "POST /mcp" (on_surface (fun _ => handleMCP quote po)).

Lemma route_table_quiet : Forall (fun e => quiet (entry_handler e) \/ e = mcp_route) route_table.
Proof.
  unfold route_table. apply Forall_app. split.
  - repeat (apply Forall_cons; split); [..|by apply Forall_nil];
      first [by left; apply quiet_readyz|by left; apply quiet_world|by left; apply quiet_fleet|left; intros ps r [[w f] sf]; done].
  - destruct mcpEnabled; [|constructor]. apply Forall_cons. split; [by right|constructor].
Qed.

(** Serving a request leaves the surface alone, or runs the MCP handler behind the gate. *)
Lemma serve_surface r w :
  snd (fst (serve_request r w)) = snd w
  \/ (authorized (s_controlToken s) r /\ method r = "POST" /\ segments r = ["mcp"]
      /\ snd (fst (serve_request r w)) = fst (handleMCP quote po [] r (snd w))).
Proof.
  unfold serve_request, serve. destruct (find_route Mux r) as [[h ps]|] eqn:Ef; [|by left].
  apply find_route_elem in Ef as (p & Hin & Hm & Hs).
  unfold Mux in Hin. rewrite routes_fold in Hin. cbn [routes app] in Hin.
  apply list_elem_of_fmap in Hin as (e & Eh & He).
  destruct (proj1 (Forall_forall _ _) route_table_quiet e He) as [Hq|Eq].
  - left. enough (Hh : quiet h) by apply Hh. destruct e as [p' h'|p' h']; cbn in Eh; simplify_eq; [|done].
    destruct (isMutatingPattern p'); [by apply quiet_bearer|done].
  - subst e. cbn in Eh. simplify_eq. destruct (decide (authorized (s_controlToken s) r)) as [Ha|Hn].
    + right. rewrite requireBearer_pass by done. split; [done|].
      apply (literal_segments "mcp") in Hs as [Hs ->]; [|done].
      split_and!; [by apply post_method in Hm|done|]. unfold on_surface. cbn [fst snd].
      by destruct (handleMCP quote po [] r (snd w)).
    + left. by rewrite requireBearer_refuses.
Qed.

(** ** What a request may move *)

(** The world before and after: at most one component moved, by the operation its
    owner has for it. *)
Inductive moved (w w' : World_) : Prop :=
| MovedNot : w' = w -> moved w w'
| MovedMachine n m e :
    (e = state.EventTriggerBackup \/ e = state.EventClearError) -> w_machines w !! n = Some m ->
    w' = set_machines w (<[n := fst (state.Transition f2i (e_clock env) m e)]> (w_machines w)) -> moved w w'
| MovedRegistry db reg :
    w_reg w = Some db -> w' = set_reg w (fst (registry.Upsert (e_reg_tx env) reg db)) -> moved w w'
| MovedEnablement db : w' = set_enablement w db -> moved w w'
| MovedBus ev : w' = add_event w ev -> moved w w'.

(** Nothing but a registration or its refusal. *)
Definition registers (w w' : World_) : Prop :=
  w' = w \/ (exists ev, w' = add_event w ev)
  \/ exists db reg, w_reg w = Some db /\ w' = set_reg w (fst (registry.Upsert (e_reg_tx env) reg db)).

Lemma registers_moved w w' : registers w w' -> moved w w'.
Proof.
  intros [->|[[ev ->]|(db & reg & Hr & ->)]]; [by constructor 1|by econstructor 5|by econstructor 3].
Qed.

Lemma handleRegister_registers ps r w :
  registers w (fst (handleRegister (B := B) (EB := EB) quote valid_full_name env s ps r w)).
Proof.
  assert (Hn : forall d, registers w (fst (notRegistered env s d w))).
  { intros d. unfold notRegistered, emitNotRegistered. cbn [fst].
    destruct (s_has_events s); [right; left; by eexists|by left]. }
  unfold handleRegister. destruct (req_body r) as [body|e]; [|apply Hn].
  destruct (unmarshal (limit_reader (2 ^ 20) body)) as [req|e]; [|apply Hn].
  destruct (gates quote valid_full_name env s req) as [d|], (rq_endpoints req) as [|ep rest];
    [apply Hn|apply Hn|by left|]. cbv zeta. unfold upsert.
  destruct (w_reg w) as [db|] eqn:Er.
  2: { destruct (marshal (registration_of env req ep)); [by left|].
       destruct (negb (String.eqb "" "")) eqn:E; [done|by left]. }
  destruct (registry.Upsert (e_reg_tx env) (registration_of env req ep) db) as [db' [holder [e|]]] eqn:Eu.
  - pose proof (registry.Upsert_failed _ _ _ _ _ _ Eu) as ->. rewrite (set_reg_same w db Er).
    destruct (negb (String.eqb holder "")); [apply Hn|by left].
  - right. right. exists db, (registration_of env req ep). rewrite Eu. split; [done|].
    by destruct (marshal (response_of req ep)).
Qed.

Lemma machine_action_moved event done_ ps r w :
  (event = state.EventTriggerBackup \/ event = state.EventClearError) ->
  moved w (fst (machine_action env f2i event done_ ps r w)).
Proof.
  intros He. unfold machine_action. destruct (w_machines w !! PathValue ps "name") as [m|] eqn:Em;
    [|by constructor 1].
  destruct (state.Transition f2i (e_clock env) m event) as [m' err] eqn:Et.
  econstructor 2; [exact He|exact Em|]. rewrite Et. by destruct err.
Qed.

Lemma handleStatePut_moved ps r w : moved w (fst (handleStatePut format_time env s ps r w)).
Proof.
  unfold handleStatePut. destruct (w_enablement w) as [db|]; [|by constructor 1].
  destruct (negb _); [by constructor 1|].
  destruct (match req_body r with Ok b => _ | Err e => _ end) as [[[st reason] actor]|e]; [|by constructor 1].
  destruct (enablement.Put _ _ _ db) as [db' [e|]]; econstructor 4; reflexivity.
Qed.

Definition moves_world (h : handler State_) : Prop := forall ps r w, moved w.1.1 (fst (h ps r w)).1.1.

Lemma moves_world_on h : (forall ps r w, moved w (fst (h ps r w))) -> moves_world (on_world h).
Proof.
  intros Hh ps r [[w f] sf]. unfold on_world. cbn [fst snd]. specialize (Hh ps r w).
  by destruct (h ps r w).
Qed.

Lemma moves_world_same h : (forall ps r w, (fst (h ps r w)).1.1 = w.1.1) -> moves_world h.
Proof. intros Hh ps r w. rewrite Hh. by constructor 1. Qed.

Lemma moves_world_fleet h : moves_world (on_fleet h).
Proof. apply moves_world_same. intros ps r w. unfold on_fleet. by destruct (h ps r w.1.2). Qed.

Lemma moves_world_surface h : moves_world (on_surface h).
Proof. apply moves_world_same. intros ps r w. unfold on_surface. by destruct (h w.1.1 ps r w.2). Qed.

Lemma moves_world_readyz : moves_world readyz_route.
Proof. apply moves_world_same. intros ps r w. unfold readyz_route. by destruct (clusterReady _ _ w.1.2). Qed.

Lemma moves_world_bearer token h : moves_world h -> moves_world (requireBearer token h).
Proof. intros Hh ps r w. unfold requireBearer. repeat case_match; try apply Hh; by constructor 1. Qed.

Lemma route_table_moves : Forall (fun e => moves_world (entry_handler e)) route_table.
Proof.
  unfold route_table. apply Forall_app. split.
  - repeat (apply Forall_cons; split); [..|by apply Forall_nil];
      first [apply moves_world_readyz|apply moves_world_fleet|apply moves_world_surface|apply moves_world_on; intros ps r w];
      try (by constructor 1).
    + apply machine_action_moved. by left.
    + apply machine_action_moved. by right.
    + apply registers_moved, handleRegister_registers.
    + apply handleStatePut_moved.
    + rewrite handleServicesAll_reads. by constructor 1.
  - destruct mcpEnabled; [|constructor]. apply Forall_cons. split; [apply moves_world_surface|constructor].
Qed.

(** The entry whose handler answers a request, if there is one. *)
Lemma serve_entry r w :
  fst (serve_request r w) = w
  \/ exists e ps, e ∈ route_table /\ serve_request r w = snd (installed e) ps r w.
Proof.
  unfold serve_request, serve. destruct (find_route Mux r) as [[h ps]|] eqn:Ef; [|by left].
  apply find_route_elem in Ef as (p & Hin & _ & _).
  unfold Mux in Hin. rewrite routes_fold in Hin. cbn [routes app] in Hin.
  apply list_elem_of_fmap in Hin as (e & Eh & He). right. exists e, ps. split; [done|]. by rewrite <-Eh.
Qed.

Lemma serve_moved r w : moved w.1.1 (fst (serve_request r w)).1.1.
Proof.
  destruct (serve_entry r w) as [->|(e & ps & He & ->)]; [by constructor 1|].
  pose proof (proj1 (Forall_forall _ _) route_table_moves e He) as Hm.
  destruct e as [p h|p h]; cbn [installed snd]; [|apply Hm].
  destruct (isMutatingPattern p); [by apply moves_world_bearer|apply Hm].
Qed.

Lemma route_table_citizens :
  Forall (fun e => match e with Route _ _ => True
                   | Citizen _ h => h = on_world (handleRegister quote valid_full_name env s) end) route_table.
Proof. unfold route_table. destruct mcpEnabled; repeat constructor. Qed.

(** Without the token a request may register, and move nothing else. *)
Lemma serve_unauthorized r w :
  ~ authorized (s_controlToken s) r ->
  let w' := fst (serve_request r w) in
  registers w.1.1 w'.1.1 /\ w'.1.2 ≡ w.1.2 /\ w'.2 = w.2.
Proof.
  intros Ha. cbn zeta. destruct (serve_entry r w) as [->|(e & ps & He & ->)]; [by split_and!; [left|..]|].
  pose proof (proj1 (Forall_forall _ _) route_table_ok e He) as Hok.
  pose proof (proj1 (Forall_forall _ _) route_table_citizens e He) as Hc.
  destruct e as [p h|p h]; cbn [installed snd].
  - destruct (isMutatingPattern p) eqn:Ep; [rewrite requireBearer_refuses by done; by split_and!; [left|..]|].
    destruct Hok as [?|Hr]; [congruence|]. destruct (Hr ps r w) as [[Hw Hf] Hs]. by split_and!; [left|..].
  - subst h. pose proof (handleRegister_registers ps r w.1.1) as Hr. unfold on_world.
    by destruct (handleRegister _ _ _ _ _ _ w.1.1).
Qed.

(** The registry moves on one route. *)
Definition keeps_reg (h : handler State_) : Prop := forall ps r w, w_reg (fst (h ps r w)).1.1 = w_reg w.1.1.

Lemma keeps_reg_world h : (forall ps r w, w_reg (fst (h ps r w)) = w_reg w) -> keeps_reg (on_world h).
Proof.
  intros Hh ps r [[w f] sf]. unfold on_world. cbn [fst snd]. specialize (Hh ps r w). by destruct (h ps r w).
Qed.

Lemma keeps_reg_moves h : (forall ps r w, (fst (h ps r w)).1.1 = w.1.1) -> keeps_reg h.
Proof. intros Hh ps r w. by rewrite Hh. Qed.

Lemma route_table_keeps_reg :
  Forall (fun e => match e with Route _ h => keeps_reg h | Citizen p _ => p = "POST /register" end) route_table.
Proof.
  unfold route_table. apply Forall_app. split.
  - repeat (apply Forall_cons; split); [..|by apply Forall_nil];
      first [done|apply keeps_reg_world; intros ps r w; try done|apply keeps_reg_moves; intros ps r w;
             unfold readyz_route, on_fleet; by match goal with |- context [let '(_, _) := ?x in _] => destruct x end].
    + unfold handleBackup, machine_action. by repeat case_match.
    + unfold handleReset, machine_action. by repeat case_match.
    + unfold handleStatePut. by repeat case_match.
    + by rewrite handleServicesAll_reads.
  - destruct mcpEnabled; [|constructor]. apply Forall_cons. split; [|constructor].
    apply keeps_reg_moves. intros ps r w. unfold on_surface. by destruct (handleMCP quote po ps r w.2).
Qed.

Lemma serve_reg r w :
  w_reg (fst (serve_request r w)).1.1 = w_reg w.1.1
  \/ (method r = "POST" /\ segments r = ["register"]
      /\ (fst (serve_request r w)).1.1 = fst (handleRegister quote valid_full_name env s [] r w.1.1)).
Proof.
  unfold serve_request, serve. destruct (find_route Mux r) as [[h ps]|] eqn:Ef; [|by left].
  apply find_route_elem in Ef as (p & Hin & Hm & Hs).
  unfold Mux in Hin. rewrite routes_fold in Hin. cbn [routes app] in Hin.
  apply list_elem_of_fmap in Hin as (e & Eh & He).
  pose proof (proj1 (Forall_forall _ _) route_table_keeps_reg e He) as Hk.
  pose proof (proj1 (Forall_forall _ _) route_table_citizens e He) as Hc.
  destruct e as [p' h'|p' h']; cbn [installed] in Eh.
  - left. destruct (isMutatingPattern p'); simplify_eq; [|apply Hk].
    unfold requireBearer. repeat case_match; try done; apply Hk.
  - right. simplify_eq. apply (literal_segments "register") in Hs as [Hs ->]; [|done].
    apply post_method in Hm. split_and!; [done..|]. unfold on_world. by destruct (handleRegister _ _ _ _ _ _ w.1.1).
Qed.

(** * Properties *)

(** C3. Nothing changes the daemon or its cluster through the control port without
    the operator's token, except a frood's own registration: whatever the request
    and the state, if serving it changed the machines, the registry, the
    enablement records, the bus or the cluster, the request carried the provisioned bearer or was POST /register; and
    a write that does not is answered 503 when no token is provisioned, 401
    otherwise, or by no route at all, with the state untouched. *)
Theorem control_surface_safe r w :
  (~ fst (serve_request r w) ≡ w ->
     authorized (s_controlToken s) r \/ (method r = "POST" /\ segments r = ["register"]))
  /\ (is_write (method r) = true -> ~ authorized (s_controlToken s) r ->
      ~ (method r = "POST" /\ segments r = ["register"]) ->
      fst (serve_request r w) = w
      /\ exists resp, snd (serve_request r w) = Resp resp
         /\ (status resp = (if String.eqb (s_controlToken s) "" then 503 else 401)
            \/ (find_route Mux r = None /\ (status resp = 404 \/ status resp = 405)))).
Proof.
  split.
  - intros Hc. destruct (guarded_changes _ _ _ r w Mux_guarded Hc) as [|Ho%takes_register]; auto.
  - apply serve_refuses.
Qed.

(** C20. The agent tools' endpoint and the gate fit together when the aggregator was
    given the server's own token: serving a request sends nothing out, unless it is
    an authorized POST /mcp that calls a registered tool, which then acts once; a
    mutation it sends to a loopback host arrives with the header the gate passes,
    and what it sends anywhere else, or reads, arrives with none. *)
Theorem mcp_dispatch_authenticates r w :
  skills.controlToken (po_agg po) = s_controlToken s ->
  exists es, sf_outbox (snd (fst (serve_request r w))) = sf_outbox (snd w) ++ es
  /\ (es = [] \/ exists e k tool args, es = [e]
        /\ authorized (s_controlToken s) r /\ method r = "POST" /\ segments r = ["mcp"]
        /\ skills.tools (po_agg po) !! k = Some tool
        /\ skills.permitted quote (po_Sprint po) (po_hostname po) (po_agg po) (skills.t_Handler tool) args e
        /\ forall r', arrives e r' -> exists m url b, e = skills.Http m url b
           /\ if skills.isMutatingMethod m && skills.isLoopbackURL (po_hostname po) url
              then authorized (s_controlToken s) r' else authorization r' = "").
Proof.
  intros Ht. destruct (serve_surface r w) as [->|(Ha & Hm & Hs & ->)].
  { exists []. split; [by rewrite app_nil_r|by left]. }
  unfold handleMCP. destruct (skills.HandleMCP _ _ _ _ _ _ _ _ _) as [es resp] eqn:E. cbn [fst sf_outbox].
  exists es. split; [done|]. apply skills.HandleMCP_calls in E as [[-> _]|(k & tool & args & id & o & isErr & _ & Hk & Hc & _)];
    [by left|]. apply skills.call_tool_permitted in Hc as [[-> _]|(e & -> & Hp)]; [by left|right].
  exists e, k, tool, args. split_and!; try done. intros r'. destruct e as [c argv|m url b]; [done|].
  intros [_ Hh]. exists m, url, b. split; [done|]. destruct Hp as (_ & Hb & Hn). destruct Ha as [Hne _].
  destruct (skills.isMutatingMethod m && skills.isLoopbackURL _ url) eqn:Em.
  - rewrite (Hb eq_refl), Ht in Hh. apply String.eqb_neq in Hne as Hne'. by rewrite Hne' in Hh.
  - destruct (String.eqb_spec b "") as [|Hb']; [done|]. destruct (Hn Hb') as (_ & Hx1 & Hx2).
    by rewrite Hx1, Hx2 in Em.
Qed.

End mux.

(** * The properties at concrete inputs *)

(** Encoders: real ones for what is read back, constants for the rest. *)
#[local] Instance w_reg_codec : Codec Registration := countable_codec Registration.
#[local] Instance w_reg_laws : CodecLaws Registration := countable_codec_laws Registration.
#[local] Instance w_rec_codec : Codec enablement.Record_ := enablement.record_codec.
#[local] Instance w_rec_laws : enablement.JsonLaws := enablement.record_codec_laws.

(** The announce of project "obs", whose heartbeat is the only subject it speaks. *)
Definition announce : RegisterRequest :=
  mkRegisterRequest "obs" (Some (mkIdentity "obs-svc" "obs" "1"))
    (Some (mkContractDescriptor [mkContractRef requiredEmitSubject ""] [] []))
    [mkEndpoint "" "obs.fleet:80"].

#[local] Instance w_req_codec : Codec RegisterRequest := {|
  marshal _ := Ok "announce";
  unmarshal b := if String.eqb b "announce" then Ok announce else Err "syntax error" |}.
#[local] Instance w_resp_codec : Codec RegisterResponse := {|
  marshal m := Ok (get_address (rs_endpoint m)); unmarshal _ := Err "not read" |}.
#[local] Instance w_res_codec : Codec ResolvedService := {|
  marshal m := Ok (rv_address m); unmarshal _ := Err "not read" |}.
#[local] Instance w_svc_codec : Codec Service := {|
  marshal m := Ok (sv_name m); unmarshal _ := Err "not read" |}.
#[local] Instance w_prj_codec : Codec Project := {|
  marshal m := Ok (pj_name m); unmarshal _ := Err "not read" |}.

#[local] Existing Instances furnish.demo_api furnish.demo_laws.

Abbreviation table := (gmap string string).

Definition mcp_system : config.SystemConfig :=
  config.mkSystemConfig "" "" "" "/etc/delightd" (config.mkAgentSkillsConfig true ["mcp"])
    (config.mkDaemonConfig 0 "") (config.mkLLMDiscoveryConfig []) (config.mkKafkaConfig [] "" "").

Definition w_cfg : config.DelightConfig :=
  config.mkDelightConfig mcp_system [config.project_at "obs" "~/p"; config.project_at "kaf" "~/q"] false [].

Definition w_server : Server := mkServer w_cfg false true "sesame".

Definition w_env : Env :=
  mkEnv (state.mkClock 1000 1001 0) 5000000000 9000 TxOk TxOk TxOk
    (fun s => Ok (String.eqb s requiredEmitSubject)) (fun _ => Ok 200) (fun _ => None) None
    watcher.one_repo (fun _ => false) [0%nat; 1%nat] (fun _ => Ok ("enabled", "", "jane")).

Definition w_world : World (B := table) (EB := table) :=
  mkWorld {["obs" := state.NewMachine "obs" 1]} (Some ∅) (Some ∅) [].

Definition post (path : list string) (auth : string) : Request :=
  mkRequest "POST" path "" auth (Ok "announce").

Definition w_fenv : FurnishEnv (M := unit) :=
  mkFurnishEnv true (Ok tt) "/etc/kube" (fun _ => Ok "agg") (fun _ => Ok ["kafka"]) furnish.two_objects None.

Definition w_fleet : Fleet (S := furnish.demo) (M := unit) := mkFleet furnish.empty_cluster None.

Abbreviation full_world := (World (B := table) (EB := table) * Fleet (S := furnish.demo) (M := unit) * Surface)%type.

Definition w_state : full_world := (w_world, w_fleet, demo_surface).

Definition w_serve : Request -> full_world -> full_world * outcome :=
  serve_request (fun s => s) (fun _ => "t") (fun _ => true) (fun _ => 0) w_env w_server w_fenv demo_ports.

Lemma control_surface_safe_witness :
  fst (w_serve (post ["furnish"; "kafka"; "up"] "Bearer wrong") w_state) = w_state
  /\ snd (w_serve (post ["projects"; "obs"; "backup"] "Bearer sesame") w_state)
     = Resp (writeJSON 200 (BAction "backup_triggered" "obs")).
Proof.
  split.
  - refine (proj1 (proj2 (control_surface_safe (fun s => s) (fun _ => "t") (fun _ => true) (fun _ => 0)
      w_env w_server w_fenv demo_ports
      (post ["furnish"; "kafka"; "up"] "Bearer wrong") w_state) eq_refl _ _)).
    + by intros [_ Ha].
    + by intros [_ Hs].
  - vm_compute. reflexivity.
Defined.

Definition mcp_call : Request := mkRequest "POST" ["mcp"] "" "Bearer sesame" (Ok "call").

(** The tool's request would come back to the daemon authorized. *)
Lemma mcp_dispatch_authenticates_witness :
  exists e, sf_outbox (snd (fst (w_serve mcp_call w_state))) = [e]
  /\ forall path, arrives e (post path "Bearer sesame") -> authorized "sesame" (post path "Bearer sesame").
Proof.
  destruct (mcp_dispatch_authenticates (fun s => s) (fun _ => "t") (fun _ => true) (fun _ => 0) w_env w_server
    w_fenv demo_ports mcp_call w_state eq_refl) as (es & Hes & [->|(e & k & tool & args & -> & _ & _ & _ & _ & _ & Hr)]).
  - vm_compute in Hes. discriminate.
  - exists e. split; [exact Hes|]. intros path Har.
    destruct (Hr _ Har) as (m & url & b & -> & Hb).
    vm_compute in Hes. injection Hes as <- <- <-. exact Hb.
Defined.

Lemma furnish_routes_truthful_witness :
  exists resp, snd (handleFurnishUp (fun s => s) w_fenv [("piece", "kafka")] (post [] "") w_fleet) = Resp resp
  /\ status resp = 200
  /\ exists i, is_Some (furnish.dm_objects (fl_cluster (fst
       (handleFurnishUp (fun s => s) w_fenv [("piece", "kafka")] (post [] "") w_fleet))) !! i).
Proof.
  destruct (furnish_routes_truthful (fun s => s) w_fenv w_fleet [("piece", "kafka")] (post [] ""))
    as (_ & Hu & _).
  destruct (snd (handleFurnishUp (fun s => s) w_fenv [("piece", "kafka")] (post [] "") w_fleet))
    as [resp|] eqn:E; [|vm_compute in E; discriminate].
  exists resp. split; [reflexivity|]. destruct (Hu resp eq_refl) as [_ H200].
  assert (Es : status resp = 200) by (vm_compute in E; injection E as <-; reflexivity).
  split; [exact Es|]. destruct (H200 Es) as (m & objs & _ & Hb & Hall).
  vm_compute in Hb. injection Hb as <-.
  destruct (Hall (furnish.deployment "kafka") ltac:(by left)) as (i & _ & Hi). by exists i.
Defined.

Lemma enablement_surface_witness :
  let '(w', out) := handleStatePut (fun _ => "t") w_env w_server [("name", "obs")] (post [] "") w_world in
  out = Resp (writeJSON 200 (BState (mkStateResponse "obs" "enabled" true "" "jane" "t")))
  /\ snd (handleStateGet (fun _ => "t") w_env w_server [("name", "obs")] (post [] "") w') = out.
Proof.
  pose proof (enablement_surface (EB := table) (fun _ => "t") w_env w_server [("name", "obs")] (post [] "") w_world) as H.
  destruct (handleStatePut (fun _ => "t") w_env w_server [("name", "obs")] (post [] "") w_world) as [w' out] eqn:E.
  destruct (H eq_refl) as (_ & _ & Hp). destruct (Hp "announce" "enabled" "" "jane" eq_refl eq_refl eq_refl)
    as [(e & Ho & _)|(Ho & Hg & _)].
  - exfalso. subst out. vm_compute in E. discriminate.
  - split; [|exact Hg]. rewrite Ho. vm_compute. reflexivity.
Defined.

Definition junk : Request := mkRequest "POST" ["register"] "" "" (Ok "junk").
Definition w_registered : World (B := table) (EB := table) * outcome :=
  handleRegister (fun s => s) (fun _ => true) w_env w_server [] junk w_world.

Lemma w_registered_status : (match snd w_registered with Resp resp => status resp | Panicked => 0 end) = 400.
Proof. vm_compute. reflexivity. Qed.
Lemma w_registered_codes : nr_code <$> w_events (fst w_registered) = ["malformed_request"].
Proof. vm_compute. reflexivity. Qed.

Lemma register_never_silent_witness :
  exists d, w_events (fst w_registered)
            = [mkNotRegistered (dc_project d) (dc_endpoint d) (dc_code d) (dc_reason d) (ts_new 5000000000)]
  /\ dc_code d = "malformed_request".
Proof.
  pose proof (register_never_silent (fun s => s) (fun _ => true) w_env w_server [] junk w_world) as H.
  pose proof w_registered_status as Hs. pose proof w_registered_codes as Hc.
  change (handleRegister (fun s => s) (fun _ => true) w_env w_server [] junk w_world) with w_registered in H.
  destruct w_registered as [w' out]. cbn [fst snd] in *.
  destruct H as [(d & _ & _ & _ & He)|[[-> _]|[(_ & _ & _ & _ & _ & _ & _ & _ & _ & _ & resp & -> & H200)|(_ & -> & _)]]].
  - exists d. cbn in He. rewrite He in Hc |- *. split; [done|]. by injection Hc.
  - discriminate.
  - cbn in H200. lia.
  - discriminate.
Defined.

Lemma register_admits_exactly_witness :
  exists resp, snd (handleRegister (fun s => s) (fun _ => true) w_env w_server []
    (post ["register"] "") w_world) = Resp resp /\ status resp = 200.
Proof.
  apply (register_admits_exactly (fun s => s) (fun _ => true) w_env w_server [] (post ["register"] "") w_world
    ∅ announce eq_refl).
  - exists "announce". split; reflexivity.
  - reflexivity.
  - intros ep rest [= <- <-]. split; [|reflexivity]. eexists. split; [reflexivity|].
    split; [discriminate|]. split; vm_compute; discriminate.
  - exists (mkEndpoint "" "obs.fleet:80"). split.
    + split_and!; try done.
      * exists (config.project_at "obs" "~/p"). split; [left|reflexivity].
      * by exists [].
      * eexists. split; [left|reflexivity].
      * intros ref Hin. apply list_elem_of_singleton in Hin as ->. reflexivity.
      * by exists 200.
    + intros k r Hk. change (registry.abs (bkt_empty : table) !! k = Some r) in Hk.
      by rewrite registry.abs_empty, lookup_empty in Hk.
Defined.

End httpserve.
