(* ===== verification/HttpContract.v ===== *)
(** pkg/httpapi: the types of the control port.

    [answers] is the reference of the HTTP API: the statuses each route answers with
    and the JSON schema of the body under each. The theorem says that what the mux
    serves is of that type. *)

From S2P Require Import Prelude GoStrings State Proto KV Registry Enablement Config GitState Furnish HttpAuth HttpApi Skills Exports Discovery HttpRegister HttpFurnish HttpSurface HttpServe.
Import proto bbolt kube furnish httpauth httpapi httpregister httpfurnish httpsurface httpserve.

Module httpcontract.

(** The JSON schemas; a flag or a command that the schema fixes is part of it. *)
Inductive shape :=
| ShError                       (* {error} *)
| ShDegraded                    (* {degraded: true, error} *)
| ShHealth
| ShReady (ready : bool)
| ShDiagnostics
| ShAction (status : string)
| ShList (key : string)
| ShRaw                         (* the protojson of one message *)
| ShState
| ShStates
| ShGit
| ShProjectGit
| ShPieces
| ShLadders (healthy : bool)
| ShFurnished (command : string)
| ShRemoved (command : string)
| ShFurnishError                (* {error, applied, failed} *)
| ShSources
| ShIntrospect
| ShRpc
| ShPlain.

#[export] Instance shape_eq_dec : EqDecision shape.
Proof. solve_decision. Defined.

Definition shape_of (b : body) : shape :=
  match b with
  | BError _ | BTransition _ | BStoreError _ => ShError
  | BDegraded => ShDegraded
  | BHealth _ _ _ _ _ => ShHealth
  | BReady ready _ => ShReady ready
  | BDiagnostics _ => ShDiagnostics
  | BAction st _ => ShAction st
  | BList key _ => ShList key
  | BRaw _ => ShRaw
  | BState _ => ShState
  | BStates _ => ShStates
  | BGit _ => ShGit
  | BProjectGit _ => ShProjectGit
  | BPieces _ _ => ShPieces
  | BLadders healthy _ => ShLadders healthy
  | BFurnished command _ _ => ShFurnished command
  | BRemoved command _ => ShRemoved command
  | BFurnishError _ _ _ => ShFurnishError
  | BSources _ => ShSources
  | BIntrospect _ => ShIntrospect
  | BRpc _ _ => ShRpc
  | BPlain _ => ShPlain
  end.

Definition type_of (resp : Response) : Z * shape := (status resp, shape_of (body_of resp)).

Definition errors (codes : list Z) : list (Z * shape) := map (fun c => (c, ShError)) codes.

(** What a furnish mutation may answer. *)
Definition furnish_answers (done failed : shape) : list (Z * shape) :=
  (200, done) :: errors [404; 500; 503] ++ [(500, failed); (502, failed); (504, failed)].
Definition up_answers : list (Z * shape) := furnish_answers (ShFurnished "furnish.up") ShFurnishError.
Definition down_answers : list (Z * shape) := furnish_answers (ShRemoved "furnish.down") ShError.

Definition api : list (string * list (Z * shape)) :=
  [ ("GET /health", [(200, ShHealth)]);
    ("GET /readyz", [(200, ShReady true); (503, ShReady false)]);
    ("GET /metrics", [(200, ShPlain)]);
    ("GET /discovery/llms", [(200, ShSources)]);
    ("GET /projects/{name}/state", (200, ShDiagnostics) :: errors [404]);
    ("POST /projects/{name}/backup", (200, ShAction "backup_triggered") :: errors [404; 409]);
    ("POST /projects/{name}/reset", (200, ShAction "error_cleared") :: errors [404]);
    ("GET /projects", (200, ShList "projects") :: errors [500]);
    ("GET /registrations", (200, ShList "registrations") :: errors [500]);
    ("POST /register", (200, ShRaw) :: errors [400; 404; 409; 422; 500; 503]);
    ("GET /state", [(200, ShStates); (503, ShDegraded)] ++ errors [500]);
    ("GET /state/{name}", [(200, ShState); (503, ShDegraded)] ++ errors [404; 500]);
    ("PUT /state/{name}", [(200, ShState); (503, ShDegraded)] ++ errors [400; 404; 500]);
    ("GET /git", [(200, ShGit)]);
    ("GET /projects/{name}/git", (200, ShProjectGit) :: errors [404]);
    ("GET /resolve/{name}", (200, ShRaw) :: errors [404; 500]);
    ("GET /services", (200, ShList "services") :: errors [400; 500]);
    ("GET /services/{name}", (200, ShRaw) :: errors [404; 500]);
    ("GET /projects/{name}/introspect", [(200, ShIntrospect)]);
    ("GET /furnish/pieces", (200, ShPieces) :: errors [500]);
    ("GET /furnish/health", [(200, ShLadders true); (503, ShLadders false)] ++ errors [500; 503]);
    ("GET /furnish/health/{piece}", [(200, ShLadders true); (503, ShLadders false)] ++ errors [404; 500; 503]);
    ("POST /furnish/{piece}/up", up_answers);
    ("POST /furnish/{piece}/down", down_answers);
    ("POST /mcp", [(200, ShRpc); (400, ShPlain)]) ].

Definition answers (pattern : string) : list (Z * shape) :=
  match find (fun e => String.eqb e.1 pattern) api with Some e => e.2 | None => [] end.

(** A status and a schema that go together: an error, or the answer to be not ready,
    only over a status of failure, and everything else only over 200. *)
Definition coherent (t : Z * shape) : bool :=
  match t.2 with
  | ShError | ShDegraded | ShReady false | ShLadders false | ShFurnishError => 400 <=? t.1
  | ShPlain => true
  | _ => t.1 =? 200
  end.

Section contract.
Context {B EB : Type} `{BucketLaws B} `{Bucket EB}.
Context `{CodecLaws Registration} `{Codec enablement.Record_} `{Codec RegisterRequest}
  `{Codec RegisterResponse} `{Codec ResolvedService} `{Codec Service} `{Codec Project}.
Context {S M : Type} `{ApiLaws S M}.
Variable quote : string -> string.
Variable format_time : Z -> string.
Variable valid_full_name : string -> bool.
Variable f2i : Z -> Z.
Variable env : Env.
Variable s : Server.
Variable fenv : FurnishEnv (M := M).
Context {V : Type}.
Variable po : Ports V.

Abbreviation World_ := (World (B := B) (EB := EB)).
Abbreviation Fleet_ := (Fleet (S := S) (M := M)).
Abbreviation State_ := (World_ * Fleet_ * Surface)%type.
Abbreviation serve_request := (serve_request quote format_time valid_full_name f2i env s fenv po).
Abbreviation route_table := (route_table quote format_time valid_full_name f2i env s fenv po).

(** The pattern's own request. *)
Definition takes (pattern : string) (r : Request) : Prop :=
  method_matches pattern (method r) = true /\ is_Some (match_segments (pattern_path pattern) (segments r)).

(** net/http drops the connection: a registration on a registry that did not open,
    or a probe whose request could not be built. *)
Definition may_panic (pattern : string) (w : State_) : Prop :=
  (pattern = "POST /register" /\ w_reg w.1.1 = None)
  \/ (pattern = "GET /discovery/llms"
      /\ discovery.DiscoverLocalLLMs (po_request_ok po) (po_get po) (s_cfg s) = None).

(** What the gate answers instead of the route. *)
Definition gate_answer : Response :=
  if String.eqb (s_controlToken s) "" then writeJSON 503 (BError "control token not provisioned")
  else mkResponse 401 true (BError "missing or invalid bearer token").

Definition answered (l : list (Z * shape)) (out : outcome) : Prop :=
  match out with
  | Resp resp => type_of resp ∈ l /\ challenge resp = false
  | Panicked => False
  end.

Definition typed_answer (pattern : string) (w : State_) (out : outcome) : Prop :=
  answered (answers pattern) out \/ (out = Panicked /\ may_panic pattern w).

Definition typed (pattern : string) (h : handler State_) : Prop := forall ps r w,
  method_matches pattern (method r) = true -> match_segments (pattern_path pattern) (segments r) = Some ps ->
  typed_answer pattern w (snd (h ps r w)).

(** * Lemmas *)

(** A concrete answer of the table. *)
Ltac in_api := split; [by apply (bool_decide_unpack _)|done].

Lemma typed_world p (h : handler World_) :
  (forall ps r w, answered (answers p) (snd (h ps r w))) -> typed p (on_world h).
Proof.
  intros Hh ps r [[w f] sf] _ _. unfold on_world. cbn [fst snd]. specialize (Hh ps r w).
  destruct (h ps r w) as [w1 out]. by left.
Qed.

Lemma list_response_typed p key error bs :
  (200, ShList key) ∈ answers p -> (500, ShError) ∈ answers p ->
  answered (answers p) (list_response key error bs).
Proof. by destruct bs. Qed.

Lemma machine_action_typed p event done_ ps r (w : World_) :
  (200, ShAction done_) ∈ answers p -> (404, ShError) ∈ answers p ->
  ((409, ShError) ∈ answers p \/ event = state.EventClearError) ->
  answered (answers p) (snd (machine_action env f2i event done_ ps r w)).
Proof.
  intros Ha Hn Hc. unfold machine_action. destruct (w_machines w !! PathValue ps "name") as [m|]; [|done].
  destruct (state.Transition f2i (e_clock env) m event) as [m' [e|]] eqn:Et; [|done].
  destruct Hc as [Hc| ->]; [done|]. pose proof (reset_result f2i (e_clock env) m) as Hr.
  rewrite Et in Hr. by destruct Hr.
Qed.

Lemma handleRegister_typed ps r (w : World_) :
  let out := snd (handleRegister quote valid_full_name env s ps r w) in
  answered (answers "POST /register") out \/ (out = Panicked /\ w_reg w = None).
Proof.
  cbv zeta. destruct (handleRegister_cases quote valid_full_name env s ps r w)
    as [(d & -> & Hs & _)|(req & ep & _ & _ & Hw)].
  - left. cbn [notRegistered snd]. split; [|done]. unfold type_of. cbn [status body_of writeJSON shape_of].
    repeat (apply elem_of_cons in Hs as [Hs|Hs]; [rewrite Hs; by apply (bool_decide_unpack _)|]).
    by apply elem_of_nil in Hs.
  - destruct (w_reg w) as [db|].
    + destruct (registry.Upsert _ _ db) as [db' [h [e|]]]; left; rewrite Hw; [by in_api|].
      destruct (marshal (response_of req ep)); by in_api.
    + rewrite Hw. destruct (is_ok _); [by right|left; by in_api].
Qed.

(** The furnish routes. *)
Lemma furnishPiece_typed name resp :
  furnishPiece quote fenv name = Err resp ->
  (type_of resp = (500, ShError) \/ type_of resp = (404, ShError)) /\ challenge resp = false.
Proof.
  unfold furnishPiece. destruct (pieces fenv) as [ps|e]; [destruct (existsb _ ps)|]; intros [= <-];
    (split; [by auto|done]).
Qed.

Lemma furnishCluster_typed (w w' : Fleet_) resp :
  furnishCluster fenv w = (w', Err resp) -> type_of resp = (503, ShError) /\ challenge resp = false.
Proof.
  unfold furnishCluster. destruct (negb (fe_wired fenv)); [by intros [= _ <-]|].
  destruct (LazyClient (fe_build fenv) (fl_client w)) as [memo [c|e]]; [done|]. by intros [= _ <-].
Qed.

Lemma mutation_typed done failed (w : Fleet_) name (run : S -> M -> string -> Fleet_ * outcome) :
  (forall c m d, answered (furnish_answers done failed) (snd (run c m d))) ->
  answered (furnish_answers done failed)
    (snd match furnishPiece quote fenv name with
         | Err resp => (w, Resp resp)
         | Ok dir => match furnishCluster fenv w with
                     | (w', Err resp) => (w', Resp resp)
                     | (w', Ok m) => run (fl_cluster w') m dir
                     end
         end).
Proof.
  intros Hr. destruct (furnishPiece quote fenv name) as [dir|resp] eqn:Ep.
  - destruct (furnishCluster fenv w) as [w' [m|resp]] eqn:Ec; [apply Hr|].
    apply furnishCluster_typed in Ec as [E ?]. split; [rewrite E; by apply (bool_decide_unpack _)|done].
  - apply furnishPiece_typed in Ep as [[E|E] ?]; (split; [rewrite E; by apply (bool_decide_unpack _)|done]).
Qed.

Lemma writeFurnishError_answers done op piece timeout e extra :
  answered (furnish_answers done match extra with Some _ => ShFurnishError | None => ShError end)
    (Resp (writeFurnishError op piece timeout e extra)).
Proof.
  unfold writeFurnishError. destruct extra as [[applied failed]|], (ke_deadline e), (ke_status e);
    (split; [cbn; set_solver|done]).
Qed.

Lemma handleFurnishUp_typed ps r (w : Fleet_) :
  answered (up_answers) (snd (handleFurnishUp quote fenv ps r w)).
Proof.
  unfold handleFurnishUp. cbv zeta. apply (mutation_typed (ShFurnished "furnish.up") ShFurnishError w (PathValue ps "piece") (fun c m d =>
    let '(c', m', result, err) := Up (fe_kustomize fenv) c m d in
    (mkFleet c' (Some m'), Resp match err with
      | Some e => writeFurnishError "furnish.up" (PathValue ps "piece") furnishMutateTimeout e (Some (Applied result, Failed result))
      | None => writeJSON 200 (BFurnished "furnish.up" (PathValue ps "piece") (Applied result)) end))).
  intros c m d. destruct (Up _ c m d) as [[[c' m'] result] [e|]];
    [apply (writeFurnishError_answers _ _ _ _ _ (Some _))|by in_api].
Qed.

Lemma handleFurnishDown_typed ps r (w : Fleet_) :
  answered (down_answers) (snd (handleFurnishDown quote fenv ps r w)).
Proof.
  unfold handleFurnishDown. cbv zeta. apply (mutation_typed (ShRemoved "furnish.down") ShError w (PathValue ps "piece") (fun c m d =>
    let '(c', m', err) := Down (fe_kustomize fenv) c m d in
    (mkFleet c' (Some m'), Resp match err with
      | Some e => writeFurnishError "furnish.down" (PathValue ps "piece") furnishMutateTimeout e None
      | None => writeJSON 200 (BRemoved "furnish.down" (PathValue ps "piece")) end))).
  intros c m d. destruct (Down _ c m d) as [[c' m'] [e|]]; [apply (writeFurnishError_answers _ _ _ _ _ None)|by in_api].
Qed.

(** Only the route of one piece has an unknown piece. *)
Lemma handleFurnishHealth_typed l ps r (w : Fleet_) :
  (200, ShLadders true) ∈ l -> (503, ShLadders false) ∈ l -> (500, ShError) ∈ l -> (503, ShError) ∈ l ->
  ((404, ShError) ∈ l \/ PathValue ps "piece" = "") ->
  answered l (snd (handleFurnishHealth quote fenv ps r w)).
Proof.
  intros Ht Hf He Hc Hn. unfold handleFurnishHealth.
  destruct (health_names quote fenv (PathValue ps "piece")) as [names|resp] eqn:Eh.
  - destruct (furnishCluster fenv w) as [w' [m|resp]] eqn:Ec.
    + destruct (health_pieces _ _ _ _ _ _) as [[m' []] results]; by split.
    + apply furnishCluster_typed in Ec as [E ?]. split; [by rewrite E|done].
  - unfold health_names in Eh. destruct (String.eqb_spec (PathValue ps "piece") "") as [|Hp]; cbn [negb] in Eh.
    + destruct (pieces fenv); [done|]. injection Eh as <-. by split.
    + destruct (furnishPiece quote fenv _) eqn:Ep; [done|]. injection Eh as ->.
      apply furnishPiece_typed in Ep as [[E|E] ?]; (split; [rewrite E|done]); [done|by destruct Hn].
Qed.

(** The enablement routes, and the routes that look a project up. *)
Lemma state_response_typed p name db :
  (200, ShState) ∈ answers p -> (500, ShError) ∈ answers p ->
  answered (answers p) (Resp (state_response (EB := EB) format_time env name db)).
Proof. unfold state_response. by destruct (enablement.Get _ _ db). Qed.

Lemma handleMCP_typed ps r sf :
  method r = "POST" -> answered (answers "POST /mcp") (snd (handleMCP quote po ps r sf)).
Proof.
  intros Hm. unfold handleMCP, skills.HandleMCP. rewrite Hm. cbn [String.eqb Ascii.eqb Bool.eqb negb].
  destruct (match req_body r with Ok _ => _ | Err e => _ end _) as [[[id m] raw]|e]; [|by in_api].
  destruct (String.eqb m "tools/list"); [by in_api|]. destruct (String.eqb m "tools/call"); [|by in_api].
  destruct (po_decode_params po raw) as [[name args]|e]; [|by in_api].
  destruct (skills.GetTool name (po_agg po)) as [tool|]; [|by in_api].
  destruct (skills.call_tool _ _ _ _ _ _) as [es [o isErr]]. by in_api.
Qed.

Definition entry_typed (e : entry) : Prop :=
  match e with Route p h | Citizen p h => typed p h end.

Ltac by_cases := repeat case_match; by in_api.

Lemma typed_fleet p (h : handler Fleet_) :
  (forall ps r w, match_segments (pattern_path p) (segments r) = Some ps -> answered (answers p) (snd (h ps r w))) ->
  typed p (on_fleet h).
Proof.
  intros Hh ps r [[w f] sf] _ Hs. left. unfold on_fleet. cbn [fst snd]. specialize (Hh ps r f Hs).
  by destruct (h ps r f).
Qed.

Lemma typed_surface p (h : World_ -> handler Surface) :
  (forall w ps r sf, method_matches p (method r) = true ->
     answered (answers p) (snd (h w ps r sf)) \/ (snd (h w ps r sf) = Panicked /\ forall w', may_panic p w')) ->
  typed p (on_surface h).
Proof.
  intros Hh ps r [[w f] sf] Hm _. unfold on_surface. cbn [fst snd].
  destruct (Hh w ps r sf Hm) as [Ha|[Hp Hw]]; destruct (h w ps r sf); [by left|right; by split].
Qed.

Lemma readyz_typed : typed "GET /readyz" (readyz_route env s fenv).
Proof.
  intros ps r w _ _. left. unfold readyz_route. destruct (clusterReady _ _ _) as [fl c].
  unfold handleReadyz. destruct (forallb _ _); by in_api.
Qed.

Lemma register_typed : typed "POST /register" (on_world (handleRegister quote valid_full_name env s)).
Proof.
  intros ps r [[w f] sf] _ _. unfold on_world. cbn [fst snd].
  pose proof (handleRegister_typed ps r w) as Hr. cbv zeta in Hr.
  destruct (handleRegister _ _ _ _ _ _ w) as [w' out]. cbn [snd] in *.
  destruct Hr as [?|[-> ?]]; [by left|right]. split; [done|]. by left.
Qed.

Lemma furnish_health_typed : typed "GET /furnish/health" (on_fleet (handleFurnishHealth quote fenv)).
Proof.
  apply typed_fleet. intros ps r f Hs. apply handleFurnishHealth_typed; try by apply (bool_decide_unpack _).
  right. destruct (segments r) as [|x [|y [|]]]; cbn in Hs; repeat case_match; by simplify_eq.
Qed.

Lemma services_typed : typed "GET /services" (on_world (handleServicesAll env s)).
Proof.
  apply typed_world. intros ps r w. unfold handleServicesAll. cbv zeta.
  destruct (if String.eqb (trim_space (query_type r)) "" then _ else _) as [want []]; [|by in_api].
  apply list_response_typed; by apply (bool_decide_unpack _).
Qed.

(** The enablement reads and the write. *)
Lemma state_all_typed : typed "GET /state" (on_world (handleStateAll format_time env s)).
Proof. apply typed_world. intros ps r w. unfold handleStateAll. by_cases. Qed.

Lemma state_get_typed : typed "GET /state/{name}" (on_world (handleStateGet format_time env s)).
Proof.
  apply typed_world. intros ps r w. unfold handleStateGet. repeat case_match; try by in_api.
  apply state_response_typed; by apply (bool_decide_unpack _).
Qed.

Lemma state_put_typed : typed "PUT /state/{name}" (on_world (handleStatePut format_time env s)).
Proof.
  apply typed_world. intros ps r w. unfold handleStatePut. repeat case_match; try by in_api.
  apply state_response_typed; by apply (bool_decide_unpack _).
Qed.

#[local] Hint Resolve readyz_typed register_typed furnish_health_typed services_typed state_all_typed
  state_get_typed state_put_typed : core.

Lemma route_table_typed : Forall entry_typed route_table.
Proof.
  unfold route_table. apply Forall_app. split.
  - repeat (apply Forall_cons; split); [..|by apply Forall_nil]; cbn [entry_typed]; auto;
      first [apply typed_world; intros ps r w|apply typed_fleet; intros ps r w Hs|apply typed_surface; intros w ps r sf Hm].
    + by in_api.
    + left. by in_api.
    + unfold handleDiscovery. cbn [snd].
      destruct (discovery.DiscoverLocalLLMs _ _ _) eqn:E; [left; by in_api|right; split; [done|by right]].
    + unfold handleProjectState. by_cases.
    + apply machine_action_typed; [by apply (bool_decide_unpack _)..|left; by apply (bool_decide_unpack _)].
    + apply machine_action_typed; [by apply (bool_decide_unpack _)..|by right].
    + apply list_response_typed; by apply (bool_decide_unpack _).
    + apply list_response_typed; by apply (bool_decide_unpack _).
    + by in_api.
    + unfold handleProjectGit. by_cases.
    + unfold handleResolve. by_cases.
    + unfold handleServiceByName. by_cases.
    + left. by in_api.
    + unfold handleFurnishPieces. by_cases.
    + apply handleFurnishHealth_typed; by apply (bool_decide_unpack _).
    + apply handleFurnishUp_typed.
    + apply handleFurnishDown_typed.
  - destruct (mcpEnabled s); [|constructor]. apply Forall_cons. split; [|constructor].
    apply typed_surface. intros w ps r sf Hm%(post_method "/mcp"). left. by apply handleMCP_typed.
Qed.

Definition entry_pattern (e : entry (B := B) (EB := EB) (S := S) (M := M)) : string :=
  match e with Route p _ | Citizen p _ => p end.

(** An installed handler answers for its route, or the gate does. *)
Lemma installed_typed e ps r w :
  e ∈ route_table -> takes (entry_pattern e) r ->
  match_segments (pattern_path (entry_pattern e)) (segments r) = Some ps ->
  typed_answer (entry_pattern e) w (snd (snd (installed s e) ps r w))
  \/ (isMutatingPattern (entry_pattern e) = true /\ ~ authorized (s_controlToken s) r
      /\ snd (snd (installed s e) ps r w) = Resp gate_answer).
Proof.
  intros He [Hm _] Hs. pose proof (proj1 (Forall_forall _ _) route_table_typed e He) as Ht.
  destruct e as [p h|p h]; cbn [installed snd entry_pattern entry_typed] in *; [|left; by apply Ht].
  destruct (isMutatingPattern p) eqn:Ep; [|left; by apply Ht].
  destruct (decide (authorized (s_controlToken s) r)) as [Ha|Hn].
  - rewrite requireBearer_pass by done. left. by apply Ht.
  - rewrite requireBearer_refuses by done. by right.
Qed.

Lemma api_coherent : Forall (fun e => Forall (fun t => coherent t = true) e.2) api.
Proof. by apply (bool_decide_unpack _). Qed.

Lemma answers_coherent p t : t ∈ answers p -> coherent t = true.
Proof.
  unfold answers. destruct (find _ api) as [e|] eqn:E; [|by intros ?%elem_of_nil].
  apply find_some in E as [He%list_elem_of_In _]. intros Ht.
  pose proof (proj1 (Forall_forall _ _) api_coherent e He) as Hc. by apply (proj1 (Forall_forall _ _) Hc).
Qed.

(** What the mux answers with. *)
Lemma serve_conforms r w :
  (exists e, e ∈ route_table /\ takes (entry_pattern e) r
      /\ (typed_answer (entry_pattern e) w (snd (serve_request r w))
          \/ (isMutatingPattern (entry_pattern e) = true /\ ~ authorized (s_controlToken s) r
              /\ snd (serve_request r w) = Resp gate_answer)))
  \/ exists code, (code = 404 \/ code = 405)
      /\ serve_request r w = (w, Resp (mkResponse code false (BPlain ""))).
Proof.
  unfold HttpServe.httpserve.serve_request, serve. destruct (find_route _ r) as [[h ps]|] eqn:Ef.
  - left. apply find_route_elem in Ef as (p & Hin & Hm & Hs). unfold Mux in Hin. rewrite routes_fold in Hin.
    cbn [routes app] in Hin. apply list_elem_of_fmap in Hin as (e & Eh & He). exists e.
    assert (Ep : p = entry_pattern e /\ h = snd (installed s e)) by (by destruct e; cbn in Eh |- *; simplify_eq).
    destruct Ep as [-> ->]. split; [done|]. split; [by split; [|eexists]|].
    apply installed_typed; [done|by split; [|eexists]|done].
  - right. eexists. split; [|done]. destruct (other_method _ r); auto.
Qed.

(** A request whose handler panics is the one of a pattern that may. *)
Lemma serve_panics r w :
  snd (serve_request r w) = Panicked -> exists pattern, takes pattern r /\ may_panic pattern w.
Proof.
  intros Hp. destruct (serve_conforms r w) as [(e & _ & Ht & [[Ha|[_ Hm]]|(_ & _ & Hg)])|(code & _ & Hc)].
  - by rewrite Hp in Ha.
  - by exists (entry_pattern e).
  - by rewrite Hp in Hg.
  - by rewrite Hc in Hp.
Qed.

(** * Property *)

(** C15. The control port answers every request by its type: a request some route
    takes is answered with a status and a schema that the reference lists for that
    route, with no challenge header, or by the gate when the route mutates and the
    request has not got the token, or not at all, which only a registration without a registry and a
    probe that could not be built do; a request no route takes is 404 or 405. An
    error body never comes with a status of success, nor the answer of a route with
    one of failure. *)
Theorem responses_conform r w :
  ((exists e, e ∈ route_table /\ takes (entry_pattern e) r
      /\ (typed_answer (entry_pattern e) w (snd (serve_request r w))
          \/ (isMutatingPattern (entry_pattern e) = true /\ ~ authorized (s_controlToken s) r
              /\ snd (serve_request r w) = Resp gate_answer)))
   \/ exists code, (code = 404 \/ code = 405)
      /\ serve_request r w = (w, Resp (mkResponse code false (BPlain ""))))
  /\ match snd (serve_request r w) with Resp resp => coherent (type_of resp) = true | Panicked => True end.
Proof.
  split; [apply serve_conforms|].
  destruct (serve_conforms r w) as [(e & _ & _ & [[Ha|[-> _]]|(_ & _ & ->)])|(code & Hc & ->)];
    [|done|unfold gate_answer; by destruct (String.eqb _ "")|done].
  destruct (snd (serve_request r w)); [by apply (answers_coherent _ _ (proj1 Ha))|done].
Qed.

End contract.

(** * The property at a concrete daemon *)

#[local] Existing Instances furnish.demo_api furnish.demo_laws w_reg_codec w_reg_laws w_rec_codec w_req_codec
  w_resp_codec w_res_codec w_svc_codec w_prj_codec.

(** The git reading of a project outside the roster is 404, with an error body. *)
Lemma responses_conform_witness :
  exists resp, snd (w_serve (mkRequest "GET" ["projects"; "nosuch"; "git"] "" "" (Ok "")) w_state) = Resp resp
  /\ type_of resp = (404, ShError) /\ coherent (type_of resp) = true.
Proof.
  set (r := mkRequest "GET" ["projects"; "nosuch"; "git"] "" "" (Ok "")).
  assert (Hc : match snd (w_serve r w_state) with Resp resp => coherent (type_of resp) = true | Panicked => True end)
    by exact (proj2 (responses_conform (fun s => s) (fun _ => "t") (fun _ => true) (fun _ => 0) w_env w_server
      w_fenv demo_ports r w_state)).
  destruct (snd (w_serve r w_state)) as [resp|] eqn:E; [|vm_compute in E; discriminate].
  exists resp. split; [done|]. split; [|exact Hc].
  vm_compute in E. by injection E as <-.
Defined.

End httpcontract.
