(* ===== verification/Daemon.v ===== *)
(** cmd/delightd: the control loop of the daemon.

    One goroutine per project polls git, runs checkpoints and retries; the
    control port acts on the same machines. A goroutine is a program counter
    that stands between two lock acquisitions of its machine, so a run is a list
    of labels, each one atomic step of one goroutine or of a request, in any
    interleaving. [dstep] says what a step does; the outside world (clocks, git,
    the checkpoint's environment) comes with the label. *)

From S2P Require Import Prelude GoStrings GoPath State Proto KV Registry Backup Config GitState Discovery.
From Stdlib Require Import Ascii.
Import proto bbolt metrics.

Module daemon.

(** * The control token *)

Definition controlTokenPath (getenv : string -> string) : string :=
  let p := getenv "DELIGHT_CONTROL_TOKEN_PATH" in
  if negb (String.eqb p "") then p
  else let kc := getenv "KUBECONFIG" in
       if negb (String.eqb kc "") then path_join [path_dir kc; "control-token"]
       else "/run/delightd/control-token".

(** nil is the empty token. *)
Definition loadControlToken (read : result string string) : string :=
  match read with
  | Err _ => ""
  | Ok raw => trim_space raw
  end.

(** * Telemetry *)

(** A counter's key: name{project="p"}. *)
Definition dquote : string := String (ascii_of_nat 34) EmptyString.

Definition metric_key (name project : string) : string :=
  name +:+ "{project=" +:+ dquote +:+ project +:+ dquote +:+ "}".

(** publishBackupEvent with a publisher. *)
Definition backup_event (project : string) (success : bool) (res : backup.CheckpointResult) (now : Z)
    : BackupEvent :=
  mkBackupEvent project success (backup.BytesBefore res) (backup.BytesAfter res)
    (u32 (Z.quot (backup.Duration res) 1000000)) (Some (ts_new now)).

Definition no_result : backup.CheckpointResult := backup.mkCheckpointResult "" 0 0 0.

(** * The goroutine of a project *)

Inductive pc :=
| PStart                        (* spawned *)
| PImmediate                    (* --immediate: asking git *)
| PImmediateFire
| PTicker                       (* parsing the interval, making the tickers *)
| PIdle                         (* in select *)
| PPolling                      (* asking git *)
| PAdvance                      (* AdvanceOnChurn, before its GetState *)
| PFire (e : state.Event)       (* AdvanceOnChurn, before its Transition *)
| PRunning                      (* CreateCheckpoint *)
| PReport (ok : bool)           (* before the Transition with the outcome *)
| PRetryState                   (* before GetState == error *)
| PRetryClock                   (* before CanRetry *)
| PRetryFire                    (* before the retry's Transition *)
| PExited.

(** What a step of a goroutine takes from outside. *)
Inductive input :=
| IGo
| IChurn (h : gitstate.Host)
| IFire (c : state.Clock)
| ICheckpoint (fault : string -> backup.stage -> option string) (env : backup.Env)
              (root : result string backup.node) (now : Z)
| IClock (now : Z)
| IPollTick
| IEvalTick
| ICancel.

Record Daemon := mkDaemon {
  d_pcs : gmap string pc;
  d_machines : gmap string state.Machine;
  d_disk : backup.disk;
  d_events : list BackupEvent;
  d_counters : gmap string Z;
  d_crashed : bool
}.

Section loop.
Variable f2i : Z -> Z.                             (* see State.v *)
Variable ParseDuration : string -> result string Z. (* time.ParseDuration *)
Variable cfg : config.DelightConfig.
Variables dryRun immediate has_publisher : bool.

Definition start (now : string -> Z) (dk : backup.disk) : Daemon :=
  mkDaemon
    (list_to_map (map (fun p => (config.Name p, PStart)) (config.Projects cfg)))
    (list_to_map (map (fun p => (config.Name p, state.NewMachine (config.Name p) (now (config.Name p))))
                    (config.Projects cfg)))
    dk [] ∅ false.

Definition set_pc (d : Daemon) (n : string) (p : pc) : Daemon :=
  mkDaemon (<[n := p]> (d_pcs d)) (d_machines d) (d_disk d) (d_events d) (d_counters d) (d_crashed d).

Definition set_machine (d : Daemon) (n : string) (m : state.Machine) : Daemon :=
  mkDaemon (d_pcs d) (<[n := m]> (d_machines d)) (d_disk d) (d_events d) (d_counters d) (d_crashed d).

Definition count (d : Daemon) (key : string) : Daemon :=
  mkDaemon (d_pcs d) (d_machines d) (d_disk d) (d_events d) (Inc key (d_counters d)) (d_crashed d).

Definition crash (d : Daemon) : Daemon :=
  mkDaemon (d_pcs d) (d_machines d) (d_disk d) (d_events d) (d_counters d) true.

(** machine.Transition, the error dropped or logged. *)
Definition transition (d : Daemon) (n : string) (m : state.Machine) (c : state.Clock) (e : state.Event)
    : Daemon :=
  set_machine d n (fst (state.Transition f2i c m e)).

(** The interval; time.NewTicker panics on one that is not positive. *)
Definition interval_of (p : config.ProjectConfig) : Z :=
  match ParseDuration (config.CheckInterval (config.Backup p)) with
  | Ok i => i
  | Err _ => 15 * Minute
  end.

(** The executing branch of the evaluation tick, up to the outcome. *)
Definition run_checkpoint (d : Daemon) (p : config.ProjectConfig)
    (fault : string -> backup.stage -> option string) (env : backup.Env)
    (root : result string backup.node) (now : Z) : Daemon * bool :=
  let n := config.Name p in
  let '(dk, r) := backup.CreateCheckpoint fault env n
                    (config.BackupsRoot (config.System cfg)) root
                    (config.MaxArchives (config.Rotation (config.Backup p)))
                    (config.Exclude (config.Backup p)) dryRun (d_disk d) in
  let '(ok, key, res) := match r with
                         | Err _ => (false, "delightd_backup_failures_total", no_result)
                         | Ok res => (true, "delightd_backup_success_total", res)
                         end in
  (mkDaemon (d_pcs d) (d_machines d) dk
     (d_events d ++ if has_publisher then [backup_event n ok res now] else [])
     (Inc (metric_key key n) (d_counters d)) (d_crashed d), ok).

(** One step of the goroutine of [p] at [at_] with machine [m]. *)
Definition go_step (d : Daemon) (p : config.ProjectConfig) (at_ : pc) (m : state.Machine) (i : input)
    : option Daemon :=
  let n := config.Name p in
  let goto := set_pc d n in
  match at_, i with
  | PStart, IGo => Some (goto (if immediate then PImmediate else PTicker))
  | PImmediate, IChurn h =>
      Some (goto (match watcher.HasChurn h (config.Path p) with Ok true => PImmediateFire | _ => PTicker end))
  | PImmediateFire, IFire c => Some (transition (goto PTicker) n m c state.EventTriggerBackup)
  | PTicker, IGo => Some (if 0 <? interval_of p then goto PIdle else crash d)
  | PIdle, ICancel => Some (goto PExited)
  | PIdle, IPollTick =>
      Some (if state.WatchesForChurn m
            then count (goto PPolling) (metric_key "delightd_git_churn_checks_total" n) else d)
  | PPolling, IChurn h =>
      Some (goto (match watcher.HasChurn h (config.Path p) with Ok true => PAdvance | _ => PIdle end))
  | PAdvance, IGo =>
      Some (goto (match state.GetState m with
                  | state.StateFallow => PFire state.EventChurnDetected
                  | state.StateMonitoring => PFire state.EventTriggerBackup
                  | _ => PIdle
                  end))
  | PFire e, IFire c => Some (transition (goto PIdle) n m c e)
  | PIdle, IEvalTick =>
      Some (goto (if decide (state.GetState m = state.StateBackingUp) then PRunning else PRetryState))
  | PRunning, ICheckpoint fault env root now =>
      let '(d', ok) := run_checkpoint d p fault env root now in Some (set_pc d' n (PReport ok))
  | PReport ok, IFire c =>
      Some (transition (goto PRetryState) n m c
              (if ok then state.EventBackupSuccess else state.EventBackupFail))
  | PRetryState, IGo =>
      Some (goto (if decide (state.GetState m = state.StateError) then PRetryClock else PIdle))
  | PRetryClock, IClock now => Some (goto (if state.CanRetry now m then PRetryFire else PIdle))
  | PRetryFire, IFire c => Some (transition (goto PIdle) n m c state.EventTriggerBackup)
  | _, _ => None
  end.

(** A step of a project's goroutine, or of the backup or reset route. *)
Inductive label :=
| LGo (n : string) (i : input)
| LBackup (n : string) (c : state.Clock)
| LReset (n : string) (c : state.Clock).

Definition find_config (n : string) : option config.ProjectConfig :=
  find (fun p => String.eqb (config.Name p) n) (config.Projects cfg).

Definition request (d : Daemon) (n : string) (c : state.Clock) (e : state.Event) : option Daemon :=
  match d_machines d !! n with
  | Some m => Some (transition d n m c e)
  | None => Some d
  end.

(** [None]: the step is not enabled. A panic in a goroutine ends the process. *)
Definition dstep (d : Daemon) (l : label) : option Daemon :=
  if d_crashed d then None
  else match l with
       | LGo n i =>
           match find_config n, d_pcs d !! n, d_machines d !! n with
           | Some p, Some at_, Some m => go_step d p at_ m i
           | _, _, _ => None
           end
       | LBackup n c => request d n c state.EventTriggerBackup
       | LReset n c => request d n c state.EventClearError
       end.

Fixpoint drun (d : Daemon) (ls : list label) : option Daemon :=
  match ls with
  | [] => Some d
  | l :: r => match dstep d l with Some d' => drun d' r | None => None end
  end.

(** [d] can be reached from the start in [k] steps. *)
Definition reaches (now : string -> Z) (dk : backup.disk) (ls : list label) (d : Daemon) : Prop :=
  drun (start now dk) ls = Some d.

(** * Lease upkeep *)

Section leases.
Context {B : Type} `{Bucket B} `{Codec Registration}.

(** The registry with the services whose heartbeat refreshed a lease. *)
Record Leases := mkLeases { l_reg : B; l_seen : gset string }.

(** The heartbeat consumer: a refresh is remembered, an error is the handler's. *)
Definition on_heartbeat (nows : nat -> Z) (io : txio) (service : string) (l : Leases)
    : Leases * option registry.regerr :=
  let '(reg', (ok, err)) := registry.RefreshLease nows service registry.DefaultLeaseTTL io (l_reg l) in
  match err with
  | Some e => (mkLeases reg' (l_seen l), Some e)
  | None => (mkLeases reg' (if ok then {[service]} ∪ l_seen l else l_seen l), None)
  end.

(** A log line of the sweep: project, service, and whether it was ever refreshed. *)
Inductive sweep_line := SweepFailed | Expired (project service : string) (seen : bool).

Definition sweep (now : Z) (io : txio) (l : Leases) : Leases * list sweep_line :=
  let '(reg', (expired, err)) := registry.ExpireDue now io (l_reg l) in
  match err with
  | Some _ => (mkLeases reg' (l_seen l), [SweepFailed])
  | None =>
      (mkLeases reg' (l_seen l),
       map (fun e => let svc := get_service_name (rg_identity e) in
                     Expired (rg_project e) svc (bool_decide (svc ∈ l_seen l))) expired)
  end.

End leases.

(** * The invariant *)

Definition busy (p : pc) : bool :=
  match p with PRunning | PReport _ => true | _ => false end.

(** A goroutine that runs a checkpoint or is about to report one holds its
    machine in backing_up; machines are well formed after [k] steps. *)
Definition inv (k : Z) (d : Daemon) : Prop :=
  (forall n p m, d_pcs d !! n = Some p -> d_machines d !! n = Some m -> busy p = true ->
     state.CurrentState m = state.StateBackingUp)
  /\ (forall n m, d_machines d !! n = Some m -> state.wf k m)
  /\ (forall n, is_Some (d_pcs d !! n) -> is_Some (d_machines d !! n))
  /\ (forall n, is_Some (d_pcs d !! n) -> exists p, find_config n = Some p /\ config.Name p = n).

(** * Lemmas *)

Lemma find_config_name n p : find_config n = Some p -> config.Name p = n.
Proof. intros H. apply List.find_some in H as [_ H]. by apply String.eqb_eq. Qed.

(** Nothing but its own report takes a machine out of backing_up. *)
Lemma backing_up_stays c m e :
  state.CurrentState m = state.StateBackingUp ->
  e <> state.EventBackupSuccess -> e <> state.EventBackupFail ->
  fst (state.Transition f2i c m e) = m.
Proof.
  intros Hs H1 H2. unfold state.Transition, state.touch. destruct e; try done.
  - rewrite (decide_False (P := state.CurrentState m = state.StateFallow)) by (rewrite Hs; done).
    by rewrite decide_True.
  - rewrite bool_decide_eq_false_2 by (rewrite Hs; naive_solver). by rewrite decide_True.
  - rewrite (decide_False (P := state.CurrentState m = state.StateError)) by (rewrite Hs; done).
    by rewrite decide_True.
Qed.

(** What a step does to the program counters and machines: it moves one project. *)
Definition moves (d d' : Daemon) (n : string) (p : pc) (m : state.Machine) : Prop :=
  d_pcs d' = <[n := p]> (d_pcs d) /\ d_machines d' = <[n := m]> (d_machines d).

Lemma moves_inv k d d' n p m m0 :
  inv k d -> d_machines d !! n = Some m0 -> is_Some (d_pcs d !! n) -> moves d d' n p m ->
  state.wf k m -> (busy p = true -> state.CurrentState m = state.StateBackingUp) -> inv k d'.
Proof.
  intros (I1 & I2 & I3 & I4) Em Ep [Mp Mm] Hwf Hb. unfold inv. rewrite Mp, Mm. split_and!.
  - intros n' p' m'. rewrite !lookup_insert_Some.
    intros [[<- <-]|[Hn Hp]] [[? <-]|[? Hm]]; [done|done|done|by eapply I1].
  - intros n' m'. rewrite lookup_insert_Some. intros [[_ <-]|[_ Hm]]; [done|by eapply I2].
  - intros n'. rewrite !lookup_insert_is_Some. intros [->|[Hn Hp]]; [by left|right; eauto].
  - intros n' [x Hx]. apply I4. apply lookup_insert_Some in Hx as [[<- _]|[_ Hx]]; [done|eauto].
Qed.

Lemma inv_mono k k' d : k <= k' -> inv k d -> inv k' d.
Proof.
  intros Hk (I1 & I2 & I3 & I4). split_and!; [done| |done|done].
  intros n m Hm. eapply state.wf_mono, I2; eauto.
Qed.

Lemma run_checkpoint_same d p fault env root now :
  let d' := fst (run_checkpoint d p fault env root now) in
  d_pcs d' = d_pcs d /\ d_machines d' = d_machines d /\ d_crashed d' = d_crashed d.
Proof.
  unfold run_checkpoint. cbv zeta.
  destruct (backup.CreateCheckpoint _ _ _ _ _ _ _ _ _) as [dk [res|e]]; done.
Qed.

(** A goroutine's step: it crashes the process, or moves its project to a
    counter that is busy only over a machine in backing_up. *)
Lemma go_step_moves d p at_ m i d' :
  d_pcs d !! config.Name p = Some at_ -> d_machines d !! config.Name p = Some m ->
  (busy at_ = true -> state.CurrentState m = state.StateBackingUp) ->
  go_step d p at_ m i = Some d' ->
  d' = crash d \/ exists p' m', moves d d' (config.Name p) p' m'
    /\ (m' = m \/ exists c e, m' = fst (state.Transition f2i c m e))
    /\ (busy p' = true -> state.CurrentState m' = state.StateBackingUp).
Proof.
  intros Ep Em Hb Hg. set (n := config.Name p) in *.
  assert (Hstay : moves d d n at_ m) by (split; by rewrite insert_id).
  assert (Hgoto : forall q, moves d (set_pc d n q) n q m) by (intros q; split; simpl; [done|by rewrite insert_id]).
  assert (Htr : forall q c e, moves d (transition (set_pc d n q) n m c e) n q (fst (state.Transition f2i c m e)))
    by done.
  destruct at_, i; simpl in Hg; try discriminate Hg; try (injection Hg as <-).
  all: try (right; eexists _, _; split; [apply Hgoto|]; split; [by left|]; done).
  all: try (right; eexists _, _; split; [apply Htr|]; split; [right; by eexists _, _|]; done).
  - right. eexists _, _. split; [apply Hgoto|]. split; [by left|]. by destruct immediate.
  - right. eexists _, _. split; [apply Hgoto|]. split; [by left|].
    by destruct (watcher.HasChurn h (config.Path p)) as [[]|].
  - destruct (0 <? interval_of p); [right|by left].
    eexists _, _. split; [apply Hgoto|]. split; [by left|done].
  - right. destruct (state.WatchesForChurn m).
    + eexists _, _. split; [apply (Hgoto PPolling)|]. split; [by left|done].
    + eexists _, _. split; [exact Hstay|]. split; [by left|done].
  - right. eexists _, _. split; [apply Hgoto|]. split; [by left|].
    case_decide; [by intros _|done].
  - right. eexists _, _. split; [apply Hgoto|]. split; [by left|].
    by destruct (watcher.HasChurn h (config.Path p)) as [[]|].
  - right. eexists _, _. split; [apply Hgoto|]. split; [by left|].
    by destruct (state.GetState m).
  - right. pose proof (run_checkpoint_same d p fault env root now) as (E1 & E2 & _).
    destruct (run_checkpoint d p fault env root now) as [d1 ok]. simpl in E1, E2. injection Hg as <-.
    exists (PReport ok), m. split; [|split; [by left|by intros _; apply Hb]].
    split; simpl; [by rewrite E1|by rewrite E2, insert_id].
  - right. eexists _, _. split; [apply Hgoto|]. split; [by left|]. by case_decide.
  - right. eexists _, _. split; [apply Hgoto|]. split; [by left|]. by destruct (state.CanRetry now m).
Qed.

Lemma dstep_inv k d d' l : 0 <= k < 2 ^ 63 - 1 -> inv k d -> dstep d l = Some d' -> inv (k + 1) d'.
Proof.
  intros Hk Hi Hd. unfold dstep in Hd. destruct (d_crashed d); [done|].
  assert (Hreq : forall n c e, e <> state.EventBackupSuccess -> e <> state.EventBackupFail ->
            request d n c e = Some d' -> inv (k + 1) d').
  { intros n c e H1 H2. unfold request. destruct (d_machines d !! n) as [m|] eqn:Em.
    2: { intros [= <-]. eapply inv_mono, Hi. lia. }
    intros [= <-]. destruct Hi as (I1 & I2 & I3 & I4). unfold inv, transition, set_machine.
    cbn [d_pcs d_machines]. split_and!.
    - intros n' p' m' Hp. rewrite lookup_insert_Some.
      intros [[<- <-]|[_ Hm]] Hb; [|by eapply I1].
      pose proof (I1 _ _ _ Hp Em Hb) as Hs. by rewrite backing_up_stays.
    - intros n' m'. rewrite lookup_insert_Some. intros [[_ <-]|[_ Hm]].
      + apply state.Transition_wf; [by apply (I2 n)|lia].
      + eapply state.wf_mono, I2; [lia|done].
    - intros n' Hp. rewrite lookup_insert_is_Some'. right. by apply I3.
    - done. }
  destruct l as [n i|n c|n c]; [|by eapply Hreq, Hd|by eapply Hreq, Hd].
  destruct (find_config n) as [p|] eqn:Ef; [|done].
  destruct (d_pcs d !! n) as [at_|] eqn:Ep; [|done].
  destruct (d_machines d !! n) as [m|] eqn:Em; [|done].
  pose proof (find_config_name _ _ Ef) as <-.
  destruct (go_step_moves d p at_ m i d' Ep Em) as [->|(p' & m' & Hm & Hw & Hb)]; [|done| |].
  - intros Hb. destruct Hi as (I1 & _). by eapply I1.
  - apply (inv_mono k); [lia|]. done.
  - eapply (moves_inv (k + 1)); [eapply inv_mono, Hi; lia|exact Em|by rewrite Ep|exact Hm| |exact Hb].
    destruct Hi as (_ & I2 & _). destruct Hw as [->|(c & e & ->)].
    + eapply state.wf_mono, I2; [lia|exact Em].
    + apply state.Transition_wf; [by eapply I2|lia].
Qed.

Lemma start_inv now dk : inv 0 (start now dk).
Proof.
  unfold inv, start. cbn [d_pcs d_machines].
  set (ps := config.Projects cfg).
  assert (Hpc : forall n p, (list_to_map (map (fun p => (config.Name p, PStart)) ps) : gmap string pc) !! n
            = Some p -> p = PStart /\ exists q, find_config n = Some q /\ config.Name q = n).
  { intros n p Hl. apply elem_of_list_to_map_2, list_elem_of_In, in_map_iff in Hl as (q & [= <- <-] & Hq).
    split; [done|]. unfold find_config.
    destruct (find _ (config.Projects cfg)) as [q'|] eqn:E.
    - exists q'. split; [done|]. apply List.find_some in E as [_ E]. by apply String.eqb_eq.
    - pose proof (List.find_none _ _ E q Hq) as Hn. simpl in Hn. by rewrite String.eqb_refl in Hn. }
  assert (Hm : forall n m, (list_to_map (map (fun p => (config.Name p,
            state.NewMachine (config.Name p) (now (config.Name p)))) ps) : gmap string state.Machine) !! n
            = Some m -> state.wf 0 m).
  { intros n m Hl. apply elem_of_list_to_map_2, list_elem_of_In, in_map_iff in Hl as (q & [= <- <-] & Hq).
    apply state.NewMachine_wf. }
  split_and!.
  - intros n p m Hp. by destruct (Hpc _ _ Hp) as [-> _].
  - exact Hm.
  - intros n [p Hp]. apply elem_of_list_to_map_2, list_elem_of_In, in_map_iff in Hp as (q & [= <- <-] & Hq).
    destruct (_ !! config.Name q) as [m|] eqn:E; [by eexists|]. exfalso.
    apply not_elem_of_list_to_map_2 in E. apply E, list_elem_of_fmap.
    exists (config.Name q, state.NewMachine (config.Name q) (now (config.Name q))).
    split; [done|]. apply list_elem_of_In, in_map_iff. by exists q.
  - intros n [p Hp]. by destruct (Hpc _ _ Hp) as [_ ?].
Qed.

Lemma drun_inv k d ls d' :
  0 <= k -> k + Z.of_nat (length ls) < 2 ^ 63 -> inv k d -> drun d ls = Some d' ->
  inv (k + Z.of_nat (length ls)) d'.
Proof.
  revert k d. induction ls as [|l ls IH]; intros k d H0 Hk Hi Hr; cbn [drun length] in *.
  - simplify_eq. by rewrite Z.add_0_r.
  - destruct (dstep d l) as [d1|] eqn:E; [|done].
    replace (k + Z.of_nat (S (length ls))) with (k + 1 + Z.of_nat (length ls)) in * by lia.
    apply (IH (k + 1) d1); [lia|lia| |done]. eapply dstep_inv; [|done..]. lia.
Qed.

Lemma reaches_inv now dk ls d :
  Z.of_nat (length ls) < 2 ^ 63 -> reaches now dk ls d -> inv (Z.of_nat (length ls)) d.
Proof. intros Hl Hr. exact (drun_inv 0 _ ls d ltac:(lia) Hl (start_inv now dk) Hr). Qed.

(** The step of a live goroutine is [go_step]. *)
Lemma dstep_go k d n at_ i :
  inv k d -> d_crashed d = false -> d_pcs d !! n = Some at_ ->
  exists p m, find_config n = Some p /\ config.Name p = n /\ d_machines d !! n = Some m
    /\ dstep d (LGo n i) = go_step d p at_ m i.
Proof.
  intros (_ & _ & I3 & I4) Hc Hp. destruct (I4 n ltac:(by rewrite Hp)) as (p & Hf & Hn).
  destruct (I3 n ltac:(by rewrite Hp)) as [m Hm]. exists p, m. split_and!; [done..|].
  unfold dstep. by rewrite Hc, Hf, Hp, Hm.
Qed.

(** What a goroutine's next step takes. *)
Definition next_input (at_ : pc) (c : state.Clock) (h : gitstate.Host) (i : input) : input :=
  match at_ with
  | PStart | PTicker | PAdvance | PRetryState => IGo
  | PImmediate | PPolling => IChurn h
  | PImmediateFire | PFire _ | PReport _ | PRetryFire => IFire c
  | PRunning => i
  | PRetryClock => IClock (state.clk_now c)
  | PIdle | PExited => IEvalTick
  end.

(** One poll that sees churn, from select back to select, with nothing in
    between: the two lock acquisitions of AdvanceOnChurn are [state.AdvanceOnChurn]. *)
Definition poll (n : string) (h : gitstate.Host) (c : state.Clock) : list label :=
  [LGo n IPollTick; LGo n (IChurn h); LGo n IGo; LGo n (IFire c)].

Lemma poll_advances d n p m h c :
  d_crashed d = false -> find_config n = Some p -> config.Name p = n ->
  d_pcs d !! n = Some PIdle -> d_machines d !! n = Some m -> state.WatchesForChurn m = true ->
  watcher.HasChurn h (config.Path p) = Ok true ->
  exists d', drun d (poll n h c) = Some d' /\ d_crashed d' = false /\ d_pcs d' !! n = Some PIdle
  /\ d_machines d' !! n = Some (fst (state.AdvanceOnChurn f2i c m))
  /\ (forall n', n' <> n -> d_machines d' !! n' = d_machines d !! n').
Proof.
  intros Hc Hf Hn Hp Hm Hw Hh. unfold poll. cbn [drun].
  unfold dstep at 1. rewrite Hc, Hf, Hp, Hm. cbn [go_step]. rewrite Hw, Hn. cbv iota.
  unfold dstep at 1. cbn [count set_pc d_crashed d_pcs d_machines]. rewrite Hc, Hf, lookup_insert_eq, Hm.
  cbn [go_step]. rewrite Hh, Hn. cbv iota.
  unfold dstep at 1. cbn [count set_pc d_crashed d_pcs d_machines]. rewrite Hc, Hf, lookup_insert_eq, Hm.
  cbn [go_step]. rewrite Hn. unfold state.WatchesForChurn in Hw. unfold state.AdvanceOnChurn.
  destruct (state.GetState m); try discriminate Hw.
  all: cbv iota; unfold dstep at 1; cbn [count set_pc d_crashed d_pcs d_machines];
    rewrite Hc, Hf, lookup_insert_eq, Hm;
    cbn [go_step]; unfold transition; rewrite Hn; eexists; split; [reflexivity|];
    cbn [count set_machine set_pc d_crashed d_pcs d_machines]; split_and!;
    [done|apply lookup_insert_eq|apply lookup_insert_eq|intros n' Hne; by rewrite !lookup_insert_ne].
Qed.

(** How many own steps a goroutine is from its select, at most. *)
Definition rank (p : pc) : nat :=
  match p with
  | PStart => 4 | PImmediate => 3 | PImmediateFire => 2 | PTicker => 1
  | PIdle | PExited => 0
  | PPolling => 3 | PAdvance => 2 | PFire _ => 1
  | PRunning => 5 | PReport _ => 4 | PRetryState => 3 | PRetryClock => 2 | PRetryFire => 1
  end.

(** The steps of a run that goroutine [n] took. *)
Fixpoint own (n : string) (ls : list label) : nat :=
  match ls with
  | [] => 0
  | l :: r => ((match l with LGo n' _ => if String.eqb n' n then 1 else 0 | _ => 0 end) + own n r)%nat
  end.

Lemma go_step_rank d p at_ m i d' :
  go_step d p at_ m i = Some d' -> (0 < rank at_)%nat ->
  d_crashed d' = true
  \/ exists p', d_pcs d' = <[config.Name p := p']> (d_pcs d) /\ (rank p' < rank at_)%nat.
Proof.
  intros Hg Hr. destruct at_, i; simpl in Hg, Hr; try discriminate Hg; try lia; try (injection Hg as <-).
  all: try (right; eexists; split; [reflexivity|]; cbn; repeat case_match; cbn; lia).
  - destruct (0 <? interval_of p); [right|by left]. eexists. split; [reflexivity|cbn; lia].
  - pose proof (run_checkpoint_same d p fault env root now) as (E1 & _ & _).
    destruct (run_checkpoint d p fault env root now) as [d1 ok]. simpl in E1. injection Hg as <-.
    right. exists (PReport ok). split; [by cbn; rewrite E1|cbn; lia].
Qed.

(** A goroutine touches no other project. *)
Lemma go_step_other d p at_ m i d' :
  go_step d p at_ m i = Some d' -> forall n, n <> config.Name p ->
  d_pcs d' !! n = d_pcs d !! n /\ d_machines d' !! n = d_machines d !! n.
Proof.
  intros Hg n Hn. destruct at_, i; simpl in Hg; try discriminate Hg; try (injection Hg as <-);
    try (cbn; by rewrite ?lookup_insert_ne).
  - destruct (0 <? interval_of p); [cbn; by rewrite lookup_insert_ne|done].
  - destruct (state.WatchesForChurn m); [cbn; by rewrite lookup_insert_ne|done].
  - unfold run_checkpoint in Hg. destruct (backup.CreateCheckpoint _ _ _ _ _ _ _ _ _) as [dk r].
    destruct r; injection Hg as <-; cbn; by rewrite !lookup_insert_ne.
Qed.

(** ** The archives *)

(** The archive directory of a project, as the disk has it. *)
Definition archives_of (d : Daemon) (n : string) : backup.adir :=
  backup.dir_at (path_join [config.BackupsRoot (config.System cfg); n]) (d_disk d).

(** Every project is named by one path element. *)
Definition plain_roster : Prop := Forall (fun p => plain (config.Name p)) (config.Projects cfg).

Lemma plain_find n p : plain_roster -> find_config n = Some p -> plain n.
Proof.
  intros Hr Hf. pose proof (find_config_name _ _ Hf) as <-. apply List.find_some in Hf as [Hin _].
  unfold plain_roster in Hr. rewrite Forall_forall in Hr. by apply Hr, list_elem_of_In.
Qed.

(** Only a checkpoint writes to the disk. *)
Lemma go_step_disk d p at_ m i d' :
  go_step d p at_ m i = Some d' ->
  d_disk d' = d_disk d
  \/ at_ = PRunning /\ exists fault env root now, i = ICheckpoint fault env root now
     /\ d_disk d' = fst (backup.CreateCheckpoint fault env (config.Name p) (config.BackupsRoot (config.System cfg)) root
                           (config.MaxArchives (config.Rotation (config.Backup p)))
                           (config.Exclude (config.Backup p)) dryRun (d_disk d)).
Proof.
  intros Hg. destruct at_, i; simpl in Hg; try discriminate Hg; try (injection Hg as <-; by left).
  - destruct (0 <? interval_of p); injection Hg as <-; by left.
  - destruct (state.WatchesForChurn m); injection Hg as <-; by left.
  - right. split; [done|]. exists fault, env, root, now. split; [done|]. unfold run_checkpoint in Hg.
    destruct (backup.CreateCheckpoint _ _ _ _ _ _ _ _ _) as [dk r]. by destruct r; injection Hg as <-.
Qed.

(** With --dry-run no step writes to the disk, and what is published of a backup has
    no size after it. *)
Definition no_bytes (ev : BackupEvent) : Prop := be_bytes_after ev = 0.

Lemma go_step_dry d p at_ m i d' :
  dryRun = true -> go_step d p at_ m i = Some d' ->
  d_disk d' = d_disk d /\ (Forall no_bytes (d_events d) -> Forall no_bytes (d_events d')).
Proof.
  intros Hdr Hg. destruct at_, i; simpl in Hg; try discriminate Hg; try (injection Hg as <-; done).
  - destruct (0 <? interval_of p); by injection Hg as <-.
  - destruct (state.WatchesForChurn m); by injection Hg as <-.
  - unfold run_checkpoint in Hg. rewrite Hdr in Hg.
    pose proof (backup.checkpoint_dry fault env (config.Name p) (config.BackupsRoot (config.System cfg)) root
      (config.MaxArchives (config.Rotation (config.Backup p))) (config.Exclude (config.Backup p)) (d_disk d)) as Hd.
    destruct (backup.CreateCheckpoint _ _ _ _ _ _ _ _ _) as [dk r]. destruct Hd as [-> Hb].
    assert (He : Forall no_bytes (d_events d) ->
      forall ok res, backup.BytesAfter res = 0 -> Forall no_bytes (d_events d ++ (if has_publisher then [backup_event (config.Name p) ok res now] else []))).
    { intros Hf ok res Hz. apply Forall_app. split; [done|]. destruct has_publisher; constructor; [exact Hz|constructor]. }
    destruct r as [res|e]; injection Hg as <-; (split; [done|]); intros Hf; apply He; auto.
Qed.

Lemma dstep_dry d l d' :
  dryRun = true -> dstep d l = Some d' ->
  d_disk d' = d_disk d /\ (Forall no_bytes (d_events d) -> Forall no_bytes (d_events d')).
Proof.
  intros Hdr Hd. unfold dstep, request in Hd. destruct (d_crashed d); [done|]. destruct l as [n i|n c|n c].
  2,3: by destruct (d_machines d !! n); injection Hd as <-.
  destruct (find_config n), (d_pcs d !! n), (d_machines d !! n); try done. by eapply go_step_dry.
Qed.

Lemma dstep_disk d l d' :
  dstep d l = Some d' ->
  d_disk d' = d_disk d
  \/ exists n p fault env root now, l = LGo n (ICheckpoint fault env root now) /\ find_config n = Some p
     /\ d_pcs d !! n = Some PRunning
     /\ d_disk d' = fst (backup.CreateCheckpoint fault env n (config.BackupsRoot (config.System cfg)) root
                           (config.MaxArchives (config.Rotation (config.Backup p)))
                           (config.Exclude (config.Backup p)) dryRun (d_disk d)).
Proof.
  intros Hd. unfold dstep, request in Hd. destruct (d_crashed d); [done|]. destruct l as [n i|n c|n c].
  2,3: left; by destruct (d_machines d !! n); simplify_eq.
  destruct (find_config n) as [q|] eqn:Ef; [|done]. destruct (d_pcs d !! n) as [at_|] eqn:Ep; [|done].
  destruct (d_machines d !! n) as [m|]; [|done].
  destruct (go_step_disk _ _ _ _ _ _ Hd) as [->|(-> & fault & env & root & now & -> & ->)]; [by left|right].
  rewrite (find_config_name _ _ Ef). by exists n, q, fault, env, root, now.
Qed.

(** In a roster of path elements nobody else's step touches a project's archives. *)
Lemma dstep_archives d l d' n :
  plain_roster -> plain n -> dstep d l = Some d' -> (forall i, l = LGo n i -> d_pcs d !! n <> Some PRunning) ->
  archives_of d' n = archives_of d n.
Proof.
  intros Hr Hn Hd Hl. unfold archives_of.
  destruct (dstep_disk _ _ _ Hd) as [->|(n' & p & fault & env & root & now & -> & Hf & Hp & ->)]; [done|].
  apply backup.checkpoint_other_dirs; [by eapply plain_find|done|]. intros ->. by eapply Hl.
Qed.

(** A step of a run lowers the rank of the goroutine that takes it, and of no other. *)
Lemma dstep_rank d l d' n p :
  dstep d l = Some d' -> d_crashed d' = false -> d_pcs d !! n = Some p -> (0 < rank p)%nat ->
  exists p', d_pcs d' !! n = Some p' /\ (rank p' + own n [l] <= rank p)%nat.
Proof.
  intros Hd Hc Hp Hr. cbn [own]. rewrite Nat.add_0_r. unfold dstep in Hd.
  destruct (d_crashed d); [done|]. unfold request in Hd. destruct l as [n' i|n' c|n' c].
  2,3: exists p; split; [by destruct (d_machines d !! n'); simplify_eq|cbn; lia].
  destruct (find_config n') as [q|] eqn:Ef; [|done]. apply find_config_name in Ef.
  destruct (d_pcs d !! n') as [at_|] eqn:Ep; [|done].
  destruct (d_machines d !! n') as [m|] eqn:Em; [|done].
  destruct (String.eqb_spec n' n) as [E|E].
  - rewrite E in Ep, Ef. assert (at_ = p) as -> by congruence.
    destruct (go_step_rank _ _ _ _ _ _ Hd Hr) as [?|(p' & Hpc & Hlt)]; [congruence|].
    exists p'. rewrite Hpc, Ef, lookup_insert_eq. split; [done|cbn; lia].
  - exists p. destruct (go_step_other _ _ _ _ _ _ Hd n ltac:(congruence)) as (-> & _). split; [done|cbn; lia].
Qed.

(** ** A backup that was asked for *)

(** Only a ticker that cannot be made panics. *)
Lemma dstep_crash d l d' :
  dstep d l = Some d' -> (forall p, p ∈ config.Projects cfg -> 0 < interval_of p) -> d_crashed d' = false.
Proof.
  intros Hd Hi. unfold dstep, request in Hd. destruct (d_crashed d) eqn:Hc; [done|]. destruct l as [n i|n c|n c].
  2,3: by destruct (d_machines d !! n); simplify_eq.
  destruct (find_config n) as [q|] eqn:Ef; [|done]. destruct (d_pcs d !! n) as [at_|]; [|done].
  destruct (d_machines d !! n) as [m|]; [|done]. apply List.find_some in Ef as [Hin%list_elem_of_In _].
  destruct at_, i; simpl in Hd; try discriminate Hd; try (injection Hd as <-; exact Hc).
  - rewrite (proj2 (Z.ltb_lt _ _) (Hi q Hin)) in Hd. by injection Hd as <-.
  - injection Hd as <-. by destruct (state.WatchesForChurn m).
  - pose proof (run_checkpoint_same d q fault env root now) as (_ & _ & E).
    destruct (run_checkpoint d q fault env root now) as [d1 ok]. injection Hd as <-. by rewrite <-Hc, <-E.
Qed.

(** How many own steps a goroutine is from the report of a checkpoint, at most, when
    its machine is in backing_up; a poll tick in select is none of them. *)
Definition left (p : pc) : nat :=
  match p with PExited => 0 | PReport _ => 1 | PRunning => 2 | _ => rank p + 3 end.

Definition turn (n : string) (l : label) : nat :=
  match l with
  | LGo n' i => if String.eqb n' n then match i with IPollTick => 0 | _ => 1 end else 0
  | _ => 0
  end.

(** The events a churn poll fires are never a checkpoint's outcome. *)
Definition fires (d : Daemon) : Prop :=
  forall n e, d_pcs d !! n = Some (PFire e) -> e <> state.EventBackupSuccess /\ e <> state.EventBackupFail.

(** [l] is the checkpoint of [n], from the disk of [d] to that of [d'], with the
    outcome [ok]. *)
Definition checkpointed (d : Daemon) (n : string) (l : label) (d' : Daemon) (ok : bool) : Prop :=
  exists p fault env root now, find_config n = Some p /\ l = LGo n (ICheckpoint fault env root now)
  /\ let '(dk, r) := backup.CreateCheckpoint fault env n (config.BackupsRoot (config.System cfg)) root
        (config.MaxArchives (config.Rotation (config.Backup p))) (config.Exclude (config.Backup p))
        dryRun (d_disk d) in
     ok = is_ok r /\ d_disk d' = dk.

(** What a step makes of a pending backup: it comes no further from its report, and
    a report is pending only after a checkpoint. *)
Definition closer (d : Daemon) (l : label) (d' : Daemon) (n : string) (p : pc) (m : state.Machine) : Prop :=
  exists p', d_pcs d' !! n = Some p' /\ p' <> PExited /\ d_machines d' !! n = Some m
  /\ (left p' + turn n l <= left p)%nat
  /\ (forall ok, p' = PReport ok ->
        (p = PReport ok /\ (plain_roster -> plain n -> archives_of d' n = archives_of d n))
        \/ checkpointed d n l d' ok).

Lemma go_step_fires d p at_ m i d' :
  fires d -> go_step d p at_ m i = Some d' -> fires d'.
Proof.
  intros Hf Hg. set (n := config.Name p) in *.
  assert (Hset : forall q, (forall e, q = PFire e -> e <> state.EventBackupSuccess /\ e <> state.EventBackupFail) ->
    forall pcs', pcs' = d_pcs d -> forall n' e, <[n := q]> pcs' !! n' = Some (PFire e) ->
    e <> state.EventBackupSuccess /\ e <> state.EventBackupFail).
  { intros q Hq pcs' -> n' e. rewrite lookup_insert_Some. intros [[_ ->]|[_ Hx]]; [by apply Hq|by eapply Hf]. }
  destruct at_, i; simpl in Hg; try discriminate Hg; try (injection Hg as <-).
  all: try (intros n' e0 He0; revert n' e0 He0; eapply Hset; [|reflexivity]; intros e1; repeat case_match; by intros [= <-]).
  - destruct (0 <? interval_of p); [|exact Hf]. intros n'. by apply Hset.
  - destruct (state.WatchesForChurn m); [|exact Hf]. intros n'. by apply Hset.
  - pose proof (run_checkpoint_same d p fault env root now) as (E1 & _ & _).
    destruct (run_checkpoint d p fault env root now) as [d1 ok]. simpl in E1. injection Hg as <-.
    intros n'. by apply Hset.
Qed.

Lemma dstep_fires d l d' : fires d -> dstep d l = Some d' -> fires d'.
Proof.
  intros Hf Hd. unfold dstep, request in Hd. destruct (d_crashed d); [done|]. destruct l as [n i|n c|n c].
  - destruct (find_config n), (d_pcs d !! n), (d_machines d !! n); try done. by eapply go_step_fires.
  - destruct (d_machines d !! n); by simplify_eq.
  - destruct (d_machines d !! n); by simplify_eq.
Qed.

Lemma start_fires now dk : fires (start now dk).
Proof.
  intros n e Hl. apply elem_of_list_to_map_2, list_elem_of_In, in_map_iff in Hl as (q & Hq & _).
  discriminate Hq.
Qed.

Lemma dstep_machines d l d' n :
  dstep d l = Some d' -> is_Some (d_machines d !! n) -> is_Some (d_machines d' !! n).
Proof.
  assert (Hi : forall k (m : state.Machine) (ms : gmap string state.Machine),
    is_Some (ms !! n) -> is_Some (<[k := m]> ms !! n)) by (intros k m ms Hm; apply lookup_insert_is_Some'; by right).
  intros Hd Hn. unfold dstep, request in Hd. destruct (d_crashed d); [done|]. destruct l as [n' i|n' c|n' c].
  2,3: destruct (d_machines d !! n') as [m'|]; injection Hd as <-; first [exact Hn|by apply Hi].
  destruct (find_config n') as [q|], (d_pcs d !! n') as [at_|], (d_machines d !! n') as [m|]; try done.
  destruct at_, i; simpl in Hd; try discriminate Hd; try (injection Hd as <-; cbn; first [exact Hn|by apply Hi]).
  - injection Hd as <-. by destruct (0 <? interval_of q).
  - injection Hd as <-. by destruct (state.WatchesForChurn m).
  - unfold run_checkpoint in Hd. destruct (backup.CreateCheckpoint _ _ _ _ _ _ _ _ _) as [dk r].
    by destruct r; injection Hd as <-.
Qed.

Lemma dstep_pcs d l d' n : dstep d l = Some d' -> is_Some (d_pcs d !! n) -> is_Some (d_pcs d' !! n).
Proof.
  intros Hd Hn. unfold dstep, request in Hd. destruct (d_crashed d); [done|]. destruct l as [n' i|n' c|n' c].
  2,3: destruct (d_machines d !! n'); by simplify_eq.
  destruct (find_config n') as [q|] eqn:Ef, (d_pcs d !! n') as [at_|] eqn:Ep, (d_machines d !! n') as [m|]; try done.
  apply find_config_name in Ef. subst n'. destruct (decide (n = config.Name q)) as [->|Hne].
  - destruct at_, i; simpl in Hd; try discriminate Hd; try (injection Hd as <-);
      try (cbn; rewrite lookup_insert_eq; by eexists).
    + destruct (0 <? interval_of q); [cbn; rewrite lookup_insert_eq; by eexists|done].
    + destruct (state.WatchesForChurn m); [cbn; rewrite lookup_insert_eq; by eexists|done].
    + destruct (run_checkpoint d q fault env root now) as [d1 ok]. injection Hd as <-.
      cbn. rewrite lookup_insert_eq. by eexists.
  - by destruct (go_step_other _ _ _ _ _ _ Hd n Hne) as (-> & _).
Qed.

Lemma go_step_pending d p at_ m i d' n :
  fires d -> find_config n = Some p -> config.Name p = n ->
  d_pcs d !! n = Some at_ -> d_machines d !! n = Some m ->
  state.CurrentState m = state.StateBackingUp -> at_ <> PExited -> i <> ICancel ->
  (forall ok c, ~ (at_ = PReport ok /\ i = IFire c)) ->
  go_step d p at_ m i = Some d' -> d_crashed d' = false -> d_crashed d = false ->
  closer d (LGo n i) d' n at_ m.
Proof.
  intros Hf Hcf Hn Hp Hm Hs Hx Hi Hr Hg Hc Hc0. unfold closer. cbn [turn]. rewrite String.eqb_refl.
  assert (Hgoto : forall q, d_pcs (set_pc d n q) !! n = Some q /\ d_machines (set_pc d n q) !! n = Some m)
    by (intros q; split; cbn; [apply lookup_insert_eq|done]).
  assert (Htr : forall q c e, e <> state.EventBackupSuccess -> e <> state.EventBackupFail ->
    d_pcs (transition (set_pc d n q) n m c e) !! n = Some q
    /\ d_machines (transition (set_pc d n q) n m c e) !! n = Some m).
  { intros q c e H1 H2. split; cbn; rewrite lookup_insert_eq; [done|by rewrite backing_up_stays]. }
  destruct at_, i; simpl in Hg; try discriminate Hg; try done; try (injection Hg as <-); rewrite ?Hn in *.
  all: try (eexists; split; [apply Hgoto|]; split; [by repeat case_match|]; split; [apply Hgoto|];
            split; [cbn; repeat case_match; cbn; lia|by intros ok; repeat case_match]).
  - eexists. split; [by apply Htr|]. split; [done|]. split; [by apply Htr|]. split; [cbn; lia|by intros ok].
  - destruct (0 <? interval_of p); [|done]. eexists. split; [apply Hgoto|]. split; [done|].
    split; [apply Hgoto|]. split; [cbn; lia|by intros ok].
  - unfold state.WatchesForChurn, state.GetState. rewrite Hs. exists PIdle. split_and!; [done..|cbn; lia|done].
  - unfold state.GetState. rewrite decide_True by done. eexists. split; [apply Hgoto|]. split; [done|].
    split; [apply Hgoto|]. split; [cbn; lia|by intros ok].
  - destruct (Hf n e Hp) as [H1 H2]. eexists. split; [by apply Htr|]. split; [done|]. split; [by apply Htr|].
    split; [cbn; lia|by intros ok].
  - pose proof (run_checkpoint_same d p fault env root now) as (_ & E2 & _).
    unfold run_checkpoint in *. rewrite Hn in *. unfold checkpointed.
    destruct (backup.CreateCheckpoint fault env n _ _ _ _ _ _) as [dk r] eqn:Ek.
    exists (PReport (is_ok r)). assert (Hd : exists d1, d' = set_pc d1 n (PReport (is_ok r))
      /\ d_machines d1 !! n = Some m /\ d_disk d1 = dk).
    { destruct r; injection Hg as <-; (eexists; split; [reflexivity|]; by split). }
    destruct Hd as (d1 & -> & Hm1 & Hd1). split; [apply lookup_insert_eq|]. split_and!; [done|done|cbn; lia|].
    intros ok [= <-]. right. exists p, fault, env, root, now. split_and!; [done..|]. by rewrite Ek.
  - by destruct (Hr ok c).
  - eexists. split; [by apply Htr|]. split; [done|]. split; [by apply Htr|]. split; [cbn; lia|by intros ok].
Qed.

(** A step of the loop that is not the report itself brings a pending backup no
    further from it. *)
Lemma dstep_pending d l d' n p m :
  fires d -> dstep d l = Some d' -> d_crashed d' = false ->
  d_pcs d !! n = Some p -> d_machines d !! n = Some m -> state.CurrentState m = state.StateBackingUp ->
  p <> PExited -> l <> LGo n ICancel -> (forall ok c, ~ (p = PReport ok /\ l = LGo n (IFire c))) ->
  closer d l d' n p m.
Proof.
  intros Hf Hd Hc' Hp Hm Hs Hx Hl Hr. unfold dstep in Hd. destruct (d_crashed d) eqn:Hc; [done|].
  assert (Hreq : forall n' c e, e <> state.EventBackupSuccess -> e <> state.EventBackupFail ->
    request d n' c e = Some d' -> turn n l = 0%nat -> closer d l d' n p m).
  { intros n' c e H1 H2 Hq Ht. unfold closer. rewrite Ht. exists p. unfold request in Hq.
    assert (He : d_pcs d' = d_pcs d /\ archives_of d' n = archives_of d n /\ d_machines d' !! n = Some m).
    { destruct (d_machines d !! n') as [m'|] eqn:E'; simplify_eq; [|done]. split_and!; [done..|]. cbn.
      destruct (decide (n' = n)) as [->|Hn]; [|by rewrite lookup_insert_ne].
      rewrite lookup_insert_eq. simplify_eq. by rewrite backing_up_stays. }
    destruct He as (-> & -> & ->). split_and!; [done|done|done|lia|]. intros ok ->. by left. }
  destruct l as [n' i|n' c|n' c]; [|by apply (Hreq n' c state.EventTriggerBackup)|by apply (Hreq n' c state.EventClearError)].
  destruct (find_config n') as [q|] eqn:Ef; [|done]. pose proof (find_config_name _ _ Ef) as Hq.
  destruct (d_pcs d !! n') as [at_|] eqn:Ep; [|done]. destruct (d_machines d !! n') as [m'|] eqn:Em; [|done].
  destruct (decide (n' = n)) as [->|Hn].
  - simplify_eq. eapply go_step_pending; try done; [by intros ->|]. intros ok c [-> ->]. by eapply Hr.
  - destruct (go_step_other _ _ _ _ _ _ Hd n ltac:(congruence)) as (E1 & E2).
    exists p. rewrite E1, E2. cbn [turn]. apply String.eqb_neq in Hn as En. rewrite En.
    split_and!; [done|done|done|lia|]. intros ok ->. left. split; [done|]. intros Hpr Hpn.
    eapply (dstep_archives d (LGo n' i)); [done|done| |by intros j [= -> _]].
    unfold dstep. by rewrite Hc, Ef, Ep, Em.
Qed.

(** A report is pending only after a checkpoint, whose archives nobody else touches. *)
Lemma dstep_report d l d' n ok :
  dstep d l = Some d' -> d_pcs d' !! n = Some (PReport ok) ->
  (d_pcs d !! n = Some (PReport ok) /\ (plain_roster -> plain n -> archives_of d' n = archives_of d n))
  \/ checkpointed d n l d' ok.
Proof.
  intros Hd Hp. pose proof Hd as Hst. unfold dstep, request in Hd. destruct (d_crashed d); [done|].
  destruct l as [n' i|n' c|n' c].
  2,3: left; by destruct (d_machines d !! n'); simplify_eq.
  destruct (find_config n') as [q|] eqn:Ef; [|done]. pose proof (find_config_name _ _ Ef) as Hq.
  destruct (d_pcs d !! n') as [at_|] eqn:Ep; [|done]. destruct (d_machines d !! n') as [m|]; [|done].
  destruct (decide (n' = n)) as [->|Hn].
  2: { destruct (go_step_other _ _ _ _ _ _ Hd n ltac:(congruence)) as (E1 & _). left. split; [by rewrite <-E1|].
       intros Hpr Hpn. eapply (dstep_archives d (LGo n' i)); [done|done|done|by intros j [= -> _]]. }
  destruct at_, i; simpl in Hd; try discriminate Hd; try (injection Hd as <-);
    try (cbn in Hp; rewrite Hq, lookup_insert_eq in Hp; repeat case_match; discriminate).
  - destruct (0 <? interval_of q); cbn in Hp; rewrite ?Hq, ?lookup_insert_eq in Hp; congruence.
  - destruct (state.WatchesForChurn m); cbn in Hp; rewrite ?Hq, ?lookup_insert_eq in Hp; congruence.
  - right. unfold run_checkpoint in Hd. rewrite Hq in Hd. unfold checkpointed.
    exists q, fault, env, root, now. split; [done|]. split; [done|].
    destruct (backup.CreateCheckpoint fault env n _ _ _ _ _ _) as [dk res] eqn:Ek.
    destruct res; injection Hd as <-; cbn in Hp |- *; rewrite lookup_insert_eq in Hp; by simplify_eq.
Qed.

(** A goroutine that is not cancelled goes on. *)
Lemma dstep_unexited d l d' n p :
  dstep d l = Some d' -> d_pcs d !! n = Some p -> p <> PExited -> l <> LGo n ICancel ->
  exists p', d_pcs d' !! n = Some p' /\ p' <> PExited.
Proof.
  intros Hd Hp Hx Hl. unfold dstep, request in Hd. destruct (d_crashed d); [done|]. destruct l as [n' i|n' c|n' c].
  2,3: exists p; destruct (d_machines d !! n'); by simplify_eq.
  destruct (find_config n') as [q|] eqn:Ef; [|done]. apply find_config_name in Ef as Hq.
  destruct (d_pcs d !! n') as [at_|] eqn:Ep; [|done]. destruct (d_machines d !! n') as [m|]; [|done].
  destruct (decide (n' = n)) as [->|Hne].
  2: { exists p. by destruct (go_step_other _ _ _ _ _ _ Hd n ltac:(congruence)) as (-> & _). }
  rewrite Ep in Hp. injection Hp as ->.
  destruct p, i; simpl in Hd; try discriminate Hd; try done; try (injection Hd as <-); rewrite ?Hq.
  all: try (eexists; split; [cbn; rewrite ?Hq; apply lookup_insert_eq|by repeat case_match]).
  - destruct (0 <? interval_of q); eexists; (split; [cbn; apply lookup_insert_eq || exact Ep|done]).
  - destruct (state.WatchesForChurn m); eexists; (split; [cbn; apply lookup_insert_eq || exact Ep|done]).
  - destruct (run_checkpoint d q fault env root now) as [d1 ok]. injection Hd as <-.
    eexists. split; [cbn; rewrite Hq; apply lookup_insert_eq|done].
Qed.

(** The report ends the backup: the machine as the outcome says, and no archive touched. *)
Lemma report_outcome k d n m ok c d' :
  0 <= k < 2 ^ 63 - 1 -> state.wf k m -> state.CurrentState m = state.StateBackingUp ->
  d_pcs d !! n = Some (PReport ok) -> d_machines d !! n = Some m -> dstep d (LGo n (IFire c)) = Some d' ->
  d_disk d' = d_disk d /\ exists m', d_machines d' !! n = Some m'
  /\ if ok then state.CurrentState m' = state.StateFallow /\ state.ErrorCount m' = 0
     else state.CurrentState m' = state.StateError /\ state.ErrorCount m' = state.ErrorCount m + 1.
Proof.
  intros Hk Hwf Hs Hp Hm Hd. unfold dstep in Hd. destruct (d_crashed d); [done|].
  destruct (find_config n) as [q|] eqn:Ef; [|done]. apply find_config_name in Ef as Hq.
  rewrite Hp, Hm in Hd. cbn [go_step] in Hd. injection Hd as <-. rewrite Hq. split; [done|].
  eexists. split; [cbn; apply lookup_insert_eq|]. destruct ok.
  - unfold state.Transition. rewrite decide_True by done. cbn [fst].
    by destruct (state.touch_fields c (state.CurrentState m)
      (state.set_errors (state.set_state m state.StateFallow) 0 0)) as (-> & -> & _).
  - destruct (state.Transition_fail f2i c m Hs) as (-> & -> & _). split; [done|].
    unfold state.wf in Hwf. rewrite Hs in Hwf. apply wrap64_id. unfold in_int64. lia.
Qed.

(** * Properties *)

(** C24. No turn of a goroutine goes on for ever: from any point of its loop, whatever
    the others and the control port do meanwhile, at most five steps of its own take
    it back to its select (or crash the process), and until then it always has one. *)
Theorem select_is_reached now dk ls d n p ls' d' :
  Z.of_nat (length ls) < 2 ^ 63 -> reaches now dk ls d -> d_pcs d !! n = Some p ->
  drun d ls' = Some d' -> d_crashed d' = false ->
  (rank p <= 5)%nat
  /\ (((rank p <= own n ls')%nat ->
        exists pre post d1 p1, ls' = pre ++ post /\ drun d pre = Some d1
          /\ d_pcs d1 !! n = Some p1 /\ (p1 = PIdle \/ p1 = PExited)))
  /\ (d_crashed d = false -> (0 < rank p)%nat -> exists i d1, dstep d (LGo n i) = Some d1).
Proof.
  intros Hl Hr Hp Hd Hc. split; [destruct p; cbn; lia|]. split.
  - clear Hl Hr. revert d p Hp Hd. induction ls' as [|l ls' IH]; intros d p Hp Hd Hown.
    { exists [], [], d, p. split_and!; [done..|]. cbn in Hown. destruct p; cbn in Hown; auto; lia. }
    destruct (decide (rank p = 0%nat)) as [H0|H0].
    { exists [], (l :: ls'), d, p. split_and!; [done..|]. destruct p; cbn in H0; auto; lia. }
    cbn [drun] in Hd. destruct (dstep d l) as [d1|] eqn:E; [|done].
    assert (Hc1 : d_crashed d1 = false).
    { destruct (d_crashed d1) eqn:Ec; [|done]. destruct ls' as [|l' ls']; cbn [drun] in Hd; [congruence|].
      unfold dstep in Hd. by rewrite Ec in Hd. }
    destruct (dstep_rank d l d1 n p E Hc1 Hp ltac:(lia)) as (p' & Hp' & Hlt).
    cbn [own] in Hown, Hlt.
    destruct (IH d1 p' Hp' Hd ltac:(lia)) as (pre & post & d2 & p2 & -> & Hpre & Hp2 & Hf).
    exists (l :: pre), post, d2, p2. split_and!; [done| |done|done]. cbn [drun]. by rewrite E.
  - intros Hcr Hrk. pose proof (reaches_inv now dk ls d Hl Hr) as Hi.
    set (i := next_input p (state.mkClock 0 0 0) watcher.one_repo
                (ICheckpoint (fun _ _ => None) backup.sample_env (Err "") 0)).
    destruct (dstep_go _ d n p i Hi Hcr Hp) as (q & m & _ & _ & _ & E). exists i. rewrite E.
    destruct p; simpl in *; try lia; try (by eexists). destruct (run_checkpoint _ _ _ _ _ _); by eexists.
Qed.

(** Under every interleaving of the goroutines and the control port, a
    checkpoint runs, and is reported, only while its machine is backing up; every
    machine stays well formed (failures and retry times exist only in a backup
    cycle); and a goroutine that has neither exited nor crashed the process
    always has a next step. *)
Lemma daemon_invariant now dk ls d :
  Z.of_nat (length ls) < 2 ^ 63 -> reaches now dk ls d ->
  (forall n p m, d_pcs d !! n = Some p -> d_machines d !! n = Some m -> busy p = true ->
     state.CurrentState m = state.StateBackingUp)
  /\ (forall n m, d_machines d !! n = Some m -> state.wf (Z.of_nat (length ls)) m)
  /\ (d_crashed d = false -> forall n p c h fault env root t, d_pcs d !! n = Some p -> p <> PExited ->
        is_Some (dstep d (LGo n (next_input p c h (ICheckpoint fault env root t))))).
Proof.
  intros Hl Hr. pose proof (reaches_inv now dk ls d Hl Hr) as Hi. pose proof Hi as (I1 & I2 & _).
  split_and!; [done..|]. intros Hc n p c h fault env root t Hp Hx.
  destruct (dstep_go _ d n p (next_input p c h (ICheckpoint fault env root t)) Hi Hc Hp)
    as (q & m & _ & _ & _ & ->).
  destruct p; simpl; try done. by destruct (run_checkpoint d q fault env root t).
Qed.

(** A backup asked for is done: whenever a machine is backing up and its
    goroutine is back in its select, the evaluation tick, the checkpoint and the
    report take it to fallow with its failures cleared when the checkpoint
    succeeded, and to error with one failure more when it did not; the outcome is
    published once, the disk is what the checkpoint left of it, and in a roster of
    path elements no other project's archives changed. *)
Lemma backup_completes now dk ls d n m p fault env root t c dk' r :
  Z.of_nat (length ls) < 2 ^ 63 - 1 -> reaches now dk ls d -> d_crashed d = false ->
  d_pcs d !! n = Some PIdle -> d_machines d !! n = Some m -> find_config n = Some p ->
  state.CurrentState m = state.StateBackingUp ->
  backup.CreateCheckpoint fault env n (config.BackupsRoot (config.System cfg)) root
    (config.MaxArchives (config.Rotation (config.Backup p))) (config.Exclude (config.Backup p))
    dryRun (d_disk d) = (dk', r) ->
  exists d' m', drun d [LGo n IEvalTick; LGo n (ICheckpoint fault env root t); LGo n (IFire c)] = Some d'
  /\ d_machines d' !! n = Some m'
  /\ (is_ok r = true -> state.CurrentState m' = state.StateFallow /\ state.ErrorCount m' = 0)
  /\ (is_ok r = false -> state.CurrentState m' = state.StateError
                         /\ state.ErrorCount m' = state.ErrorCount m + 1)
  /\ d_events d' = d_events d ++ (if has_publisher then
       [backup_event n (is_ok r) (match r with Ok res => res | Err _ => no_result end) t] else [])
  /\ d_disk d' = dk'
  /\ (forall n', n' <> n -> d_machines d' !! n' = d_machines d !! n'
        /\ (plain_roster -> plain n' -> archives_of d' n' = archives_of d n')).
Proof.
  intros Hl Hr Hc Hp Hm Hf Hs Hck. pose proof (reaches_inv now dk ls d ltac:(lia) Hr) as Hi.
  pose proof (find_config_name _ _ Hf) as Hn.
  cbn [drun]. unfold dstep at 1. rewrite Hc, Hf, Hp, Hm. cbn [go_step]. rewrite Hn.
  rewrite decide_True by done. cbv iota. unfold dstep at 1. cbn [set_pc d_crashed d_pcs d_machines].
  rewrite Hc, Hf, lookup_insert_eq, Hm. cbn [go_step].
  unfold run_checkpoint. cbn [set_pc d_crashed d_pcs d_machines d_disk d_events d_counters]. rewrite Hn, Hck.
  set (okr := is_ok r). set (res := match r with Ok res => res | Err _ => no_result end).
  assert (Hok : exists key, (match r with
      | Ok res => (true, "delightd_backup_success_total", res)
      | Err _ => (false, "delightd_backup_failures_total", no_result) end) = (okr, key, res))
    by (unfold okr, res; destruct r; by eexists).
  destruct Hok as (key & ->). unfold dstep at 1. cbn [set_pc d_crashed d_pcs d_machines].
  rewrite Hc, Hf, lookup_insert_eq, Hm. cbn [go_step]. unfold transition. rewrite Hn.
  eexists _, _. split; [done|]. cbn [set_machine set_pc d_machines d_events d_disk].
  split; [apply lookup_insert_eq|]. split_and!.
  - intros ->. unfold state.Transition. rewrite decide_True by done. cbn [fst].
    destruct (state.touch_fields c (state.CurrentState m)
      (state.set_errors (state.set_state m state.StateFallow) 0 0)) as (-> & -> & _). done.
  - intros ->. destruct (state.Transition_fail f2i c m Hs) as (-> & -> & _). split; [done|].
    destruct Hi as (_ & I2 & _). pose proof (I2 n m Hm) as Hwf.
    unfold state.wf in Hwf. rewrite Hs in Hwf. apply wrap64_id. unfold in_int64. lia.
  - done.
  - done.
  - intros n' Hne. rewrite lookup_insert_ne by done. split; [done|]. intros Hpr Hpn.
    unfold archives_of. cbn [d_disk]. pose proof (backup.checkpoint_other_dirs fault env n
      (config.BackupsRoot (config.System cfg)) root (config.MaxArchives (config.Rotation (config.Backup p)))
      (config.Exclude (config.Backup p)) dryRun (d_disk d) n' (plain_find _ _ Hpr Hf) Hpn Hne) as Ho.
    by rewrite Hck in Ho.
Qed.

(** A check interval that parses but is not positive takes the whole daemon
    down: the first step its project's goroutine takes from the ticker's creation
    is a panic, and no project and no route makes a step after it. *)
Lemma bad_interval_crashes now dk ls d n p :
  Z.of_nat (length ls) < 2 ^ 63 -> reaches now dk ls d -> d_crashed d = false ->
  d_pcs d !! n = Some PTicker -> find_config n = Some p -> interval_of p <= 0 ->
  exists d', dstep d (LGo n IGo) = Some d' /\ d_crashed d' = true /\ forall l, dstep d' l = None.
Proof.
  intros Hl Hr Hc Hp Hf Hi.
  destruct (dstep_go _ d n PTicker IGo (reaches_inv now dk ls d Hl Hr) Hc Hp) as (q & m & Hq & _ & _ & E).
  rewrite Hf in Hq. injection Hq as <-. rewrite E. cbn [go_step].
  rewrite (proj2 (Z.ltb_ge _ _) Hi). by exists (crash d).
Qed.

(** The retry is not atomic: when the operator's reset lands between the
    goroutine's check of the error state and its retry, the retry starts a backup
    of the project that was just reset, with no churn and no request. *)
Lemma reset_overtaken_by_retry now dk ls d n m c c' :
  Z.of_nat (length ls) < 2 ^ 63 -> reaches now dk ls d -> d_crashed d = false ->
  d_pcs d !! n = Some PRetryFire -> d_machines d !! n = Some m ->
  state.CurrentState m = state.StateError ->
  exists d1 m1 d2 m2, dstep d (LReset n c) = Some d1 /\ d_machines d1 !! n = Some m1
  /\ state.CurrentState m1 = state.StateFallow
  /\ dstep d1 (LGo n (IFire c')) = Some d2 /\ d_machines d2 !! n = Some m2
  /\ state.CurrentState m2 = state.StateBackingUp /\ state.ErrorCount m2 = 0.
Proof.
  intros Hl Hr Hc Hp Hm Hs. pose proof (reaches_inv now dk ls d Hl Hr) as Hi.
  destruct (dstep_go _ d n PRetryFire (IFire c') Hi Hc Hp) as (p & m0 & Hf & Hn & _ & _).
  unfold dstep at 1. rewrite Hc. unfold request. rewrite Hm.
  remember (fst (state.Transition f2i c m state.EventClearError)) as m1 eqn:Em1.
  assert (Hm1 : state.CurrentState m1 = state.StateFallow /\ state.ErrorCount m1 = 0).
  { rewrite Em1. unfold state.Transition. rewrite decide_True by done. cbn [fst].
    destruct (state.touch_fields c (state.CurrentState m)
      (state.set_errors (state.set_state m state.StateFallow) 0 0)) as (-> & -> & _). done. }
  destruct Hm1 as [Hm1 Hm1e].
  exists (transition d n m c state.EventClearError), m1. unfold dstep, transition.
  rewrite <-Em1. cbn [set_machine set_pc d_crashed d_pcs d_machines].
  rewrite Hc, Hf, Hp, lookup_insert_eq. cbn [go_step]. unfold transition. rewrite Hn.
  eexists _, _. split_and!; [done|done|done|done|cbn [set_machine set_pc d_machines]; apply lookup_insert_eq|..].
  - destruct (state.Transition_trigger f2i c' m1 ltac:(by left)) as [_ Ht]. exact Ht.
  - unfold state.Transition. rewrite bool_decide_eq_true_2 by (by left).
    rewrite bool_decide_eq_false_2 by congruence. cbn [andb fst].
    destruct (state.touch_fields c' (state.CurrentState m1) (state.set_state m1 state.StateBackingUp))
      as (_ & -> & _). done.
Qed.

(** A project that stays churned is put to backup by its own goroutine: from
    a quiet machine two uninterrupted polls that see churn end in backing up, the
    first in monitoring, and touch no other project's machine. *)
Lemma churn_reaches_backup now dk ls d n p m h c c' :
  Z.of_nat (length ls) < 2 ^ 63 -> reaches now dk ls d -> d_crashed d = false ->
  d_pcs d !! n = Some PIdle -> find_config n = Some p -> d_machines d !! n = Some m ->
  state.CurrentState m = state.StateFallow -> watcher.HasChurn h (config.Path p) = Ok true ->
  exists d1 m1 d2 m2, drun d (poll n h c) = Some d1 /\ d_machines d1 !! n = Some m1
  /\ state.CurrentState m1 = state.StateMonitoring
  /\ drun d1 (poll n h c') = Some d2 /\ d_machines d2 !! n = Some m2 /\ d_pcs d2 !! n = Some PIdle
  /\ state.CurrentState m2 = state.StateBackingUp
  /\ (forall n', n' <> n -> d_machines d2 !! n' = d_machines d !! n').
Proof.
  intros Hl Hr Hc Hp Hf Hm Hs Hh. pose proof (find_config_name _ _ Hf) as Hn.
  assert (Hs1 : state.CurrentState (fst (state.AdvanceOnChurn f2i c m)) = state.StateMonitoring).
  { unfold state.AdvanceOnChurn, state.GetState. rewrite Hs. simpl. rewrite decide_True by done.
    by destruct (state.touch_fields c (state.CurrentState m) (state.set_state m state.StateMonitoring)) as (-> & _). }
  destruct (poll_advances d n p m h c Hc Hf Hn Hp Hm) as (d1 & E1 & Hc1 & Hp1 & Hm1 & Ho1);
    [by unfold state.WatchesForChurn, state.GetState; rewrite Hs|done|].
  destruct (poll_advances d1 n p _ h c' Hc1 Hf Hn Hp1 Hm1) as (d2 & E2 & _ & Hp2 & Hm2 & Ho2);
    [by unfold state.WatchesForChurn, state.GetState; rewrite Hs1|done|].
  eexists d1, _, d2, _. split_and!; [done|exact Hm1|done|done|exact Hm2|done| |].
  - unfold state.AdvanceOnChurn at 1. unfold state.GetState. rewrite Hs1.
    by apply state.Transition_trigger; right; left.
  - intros n' Hne. by rewrite Ho2, Ho1.
Qed.

End loop.

(** * The properties at concrete inputs *)

Definition w_duration (s : string) : result string Z :=
  if String.eqb s "15m" then Ok (15 * Minute) else if String.eqb s "0s" then Ok 0 else Err "time: bad duration".

Definition w_project : config.ProjectConfig := config.project_at "p" "/home/j/p".
Definition w_cfg : config.DelightConfig :=
  config.mkDelightConfig config.no_system [w_project] false [].

(** A duration that parses to no time at all. *)
Definition w_zero_duration (_ : string) : result string Z := Ok 0.

Definition w_clock (t : Z) : state.Clock := state.mkClock t t 0.
Definition w_now (_ : string) : Z := 100.

(** Up, quiet; then asked for a backup; then failed once and due for its retry. *)
Definition w_up : list label := [LGo "p" IGo; LGo "p" IGo].
Definition w_asked : list label := w_up ++ [LBackup "p" (w_clock 200)].
Definition w_failed : list label :=
  w_asked ++ [LGo "p" IEvalTick;
              LGo "p" (ICheckpoint (fun _ _ => None) backup.sample_env (Ok backup.with_socket) 250);
              LGo "p" (IFire (w_clock 300))].
Definition w_retrying : list label :=
  w_failed ++ [LGo "p" IGo; LGo "p" (IClock (10 * Minute))].

Definition w_run (parse : string -> result string Z) (ls : list label) : Daemon :=
  default (start w_cfg w_now ∅)
    (drun (fun _ => 0) parse w_cfg false false true (start w_cfg w_now ∅) ls).

Definition w_machine (ls : list label) : state.Machine :=
  default (state.NewMachine "" 0) (d_machines (w_run w_duration ls) !! "p").

(** From the checkpoint of a requested backup: five steps later it is in select. *)
Lemma select_is_reached_witness :
  exists pre post d1 p1,
    [LGo "p" (ICheckpoint (fun _ _ => None) backup.sample_env (Ok backup.sample) 250);
     LReset "p" (w_clock 260); LGo "p" (IFire (w_clock 300)); LGo "p" IGo;
     LGo "p" IEvalTick; LGo "p" IGo] = pre ++ post
  /\ drun (fun _ => 0) w_duration w_cfg false false true
       (w_run w_duration (w_asked ++ [LGo "p" IEvalTick])) pre = Some d1
  /\ d_pcs d1 !! "p" = Some p1 /\ (p1 = PIdle \/ p1 = PExited).
Proof.
  set (ls' := [LGo "p" (ICheckpoint (fun _ _ => None) backup.sample_env (Ok backup.sample) 250);
     LReset "p" (w_clock 260); LGo "p" (IFire (w_clock 300)); LGo "p" IGo;
     LGo "p" IEvalTick; LGo "p" IGo]).
  refine (proj1 (proj2 (select_is_reached (fun _ => 0) w_duration w_cfg false false true w_now ∅
    (w_asked ++ [LGo "p" IEvalTick]) (w_run w_duration (w_asked ++ [LGo "p" IEvalTick])) "p" PRunning ls'
    (default (start w_cfg w_now ∅) (drun (fun _ => 0) w_duration w_cfg false false true
       (w_run w_duration (w_asked ++ [LGo "p" IEvalTick])) ls')) _ _ _ _ _)) _); vm_compute; try reflexivity.
Defined.

End daemon.
