(* ===== verification/System.v ===== *)
(** cmd/delightd/main.go, runDaemon: the daemon put together.

    [runDaemon] is the start-up, from the loaded configuration to the served
    control port; [sstep] is then one step of the running process: of a project's
    goroutine, of a request on the control port, of the heartbeat consumer, of the
    expiry sweep, or of the export or discovery ticker. A run is any sequence of
    them. The components keep their own definitions: the machines the goroutines
    step are the machines the requests see, the registry the broker writes is the
    one the sweep drains, and the tools the aggregator scans are those MCP calls. *)

From S2P Require Import Prelude GoStrings GoPath State Proto KV Registry Backup Config GitState Enablement Furnish Skills Exports Discovery Events HttpAuth HttpApi HttpRegister HttpFurnish HttpSurface HttpServe Daemon.
Import proto bbolt kube httpauth httpapi httpregister httpfurnish httpsurface httpserve.

Module system.

Section system.
Context {B EB : Type} `{BucketLaws B} `{BucketLaws EB}.
Context `{CodecLaws Registration} `{Codec enablement.Record_} `{Codec RegisterRequest}
  `{Codec RegisterResponse} `{Codec ResolvedService} `{Codec Service} `{Codec Project}.
Context {S M : Type} `{ApiLaws S M}.
Context {V : Type}.
Variable quote : string -> string.
Variable format_time : Z -> string.
Variable valid_full_name : string -> bool.
Variable f2i : Z -> Z.
Variable ParseDuration : string -> result string Z.
Variable hostname : string -> result string string.   (* url.Parse and Hostname *)

(** * The state *)

Record System := mkSystem {
  sy_daemon : daemon.Daemon;                 (* goroutines, machines, archives, counters *)
  sy_reg : option B;                         (* nil when the store did not open *)
  sy_seen : gset string;                     (* refreshedSeen *)
  sy_enablement : option EB;
  sy_bus : list NotRegistered;
  sy_fleet : Fleet (S := S) (M := M);
  sy_outbox : list skills.effect;
  sy_agg : skills.Aggregator;
  sy_exports : exports.FS;
  sy_cli : gmap string string;               (* the generated router, by path *)
  sy_routes : option traefik.DynamicConfig
}.

Definition set_daemon (y : System) (d : daemon.Daemon) : System :=
  mkSystem d (sy_reg y) (sy_seen y) (sy_enablement y) (sy_bus y) (sy_fleet y) (sy_outbox y) (sy_agg y)
    (sy_exports y) (sy_cli y) (sy_routes y).
Definition set_leases (y : System) (reg : B) (seen : gset string) : System :=
  mkSystem (sy_daemon y) (Some reg) seen (sy_enablement y) (sy_bus y) (sy_fleet y) (sy_outbox y) (sy_agg y)
    (sy_exports y) (sy_cli y) (sy_routes y).
Definition set_routes (y : System) (routes : option traefik.DynamicConfig) : System :=
  mkSystem (sy_daemon y) (sy_reg y) (sy_seen y) (sy_enablement y) (sy_bus y) (sy_fleet y) (sy_outbox y) (sy_agg y)
    (sy_exports y) (sy_cli y) routes.
Definition set_exports (y : System) (fs : exports.FS) (agg : skills.Aggregator) (cli : gmap string string) : System :=
  mkSystem (sy_daemon y) (sy_reg y) (sy_seen y) (sy_enablement y) (sy_bus y) (sy_fleet y) (sy_outbox y) agg
    fs cli (sy_routes y).

(** * Start-up *)

(** What one export and skill sync meets: the file system's answers, the registry
    file and the project scans, the orders of two maps, and the manifests. *)
Record SyncEnv := mkSyncEnv {
  se_fails : exports.fop -> string -> bool;
  se_cwd : string;
  se_stamp : string;
  se_rangeP : exports.expectation -> list (string * gmap string exports.ExportDef);
  se_rangeB : gmap string exports.ExportDef -> list (string * exports.ExportDef);
  se_registry : list exports.ProjectExports;
  se_scan : string -> list exports.ExportDef;
  se_manifest : string -> result string (list skills.Tool);
  se_bin : string;                           (* DELIGHT_EXPORTS_BIN, empty when unset *)
  se_home : string;                          (* os.UserHomeDir, empty when it fails *)
  se_mkdir_cli : option string;              (* GenerateCLIWrapper's system calls *)
  se_write_cli : skills.write_file
}.

(** What start-up meets besides. *)
Record BootEnv := mkBootEnv {
  bo_now : string -> Z;
  bo_disk : backup.disk;                     (* the archives there are *)
  bo_lookup : string -> option string;
  bo_exports : exports.FS;
  bo_cli : gmap string string;
  bo_routes : option traefik.DynamicConfig;  (* llms.yml *)
  bo_sync : SyncEnv;
  bo_events : option string;                 (* events.New's error *)
  bo_emit : option string;                   (* emit.New's error *)
  bo_reg_mkdir : option string;
  bo_reg_file : result string (option B);
  bo_reg_tx : txio;
  bo_warm_now : Z;
  bo_warm_tx : txio;
  bo_state_mkdir : option string;
  bo_state_file : result string (option EB);
  bo_state_tx : txio;
  bo_getenv : string -> string;
  bo_token : string -> result string string; (* os.ReadFile *)
  bo_cluster : S
}.

(** What start-up fixes for the life of the process. *)
Record Wiring := mkWiring {
  wi_server : Server;
  wi_engine : exports.Engine;
  wi_publisher : bool;                       (* the backup publisher is not nil *)
  wi_kubeDir : string;
  wi_port : Z
}.

Definition knownProjects (cfg : config.DelightConfig) : list string := map config.Name (config.Projects cfg).

(** The wrapper's directory: the bin directory of the environment, or the home's. *)
Definition varBinDir (x : SyncEnv) : string :=
  if String.eqb (se_bin x) "" then path_join [se_home x; "var"; "bin"] else se_bin x.

(** The closure syncSkills. *)
Definition syncSkills (cfg : config.DelightConfig) (dryRun : bool) (x : SyncEnv)
    (agg : skills.Aggregator) (cli : gmap string string) : skills.Aggregator * gmap string string :=
  let sk := config.AgentSkills (config.System cfg) in
  if negb (config.Enabled sk) then (agg, cli)
  else
    let agg' := skills.ScanProjects (se_manifest x) (knownProjects cfg) agg in
    (agg', fold_left (fun cli method =>
             if String.eqb method "cli" && negb dryRun
             then fst (skills.GenerateCLIWrapper (se_mkdir_cli x) (se_write_cli x) (varBinDir x)
                         (skills.GetTools agg') cli)
             else cli) (config.ExposeVia sk) cli).

Definition syncExports (cfg : config.DelightConfig) (dryRun : bool) (engine : exports.Engine) (x : SyncEnv)
    (fs : exports.FS) : exports.FS :=
  exports.Sync engine (se_fails x) (se_cwd x) (se_stamp x) (se_rangeP x) (se_rangeB x) dryRun
    (se_registry x) (se_scan x) (knownProjects cfg) fs.

Definition to_option {E A} (r : result E A) : option A := match r with Ok a => Some a | Err _ => None end.

(** registry.Open and the warm start; a store that does not open is carried as nil. *)
Definition open_registry (b : BootEnv) : option B :=
  match registry.Open (bo_reg_mkdir b) (bo_reg_file b) (bo_reg_tx b) with
  | Err _ => None
  | Ok db => Some (fst (registry.ReconcileWarmStart (bo_warm_now b) registry.WarmStartGrace (bo_warm_tx b) db))
  end.

Definition open_state (b : BootEnv) : option EB :=
  to_option (enablement.Open (bo_state_mkdir b) (bo_state_file b) (bo_state_tx b)).

Definition has_brokers (cfg : config.DelightConfig) : bool :=
  negb (bool_decide (config.Brokers (config.Kafka (config.System cfg)) = [])).

(** runDaemon, up to the served control port. *)
Definition runDaemon (load : result string config.DelightConfig) (dryRun : bool) (b : BootEnv)
    : result string (Wiring * System) :=
  match load with
  | Err e => Err ("failed to load configuration: " +:+ e)
  | Ok cfg =>
      let monitorRoot := config.MonitorRoot (config.System cfg) in
      let configRoot := config.ConfigRoot (config.System cfg) in
      let engine := exports.NewEngine (bo_lookup b) (se_home (bo_sync b)) monitorRoot in
      let fs := syncExports cfg dryRun engine (bo_sync b) (bo_exports b) in
      let agg0 := skills.SetSelfManifest (path_join [configRoot; "mcp.json"]) (skills.NewAggregator monitorRoot) in
      let '(agg, cli) := syncSkills cfg dryRun (bo_sync b) agg0 (bo_cli b) in
      let publisher := has_brokers cfg && bool_decide (bo_events b = None) in
      let emitPub := has_brokers cfg && bool_decide (bo_emit b = None) in
      let controlToken := daemon.loadControlToken (bo_token b (daemon.controlTokenPath (bo_getenv b))) in
      Ok (mkWiring (mkServer cfg dryRun emitPub controlToken) engine publisher
            (path_join [configRoot; "kube"; "kube"]) (config.ResolveControlPort (config.Daemon (config.System cfg))),
          mkSystem (daemon.start cfg (bo_now b) (bo_disk b)) (open_registry b) ∅ (open_state b) []
            (mkFleet (bo_cluster b) None) [] (skills.UseControlToken controlToken agg) fs cli (bo_routes b))
  end.

Lemma syncExports_dry cfg engine x fs : syncExports cfg true engine x fs = fs.
Proof. by apply exports.Sync_dry. Qed.

Lemma syncSkills_dry cfg x agg cli : snd (syncSkills cfg true x agg cli) = cli.
Proof.
  unfold syncSkills. destruct (negb _); [done|]. cbn [snd].
  induction (config.ExposeVia _) as [|m ms IH]; cbn [fold_left]; [done|]. by rewrite andb_false_r.
Qed.

(** * The running process *)

Section running.
Variable wi : Wiring.
Variable immediate : bool.

Abbreviation srv := (wi_server wi).
Abbreviation cfg := (s_cfg srv).
Abbreviation dryRun := (s_dryRun srv).
Abbreviation World_ := (World (B := B) (EB := EB)).

Definition loop_step : daemon.Daemon -> daemon.label -> option daemon.Daemon :=
  daemon.dstep f2i ParseDuration cfg dryRun immediate (wi_publisher wi).

(** What the control port's handlers share with the rest of the process. *)
Definition view (y : System) : World_ * Fleet (S := S) (M := M) * Surface :=
  (mkWorld (daemon.d_machines (sy_daemon y)) (sy_reg y) (sy_enablement y) (sy_bus y), sy_fleet y,
   mkSurface (daemon.d_counters (sy_daemon y)) (sy_outbox y)).

Definition with_machines (d : daemon.Daemon) (ms : gmap string state.Machine) (cs : gmap string Z) : daemon.Daemon :=
  daemon.mkDaemon (daemon.d_pcs d) ms (daemon.d_disk d) (daemon.d_events d) cs (daemon.d_crashed d).

Definition absorb (y : System) (w : World_ * Fleet (S := S) (M := M) * Surface) : System :=
  mkSystem (with_machines (sy_daemon y) (w_machines w.1.1) (sf_counters w.2)) (w_reg w.1.1) (sy_seen y)
    (w_enablement w.1.1) (w_events w.1.1) w.1.2 (sf_outbox w.2) (sy_agg y) (sy_exports y) (sy_cli y) (sy_routes y).

(** The server's own engine and aggregator, and UseFurnish's manifest root. *)
Definition wired (y : System) (po : Ports V) : Ports V :=
  mkPorts (po_range po) (po_request_ok po) (po_get po) (wi_engine wi) (po_readdir po) (sy_agg y) (po_Sprint po)
    hostname (po_out po) (po_decode_rpc po) (po_decode_params po).
Definition furnished (fe : FurnishEnv (M := M)) : FurnishEnv (M := M) :=
  mkFurnishEnv true (fe_build fe) (wi_kubeDir wi) (fe_read_file fe) (fe_yaml_resources fe) (fe_kustomize fe)
    (fe_readyz fe).

Definition respond (env : Env) (fe : FurnishEnv (M := M)) (po : Ports V) (r : Request) (y : System) :=
  serve_request quote format_time valid_full_name f2i env srv (furnished fe) (wired y po) r (view y).

Inductive slabel :=
| SLoop (n : string) (i : daemon.input)
| SRequest (env : Env) (fe : FurnishEnv (M := M)) (po : Ports V) (r : Request)
| SHeartbeat (nows : nat -> Z) (io : txio) (service : string)
| SSweep (now : Z) (io : txio)
| SExports (x : SyncEnv)
| SDiscovery (request_ok : string -> bool) (get : string -> result string (Z * result string (list string)))
             (io : traefik.Io).

(** A step on the registry, which only a daemon with a registry takes. *)
Definition lease_step (y : System) (f : daemon.Leases (B := B) -> daemon.Leases (B := B)) : option System :=
  match sy_reg y with
  | None => None
  | Some db => let l := f (daemon.mkLeases db (sy_seen y)) in
               Some (set_leases y (daemon.l_reg l) (daemon.l_seen l))
  end.

(** [None]: not enabled. A panic in a goroutine of main ends the process; one in a
    handler ends its connection only. *)
Definition sstep (y : System) (l : slabel) : option System :=
  if daemon.d_crashed (sy_daemon y) then None
  else match l with
       | SLoop n i => set_daemon y <$> loop_step (sy_daemon y) (daemon.LGo n i)
       | SRequest env fe po r => Some (absorb y (fst (respond env fe po r y)))
       | SHeartbeat nows io service => lease_step y (fun l => fst (daemon.on_heartbeat nows io service l))
       | SSweep now io => lease_step y (fun l => fst (daemon.sweep now io l))
       | SExports x =>
           let fs := syncExports cfg dryRun (wi_engine wi) x (sy_exports y) in
           let '(agg, cli) := syncSkills cfg dryRun x (sy_agg y) (sy_cli y) in
           Some (set_exports y fs agg cli)
       | SDiscovery request_ok get io =>
           match discovery.DiscoverLocalLLMs request_ok get cfg with
           | None => Some (set_daemon y (daemon.crash (sy_daemon y)))
           | Some sources => Some (set_routes y (fst (traefik.SyncLLMRoutes io sources (sy_routes y))))
           end
       end.

Fixpoint srun (y : System) (ls : list slabel) : option System :=
  match ls with
  | [] => Some y
  | l :: r => match sstep y l with Some y' => srun y' r | None => None end
  end.

(** * Lemmas *)

Lemma serve_counters r w env fe po :
  sf_counters (snd (fst (serve_request (S := S) (M := M) (V := V) (B := B) (EB := EB)
    quote format_time valid_full_name f2i env srv fe po r w))) = sf_counters w.2.
Proof.
  destruct (serve_surface quote format_time valid_full_name f2i env srv fe po r w) as [->|(_ & _ & _ & ->)]; [done|].
  unfold handleMCP. by destruct (skills.HandleMCP _ _ _ _ _ _ _ _ _).
Qed.

Lemma with_machines_same d : with_machines d (daemon.d_machines d) (daemon.d_counters d) = d.
Proof. by destruct d. Qed.

(** A request is a step of the control loop's own state machine, or none. *)
Lemma respond_daemon env fe po r y :
  daemon.d_crashed (sy_daemon y) = false ->
  sy_daemon (absorb y (fst (respond env fe po r y))) = sy_daemon y
  \/ exists n e, (e = daemon.LBackup n (e_clock env) \/ e = daemon.LReset n (e_clock env))
     /\ loop_step (sy_daemon y) e = Some (sy_daemon (absorb y (fst (respond env fe po r y)))).
Proof.
  intros Hc. unfold absorb. cbn [sy_daemon]. unfold respond. rewrite serve_counters. cbn [view snd sf_counters].
  pose proof (serve_moved quote format_time valid_full_name f2i env srv (furnished fe) (wired y po) r (view y)) as Hm.
  destruct Hm as [->|n m e He Hn ->|db reg _ ->|db ->|ev ->];
    cbn [view fst w_machines set_machines set_reg set_enablement add_event] in *;
    try (left; apply with_machines_same).
  right. exists n. destruct He as [He|He]; subst e; [exists (daemon.LBackup n (e_clock env))|exists (daemon.LReset n (e_clock env))];
    (split; [auto|]); unfold loop_step, daemon.dstep, daemon.request; by rewrite Hc, Hn.
Qed.

Lemma lease_step_daemon y f y' : lease_step y f = Some y' -> sy_daemon y' = sy_daemon y.
Proof. unfold lease_step. destruct (sy_reg y); [|done]. by intros [= <-]. Qed.

(** The process refines its control loop: every step is one of the loop's, leaves
    the loop alone, or is the panic that ends it. *)
Lemma sstep_daemon y l y' :
  sstep y l = Some y' ->
  sy_daemon y' = sy_daemon y \/ sy_daemon y' = daemon.crash (sy_daemon y)
  \/ exists dl, loop_step (sy_daemon y) dl = Some (sy_daemon y').
Proof.
  unfold sstep. destruct (daemon.d_crashed (sy_daemon y)) eqn:Hc; [done|].
  destruct l as [n i|env fe po r|nows io service|now io|x|ok get io].
  - destruct (loop_step _ _) as [d|] eqn:E; [|done]. intros [= <-]. right. right. by exists (daemon.LGo n i).
  - intros [= <-]. destruct (respond_daemon env fe po r y Hc) as [->|(n & e & _ & E)]; [by left|].
    right. right. by exists e.
  - intros ->%lease_step_daemon. by left.
  - intros ->%lease_step_daemon. by left.
  - destruct (syncSkills _ _ _ _ _) as [agg cli]. intros [= <-]. by left.
  - destruct (discovery.DiscoverLocalLLMs ok get _) as [sources|]; intros [= <-]; [by left|right; by left].
Qed.

(** What may leave the process: the token only with a mutation, to a loopback host. *)
Definition confined (e : skills.effect) : Prop :=
  match e with
  | skills.Exec _ _ => True
  | skills.Http m url bearer =>
      bearer = "" \/ (bearer = s_controlToken srv /\ skills.isMutatingMethod m = true
                      /\ skills.isLoopbackURL hostname url = true)
  end.

(** The invariant of the process after [k] steps. *)
Definition good (k : Z) (y : System) : Prop :=
  daemon.inv cfg k (sy_daemon y)
  /\ (forall db, sy_reg y = Some db -> registry.sound (registry.abs db))
  /\ skills.controlToken (sy_agg y) = s_controlToken srv
  /\ Forall confined (sy_outbox y).

Lemma respond_confined env fe po r y :
  skills.controlToken (sy_agg y) = s_controlToken srv -> Forall confined (sy_outbox y) ->
  Forall confined (sy_outbox (absorb y (fst (respond env fe po r y)))).
Proof.
  intros Ht Hf. unfold absorb, respond. cbn [sy_outbox].
  destruct (serve_surface quote format_time valid_full_name f2i env srv (furnished fe) (wired y po) r (view y))
    as [->|(_ & _ & _ & ->)]; [done|]. unfold handleMCP.
  destruct (skills.HandleMCP _ _ _ _ _ _ _ _ _) as [es resp] eqn:E. cbn [fst sf_outbox view snd].
  apply Forall_app. split; [done|].
  apply skills.HandleMCP_calls in E as [[-> _]|(k & tool & args & id & o & isErr & _ & _ & Hc & _)]; [constructor|].
  apply skills.call_tool_permitted in Hc as [[-> _]|(e & -> & Hp)]; constructor; [|constructor].
  destruct e as [c argv|m url b]; [done|]. cbn [skills.permitted wired po_hostname po_agg] in Hp.
  destruct Hp as (_ & _ & Hb). cbn [confined]. destruct (decide (b = "")) as [|Hn]; [by left|right].
  rewrite <-Ht. by apply Hb.
Qed.

Lemma respond_sound env fe po r y :
  (forall db, sy_reg y = Some db -> registry.sound (registry.abs db)) ->
  forall db, sy_reg (absorb y (fst (respond env fe po r y))) = Some db -> registry.sound (registry.abs db).
Proof.
  intros Hs. unfold absorb, respond. cbn [sy_reg].
  pose proof (serve_moved quote format_time valid_full_name f2i env srv (furnished fe) (wired y po) r (view y)) as Hm.
  destruct Hm as [->|n m e He Hn ->|db reg Hr ->|db ->|ev ->]; try exact Hs.
  intros db' [= <-]. cbn in Hr. by apply (registry.exec_sound (e_reg_tx env) (registry.OpUpsert reg)), Hs.
Qed.

Lemma heartbeat_reg nows io service (l : daemon.Leases (B := B)) :
  daemon.l_reg (fst (daemon.on_heartbeat nows io service l))
  = registry.exec io (registry.OpRefresh nows service registry.DefaultLeaseTTL) (daemon.l_reg l).
Proof.
  unfold daemon.on_heartbeat, registry.exec.
  by destruct (registry.RefreshLease _ _ _ _ _) as [db [ok [e|]]].
Qed.

Lemma sweep_reg now io (l : daemon.Leases (B := B)) :
  daemon.l_reg (fst (daemon.sweep now io l)) = registry.exec io (registry.OpExpire now) (daemon.l_reg l).
Proof.
  unfold daemon.sweep, registry.exec. by destruct (registry.ExpireDue _ _ _) as [db [ex [e|]]].
Qed.

Lemma lease_step_sound y f y' o :
  (forall l, daemon.l_reg (f l) = registry.exec (fst o) (snd o) (daemon.l_reg l)) ->
  lease_step y f = Some y' ->
  (forall db, sy_reg y = Some db -> registry.sound (registry.abs db)) ->
  (forall db, sy_reg y' = Some db -> registry.sound (registry.abs db))
  /\ sy_agg y' = sy_agg y /\ sy_outbox y' = sy_outbox y.
Proof.
  intros Hf. unfold lease_step. destruct (sy_reg y) as [db|]; [|done]. intros [= <-] Hs. split; [|done].
  intros db' [= <-]. rewrite Hf. by apply registry.exec_sound, Hs.
Qed.

Lemma syncSkills_token x a cli :
  skills.controlToken (fst (syncSkills cfg dryRun x a cli)) = skills.controlToken a.
Proof. unfold syncSkills. by destruct (negb _). Qed.

Lemma inv_crash k d : daemon.inv cfg k d -> daemon.inv cfg k (daemon.crash d).
Proof. done. Qed.

Lemma sstep_inv k y l y' :
  0 <= k < 2 ^ 63 - 1 -> daemon.inv cfg k (sy_daemon y) -> sstep y l = Some y' ->
  daemon.inv cfg (k + 1) (sy_daemon y').
Proof.
  intros Hk Hi Hst. destruct (sstep_daemon _ _ _ Hst) as [->|[->|[dl E]]].
  - eapply daemon.inv_mono, Hi. lia.
  - apply inv_crash. eapply daemon.inv_mono, Hi. lia.
  - eapply daemon.dstep_inv; [exact Hk|exact Hi|exact E].
Qed.

Lemma srun_inv ls : forall k y y',
  0 <= k -> k + Z.of_nat (length ls) < 2 ^ 63 -> daemon.inv cfg k (sy_daemon y) -> srun y ls = Some y' ->
  daemon.inv cfg (k + Z.of_nat (length ls)) (sy_daemon y').
Proof.
  induction ls as [|l ls IH]; intros k y y' Hk0 Hk Hi Hr; cbn [srun length] in *.
  - simplify_eq. by rewrite Z.add_0_r.
  - destruct (sstep y l) as [y1|] eqn:E; [|done].
    replace (k + Z.of_nat (Datatypes.S (length ls))) with (k + 1 + Z.of_nat (length ls)) in * by lia.
    apply (IH (k + 1) y1); [lia|lia| |done]. eapply sstep_inv; [|done..]. lia.
Qed.

Lemma sstep_good k y l y' : 0 <= k < 2 ^ 63 - 1 -> good k y -> sstep y l = Some y' -> good (k + 1) y'.
Proof.
  intros Hk (Hi & Hs & Ht & Hf) Hst. split; [by eapply sstep_inv|].
  unfold sstep in Hst. destruct (daemon.d_crashed (sy_daemon y)); [done|].
  destruct l as [n i|env fe po r|nows io service|now io|x|ok get io].
  - destruct (loop_step _ _); [|done]. by injection Hst as <-.
  - injection Hst as <-. split; [by apply respond_sound|]. split; [done|]. by apply respond_confined.
  - apply (lease_step_sound _ _ _ (io, registry.OpRefresh nows service registry.DefaultLeaseTTL)) in Hst
      as (Hs' & Ea & Eo); [|apply heartbeat_reg|done]. by rewrite Ea, Eo.
  - apply (lease_step_sound _ _ _ (io, registry.OpExpire now)) in Hst as (Hs' & Ea & Eo); [|apply sweep_reg|done].
    by rewrite Ea, Eo.
  - pose proof (syncSkills_token x (sy_agg y) (sy_cli y)) as Hx.
    destruct (syncSkills _ _ _ _ _) as [agg cli]. injection Hst as <-. cbn in Hx |- *. by rewrite Hx.
  - by destruct (discovery.DiscoverLocalLLMs ok get _) as [sources|]; injection Hst as <-.
Qed.

Lemma srun_good k y ls y' :
  0 <= k -> k + Z.of_nat (length ls) < 2 ^ 63 -> good k y -> srun y ls = Some y' ->
  good (k + Z.of_nat (length ls)) y'.
Proof.
  revert k y. induction ls as [|l ls IH]; intros k y Hk0 Hk Hg Hr; cbn [srun length] in *.
  - simplify_eq. by rewrite Z.add_0_r.
  - destruct (sstep y l) as [y1|] eqn:E; [|done].
    replace (k + Z.of_nat (Datatypes.S (length ls))) with (k + 1 + Z.of_nat (length ls)) in * by lia.
    apply (IH (k + 1) y1); [lia|lia| |done]. eapply sstep_good; [|done..]. lia.
Qed.

(** ** Without the token *)

Definition unauthorized (l : slabel) : Prop :=
  match l with SRequest _ _ _ r => ~ authorized (s_controlToken srv) r | _ => True end.

(** What only the operator's token moves. *)
Definition same_control (y y' : System) : Prop :=
  sy_fleet y' ≡ sy_fleet y /\ sy_enablement y' = sy_enablement y /\ sy_outbox y' = sy_outbox y.

Definition is_go (l : daemon.label) : Prop := match l with daemon.LGo _ _ => True | _ => False end.

Lemma respond_unauthorized env fe po r y :
  ~ authorized (s_controlToken srv) r ->
  sy_daemon (absorb y (fst (respond env fe po r y))) = sy_daemon y
  /\ same_control y (absorb y (fst (respond env fe po r y))).
Proof.
  intros Ha. unfold absorb, same_control, respond. cbn [sy_daemon sy_fleet sy_enablement sy_outbox].
  rewrite serve_counters. destruct (serve_unauthorized quote format_time valid_full_name f2i env srv
    (furnished fe) (wired y po) r (view y) Ha) as (Hr & Hf & Hs).
  assert (Hw : w_machines (fst (serve_request quote format_time valid_full_name f2i env srv (furnished fe)
                 (wired y po) r (view y))).1.1 = daemon.d_machines (sy_daemon y)
             /\ w_enablement (fst (serve_request quote format_time valid_full_name f2i env srv (furnished fe)
                 (wired y po) r (view y))).1.1 = sy_enablement y)
    by (by destruct Hr as [->|[[ev ->]|(db & reg & _ & ->)]]).
  destruct Hw as [-> ->]. rewrite Hs. split; [apply with_machines_same|by split_and!].
Qed.

Lemma lease_step_control y f y' : lease_step y f = Some y' -> same_control y y'.
Proof. unfold lease_step. destruct (sy_reg y); [|done]. by intros [= <-]. Qed.

Lemma sstep_unauthorized y l y' :
  unauthorized l -> sstep y l = Some y' ->
  same_control y y'
  /\ (daemon.d_crashed (sy_daemon y') = true \/ sy_daemon y' = sy_daemon y
      \/ exists dl, is_go dl /\ loop_step (sy_daemon y) dl = Some (sy_daemon y')).
Proof.
  intros Hu. unfold sstep. destruct (daemon.d_crashed (sy_daemon y)) eqn:Hc; [done|].
  destruct l as [n i|env fe po r|nows io service|now io|x|ok get io].
  - destruct (loop_step _ _) as [d|] eqn:E; [|done]. intros [= <-]. split; [done|].
    right. right. by exists (daemon.LGo n i).
  - intros [= <-]. destruct (respond_unauthorized env fe po r y Hu) as [Hd Hsc]. split; [done|]. right. by left.
  - intros Hl. split; [by eapply lease_step_control|]. right. left. by eapply lease_step_daemon.
  - intros Hl. split; [by eapply lease_step_control|]. right. left. by eapply lease_step_daemon.
  - destruct (syncSkills _ _ _ _ _) as [agg cli]. intros [= <-]. split; [done|]. right. by left.
  - destruct (discovery.DiscoverLocalLLMs ok get _); intros [= <-]; (split; [done|]); [right; by left|by left].
Qed.

Lemma same_control_trans y1 y2 y3 : same_control y1 y2 -> same_control y2 y3 -> same_control y1 y3.
Proof.
  intros (Hf & He & Ho) (Hf' & He' & Ho'). split_and!; [by rewrite Hf'|congruence|congruence].
Qed.

Lemma srun_unauthorized y ls y' :
  Forall unauthorized ls -> srun y ls = Some y' ->
  same_control y y'
  /\ (daemon.d_crashed (sy_daemon y') = true
      \/ exists gls, Forall is_go gls
          /\ daemon.drun f2i ParseDuration cfg dryRun immediate (wi_publisher wi) (sy_daemon y) gls
             = Some (sy_daemon y')).
Proof.
  intros Hu. revert y. induction Hu as [|l ls Hl _ IH]; intros y Hr; cbn [srun] in Hr.
  { injection Hr as <-. split; [done|]. right. by exists []. }
  destruct (sstep y l) as [y1|] eqn:E; [|done]. destruct (sstep_unauthorized _ _ _ Hl E) as [Hsc Hd].
  destruct (IH y1 Hr) as [Hsc' Hd']. split; [by eapply same_control_trans|].
  destruct Hd' as [?|(gls & Hg & Hrun)]; [by left|]. destruct Hd as [Hcr|[Eq|(dl & Hgo & Hst)]].
  - left. destruct ls as [|l' ls]; cbn [srun] in Hr; [congruence|]. unfold sstep in Hr. by rewrite Hcr in Hr.
  - right. exists gls. by rewrite <-Eq.
  - right. exists (dl :: gls). split; [by constructor|]. cbn [daemon.drun]. unfold loop_step in Hst. by rewrite Hst.
Qed.

(** ** A dry run *)

(** The archives, the exported bins and the generated wrapper are [y0]'s, and no
    event tells of an archive's bytes. *)
Definition untouched (y0 y : System) : Prop :=
  daemon.d_disk (sy_daemon y) = daemon.d_disk (sy_daemon y0) /\ sy_exports y = sy_exports y0
  /\ sy_cli y = sy_cli y0 /\ Forall daemon.no_bytes (daemon.d_events (sy_daemon y)).

Lemma sstep_dry y0 y l y' : dryRun = true -> untouched y0 y -> sstep y l = Some y' -> untouched y0 y'.
Proof.
  intros Hd (Hdk & Hx & Hc & He) Hs. unfold untouched. assert (Hloop :
    daemon.d_disk (sy_daemon y') = daemon.d_disk (sy_daemon y)
    /\ (Forall daemon.no_bytes (daemon.d_events (sy_daemon y)) -> Forall daemon.no_bytes (daemon.d_events (sy_daemon y')))).
  { destruct (sstep_daemon _ _ _ Hs) as [->|[->|(dl & Hl)]]; [done..|]. by eapply daemon.dstep_dry. }
  destruct Hloop as [-> Hev]. split; [done|]. cut (sy_exports y' = sy_exports y /\ sy_cli y' = sy_cli y).
  { intros [-> ->]. auto. }
  clear Hev Hdk Hx Hc He. unfold sstep in Hs. destruct (daemon.d_crashed _); [done|].
  destruct l as [n i|env fe po r|nows io service|now io|x|ok get io].
  - destruct (loop_step _ _); [|done]. by injection Hs as <-.
  - by injection Hs as <-.
  - unfold lease_step in Hs. destruct (sy_reg y); [|done]. by injection Hs as <-.
  - unfold lease_step in Hs. destruct (sy_reg y); [|done]. by injection Hs as <-.
  - pose proof (syncSkills_dry cfg x (sy_agg y) (sy_cli y)) as Hk. rewrite <-Hd in Hk.
    destruct (syncSkills _ _ _ _ _) as [agg cli]. injection Hs as <-. cbn [sy_exports sy_cli set_exports].
    rewrite Hd, syncExports_dry. split; [done|by apply Hk].
  - destruct (discovery.DiscoverLocalLLMs ok get _); by injection Hs as <-.
Qed.

Lemma srun_dry y0 ls y y' : dryRun = true -> untouched y0 y -> srun y ls = Some y' -> untouched y0 y'.
Proof.
  intros Hd. revert y. induction ls as [|l ls IH]; intros y Hu; cbn [srun]; [by intros [= <-]|].
  destruct (sstep y l) as [y1|] eqn:E; [|done]. apply IH. by eapply sstep_dry.
Qed.

End running.

(** ** The start *)

Lemma open_registry_sound b :
  (forall db, bo_reg_file b = Ok (Some db) -> registry.sound (registry.abs db)) ->
  forall db, open_registry b = Some db -> registry.sound (registry.abs db).
Proof.
  intros Hf db. unfold open_registry, registry.Open.
  destruct (bo_reg_mkdir b); [done|]. destruct (bo_reg_file b) as [f|e]; [|done].
  assert (Hdb : registry.sound (registry.abs (default bkt_empty f))).
  { destruct f as [db0|]; [by apply Hf|]. cbn [default]. rewrite registry.abs_empty.
    split_and!; [intros ??..|]; rewrite ?lookup_empty; done. }
  destruct (update _ _ _ _ f) as [[f' u] [e|]] eqn:Eu; [done|].
  apply registry.update_none in Eu as [_ Eu]. injection Eu as _ <-. cbn [default].
  intros [= <-]. by apply (registry.exec_sound (bo_warm_tx b)
    (registry.OpWarmStart (bo_warm_now b) registry.WarmStartGrace)).
Qed.

(** What start-up leaves: the fresh loop, the stores that opened, the token in the
    server and in the aggregator. *)
Lemma runDaemon_start load dryRun b wi y :
  runDaemon load dryRun b = Ok (wi, y) ->
  load = Ok (s_cfg (wi_server wi)) /\ s_dryRun (wi_server wi) = dryRun
  /\ s_controlToken (wi_server wi) = daemon.loadControlToken (bo_token b (daemon.controlTokenPath (bo_getenv b)))
  /\ sy_daemon y = daemon.start (s_cfg (wi_server wi)) (bo_now b) (bo_disk b)
  /\ sy_reg y = open_registry b /\ sy_enablement y = open_state b
  /\ sy_fleet y = mkFleet (bo_cluster b) None /\ sy_outbox y = []
  /\ skills.controlToken (sy_agg y) = s_controlToken (wi_server wi).
Proof.
  unfold runDaemon. destruct load as [cfg|e]; [|done]. cbv zeta.
  destruct (syncSkills cfg dryRun (bo_sync b) _ (bo_cli b)) as [agg cli]. by intros [= <- <-].
Qed.

Lemma runDaemon_good load dryRun b wi y :
  runDaemon load dryRun b = Ok (wi, y) ->
  (forall db, bo_reg_file b = Ok (Some db) -> registry.sound (registry.abs db)) ->
  good wi 0 y.
Proof.
  intros (_ & _ & _ & Hd & Hr & _ & _ & Ho & Ht)%runDaemon_start Hf. unfold good. rewrite Hd, Hr, Ho.
  split_and!; [apply daemon.start_inv|by apply open_registry_sound|done|constructor].
Qed.

(** Two routes any started daemon serves. *)
Lemma respond_health wi env fe po r y :
  method r = "GET" -> segments r = ["health"] ->
  exists resp, snd (respond wi env fe po r y) = Resp resp /\ status resp = 200.
Proof.
  destruct r as [m segs q a body]. cbn [method segments]. intros -> ->.
  eexists. split; [|shelve]. unfold respond, serve_request, Mux, route_table.
  destruct (mcpEnabled (wi_server wi)); reflexivity.
  Unshelve. reflexivity.
Qed.

Lemma respond_state wi env fe po r y :
  method r = "GET" -> segments r = ["state"] -> sy_enablement y = None ->
  snd (respond wi env fe po r y) = Resp (writeJSON 503 BDegraded).
Proof.
  destruct r as [m segs q a body]. cbn [method segments]. intros -> -> He.
  assert (E : snd (respond wi env fe po (mkRequest "GET" ["state"] q a body) y)
    = snd (handleStateAll (B := B) format_time env (wi_server wi) [] (mkRequest "GET" ["state"] q a body)
             (view y).1.1)).
  { unfold respond, serve_request, Mux, route_table. destruct (mcpEnabled (wi_server wi)); reflexivity. }
  rewrite E. unfold handleStateAll. cbn [view fst snd w_enablement]. by rewrite He.
Qed.

(** Without a token a write that is no registration is refused. *)
Lemma respond_unprovisioned wi env fe po r y :
  s_controlToken (wi_server wi) = "" -> is_write (method r) = true -> segments r <> ["register"] ->
  exists resp, snd (respond wi env fe po r y) = Resp resp
  /\ (status resp = 503 \/ status resp = 404 \/ status resp = 405).
Proof.
  intros Ht Hw Hn.
  destruct (serve_refuses quote format_time valid_full_name f2i env (wi_server wi) (furnished wi fe)
    (wired wi y po) r (view y) Hw) as (_ & resp & Hr & Hs).
  - by intros [Hne _].
  - by intros [_ Hs].
  - exists resp. split; [exact Hr|]. rewrite Ht in Hs. cbn in Hs. tauto.
Qed.

Lemma start_lookup cfg now dk p :
  NoDup (config.Name <$> config.Projects cfg) -> p ∈ config.Projects cfg ->
  daemon.d_pcs (daemon.start cfg now dk) !! config.Name p = Some daemon.PStart
  /\ daemon.d_machines (daemon.start cfg now dk) !! config.Name p
     = Some (state.NewMachine (config.Name p) (now (config.Name p))).
Proof.
  intros Hd Hp. cbn [daemon.start daemon.d_pcs daemon.d_machines].
  assert (Hk : forall {A} (f : config.ProjectConfig -> A),
    (list_to_map (map (fun p => (config.Name p, f p)) (config.Projects cfg)) : gmap string A) !! config.Name p
    = Some (f p)).
  { intros A f. apply elem_of_list_to_map_1.
    - change (map _ _) with ((fun p => (config.Name p, f p)) <$> config.Projects cfg).
      by rewrite <-list_fmap_compose.
    - apply list_elem_of_In, in_map_iff. exists p. split; [done|by apply list_elem_of_In]. }
  split; [apply (Hk _ (fun _ => daemon.PStart))|].
  apply (Hk _ (fun p => state.NewMachine (config.Name p) (now (config.Name p)))).
Qed.

(** * Properties *)

(** C14. The daemon comes up: whatever the fragments hold and whatever the main file
    that viper can bind holds, and whichever of the exports, the skills, the brokers,
    the two stores, the cluster and the token are missing, start-up ends with the
    control port served, one goroutine and one fallow machine for each project of the
    roster, and /health answering; what is missing answers for itself: writes are
    refused without a token, and /state is 503 without its store. It says nothing of
    the goroutines' first steps, one of which panics the process over a
    check_interval that is not positive (daemon.bad_interval_crashes). *)
Theorem runDaemon_comes_up pf env v ReadDir dryRun b :
  config.v_bind v = None ->
  exists cfg wi y, config.Load pf env v ReadDir = Ok cfg
  /\ runDaemon (config.Load pf env v ReadDir) dryRun b = Ok (wi, y) /\ s_cfg (wi_server wi) = cfg
  /\ NoDup (config.Name <$> config.Projects cfg)
  /\ (forall p, p ∈ config.Projects cfg ->
        daemon.d_pcs (sy_daemon y) !! config.Name p = Some daemon.PStart
        /\ daemon.d_machines (sy_daemon y) !! config.Name p
           = Some (state.NewMachine (config.Name p) (bo_now b (config.Name p))))
  /\ (forall e fe po r, method r = "GET" -> segments r = ["health"] ->
        exists resp, snd (respond wi e fe po r y) = Resp resp /\ status resp = 200)
  /\ (s_controlToken (wi_server wi) = "" -> forall e fe po r,
        is_write (method r) = true -> segments r <> ["register"] ->
        exists resp, snd (respond wi e fe po r y) = Resp resp
        /\ (status resp = 503 \/ status resp = 404 \/ status resp = 405))
  /\ (open_state b = None -> forall e fe po r, method r = "GET" -> segments r = ["state"] ->
        snd (respond wi e fe po r y) = Resp (writeJSON 503 BDegraded)).
Proof.
  intros Hb. destruct (config.Load pf env v ReadDir) as [cfg|e] eqn:El.
  2: { exfalso. unfold config.Load in El. rewrite Hb in El. cbv zeta in El.
       destruct (config.LoadProjectFragments _ _ _), (config.validateProjects _). done. }
  assert (Hr : exists wi y, runDaemon (Ok cfg) dryRun b = Ok (wi, y)).
  { unfold runDaemon. cbv zeta. destruct (syncSkills _ _ _ _ _) as [agg cli]. by eexists _, _. }
  destruct Hr as (wi & y & Hr). exists cfg, wi, y.
  pose proof (runDaemon_start _ _ _ _ _ Hr) as (Hc & _ & _ & Hd & _ & He & _). injection Hc as Hc.
  pose proof (config.Load_names _ _ _ _ _ El) as Hn. rewrite Hd, <-Hc.
  split_and!; [done..| | | |].
  - intros p. by apply start_lookup.
  - intros e fe po r. apply respond_health.
  - intros Ht e fe po r. by apply respond_unprovisioned.
  - intros Hs e fe po r Hm Hsg. apply respond_state; [done|done|]. by rewrite He.
Qed.

(** C11. The running daemon as a whole: whatever sequence of goroutine steps,
    requests, heartbeats, sweeps, syncs and discovery turns follows a start on a
    sound registry file, a checkpoint runs only while its machine is backing up and
    every machine is well formed, no two projects hold one address in the registry,
    and no request an agent tool sent carried the control token anywhere but to a
    loopback host with a mutation. *)
Theorem system_invariant load dryRun immediate b wi y0 ls y :
  runDaemon load dryRun b = Ok (wi, y0) ->
  (forall db, bo_reg_file b = Ok (Some db) -> registry.sound (registry.abs db)) ->
  Z.of_nat (length ls) < 2 ^ 63 -> srun wi immediate y0 ls = Some y ->
  (forall n p m, daemon.d_pcs (sy_daemon y) !! n = Some p -> daemon.d_machines (sy_daemon y) !! n = Some m ->
     daemon.busy p = true -> state.CurrentState m = state.StateBackingUp)
  /\ (forall n m, daemon.d_machines (sy_daemon y) !! n = Some m -> state.wf (Z.of_nat (length ls)) m)
  /\ (forall db, sy_reg y = Some db -> registry.sound (registry.abs db))
  /\ Forall (confined wi) (sy_outbox y).
Proof.
  intros Hb Hf Hl Hr. apply runDaemon_good in Hb; [|done].
  destruct (srun_good wi immediate 0 y0 ls y ltac:(lia) ltac:(lia) Hb Hr) as ((I1 & I2 & _) & Hs & _ & Hc).
  by split_and!.
Qed.

(** C13. Who has not got the token controls nothing, for as long as the daemon runs:
    over any run in which no request is authorized (every run, when no token was
    provisioned) the cluster and the enablement records are as they were at the
    start, no agent tool was dispatched (the set of the tools still follows the
    daemon's own scans of the roster), and the machines are where their own
    goroutines alone took them. *)
Theorem no_token_no_control load dryRun immediate b wi y0 ls y :
  runDaemon load dryRun b = Ok (wi, y0) -> srun wi immediate y0 ls = Some y ->
  (s_controlToken (wi_server wi) = "" \/ Forall (unauthorized wi) ls) ->
  fl_cluster (sy_fleet y) = bo_cluster b /\ sy_enablement y = open_state b /\ sy_outbox y = []
  /\ (daemon.d_crashed (sy_daemon y) = true
      \/ exists gls, Forall is_go gls
          /\ daemon.drun f2i ParseDuration (s_cfg (wi_server wi)) dryRun immediate (wi_publisher wi)
               (daemon.start (s_cfg (wi_server wi)) (bo_now b) (bo_disk b)) gls = Some (sy_daemon y)).
Proof.
  intros Hb Hr Hu. apply runDaemon_start in Hb as (_ & <- & _ & <- & _ & <- & Hf & Ho & _).
  assert (Hun : Forall (unauthorized wi) ls).
  { destruct Hu as [Ht|?]; [|done]. apply Forall_forall. intros [n i|env fe po r|nows io service|now io|x|ok get io] _;
      try exact I. by intros [Hne _]. }
  destruct (srun_unauthorized wi immediate y0 ls y Hun Hr) as ((Hfl & He & Hob) & Hd).
  split_and!; [by rewrite Hfl, Hf|done|by rewrite Hob|done].
Qed.

(** C18. A dry run writes nothing it is to leave alone. Of a daemon started with
    --dry-run, over any run of the process (backups asked for and retried, exports
    and skills synced, requests of any kind) the archives on the disk, the bin
    directory with its wrappers and state, and the generated command-line router are
    as they were before the start, and no event it published speaks of an archive's
    size. *)
Theorem dry_run_writes_nothing load immediate b wi y0 ls y :
  runDaemon load true b = Ok (wi, y0) -> srun wi immediate y0 ls = Some y ->
  daemon.d_disk (sy_daemon y) = bo_disk b /\ sy_exports y = bo_exports b /\ sy_cli y = bo_cli b
  /\ Forall daemon.no_bytes (daemon.d_events (sy_daemon y)).
Proof.
  intros Hb Hr. pose proof Hb as (_ & Hd & _ & Hs & _)%runDaemon_start.
  assert (Hst : sy_exports y0 = bo_exports b /\ sy_cli y0 = bo_cli b).
  { unfold runDaemon in Hb. destruct load as [cfg|e]; [|done]. cbv zeta in Hb.
    pose proof (syncSkills_dry cfg (bo_sync b)) as Hk.
    destruct (syncSkills cfg true (bo_sync b) _ (bo_cli b)) as [agg cli] eqn:E.
    rewrite syncExports_dry in Hb. injection Hb as _ <-. cbn [sy_exports sy_cli]. split; [done|].
    specialize (Hk (skills.SetSelfManifest (path_join [config.ConfigRoot (config.System cfg); "mcp.json"])
      (skills.NewAggregator (config.MonitorRoot (config.System cfg)))) (bo_cli b)). by rewrite E in Hk. }
  destruct (srun_dry wi immediate y0 ls y0 y Hd) as (Hdk & Hx & Hc & He); [|done|].
  - unfold untouched. rewrite Hs. by split_and!.
  - rewrite Hdk, Hs, Hx, Hc. by destruct Hst as [-> ->].
Qed.

End system.

(** * The properties at a concrete daemon *)

#[local] Existing Instances furnish.demo_api furnish.demo_laws w_reg_codec w_reg_laws w_rec_codec w_req_codec
  w_resp_codec w_res_codec w_svc_codec w_prj_codec.

Definition w_sync : SyncEnv :=
  mkSyncEnv (fun _ _ => false) "/" "20260101000000" map_to_list map_to_list [] (fun _ => [])
    (fun path => if String.eqb path "/etc/delightd/mcp.json" then Ok [skills.up_tool] else Err "no such file")
    "" "/home/j" None skills.WriteDone.

(** [token] is what the token file holds; the enablement store does not open. *)
Definition w_boot (token : result string string) : BootEnv (B := table) (EB := table) (S := furnish.demo) :=
  mkBootEnv (fun _ => 100) ∅ (fun _ => None) exports.w_empty ∅ None w_sync None None None (Ok None) TxOk 100 TxOk
    None (Err "locked") TxOk (fun _ => "") (fun _ => token) furnish.empty_cluster.

Abbreviation w_system := (System (B := table) (EB := table) (S := furnish.demo) (M := unit)).

Definition w_started (token : result string string) : result string (Wiring * w_system) :=
  runDaemon (Ok w_cfg) false (w_boot token).

Definition w_wiring (token : string) : Wiring :=
  mkWiring (mkServer w_cfg false false token) (exports.NewEngine (fun _ => None) "/home/j" "") false
    "/etc/delightd/kube/kube" 8088.

Definition w_step_run (wi : Wiring) (y : w_system) (ls : list (slabel (M := unit) (V := string))) : option w_system :=
  srun (fun s => s) (fun _ => "t") (fun _ => true) (fun _ => 0) daemon.w_duration skills.w_host wi false y ls.

(** The goroutine of project "obs" gets to its select; an MCP call furnishes kafka. *)
Definition w_labels : list (slabel (M := unit) (V := string)) :=
  [SLoop "obs" daemon.IGo; SLoop "obs" daemon.IGo; SRequest w_env w_fenv demo_ports mcp_call;
   SSweep 1000 TxOk; SDiscovery (fun _ => true) traefik.w_get (traefik.mkIo None None false None None)].

Lemma runDaemon_comes_up_witness :
  exists wi y, runDaemon (B := table) (EB := table) (S := furnish.demo) (M := unit)
      (config.Load config.one_fragment config.home_env
         (config.mkViper None (config.ReadFailed "bad yaml") config.no_system [config.project_at "a" "/w/a"] None)
         (fun _ => config.DirEntries []))
      true (w_boot (Err "no token")) = Ok (wi, y)
  /\ (exists resp, snd (respond (V := string) (fun s => s) (fun _ => "t") (fun _ => true) (fun _ => 0) skills.w_host
        wi w_env w_fenv demo_ports (mkRequest "GET" ["health"] "" "" (Ok "")) y) = Resp resp /\ status resp = 200)
  /\ snd (respond (V := string) (fun s => s) (fun _ => "t") (fun _ => true) (fun _ => 0) skills.w_host
        wi w_env w_fenv demo_ports (mkRequest "GET" ["state"] "" "" (Ok "")) y) = Resp (writeJSON 503 BDegraded).
Proof.
  destruct (runDaemon_comes_up (B := table) (EB := table) (S := furnish.demo) (M := unit) (V := string)
    (fun s => s) (fun _ => "t") (fun _ => true) (fun _ => 0) skills.w_host
    config.one_fragment config.home_env
    (config.mkViper None (config.ReadFailed "bad yaml") config.no_system [config.project_at "a" "/w/a"] None)
    (fun _ => config.DirEntries []) true (w_boot (Err "no token")) eq_refl)
    as (cfg & wi & y & _ & Hr & _ & _ & _ & Hh & _ & Hs).
  exists wi, y. split; [exact Hr|]. split; [by apply Hh|]. by apply Hs.
Defined.

(** What the run comes to, evaluated: the wiring of the start, and what the tools sent. *)
Definition w_start_wiring (token : result string string) : option Wiring :=
  match w_started token with Ok (wi, _) => Some wi | Err _ => None end.
Definition w_sent (token : result string string) (wi : Wiring) : option nat :=
  match w_started token with
  | Ok (_, y0) => (fun y => length (sy_outbox y)) <$> w_step_run wi y0 w_labels
  | Err _ => None
  end.

Lemma w_start token wi : w_start_wiring token = Some wi -> exists y0, w_started token = Ok (wi, y0).
Proof.
  unfold w_start_wiring. destruct (w_started token) as [[wi' y0]|e]; [|done]. intros [= ->]. by exists y0.
Qed.

Lemma w_ran token wi n y0 :
  w_sent token wi = Some n -> w_started token = Ok (wi, y0) ->
  exists y, w_step_run wi y0 w_labels = Some y /\ length (sy_outbox y) = n.
Proof.
  unfold w_sent. intros Hs E. rewrite E in Hs. destruct (w_step_run wi y0 w_labels) as [y|]; [|done].
  exists y. cbn in Hs. by injection Hs.
Qed.

Lemma w_sesame_starts : w_start_wiring (Ok "sesame") = Some (w_wiring "sesame").
Proof. vm_compute. reflexivity. Qed.
Lemma w_sesame_sends : w_sent (Ok "sesame") (w_wiring "sesame") = Some 1%nat.
Proof. vm_compute. reflexivity. Qed.
Lemma w_tokenless_starts : w_start_wiring (Err "no token") = Some (w_wiring "").
Proof. vm_compute. reflexivity. Qed.
Lemma w_tokenless_sends : w_sent (Err "no token") (w_wiring "") = Some 0%nat.
Proof. vm_compute. reflexivity. Qed.

Lemma system_invariant_witness :
  exists y0 y, w_started (Ok "sesame") = Ok (w_wiring "sesame", y0)
  /\ w_step_run (w_wiring "sesame") y0 w_labels = Some y
  /\ sy_outbox y <> [] /\ Forall (confined skills.w_host (w_wiring "sesame")) (sy_outbox y).
Proof.
  destruct (w_start _ _ w_sesame_starts) as [y0 E].
  destruct (w_ran _ _ _ _ w_sesame_sends E) as (y & Er & Hn).
  exists y0, y. split; [done|]. split; [done|]. split; [by intros Ho; rewrite Ho in Hn|].
  refine (proj2 (proj2 (proj2 (system_invariant (fun s => s) (fun _ => "t") (fun _ => true) (fun _ => 0)
    daemon.w_duration skills.w_host (Ok w_cfg) false false (w_boot (Ok "sesame")) (w_wiring "sesame") y0
    w_labels y E _ _ Er)))); [intros db Hdb; discriminate|vm_compute; reflexivity].
Defined.

(** With no token: an operator's request with a stale header changes nothing. *)
Lemma no_token_no_control_witness :
  exists y0 y, w_started (Err "no token") = Ok (w_wiring "", y0)
  /\ w_step_run (w_wiring "") y0 w_labels = Some y /\ sy_outbox y = [].
Proof.
  destruct (w_start _ _ w_tokenless_starts) as [y0 E].
  destruct (w_ran _ _ _ _ w_tokenless_sends E) as (y & Er & _).
  exists y0, y. split; [done|]. split; [done|].
  apply (no_token_no_control (fun s => s) (fun _ => "t") (fun _ => true) (fun _ => 0)
    daemon.w_duration skills.w_host (Ok w_cfg) false false (w_boot (Err "no token")) (w_wiring "") y0
    w_labels y E Er). by left.
Defined.

(** A dry run that is asked for a backup, makes its checkpoint and syncs the exports. *)
Definition w_dry_wiring : Wiring :=
  mkWiring (mkServer w_cfg true false "sesame") (exports.NewEngine (fun _ => None) "/home/j" "") false
    "/etc/delightd/kube/kube" 8088.
Definition w_dry_labels : list (slabel (M := unit) (V := string)) :=
  [SLoop "obs" daemon.IGo; SLoop "obs" daemon.IGo;
   SRequest w_env w_fenv demo_ports (mkRequest "POST" ["projects"; "obs"; "backup"] "" "Bearer sesame" (Ok ""));
   SLoop "obs" daemon.IEvalTick;
   SLoop "obs" (daemon.ICheckpoint (fun _ _ => None) backup.sample_env (Ok backup.sample) 250);
   SLoop "obs" (daemon.IFire (daemon.w_clock 300)); SExports w_sync].
Definition w_dry_started : result string (Wiring * w_system) := runDaemon (Ok w_cfg) true (w_boot (Ok "sesame")).

Lemma w_dry_starts : match w_dry_started with Ok (wi, _) => Some wi | Err _ => None end = Some w_dry_wiring.
Proof. vm_compute. reflexivity. Qed.
Lemma w_dry_runs :
  match w_dry_started with
  | Ok (_, y0) => (fun y => daemon.d_counters (sy_daemon y) !! daemon.metric_key "delightd_backup_success_total" "obs")
                    <$> w_step_run w_dry_wiring y0 w_dry_labels
  | Err _ => None
  end = Some (Some 1).
Proof. vm_compute. reflexivity. Qed.

Lemma dry_run_writes_nothing_witness :
  exists y0 y, w_dry_started = Ok (w_dry_wiring, y0) /\ w_step_run w_dry_wiring y0 w_dry_labels = Some y
  /\ daemon.d_counters (sy_daemon y) !! daemon.metric_key "delightd_backup_success_total" "obs" = Some 1
  /\ daemon.d_disk (sy_daemon y) = ∅ /\ sy_exports y = exports.w_empty.
Proof.
  pose proof w_dry_starts as Hs. pose proof w_dry_runs as Hr.
  destruct w_dry_started as [[wi y0]|e] eqn:E; [|discriminate Hs]. injection Hs as ->.
  destruct (w_step_run w_dry_wiring y0 w_dry_labels) as [y|] eqn:Ey; [|discriminate Hr]. injection Hr as Hr.
  exists y0, y. split; [reflexivity|]. split; [exact Ey|]. split; [exact Hr|].
  destruct (dry_run_writes_nothing (fun s => s) (fun _ => "t") (fun _ => true) (fun _ => 0)
    daemon.w_duration skills.w_host (Ok w_cfg) false (w_boot (Ok "sesame")) w_dry_wiring y0
    w_dry_labels y E Ey) as (Hd & Hx & _). split; [exact Hd|exact Hx].
Defined.

End system.
