(* ===== verification/Operator.v ===== *)
(** The control port and the control loop together: what an operator's request for
    a backup leads to.

    POST /projects/{name}/backup only moves the project's machine; the backup itself
    is made by the project's goroutine, in its own time, between the steps of
    everything else the process does (System.v). The lemmas follow one pending
    backup through a run; each turn of its goroutine lowers [daemon.left], and no
    other step raises it. *)

From S2P Require Import Prelude GoStrings State Proto KV Registry Backup Config GitState Enablement Furnish Skills Discovery HttpAuth HttpApi HttpRegister HttpFurnish HttpSurface HttpServe Daemon System.
From Stdlib Require Import Ascii.
Import proto bbolt kube httpauth httpapi httpregister httpfurnish httpsurface httpserve system.

Module operator.

Section operator.
Context {B EB : Type} `{BucketLaws B} `{BucketLaws EB}.
Context `{CodecLaws Registration} `{Codec enablement.Record_} `{Codec RegisterRequest}
  `{Codec RegisterResponse} `{Codec ResolvedService} `{Codec Service} `{Codec Project}.
Context {S M : Type} `{ApiLaws S M}.
Context {V : Type}.
Variable quote : string -> string.
Variable format_time : Z -> string.
Variable valid_full_name : string -> bool.
Variable f2i : Z -> Z.
Variable ParseDuration : string -> result string Z.
Variable hostname : string -> result string string.
Variable wi : Wiring.
Variable immediate : bool.

Abbreviation System_ := (System (B := B) (EB := EB) (S := S) (M := M)).
Abbreviation slabel_ := (slabel (M := M) (V := V)).
Abbreviation cfg := (s_cfg (wi_server wi)).
Abbreviation dryRun := (s_dryRun (wi_server wi)).
Abbreviation step := (sstep (B := B) (EB := EB) (S := S) (M := M) (V := V) quote format_time valid_full_name f2i ParseDuration hostname wi immediate).
Abbreviation run := (srun (B := B) (EB := EB) (S := S) (M := M) (V := V) quote format_time valid_full_name f2i ParseDuration hostname wi immediate).
Abbreviation answer := (respond (B := B) (EB := EB) (S := S) (M := M) (V := V) quote format_time valid_full_name f2i hostname wi).

(** The process of the machine, the counter and the archives of one project. *)
Definition machine (y : System_) (n : string) : option state.Machine := daemon.d_machines (sy_daemon y) !! n.
Definition counter (y : System_) (n : string) : option daemon.pc := daemon.d_pcs (sy_daemon y) !! n.
Definition archives_of (y : System_) (n : string) : backup.adir := daemon.archives_of cfg (sy_daemon y) n.
Definition alive (y : System_) : Prop := daemon.d_crashed (sy_daemon y) = false.

(** The turns the goroutine of [n] takes in a run; a poll tick that finds its
    machine backing up is none. *)
Definition turn (n : string) (l : slabel_) : nat :=
  match l with SLoop n' i => daemon.turn n (daemon.LGo n' i) | _ => 0 end.

Fixpoint turns (n : string) (ls : list slabel_) : nat :=
  match ls with [] => 0 | l :: r => (turn n l + turns n r)%nat end.

(** The daemon is not stopping this goroutine. *)
Definition uncancelled (n : string) (l : slabel_) : Prop := l <> SLoop n daemon.ICancel.

(** The goroutine of [n] runs a checkpoint in the course of [ls] from [y]; where every
    project is named by one path element, what it left of the archives is there at
    the end, [y']. *)
Definition checkpoints (y : System_) (n : string) (ls : list slabel_) (y' : System_) (ok : bool) : Prop :=
  exists pre i post ya yb, ls = pre ++ SLoop n i :: post /\ run y pre = Some ya
  /\ step ya (SLoop n i) = Some yb
  /\ daemon.checkpointed cfg dryRun (sy_daemon ya) n (daemon.LGo n i) (sy_daemon yb) ok
  /\ (daemon.plain_roster cfg -> GoPath.plain n -> archives_of y' n = archives_of yb n).

(** * Lemmas *)

(** A step of the process, as the control loop sees it. *)
Lemma step_loop y l y' :
  step y l = Some y' -> alive y' ->
  (sy_daemon y' = sy_daemon y /\ forall n i, l <> SLoop n i)
  \/ exists dl, loop_step f2i ParseDuration wi immediate (sy_daemon y) dl = Some (sy_daemon y')
     /\ forall n i, dl = daemon.LGo n i <-> l = SLoop n i.
Proof.
  unfold sstep, alive. destruct (daemon.d_crashed (sy_daemon y)) eqn:Hc; [done|].
  destruct l as [n i|env fe po r|nows io service|now io|x|ok get io].
  - destruct (loop_step _ _ _ _ _ _) as [d|] eqn:E; [|done]. intros [= <-] _. right.
    exists (daemon.LGo n i). split; [done|]. intros n' i'. split; congruence.
  - intros [= <-] _. destruct (respond_daemon quote format_time valid_full_name f2i ParseDuration hostname
      wi immediate env fe po r y Hc) as [->|(n & e & He & E)]; [by left|].
    right. exists e. split; [done|]. intros n' i. destruct He; subst e; split; discriminate.
  - intros ->%lease_step_daemon _. by left.
  - intros ->%lease_step_daemon _. by left.
  - destruct (syncSkills _ _ _ _ _) as [agg cli]. intros [= <-] _. by left.
  - destruct (discovery.DiscoverLocalLLMs ok get _) as [sources|]; intros [= <-]; [by left|done].
Qed.

Lemma step_alive y l y' : step y l = Some y' -> alive y.
Proof. unfold sstep, alive. by destruct (daemon.d_crashed _). Qed.

Lemma run_alive y ls y' : run y ls = Some y' -> alive y' -> alive y.
Proof.
  destruct ls as [|l ls]; cbn [srun]; [by intros [= ->]|].
  destruct (step y l) as [y1|] eqn:E; [|done]. intros _ _. by eapply step_alive.
Qed.

(** What every step of the loop keeps, a live run keeps. *)
Lemma run_keeps (P : daemon.Daemon -> Prop) :
  (forall d l d', P d -> loop_step f2i ParseDuration wi immediate d l = Some d' -> P d') ->
  forall ls y y', P (sy_daemon y) -> run y ls = Some y' -> alive y' -> P (sy_daemon y').
Proof.
  intros Hs ls. induction ls as [|l ls IH]; intros y y' Hp; cbn [srun]; [by intros [= ->]|].
  destruct (step y l) as [y1|] eqn:E; [|done]. intros Hr Ha. apply (IH y1); [|done|done].
  pose proof (run_alive _ _ _ Hr Ha) as Ha1.
  destruct (step_loop _ _ _ E Ha1) as [[-> _]|(dl & Hl & _)]; [done|by eapply Hs].
Qed.

Lemma run_app y ls ls' : run y (ls ++ ls') = run y ls ≫= fun y1 => run y1 ls'.
Proof.
  revert y. induction ls as [|l ls IH]; intros y; [done|]. cbn [app srun].
  destruct (step y l) as [y1|]; [apply IH|done].
Qed.

Lemma step_fires y l y' :
  daemon.fires (sy_daemon y) -> step y l = Some y' -> alive y' -> daemon.fires (sy_daemon y').
Proof.
  intros Hf Hs Ha. destruct (step_loop _ _ _ Hs Ha) as [[-> _]|(dl & Hl & _)]; [done|].
  by eapply daemon.dstep_fires.
Qed.

(** A pending backup, over one step of the process that is not its report. *)
Lemma step_pending y l y' n p m :
  daemon.fires (sy_daemon y) -> step y l = Some y' -> alive y' ->
  counter y n = Some p -> machine y n = Some m -> state.CurrentState m = state.StateBackingUp ->
  p <> daemon.PExited -> uncancelled n l ->
  (forall ok c, ~ (p = daemon.PReport ok /\ l = SLoop n (daemon.IFire c))) ->
  exists p', counter y' n = Some p' /\ p' <> daemon.PExited /\ machine y' n = Some m
  /\ (daemon.left p' + turn n l <= daemon.left p)%nat
  /\ (forall ok, p' = daemon.PReport ok ->
        (p = daemon.PReport ok /\ (daemon.plain_roster cfg -> GoPath.plain n -> archives_of y' n = archives_of y n))
        \/ exists i, l = SLoop n i
           /\ daemon.checkpointed cfg dryRun (sy_daemon y) n (daemon.LGo n i) (sy_daemon y') ok).
Proof.
  intros Hf Hs Ha Hp Hm Hb Hx Hl Hr. unfold counter, machine, archives_of in *.
  destruct (step_loop _ _ _ Hs Ha) as [[-> Hn]|(dl & Hd & Hdl)].
  - exists p. assert (Ht : turn n l = 0%nat) by (destruct l as [n' i| | | | |]; [by destruct (Hn n' i)|done..]).
    rewrite Ht. split_and!; [done|done|done|lia|]. intros ok ->. by left.
  - destruct (daemon.dstep_pending f2i ParseDuration cfg dryRun immediate (wi_publisher wi) _ _ _ n p m
      Hf Hd Ha Hp Hm Hb Hx) as (p' & Hp' & Hx' & Hm' & Ht & Hk).
    + intros E. by apply Hdl in E.
    + intros ok c [Ep E]. apply Hdl in E. by eapply Hr.
    + exists p'. split_and!; [done..| |].
      * destruct l as [n' i| | | | |]; [|cbn [turn]; lia..]. cbn [turn].
        by rewrite <-(proj2 (Hdl n' i) eq_refl).
      * intros ok Hok. destruct (Hk ok Hok) as [?|Hck]; [by left|right].
        pose proof Hck as (q & fault & env & root & now & _ & El & _).
        eexists. split; [by apply Hdl|]. by rewrite <-El.
Qed.

(** A run in which the goroutine takes the turns it needs has its report in it. *)
Lemma pending_reported n m ls : forall y y' p,
  state.CurrentState m = state.StateBackingUp ->
  daemon.fires (sy_daemon y) -> run y ls = Some y' -> alive y' ->
  counter y n = Some p -> machine y n = Some m -> p <> daemon.PExited ->
  Forall (uncancelled n) ls -> (daemon.left p <= turns n ls)%nat ->
  exists pre c post y1 ok, ls = pre ++ SLoop n (daemon.IFire c) :: post /\ run y pre = Some y1
  /\ counter y1 n = Some (daemon.PReport ok) /\ machine y1 n = Some m
  /\ ((p = daemon.PReport ok /\ (daemon.plain_roster cfg -> GoPath.plain n -> archives_of y1 n = archives_of y n))
      \/ checkpoints y n pre y1 ok).
Proof.
  induction ls as [|l ls IH]; intros y y' p Hb Hf Hr Ha Hp Hm Hx Hu Hl.
  { exfalso. cbn in Hl. destruct p; cbn in Hl; try lia. done. }
  cbn [srun] in Hr. destruct (step y l) as [y1|] eqn:E; [|done]. apply Forall_cons in Hu as [Hul Hu].
  assert (Hd : (exists ok c, p = daemon.PReport ok /\ l = SLoop n (daemon.IFire c))
    \/ forall ok c, ~ (p = daemon.PReport ok /\ l = SLoop n (daemon.IFire c))).
  { destruct p; try (right; by intros ok c [??]).
    destruct l as [n' [| |c| | | | |]| | | | |]; try (right; by intros ??[??]).
    destruct (decide (n' = n)) as [->|Hn]; [left; by eexists _, _|right; intros ??[??]; congruence]. }
  destruct Hd as [(ok & c & -> & ->)|Hn].
  { exists [], c, ls, y, ok. split_and!; [done..|]. by left. }
  pose proof (run_alive _ _ _ Hr Ha) as Ha1.
  destruct (step_pending _ _ _ n p m Hf E Ha1 Hp Hm Hb Hx Hul Hn) as (p' & Hp' & Hx' & Hm' & Ht & Hk).
  cbn [turns] in Hl. destruct (IH y1 y' p' Hb (step_fires _ _ _ Hf E Ha1) Hr Ha Hp' Hm' Hx' Hu ltac:(lia))
    as (pre & c & post & y2 & ok & -> & Hpre & Hc2 & Hm2 & Hck).
  exists (l :: pre), c, post, y2, ok. split; [done|]. split; [cbn [srun]; by rewrite E|]. split_and!; [done..|].
  destruct Hck as [[-> Har]|(pre1 & i & post1 & ya & yb & -> & Hpre1 & Hi & Hc & Har)].
  - destruct (Hk ok eq_refl) as [[-> Har']|(i & -> & Hc)]; [left; split; [done|]|right].
    { intros Hpr Hpn. by rewrite Har, Har'. }
    exists [], i, pre, y, y1. by split_and!.
  - right. exists (l :: pre1), i, post1, ya, yb. split_and!; try done. cbn [srun]. by rewrite E.
Qed.

(** The mux takes the request to its handler. *)
Definition backup_request (n query auth : string) (body : result string string) : Request :=
  mkRequest "POST" ["projects"; n; "backup"] query auth body.

Lemma answer_backup env fe po y n query auth body :
  n <> "" -> authorized (s_controlToken (wi_server wi)) (backup_request n query auth body) ->
  let '(w, out) := answer env fe po (backup_request n query auth body) y in
  let '(w1, out1) := handleBackup (B := B) (EB := EB) env f2i [("name", n)] (backup_request n query auth body)
                       (view y).1.1 in
  w = (w1, (view y).1.2, (view y).2) /\ out = out1.
Proof.
  intros Hn Ha. unfold respond, serve_request, serve.
  assert (Hr : find_route (Mux (B := B) (EB := EB) quote format_time valid_full_name f2i env (wi_server wi)
      (furnished wi fe) (wired hostname wi y po)) (backup_request n query auth body)
    = Some (requireBearer (s_controlToken (wi_server wi)) (on_world (handleBackup env f2i)), [("name", n)])).
  { destruct n as [|c n]; [done|]. unfold Mux, route_table. destruct (mcpEnabled (wi_server wi)); reflexivity. }
  rewrite Hr, requireBearer_pass by done. unfold on_world. by destruct (handleBackup _ _ _ _ _).
Qed.

(** What the request does to the loop: nothing, with 409, in a backoff that has not
    run out; else it leaves the machine of [n] backing up, with 200. *)
Lemma answer_triggers env fe po y n m query auth body :
  n <> "" -> authorized (s_controlToken (wi_server wi)) (backup_request n query auth body) ->
  machine y n = Some m ->
  let '(w, out) := answer env fe po (backup_request n query auth body) y in
  let y1 := absorb y w in
  daemon.d_crashed (sy_daemon y1) = daemon.d_crashed (sy_daemon y) /\ counter y1 n = counter y n
  /\ daemon.d_pcs (sy_daemon y1) = daemon.d_pcs (sy_daemon y)
  /\ ((state.CurrentState m = state.StateError /\ state.clk_now (e_clock env) < state.NextRetryAt m
       /\ out = Resp (writeJSON 409 (BTransition (state.ErrBackoff (state.NextRetryAt m))))
       /\ machine y1 n = Some m)
      \/ exists m1, out = Resp (writeJSON 200 (BAction "backup_triggered" n)) /\ machine y1 n = Some m1
         /\ state.CurrentState m1 = state.StateBackingUp /\ state.ErrorCount m1 = state.ErrorCount m).
Proof.
  intros Hn Ha Hm. pose proof (answer_backup env fe po y n query auth body Hn Ha) as Hh.
  destruct (answer env fe po _ y) as [w out]. unfold handleBackup, machine_action in Hh.
  change (PathValue [("name", n)] "name") with n in Hh. cbn [view fst snd w_machines] in Hh.
  unfold machine in Hm. rewrite Hm in Hh. pose proof (trigger_result f2i (e_clock env) m) as Ht.
  pose proof (trigger_count f2i (e_clock env) m) as Hk.
  destruct (state.Transition f2i (e_clock env) m state.EventTriggerBackup) as [m' [e|]];
    destruct Hh as [-> ->]; cbn; split_and!; try done.
  - destruct Ht as (-> & -> & Hs & Hlt). left. split_and!; try done. unfold machine. cbn. apply lookup_insert_eq.
  - destruct Ht as (Hs & _). right. exists m'. split_and!; try done. unfold machine. cbn. apply lookup_insert_eq.
Qed.

Lemma step_unexited y l y' n p :
  step y l = Some y' -> alive y' -> counter y n = Some p -> p <> daemon.PExited -> uncancelled n l ->
  exists p', counter y' n = Some p' /\ p' <> daemon.PExited.
Proof.
  intros Hs Ha Hp Hx Hl. destruct (step_loop _ _ _ Hs Ha) as [[E _]|(dl & Hd & Hdl)].
  - exists p. unfold counter. by rewrite E.
  - eapply daemon.dstep_unexited; [exact Hd|exact Hp|done|]. intros E. by apply Hdl in E.
Qed.

Lemma run_unexited ls : forall y y' n p,
  run y ls = Some y' -> alive y' -> counter y n = Some p -> p <> daemon.PExited ->
  Forall (uncancelled n) ls -> exists p', counter y' n = Some p' /\ p' <> daemon.PExited.
Proof.
  induction ls as [|l ls IH]; intros y y' n p Hr Ha Hp Hx Hu; cbn [srun] in Hr; [simplify_eq; by exists p|].
  destruct (step y l) as [y1|] eqn:E; [|done]. apply Forall_cons in Hu as [Hl Hu].
  destruct (step_unexited _ _ _ _ _ E (run_alive _ _ _ Hr Ha) Hp Hx Hl) as (p1 & Hp1 & Hx1). by eapply IH.
Qed.

(** A goroutine that has not exited has a turn to take. *)
Lemma next_turn k y n p :
  daemon.inv cfg k (sy_daemon y) -> alive y -> counter y n = Some p -> p <> daemon.PExited ->
  exists i, turn n (SLoop n i) = 1%nat /\ is_Some (step y (SLoop n i)).
Proof.
  intros Hi Ha Hp Hx.
  set (i := daemon.next_input p (state.mkClock 0 0 0) watcher.one_repo
              (daemon.ICheckpoint (fun _ _ => None) backup.sample_env (Err "") 0)).
  destruct (daemon.dstep_go f2i ParseDuration cfg dryRun immediate (wi_publisher wi) _ _ n p i Hi Ha Hp)
    as (q & m & _ & _ & _ & E). exists i. split.
  - cbn [turn daemon.turn]. rewrite String.eqb_refl. by destruct p.
  - unfold sstep. unfold alive in Ha. rewrite Ha. unfold loop_step. rewrite E.
    destruct p; simpl; try done; try (by eexists). destruct (daemon.run_checkpoint _ _ _ _ _ _ _ _). by eexists.
Qed.

Lemma start_project load b y0 n :
  runDaemon (EB := EB) (S := S) (M := M) load dryRun b = Ok (wi, y0) -> n ∈ knownProjects cfg ->
  (daemon.inv cfg 0 (sy_daemon y0) /\ daemon.fires (sy_daemon y0)) /\ is_Some (counter y0 n).
Proof.
  intros (_ & _ & _ & Hd & _)%runDaemon_start Hn. unfold counter. rewrite Hd.
  split; [split; [apply daemon.start_inv|apply daemon.start_fires]|]. cbn [daemon.start daemon.d_pcs].
  destruct (_ !! n) eqn:E; [by eexists|]. apply not_elem_of_list_to_map_2 in E. exfalso. apply E.
  unfold knownProjects in Hn. clear -Hn. induction (config.Projects cfg) as [|q ps IH]; cbn in *; [by apply not_elem_of_nil in Hn|].
  apply elem_of_cons in Hn as [->|Hn]; [by left|right; by apply IH].
Qed.

Lemma reached_project ls y0 y n :
  daemon.inv cfg 0 (sy_daemon y0) -> daemon.fires (sy_daemon y0) -> is_Some (counter y0 n) ->
  Z.of_nat (length ls) < 2 ^ 63 -> run y0 ls = Some y -> alive y ->
  daemon.inv cfg (Z.of_nat (length ls)) (sy_daemon y) /\ daemon.fires (sy_daemon y)
  /\ exists p m, counter y n = Some p /\ machine y n = Some m.
Proof.
  intros Hi Hf Hp Hl Hr Ha.
  assert (Hi' : daemon.inv cfg (0 + Z.of_nat (length ls)) (sy_daemon y)) by (eapply srun_inv, Hr; [lia|lia|done]).
  split; [done|]. split.
  { eapply (run_keeps daemon.fires); [|exact Hf|exact Hr|exact Ha]. intros d l d'. by apply daemon.dstep_fires. }
  assert (Hp' : is_Some (counter y n)).
  { eapply (run_keeps (fun d => is_Some (daemon.d_pcs d !! n))); [|exact Hp|exact Hr|exact Ha].
    intros d l d' Hd Hst. by eapply daemon.dstep_pcs. }
  destruct Hi' as (_ & _ & I3 & _). destruct (I3 n Hp') as [m Hm]. destruct Hp' as [p Hp']. by exists p, m.
Qed.

(** The report, as a step of the process. *)
Lemma step_report k ya n m ok c yb :
  state.wf k m -> 0 <= k < 2 ^ 63 - 1 -> state.CurrentState m = state.StateBackingUp ->
  counter ya n = Some (daemon.PReport ok) -> machine ya n = Some m ->
  step ya (SLoop n (daemon.IFire c)) = Some yb ->
  archives_of yb n = archives_of ya n /\ exists m', machine yb n = Some m'
  /\ if ok then state.CurrentState m' = state.StateFallow /\ state.ErrorCount m' = 0
     else state.CurrentState m' = state.StateError /\ state.ErrorCount m' = state.ErrorCount m + 1.
Proof.
  intros Hwf Hk Hs Hp Hm Hst. unfold sstep in Hst. destruct (daemon.d_crashed _); [done|].
  destruct (loop_step _ _ _ _ _ _) as [d|] eqn:E; [|done]. injection Hst as <-.
  destruct (daemon.report_outcome f2i ParseDuration cfg dryRun immediate (wi_publisher wi) k _ n m ok c d
    Hk Hwf Hs Hp Hm E) as [Ed ?]. split; [|done]. unfold archives_of, daemon.archives_of. cbn. by rewrite Ed.
Qed.

(** * Properties *)

(** C6. A backup an operator asks for is made. Whatever the daemon has done since its
    start, an authorized POST /projects/n/backup for a project of the roster is
    answered 409, with the machine as it was, only in a backoff that has not run out;
    otherwise it is answered 200 and the machine is backing up. From then on, in every
    run of the process (any requests, resets included, ticks and other projects'
    goroutines in between) that does not stop this goroutine, the goroutine always
    has a turn to take, and once it has taken at most [daemon.left p] of them, seven
    at worst, it has reported: over a checkpoint that ended after the request, unless
    one was awaiting its report then, with the archives that checkpoint left, and the
    machine in fallow with its failures cleared when it succeeded, in error with one
    failure more when it did not. *)
Theorem operator_backup_lands load b y0 ls y n env fe po query auth body :
  runDaemon load dryRun b = Ok (wi, y0) -> Z.of_nat (length ls) < 2 ^ 63 - 1 -> run y0 ls = Some y ->
  alive y -> n ∈ knownProjects cfg -> n <> "" ->
  authorized (s_controlToken (wi_server wi)) (backup_request n query auth body) ->
  let '(w, out) := answer env fe po (backup_request n query auth body) y in
  exists p m, counter y n = Some p /\ machine y n = Some m /\ (daemon.left p <= 7)%nat
  /\ ((state.CurrentState m = state.StateError /\ state.clk_now (e_clock env) < state.NextRetryAt m
       /\ out = Resp (writeJSON 409 (BTransition (state.ErrBackoff (state.NextRetryAt m))))
       /\ machine (absorb y w) n = Some m)
      \/ exists m1, out = Resp (writeJSON 200 (BAction "backup_triggered" n))
         /\ machine (absorb y w) n = Some m1 /\ state.CurrentState m1 = state.StateBackingUp
         /\ (p <> daemon.PExited -> forall ls2 y2, run (absorb y w) ls2 = Some y2 -> alive y2 ->
             Forall (uncancelled n) ls2 -> Z.of_nat (length ls + length ls2) < 2 ^ 63 - 1 ->
             (exists i, turn n (SLoop n i) = 1%nat /\ is_Some (step y2 (SLoop n i)))
             /\ ((daemon.left p <= turns n ls2)%nat ->
                  exists pre c post ya yb ok m2, ls2 = pre ++ SLoop n (daemon.IFire c) :: post
                  /\ run (absorb y w) pre = Some ya /\ step ya (SLoop n (daemon.IFire c)) = Some yb
                  /\ (p = daemon.PReport ok \/ checkpoints (absorb y w) n pre ya ok)
                  /\ archives_of yb n = archives_of ya n /\ machine yb n = Some m2
                  /\ if ok then state.CurrentState m2 = state.StateFallow /\ state.ErrorCount m2 = 0
                     else state.CurrentState m2 = state.StateError
                          /\ state.ErrorCount m2 = state.ErrorCount m + 1))).
Proof.
  intros Hb Hl Hr Ha Hk Hn Hau.
  destruct (start_project _ _ _ _ Hb Hk) as [[Hi Hf] Hp].
  destruct (reached_project ls y0 y n Hi Hf Hp ltac:(lia) Hr Ha) as (Hi' & Hf' & p & m & Hp' & Hm').
  pose proof (answer_triggers env fe po y n m query auth body Hn Hau Hm') as Ht.
  assert (Hw : daemon.inv cfg (Z.of_nat (length ls) + 1) (sy_daemon (absorb y (fst (answer env fe po
    (backup_request n query auth body) y))))).
  { eapply (sstep_inv quote format_time valid_full_name f2i ParseDuration hostname wi immediate _ y
      (SRequest env fe po (backup_request n query auth body))); [lia|exact Hi'|]. unfold sstep. by rewrite Ha. }
  destruct (answer env fe po (backup_request n query auth body) y) as [w out]. cbn [fst] in Hw.
  destruct Ht as (Hc1 & Hp1 & Hpcs & Ht). exists p, m. split_and!; [done|done|destruct p; cbn; lia|].
  destruct Ht as [?|(m1 & Ho & Hm1 & Hs1 & He1)]; [by left|right]. exists m1. split_and!; [done..|].
  intros Hx ls2 y2 Hr2 Ha2 Hu Hl2.
  assert (Hf1 : daemon.fires (sy_daemon (absorb y w))) by (intros n' e; rewrite Hpcs; apply Hf').
  assert (Hp1' : counter (absorb y w) n = Some p) by (by rewrite Hp1). split.
  - destruct (run_unexited ls2 _ _ n p Hr2 Ha2 Hp1' Hx Hu) as (p2 & Hp2 & Hx2).
    eapply next_turn; [|done..]. eapply srun_inv; [| |exact Hw|exact Hr2]; lia.
  - intros Hle. destruct (pending_reported n m1 ls2 _ _ p Hs1 Hf1 Hr2 Ha2 Hp1' Hm1 Hx Hu Hle)
      as (pre & c & post & ya & ok & -> & Hpre & Hpa & Hma & Hck).
    rewrite run_app, Hpre in Hr2. cbn [mbind option_bind srun] in Hr2.
    destruct (step ya (SLoop n (daemon.IFire c))) as [yb|] eqn:Eb; [|done].
    rewrite length_app in Hl2. cbn [length] in Hl2.
    destruct (step_report _ _ n m1 ok c yb (proj1 (proj2 Hw) n m1 Hm1) ltac:(lia) Hs1 Hpa Hma Eb) as (Har & m2 & Hm2 & Hout).
    rewrite He1 in Hout. exists pre, c, post, ya, yb, ok, m2. split_and!; try done.
    destruct Hck as [[-> _]|?]; [by left|by right].
Qed.

End operator.

(** * The property at a concrete daemon *)

#[local] Existing Instances furnish.demo_api furnish.demo_laws w_reg_codec w_reg_laws w_rec_codec w_req_codec
  w_resp_codec w_res_codec w_svc_codec w_prj_codec.

Abbreviation w_answer := (respond (V := string) (fun s => s) (fun _ => "t") (fun _ => true) (fun _ => 0)
  skills.w_host (w_wiring "sesame")).
Definition w_ask (y : w_system) := w_answer w_env w_fenv demo_ports (backup_request "obs" "" "Bearer sesame" (Ok "")) y.

(** Up; then, after the request, the tick, a sweep, the checkpoint and its report. *)
Definition w_before : list (slabel (M := unit) (V := string)) :=
  [SLoop "obs" daemon.IGo; SLoop "obs" daemon.IGo].
Definition w_after : list (slabel (M := unit) (V := string)) :=
  [SLoop "obs" daemon.IEvalTick; SSweep 1000 TxOk;
   SLoop "obs" (daemon.ICheckpoint (fun _ _ => None) backup.sample_env (Ok backup.sample) 250);
   SLoop "obs" (daemon.IFire (daemon.w_clock 300))].

Definition w_asked : option (w_system * outcome) :=
  match w_started (Ok "sesame") with
  | Ok (_, y0) => (fun y => (y, snd (w_ask y))) <$> w_step_run (w_wiring "sesame") y0 w_before
  | Err _ => None
  end.
Definition w_done : option w_system :=
  w_asked ≫= fun yo => w_step_run (w_wiring "sesame") (absorb (yo.1) (fst (w_ask (yo.1)))) w_after.

Lemma w_asked_counter : (fun yo => (counter (yo.1) "obs", daemon.d_crashed (sy_daemon (yo.1)))) <$> w_asked
  = Some (Some daemon.PIdle, false).
Proof. vm_compute. reflexivity. Qed.
Lemma w_done_live : (fun y => daemon.d_crashed (sy_daemon y)) <$> w_done = Some false.
Proof. vm_compute. reflexivity. Qed.
Lemma w_asked_200 : snd <$> w_asked = Some (Resp (writeJSON 200 (BAction "backup_triggered" "obs"))).
Proof. vm_compute. reflexivity. Qed.

Lemma operator_backup_lands_witness :
  exists y out pre c post, w_asked = Some (y, out)
  /\ out = Resp (writeJSON 200 (BAction "backup_triggered" "obs"))
  /\ w_after = pre ++ SLoop "obs" (daemon.IFire c) :: post.
Proof.
  pose proof w_asked_counter as Hc. pose proof w_done_live as Hd. pose proof w_asked_200 as H2.
  unfold w_done in Hd. unfold w_asked in *. destruct (w_start _ _ w_sesame_starts) as [y0 E]. rewrite E in *.
  destruct (w_step_run (w_wiring "sesame") y0 w_before) as [y|] eqn:Er; [|discriminate].
  cbn [fmap option_fmap option_map mbind option_bind fst snd] in *.
  destruct (w_step_run (w_wiring "sesame") (absorb y (fst (w_ask y))) w_after) as [y2|] eqn:E2; [|discriminate].
  injection Hc as Hp Hal. injection H2 as H2. injection Hd as Hd.
  assert (H := operator_backup_lands (fun s => s) (fun _ => "t") (fun _ => true) (fun _ => 0)
    daemon.w_duration skills.w_host (w_wiring "sesame") false (Ok w_cfg) (w_boot (Ok "sesame")) y0 w_before y
    "obs" w_env w_fenv demo_ports "" "Bearer sesame" (Ok "") E eq_refl Er Hal ltac:(left)
    ltac:(discriminate) ltac:(split; [discriminate|reflexivity])).
  unfold w_ask in *. destruct (w_answer w_env w_fenv demo_ports _ y) as [w out]. cbn [fst snd] in *.
  destruct H as (p & m & Hp' & _ & _ & [(_ & _ & Ho & _)|(m1 & Ho & _ & _ & Hrun)]); [rewrite Ho in H2; discriminate|].
  assert (p = daemon.PIdle) as -> by congruence.
  destruct (Hrun ltac:(discriminate) w_after y2 E2 Hd ltac:(repeat constructor; discriminate) eq_refl) as [_ Hland].
  destruct (Hland ltac:(vm_compute; lia)) as (pre & c & post & _ & _ & _ & _ & Hls & _).
  exists y, out, pre, c, post. by split_and!.
Defined.

End operator.
