(* ===== verification/Retention.v ===== *)
(** The control loop over the disk: what the checkpoints of a whole run leave of it.

    The goroutines of all projects write to one disk, under names that come from the
    configuration. Where those are single path elements, each keeps to a directory of
    its own, and to the archives in it; and the rotation bounds them for the life of
    the process. *)

From S2P Require Import Prelude GoStrings GoPath GoTime State Proto KV Registry Backup Config GitState Enablement Furnish Skills Discovery HttpAuth HttpApi HttpRegister HttpFurnish HttpSurface HttpServe Daemon System.
From Stdlib Require Import Ascii.
Import proto bbolt kube httpauth httpapi httpregister httpfurnish httpsurface httpserve system.

Module retention.

Section retention.
Context {B EB : Type} `{BucketLaws B} `{BucketLaws EB}.
Context `{CodecLaws Registration} `{Codec enablement.Record_} `{Codec RegisterRequest}
  `{Codec RegisterResponse} `{Codec ResolvedService} `{Codec Service} `{Codec Project}.
Context {S M : Type} `{ApiLaws S M}.
Context {V : Type}.
Variable quote : string -> string.
Variable format_time : Z -> string.
Variable valid_full_name : string -> bool.
Variable f2i : Z -> Z.
Variable ParseDuration : string -> result string Z.
Variable hostname : string -> result string string.
Variable wi : Wiring.
Variable immediate : bool.

Abbreviation System_ := (System (B := B) (EB := EB) (S := S) (M := M)).
Abbreviation slabel_ := (slabel (M := M) (V := V)).
Abbreviation cfg := (s_cfg (wi_server wi)).
Abbreviation dryRun := (s_dryRun (wi_server wi)).
Abbreviation step := (sstep (B := B) (EB := EB) (S := S) (M := M) (V := V) quote format_time valid_full_name f2i ParseDuration hostname wi immediate).
Abbreviation run := (srun (B := B) (EB := EB) (S := S) (M := M) (V := V) quote format_time valid_full_name f2i ParseDuration hostname wi immediate).

Definition disk_of (y : System_) : backup.disk := daemon.d_disk (sy_daemon y).

(** The archive directory of a project, by name. *)
Definition archive_dir (n : string) : string := path_join [config.BackupsRoot (config.System cfg); n].
Definition max_archives (p : config.ProjectConfig) : Z := config.MaxArchives (config.Rotation (config.Backup p)).
Definition held (dk : backup.disk) (n : string) : Z :=
  Z.of_nat (length (backup.archives (backup.dir_at (archive_dir n) dk))).

(** A step whose checkpoint, if it is one, finds a file system that lists and removes. *)
Definition tidy (l : slabel_) : Prop :=
  match l with
  | SLoop _ (daemon.ICheckpoint _ env _ _) => backup.env_readdir env = None /\ forall path, backup.env_rm env path = None
  | _ => True
  end.

(** * Lemmas *)

(** Only a checkpoint writes to the disk. *)
Lemma step_disk y l y' :
  step y l = Some y' ->
  disk_of y' = disk_of y
  \/ exists n p fault env root now, l = SLoop n (daemon.ICheckpoint fault env root now)
     /\ daemon.find_config cfg n = Some p
     /\ disk_of y' = fst (backup.CreateCheckpoint fault env n (config.BackupsRoot (config.System cfg)) root
                            (max_archives p) (config.Exclude (config.Backup p)) dryRun (disk_of y)).
Proof.
  unfold sstep, disk_of. destruct (daemon.d_crashed _); [done|].
  destruct l as [n i|env fe po r|nows io service|now io|x|ok get io].
  - destruct (loop_step _ _ _ _ _ _) as [d|] eqn:E; [|done]. intros [= <-]. cbn [sy_daemon set_daemon].
    destruct (daemon.dstep_disk _ _ _ _ _ _ _ _ _ E) as [->|(n' & p & fault & env & root & now & [= -> ->] & Hf & _ & ->)];
      [by left|right]. by exists n', p, fault, env, root, now.
  - intros [= <-]. by left.
  - intros ->%lease_step_daemon. by left.
  - intros ->%lease_step_daemon. by left.
  - destruct (syncSkills _ _ _ _ _). intros [= <-]. by left.
  - destruct (discovery.DiscoverLocalLLMs ok get _); intros [= <-]; by left.
Qed.

(** What every checkpoint of a project keeps, a run keeps. *)
Lemma run_disk (P : backup.disk -> Prop) (Q : slabel_ -> Prop) :
  (forall dk n p fault env root now, daemon.find_config cfg n = Some p ->
     Q (SLoop n (daemon.ICheckpoint fault env root now)) -> P dk ->
     P (fst (backup.CreateCheckpoint fault env n (config.BackupsRoot (config.System cfg)) root
               (max_archives p) (config.Exclude (config.Backup p)) dryRun dk))) ->
  forall ls y y', Forall Q ls -> P (disk_of y) -> run y ls = Some y' -> P (disk_of y').
Proof.
  intros HP ls. induction ls as [|l ls IH]; intros y y' HQ Hy; cbn [srun]; [by intros [= <-]|].
  apply Forall_cons in HQ as [Hl HQ]. destruct (step y l) as [y1|] eqn:E; [|done]. apply (IH y1 y' HQ).
  destruct (step_disk _ _ _ E) as [->|(n & p & fault & env & root & now & -> & Hf & ->)]; [done|]. by eapply HP.
Qed.

(** The start leaves the disk. *)
Lemma start_disk load b y0 :
  runDaemon (EB := EB) (S := S) (M := M) load dryRun b = Ok (wi, y0) -> disk_of y0 = bo_disk b.
Proof. intros (_ & _ & _ & Hd & _)%runDaemon_start. unfold disk_of. by rewrite Hd. Qed.

(** * Property *)

(** C9. The daemon's backups keep to their place and their number. Where every
    project is named by one path element, over any run of the process, of any length
    and with any failures: a directory that is no project's archive directory is as
    before the start; in a project's, every file that is no .tgz is; and when the
    file system lists and removes, a project whose rotation has a maximum never holds
    more archives than that maximum, or than it held before. *)
Theorem backups_confined_and_bounded load b y0 ls y :
  runDaemon load dryRun b = Ok (wi, y0) -> run y0 ls = Some y -> daemon.plain_roster cfg ->
  (forall d, (forall n p, daemon.find_config cfg n = Some p -> d <> archive_dir n) ->
     backup.dir_at d (disk_of y) = backup.dir_at d (bo_disk b))
  /\ forall n p, daemon.find_config cfg n = Some p ->
       (forall file, has_suffix file ".tgz" = false ->
          backup.dir_at (archive_dir n) (disk_of y) !! file = backup.dir_at (archive_dir n) (bo_disk b) !! file)
       /\ (0 < max_archives p -> Forall tidy ls -> held (disk_of y) n <= Z.max (max_archives p) (held (bo_disk b) n)).
Proof.
  intros Hb Hr Hpl. pose proof (start_disk _ _ _ Hb) as Hs.
  assert (Hall : Forall (fun _ : slabel_ => True) ls) by (by apply Forall_true).
  split_and!.
  - intros d Hd. apply (run_disk (fun dk => backup.dir_at d dk = backup.dir_at d (bo_disk b)) _) with (2 := Hall) (4 := Hr);
      [|by rewrite Hs]. intros dk n p fault env root now Hf _ <-.
    apply backup.checkpoint_confined; [by eapply daemon.plain_find|by eapply Hd].
  - intros n p Hf. pose proof (daemon.plain_find _ _ _ Hpl Hf) as Hn. split.
    + intros file Hx. apply (run_disk (fun dk => backup.dir_at (archive_dir n) dk !! file = backup.dir_at (archive_dir n) (bo_disk b) !! file) _)
        with (2 := Hall) (4 := Hr); [|by rewrite Hs]. intros dk n' p' fault env root now Hf' _ <-.
      pose proof (daemon.plain_find _ _ _ Hpl Hf') as Hn'. unfold archive_dir.
      destruct (decide (n = n')) as [->|Hne]; [by apply backup.checkpoint_only_archives|].
      by rewrite backup.checkpoint_other_dirs.
    + intros Hm Ht. apply (run_disk (fun dk => held dk n <= Z.max (max_archives p) (held (bo_disk b) n)) tidy)
        with (2 := Ht) (4 := Hr); [|rewrite Hs; lia]. intros dk n' p' fault env root now Hf' [Hrd Hrm] Hle.
      pose proof (daemon.plain_find _ _ _ Hpl Hf') as Hn'. unfold held, archive_dir in *.
      destruct (decide (n = n')) as [->|Hne]; [|by rewrite backup.checkpoint_other_dirs].
      rewrite Hf' in Hf. injection Hf as ->.
      pose proof (backup.checkpoint_bounded fault env n' (config.BackupsRoot (config.System cfg)) root
        (max_archives p) (config.Exclude (config.Backup p)) dryRun dk Hn' Hrd Hrm Hm). lia.
Qed.

End retention.

(** * The property at a concrete daemon *)

#[local] Existing Instances furnish.demo_api furnish.demo_laws w_reg_codec w_reg_laws w_rec_codec w_req_codec
  w_resp_codec w_res_codec w_svc_codec w_prj_codec.

(** Up; asked for a backup; the checkpoint is made. *)
Definition w_labels : list (slabel (M := unit) (V := string)) :=
  [SLoop "obs" daemon.IGo; SLoop "obs" daemon.IGo;
   SRequest w_env w_fenv demo_ports (mkRequest "POST" ["projects"; "obs"; "backup"] "" "Bearer sesame" (Ok ""));
   SLoop "obs" daemon.IEvalTick;
   SLoop "obs" (daemon.ICheckpoint (fun _ _ => None) backup.sample_env (Ok backup.sample) 250)].

Lemma w_runs :
  match w_started (Ok "sesame") with
  | Ok (_, y0) => (fun y => held (w_wiring "sesame") (disk_of y) "obs") <$> w_step_run (w_wiring "sesame") y0 w_labels
  | Err _ => None
  end = Some 1.
Proof. vm_compute. reflexivity. Qed.

Lemma w_obs : daemon.find_config w_cfg "obs" = Some (config.project_at "obs" "~/p").
Proof. reflexivity. Qed.
Lemma w_plain_roster : daemon.plain_roster w_cfg.
Proof. repeat constructor; discriminate. Qed.

Lemma backups_confined_and_bounded_witness :
  exists y0 y, w_started (Ok "sesame") = Ok (w_wiring "sesame", y0)
  /\ w_step_run (w_wiring "sesame") y0 w_labels = Some y
  /\ held (w_wiring "sesame") (disk_of y) "obs" = 1
  /\ held (w_wiring "sesame") (disk_of y) "obs" <= 3
  /\ backup.dir_at "/etc" (disk_of y) = ∅.
Proof.
  destruct (w_start _ _ w_sesame_starts) as [y0 E]. pose proof w_runs as Hr. rewrite E in Hr.
  destruct (w_step_run (w_wiring "sesame") y0 w_labels) as [y|] eqn:Ey; [|discriminate Hr]. injection Hr as Hr.
  exists y0, y. split; [exact E|]. split; [exact Ey|]. split; [exact Hr|].
  destruct (backups_confined_and_bounded (fun s => s) (fun _ => "t") (fun _ => true) (fun _ => 0)
    daemon.w_duration skills.w_host (w_wiring "sesame") false (Ok w_cfg) (w_boot (Ok "sesame")) y0 w_labels y
    E Ey w_plain_roster) as [Hd Hp]. split.
  - refine (Z.le_trans _ _ _ (proj2 (Hp "obs" _ w_obs) eq_refl _) _); [repeat constructor|].
    apply Z.leb_le. vm_compute. reflexivity.
  - apply Hd. intros n p Hf. apply daemon.find_config_name in Hf as Hn. apply List.find_some in Hf as [Hin _].
    destruct Hin as [<-|[<-|[]]]; subst n; vm_compute; discriminate.
Defined.

End retention.
