(* ===== verification/Lease.v ===== *)
(** The control port, the heartbeat consumer and the expiry sweep together: the
    lease of one project, and how it governs what GET /resolve/{name} answers.

    [lease] is what the running process holds for a project; [lease_next] is the
    abstract lease, one state per project, that every step of the process refines. *)

From S2P Require Import Prelude GoStrings State Proto KV Registry Config Enablement Furnish Skills Discovery HttpAuth HttpApi HttpRegister HttpFurnish HttpSurface HttpServe Daemon System.
From Stdlib Require Import Ascii.
Import proto bbolt kube httpauth httpapi httpregister httpfurnish httpsurface httpserve system.

Module lease.

(** A lease: where its holder is reached, the service whose heartbeats renew it, and
    when it is over; one without a time is over. *)
Record Lease := mkLease { le_endpoint : option Endpoint; le_service : string; le_expiry : option Z }.

Definition lease_of (r : Registration) : Lease :=
  mkLease (rg_endpoint r) (get_service_name (rg_identity r)) (ts_as_time <$> rg_lease_expires_at r).

Definition over (now : Z) (l : Lease) : bool :=
  match le_expiry l with Some t => t <=? now | None => true end.

Definition renew (t : Z) (l : Lease) : Lease := mkLease (le_endpoint l) (le_service l) (Some t).

Section lease.
Context {B EB : Type} `{BucketLaws B} `{BucketLaws EB}.
Context `{CodecLaws Registration} `{Codec enablement.Record_} `{Codec RegisterRequest}
  `{Codec RegisterResponse} `{Codec ResolvedService} `{Codec Service} `{Codec Project}.
Context {S M : Type} `{ApiLaws S M}.
Context {V : Type}.
Variable quote : string -> string.
Variable format_time : Z -> string.
Variable valid_full_name : string -> bool.
Variable f2i : Z -> Z.
Variable ParseDuration : string -> result string Z.
Variable hostname : string -> result string string.
Variable wi : Wiring.
Variable immediate : bool.

Abbreviation System_ := (System (B := B) (EB := EB) (S := S) (M := M)).
Abbreviation slabel_ := (slabel (M := M) (V := V)).
Abbreviation srv := (wi_server wi).
Abbreviation step := (sstep (B := B) (EB := EB) (S := S) (M := M) (V := V) quote format_time valid_full_name
  f2i ParseDuration hostname wi immediate).
Abbreviation run := (srun (B := B) (EB := EB) (S := S) (M := M) (V := V) quote format_time valid_full_name
  f2i ParseDuration hostname wi immediate).
Abbreviation answer := (respond (B := B) (EB := EB) (S := S) (M := M) (V := V) quote format_time valid_full_name
  f2i hostname wi).

Definition lease (y : System_) (n : string) : option Lease :=
  db ← sy_reg y; lease_of <$> registry.abs db !! n.

(** A request that registers [n]: admitted by every gate, with [ep] its endpoint. *)
Definition registers_as (env : Env) (r : Request) (n : string) (req : RegisterRequest) (ep : Endpoint) : Prop :=
  method r = "POST" /\ segments r = ["register"] /\ request_of r req /\ rq_project req = n
  /\ admitted valid_full_name env srv req ep.

(** * The abstract lease *)

Definition lease_next (n : string) (l : option Lease) (lab : slabel_) (l' : option Lease) : Prop :=
  match lab with
  | SRequest env _ _ r =>
      l' = l \/ exists req ep, registers_as env r n req ep
        /\ l' = Some (mkLease (Some ep) (get_service_name (rq_identity req))
                        (Some (e_unix env + registry.DefaultLeaseTTL)))
  | SHeartbeat nows io service =>
      l' = l \/ exists x i, io = TxOk /\ l = Some x /\ service <> "" /\ le_service x = service
        /\ l' = Some (renew (nows i + registry.DefaultLeaseTTL) x)
  | SSweep now io =>
      l' = match l, io with
           | Some x, TxOk => if over now x then None else Some x
           | _, _ => l
           end
  | _ => l' = l
  end.

(** * Lemmas *)

Lemma over_due now r : over now (lease_of r) = registry.is_due now r.
Proof.
  unfold over, lease_of, registry.is_due. cbn [le_expiry]. destruct (rg_lease_expires_at r) as [t|]; [|done].
  cbn. by rewrite Z.leb_antisym.
Qed.

(** The registry moves on a registration that passed every gate. *)
Lemma answer_reg env fe po r (y : System_) :
  let y' := absorb y (fst (answer env fe po r y)) in
  sy_reg y' = sy_reg y
  \/ exists req ep db db' h, registers_as env r (rq_project req) req ep /\ sy_reg y = Some db
     /\ registry.Upsert (e_reg_tx env) (registration_of env req ep) db = (db', (h, None))
     /\ sy_reg y' = Some db'.
Proof.
  cbn zeta. unfold absorb, respond. cbn [sy_reg].
  destruct (serve_reg quote format_time valid_full_name f2i env srv (furnished wi fe) (wired hostname wi y po) r
    (view y)) as [->|(Hm & Hs & ->)]; [by left|].
  destruct (handleRegister_cases (EB := EB) quote valid_full_name env srv [] r (view y).1.1)
    as [(d & -> & _)|(req & ep & Hreq & Ha & Hw)].
  { left. unfold notRegistered, emitNotRegistered. by destruct (s_has_events srv). }
  cbn [view fst w_reg] in *. destruct (sy_reg y) as [db|] eqn:Er.
  - destruct (registry.Upsert _ _ db) as [db' [h [e|]]] eqn:Eu; rewrite Hw; cbn; [by left|].
    right. exists req, ep, db, db', h. by split_and!.
  - rewrite Hw. by left.
Qed.

Lemma request_lease env fe po r (y : System_) n :
  lease_next n (lease y n) (SRequest env fe po r) (lease (absorb y (fst (answer env fe po r y))) n).
Proof.
  cbn [lease_next]. unfold lease. destruct (answer_reg env fe po r y) as [->|(req & ep & db & db' & h & Hr & -> & Hu & ->)];
    [by left|]. apply registry.Upsert_abs in Hu as (_ & _ & _ & _ & Habs). cbn [mbind option_bind]. rewrite Habs.
  cbn [registration_of rg_project]. destruct (decide (rq_project req = n)) as [En|Hn].
  - right. exists req, ep. rewrite <-En at 1. split; [done|]. rewrite En, lookup_insert_eq.
    unfold lease_of. cbn. by rewrite ts_as_time_new.
  - left. by rewrite lookup_insert_ne.
Qed.

Lemma heartbeat_lease nows io service (y y' : System_) n :
  lease_step y (fun l => fst (daemon.on_heartbeat nows io service l)) = Some y' ->
  lease_next n (lease y n) (SHeartbeat nows io service) (lease y' n).
Proof.
  cbn [lease_next]. unfold lease_step, lease. destruct (sy_reg y) as [db|] eqn:Er; [|done]. intros [= <-].
  cbn [sy_reg set_leases mbind option_bind]. unfold daemon.on_heartbeat. cbn [daemon.l_reg].
  destruct (registry.RefreshLease nows service registry.DefaultLeaseTTL io db) as [db' [ok [e|]]] eqn:E; cbn.
  { left. by rewrite (registry.RefreshLease_failed _ _ _ _ _ _ _ _ E). }
  assert (Hio : service <> "" -> io = TxOk).
  { intros Hne. unfold registry.RefreshLease in E. apply String.eqb_neq in Hne. rewrite Hne in E.
    destruct (update _ _ _ _ _) as [[d fl] e] eqn:Eu. injection E as -> -> ->.
    by apply registry.update_none in Eu as [? _]. }
  apply registry.RefreshLease_abs in E as [Hr _]. specialize (Hr n).
  destruct (registry.abs db !! n) as [r|]; [|left; by rewrite Hr].
  destruct (String.eqb_spec service "") as [|Hne]; cbn in Hr; [left; by rewrite Hr|].
  unfold registry.serves_name in Hr. destruct (String.eqb_spec (get_service_name (rg_identity r)) service) as [Es|];
    [|left; by rewrite Hr]. destruct Hr as [i Hi]. right. exists (lease_of r), i. rewrite Hi.
  split_and!; [by apply Hio|done|done|done|]. unfold lease_of, renew. cbn. by rewrite ts_as_time_new.
Qed.

Lemma sweep_lease now io (y y' : System_) n :
  lease_step y (fun l => fst (daemon.sweep now io l)) = Some y' ->
  lease_next n (lease y n) (SSweep now io) (lease y' n).
Proof.
  cbn [lease_next]. unfold lease_step, lease. destruct (sy_reg y) as [db|] eqn:Er; [|done]. intros [= <-].
  cbn [sy_reg set_leases mbind option_bind]. unfold daemon.sweep. cbn [daemon.l_reg].
  destruct (registry.ExpireDue now io db) as [db' [ex [e|]]] eqn:E; cbn.
  - assert (io <> TxOk).
    { intros ->. pose proof (registry.ExpireDue_ok now db) as Ho. by rewrite E in Ho. }
    apply registry.ExpireDue_failed in E as ->. by destruct (_ <$> _), io.
  - assert (io = TxOk) as ->.
    { unfold registry.ExpireDue in E. destruct (update _ _ _ _ _) as [[d l] e] eqn:Eu. injection E as -> -> ->.
      by apply registry.update_none in Eu as [? _]. }
    apply registry.ExpireDue_abs in E as [_ Hl]. rewrite Hl. destruct (registry.abs db !! n) as [r|]; [|done].
    cbn. rewrite over_due. by destruct (registry.is_due now r).
Qed.

(** The process refines the abstract lease of every project. *)
Lemma step_lease (y : System_) lab y' n : step y lab = Some y' -> lease_next n (lease y n) lab (lease y' n).
Proof.
  unfold sstep. destruct (daemon.d_crashed _); [done|].
  destruct lab as [p i|env fe po r|nows io service|now io|x|ok get io].
  - destruct (loop_step _ _ _ _ _ _); [|done]. by intros [= <-].
  - intros [= <-]. apply request_lease.
  - apply heartbeat_lease.
  - apply sweep_lease.
  - destruct (syncSkills _ _ _ _ _) as [agg cli]. by intros [= <-].
  - by destruct (discovery.DiscoverLocalLLMs ok get _); intros [= <-].
Qed.

Lemma heartbeat_renews nows io (y y' : System_) n x db :
  lease y n = Some x -> le_service x <> "" -> sy_reg y = Some db ->
  snd (daemon.on_heartbeat nows io (le_service x) (daemon.mkLeases db (sy_seen y))) = None ->
  step y (SHeartbeat nows io (le_service x)) = Some y' ->
  exists i, lease y' n = Some (renew (nows i + registry.DefaultLeaseTTL) x).
Proof.
  unfold sstep. destruct (daemon.d_crashed _); [done|]. unfold lease_step, lease. intros Hx Hne Er He Hst.
  rewrite Er in Hx, Hst. injection Hst as <-. cbn [sy_reg set_leases mbind option_bind] in *.
  unfold daemon.on_heartbeat in *. cbn [daemon.l_reg] in *.
  destruct (registry.RefreshLease nows (le_service x) registry.DefaultLeaseTTL io db) as [db' [ok [e|]]] eqn:E; [done|].
  apply registry.RefreshLease_abs in E as [Hr _]. specialize (Hr n).
  destruct (registry.abs db !! n) as [r|]; [|done]. injection Hx as <-. cbn [lease_of le_service] in *.
  rewrite (proj2 (String.eqb_neq _ _) Hne) in Hr. unfold registry.serves_name in Hr.
  rewrite String.eqb_refl in Hr. destruct Hr as [i Hi]. exists i. cbn [daemon.l_reg fst]. rewrite Hi.
  unfold lease_of, renew. cbn. by rewrite ts_as_time_new.
Qed.

(** ** The two routes *)

Lemma answer_register env fe po r (y : System_) :
  method r = "POST" -> segments r = ["register"] ->
  let '(w, out) := handleRegister (EB := EB) quote valid_full_name env srv [] r (view y).1.1 in
  answer env fe po r y = ((w, (view y).1.2, (view y).2), out).
Proof.
  destruct r as [m segs q a body]. cbn [method segments]. intros -> ->. unfold respond, serve_request, serve.
  assert (Hr : find_route (Mux (B := B) (EB := EB) quote format_time valid_full_name f2i env srv
      (furnished wi fe) (wired hostname wi y po)) (mkRequest "POST" ["register"] q a body)
    = Some (on_world (handleRegister quote valid_full_name env srv), [])).
  { unfold Mux, route_table. destruct (mcpEnabled srv); reflexivity. }
  rewrite Hr. unfold on_world. by destruct (handleRegister _ _ _ _ _ _ _).
Qed.

(** A registration answered 200 is a fresh lease. *)
Lemma registered_lease env fe po r (y : System_) n req ep resp :
  registers_as env r n req ep -> snd (answer env fe po r y) = Resp resp -> status resp = 200 ->
  lease (absorb y (fst (answer env fe po r y))) n
  = Some (mkLease (Some ep) (get_service_name (rq_identity req)) (Some (e_unix env + registry.DefaultLeaseTTL))).
Proof.
  intros (Hm & Hs & Hreq & Hn & Ha). pose proof (answer_register env fe po r y Hm Hs) as He.
  destruct (handleRegister_cases (EB := EB) quote valid_full_name env srv [] r (view y).1.1)
    as [(d & Hd & Hst & _)|(req' & ep' & Hreq' & Ha' & Hw)].
  { rewrite Hd in He. cbn in He. rewrite He. cbn. intros [= <-]. cbn. intros E. rewrite E in Hst. set_solver. }
  rewrite (request_unique r req' req Hreq' Hreq) in *.
  assert (ep' = ep) as ->.
  { destruct Ha as (_ & _ & (r1 & E1) & _), Ha' as (_ & _ & (r2 & E2) & _). congruence. }
  unfold lease. cbn [view fst w_reg] in Hw, He. destruct (sy_reg y) as [db|] eqn:Er.
  2: { rewrite Hw in He. rewrite He. cbn [snd]. destruct (is_ok _); [done|]. by intros [= <-]. }
  destruct (registry.Upsert _ _ db) as [db' [h [e|]]] eqn:Eu; rewrite Hw in He; rewrite He; cbn [snd fst].
  { by intros [= <-]. }
  intros _ _. unfold absorb. cbn. apply registry.Upsert_abs in Eu as (_ & _ & _ & _ & ->).
  cbn [registration_of rg_project]. rewrite Hn, lookup_insert_eq. cbn. unfold lease_of. cbn. by rewrite ts_as_time_new.
Qed.

Definition resolve_request (n query auth : string) (body : result string string) : Request :=
  mkRequest "GET" ["resolve"; n] query auth body.

(** What a lease resolves to. *)
Definition resolution (n : string) (l : option Lease) : Response :=
  match l with
  | None => writeJSON 404 (BError "service not resolvable")
  | Some x => match marshal (mkResolvedService n (get_scheme (le_endpoint x)) (get_address (le_endpoint x))) with
              | Err _ => writeJSON 500 (BError "failed to encode resolution")
              | Ok b => writeJSON 200 (BRaw b)
              end
  end.

Lemma answer_resolve env fe po (y : System_) n query auth body :
  n <> "" -> e_reg_tx env = TxOk ->
  snd (answer env fe po (resolve_request n query auth body) y) = Resp (resolution n (lease y n)).
Proof.
  intros Hn Htx. unfold respond, serve_request, serve.
  assert (Hr : find_route (Mux (B := B) (EB := EB) quote format_time valid_full_name f2i env srv
      (furnished wi fe) (wired hostname wi y po)) (resolve_request n query auth body)
    = Some (on_world (handleResolve env), [("name", n)])).
  { destruct n as [|c n]; [done|]. unfold Mux, route_table. destruct (mcpEnabled srv); reflexivity. }
  rewrite Hr. unfold on_world, handleResolve. cbn [fst snd view w_reg]. rewrite Htx.
  change (PathValue [("name", n)] "name") with n. unfold resolution, lease. do 2 f_equal.
  destruct (sy_reg y) as [db|]; [|done]. cbn [mbind option_bind]. rewrite registry.abs_lookup.
  unfold registry.Get, bbolt.view, registry.decode. destruct (bkt_get db n) as [v|]; [|done].
  cbn [mbind option_bind]. by destruct (unmarshal v).
Qed.

(** ** Runs *)

(** A run of the abstract lease of [n], label by label. *)
Inductive lease_path (n : string) : option Lease -> list slabel_ -> option Lease -> Prop :=
| path_nil l : lease_path n l [] l
| path_step l lab l1 labs l2 : lease_next n l lab l1 -> lease_path n l1 labs l2 -> lease_path n l (lab :: labs) l2.

Lemma run_lease ls : forall (y y' : System_) n, run y ls = Some y' -> lease_path n (lease y n) ls (lease y' n).
Proof.
  induction ls as [|lab ls IH]; intros y y' n Hr; cbn [srun] in Hr; [injection Hr as <-; constructor|].
  destruct (step y lab) as [y1|] eqn:E; [|done]. econstructor; [by eapply step_lease|by apply IH].
Qed.

Definition registers_no (n : string) (lab : slabel_) : Prop :=
  match lab with SRequest env _ _ r => forall req ep, ~ registers_as env r n req ep | _ => True end.

(** What happens in time for a lease that lasts until [T]: sweeps before it, and
    heartbeats read at a clock that makes a lease at least as long. *)
Definition timely (T : Z) (lab : slabel_) : Prop :=
  match lab with
  | SSweep now _ => now < T
  | SHeartbeat nows _ _ => forall i, T <= nows i + registry.DefaultLeaseTTL
  | _ => True
  end.

(** [x] is the lease of the same registration as [x0], good until [T] at least. *)
Definition lasts (T : Z) (x0 x : Lease) : Prop :=
  le_endpoint x = le_endpoint x0 /\ le_service x = le_service x0 /\ exists t, le_expiry x = Some t /\ T <= t.

Lemma path_lasts n T x0 ls : forall x l',
  lease_path n (Some x) ls l' -> lasts T x0 x -> Forall (registers_no n) ls -> Forall (timely T) ls ->
  exists x', l' = Some x' /\ lasts T x0 x'.
Proof.
  induction ls as [|lab ls IH]; intros x l' Hp Hx Hn Ht; inversion Hp as [|? ? l1 ? ? Hs Hp']; subst; [by eexists|].
  apply Forall_cons in Hn as [Hn Hns]. apply Forall_cons in Ht as [Ht Hts].
  enough (exists x1, l1 = Some x1 /\ lasts T x0 x1) as (x1 & -> & Hx1) by (by eapply IH).
  destruct lab; cbn in Hs; try (by exists x).
  - destruct Hs as [->|(req & ep & Hr & _)]; [by exists x|]. by destruct (Hn req ep).
  - destruct Hs as [->|(x1 & i & _ & [= <-] & _ & _ & ->)]; [by exists x|]. eexists. split; [done|].
    destruct Hx as (? & ? & _). split_and!; [done..|]. by eexists.
  - exists x. split; [|done]. destruct io; [|done..]. destruct Hx as (_ & _ & t & He & Hle).
    unfold over in Hs. rewrite He in Hs. cbn in Ht. by rewrite (proj2 (Z.leb_gt _ _)) in Hs by lia.
Qed.

Lemma path_gone n ls : forall l', lease_path n None ls l' -> Forall (registers_no n) ls -> l' = None.
Proof.
  induction ls as [|lab ls IH]; intros l' Hp Hn; inversion Hp as [|? ? l1 ? ? Hs Hp']; subst; [done|].
  apply Forall_cons in Hn as [Hn Hns]. enough (l1 = None) as -> by (by apply IH).
  destruct lab; cbn in Hs; try done.
  - destruct Hs as [->|(req & ep & Hr & _)]; [done|]. by destruct (Hn req ep).
  - by destruct Hs as [->|(x & i & _ & ? & _)].
Qed.

(** * Properties *)

(** C8. The process implements one lease per project: over any run, whatever else
    happens in it, a project's registration goes from lease to lease as [lease_next]
    says (only a registration that passed every gate makes one, of the TTL from its
    clock; only a heartbeat of its own service renews it; a sweep that commits
    removes it exactly when it is over; nothing else touches it), and GET
    /resolve/{name} answers that lease's endpoint, or 404 when there is none. *)
Theorem leases_refine ls (y y' : System_) n env fe po query auth body :
  run y ls = Some y' -> n <> "" -> e_reg_tx env = TxOk ->
  lease_path n (lease y n) ls (lease y' n)
  /\ snd (answer env fe po (resolve_request n query auth body) y') = Resp (resolution n (lease y' n)).
Proof. intros Hr Hn Htx. split; [by apply run_lease|by apply answer_resolve]. Qed.

(** C10. A frood that keeps its heartbeats is resolved, and one that stops is not. A
    registration answered 200 is a lease for the TTL from that moment; while a lease
    is good until [T], no run whose sweeps are before [T] and whose heartbeats are no
    older than a TTL before it, whatever its other steps, takes the registration from
    what /resolve answers; each heartbeat of its service that the consumer takes
    without error makes the lease good for a TTL from its clock, so the same holds
    again from there; and the first sweep that finds the lease over ends it, /resolve
    answering 404 until the project registers again. *)
Theorem heartbeats_keep_resolvable n env0 fe0 po0 query auth body :
  n <> "" -> e_reg_tx env0 = TxOk ->
  let resolved (y : System_) := snd (answer env0 fe0 po0 (resolve_request n query auth body) y) in
  (forall env fe po r y req ep resp,
     registers_as env r n req ep -> snd (answer env fe po r y) = Resp resp -> status resp = 200 ->
     lease (absorb y (fst (answer env fe po r y))) n
     = Some (mkLease (Some ep) (get_service_name (rq_identity req)) (Some (e_unix env + registry.DefaultLeaseTTL))))
  /\ (forall y x T ls y', lease y n = Some x -> lasts T x x -> run y ls = Some y' ->
        Forall (registers_no n) ls -> Forall (timely T) ls ->
        resolved y' = resolved y /\ resolved y = Resp (resolution n (Some x))
        /\ exists x', lease y' n = Some x' /\ lasts T x x')
  /\ (forall y x db nows io y', lease y n = Some x -> le_service x <> "" -> sy_reg y = Some db ->
        snd (daemon.on_heartbeat nows io (le_service x) (daemon.mkLeases db (sy_seen y))) = None ->
        step y (SHeartbeat nows io (le_service x)) = Some y' ->
        exists i, lease y' n = Some (renew (nows i + registry.DefaultLeaseTTL) x))
  /\ (forall y x now y1 ls y', lease y n = Some x -> over now x = true ->
        step y (SSweep now TxOk) = Some y1 -> run y1 ls = Some y' -> Forall (registers_no n) ls ->
        resolved y' = Resp (writeJSON 404 (BError "service not resolvable"))).
Proof.
  intros Hn Htx. cbn zeta. split_and!.
  - intros env fe po r y req ep resp. apply registered_lease.
  - intros y x T ls y' Hx Hl Hr Hno Hti. pose proof (run_lease _ _ _ n Hr) as Hp. rewrite Hx in Hp.
    destruct (path_lasts _ _ _ _ _ _ Hp Hl Hno Hti) as (x' & Hx' & Hl').
    rewrite !answer_resolve, Hx, Hx' by done. split_and!; [|done|by eexists].
    unfold resolution. by destruct Hl' as (-> & _).
  - intros y x db nows io y'. apply heartbeat_renews.
  - intros y x now y1 ls y' Hx Ho Hs Hr Hno. pose proof (step_lease _ _ _ n Hs) as Hl. cbn in Hl.
    rewrite Hx, Ho in Hl. pose proof (run_lease _ _ _ n Hr) as Hp. rewrite Hl in Hp.
    by rewrite answer_resolve, (path_gone _ _ _ Hp Hno).
Qed.

End lease.

(** * The properties at a concrete daemon *)

#[local] Existing Instances furnish.demo_api furnish.demo_laws w_reg_codec w_reg_laws w_rec_codec w_req_codec
  w_resp_codec w_res_codec w_svc_codec w_prj_codec.

Definition w_announced : list (slabel (M := unit) (V := string)) :=
  [SRequest w_env w_fenv demo_ports (post ["register"] "")].

(** A heartbeat, a sweep before the lease is over, another project's step. *)
Definition w_kept : list (slabel (M := unit) (V := string)) :=
  [SHeartbeat (fun _ => 6000000000) TxOk "obs-svc"; SSweep 90000000000 TxOk; SLoop "kaf" daemon.IGo].

Definition w_lease : Lease :=
  mkLease (Some (mkEndpoint "" "obs.fleet:80")) "obs-svc" (Some (5000000000 + registry.DefaultLeaseTTL)).

Definition w_held (y : w_system) (n : string) : option Lease :=
  lease (B := table) (EB := table) (S := furnish.demo) (M := unit) y n.

Definition w_announced_run : option w_system :=
  match w_started (Ok "sesame") with
  | Ok (_, y0) => w_step_run (w_wiring "sesame") y0 w_announced
  | Err _ => None
  end.

Lemma w_announced_lease : (fun y => w_held y "obs") <$> w_announced_run = Some (Some w_lease).
Proof. vm_compute. reflexivity. Qed.
Lemma w_kept_runs :
  match w_announced_run ≫= fun y => w_step_run (w_wiring "sesame") y w_kept with Some _ => true | None => false end
  = true.
Proof. vm_compute. reflexivity. Qed.

Lemma leases_refine_witness :
  exists y0 y, w_started (Ok "sesame") = Ok (w_wiring "sesame", y0)
  /\ lease_path (V := string) (M := unit) (fun _ => true) (w_wiring "sesame") "obs" (w_held y0 "obs") w_announced (w_held y "obs")
  /\ w_held y "obs" = Some w_lease.
Proof.
  pose proof w_announced_lease as Hl. unfold w_announced_run in Hl.
  destruct (w_start _ _ w_sesame_starts) as [y0 E]. rewrite E in Hl.
  destruct (w_step_run (w_wiring "sesame") y0 w_announced) as [y|] eqn:Er; [|discriminate].
  exists y0, y. split; [done|]. split; [|by injection Hl].
  exact (proj1 (leases_refine (fun s => s) (fun _ => "t") (fun _ => true) (fun _ => 0) daemon.w_duration
    skills.w_host (w_wiring "sesame") false w_announced y0 y "obs" w_env w_fenv demo_ports "" "" (Ok "") Er
    ltac:(discriminate) eq_refl)).
Defined.

Lemma heartbeats_keep_resolvable_witness :
  exists y y', w_announced_run = Some y /\ w_step_run (w_wiring "sesame") y w_kept = Some y'
  /\ snd (respond (V := string) (fun s => s) (fun _ => "t") (fun _ => true) (fun _ => 0) skills.w_host
       (w_wiring "sesame") w_env w_fenv demo_ports (resolve_request "obs" "" "" (Ok "")) y')
     = Resp (writeJSON 200 (BRaw "obs.fleet:80")).
Proof.
  pose proof w_announced_lease as Hl. pose proof w_kept_runs as Hk.
  destruct w_announced_run as [y|]; [|discriminate]. injection Hl as Hl. cbn [mbind option_bind] in Hk.
  destruct (w_step_run (w_wiring "sesame") y w_kept) as [y'|] eqn:Er; [|discriminate].
  exists y, y'. split; [done|]. split; [done|].
  assert (H := heartbeats_keep_resolvable (fun s => s) (fun _ => "t") (fun _ => true) (fun _ => 0)
    daemon.w_duration skills.w_host (w_wiring "sesame") false "obs" w_env w_fenv demo_ports "" "" (Ok "")
    ltac:(discriminate) eq_refl).
  destruct (proj1 (proj2 H) y w_lease 95000000000 w_kept y' Hl) as (Hy' & Hy & _).
  - split_and!; [done..|]. exists 95000000000. split; [vm_compute; reflexivity|lia].
  - exact Er.
  - repeat constructor.
  - repeat constructor; intros; vm_compute; discriminate.
  - transitivity (Resp (resolution "obs" (Some w_lease))); [exact (eq_trans Hy' Hy)|vm_compute; reflexivity].
Defined.

End lease.
