(* ===== verification/Lifecycle.v ===== *)
(** cmd/delightd/main.go, main and the end of runDaemon: the life of the process.

    [launch] is main up to the select that waits for a signal; [pstep] is a step of
    the process from there: a step of the system inside it (System.v), a request
    accepted or answered, a detached NotRegistered emit that ends, the listener that
    fails, and the shutdown's own steps, server.Shutdown, DrainEvents and the return.
    A request is in flight from its acceptance until its handler ended: with an answer,
    or by a panic, which net/http recovers, closing the connection without an answer;
    [pr_served] keeps which. The WaitGroup [emitWG] is the list of the emits it still
    counts. A signal before signal.Notify takes its
    default action, outside the model. *)

From S2P Require Import Prelude GoStrings State Proto KV Registry Config Enablement Furnish Skills Exports Discovery HttpAuth HttpApi HttpRegister HttpFurnish HttpSurface HttpServe HttpContract Daemon System Lease.
Import proto bbolt kube httpauth httpapi httpregister httpfurnish httpsurface httpserve system.

Module lifecycle.

(** Where runDaemon is. *)
Inductive phase :=
| Serving                      (* in the select on the signal and the root context *)
| Stopping                     (* in server.Shutdown *)
| Draining                     (* in api.DrainEvents *)
| Returning                    (* in the deferred calls *)
| Exited (code : Z).

(** main: the status of the error that Execute returns. *)
Definition main (err : option string) : Z := match err with Some _ => 1 | None => 0 end.

(** The status of a process that panicked. *)
Definition panic_status : Z := 2.

Section lifecycle.
Context {B EB : Type} `{BucketLaws B} `{BucketLaws EB}.
Context `{CodecLaws Registration} `{Codec enablement.Record_} `{Codec RegisterRequest}
  `{Codec RegisterResponse} `{Codec ResolvedService} `{Codec Service} `{Codec Project}.
Context {S M : Type} `{ApiLaws S M}.
Context {V : Type}.
Variable quote : string -> string.
Variable format_time : Z -> string.
Variable valid_full_name : string -> bool.
Variable f2i : Z -> Z.
Variable ParseDuration : string -> result string Z.
Variable hostname : string -> result string string.

Abbreviation System_ := (System (B := B) (EB := EB) (S := S) (M := M)).
Abbreviation slabel_ := (slabel (M := M) (V := V)).

Record Process := mkProcess {
  pr_sys : System_;
  pr_phase : phase;
  pr_listening : bool;
  pr_cancelled : bool;                                (* the root context is done *)
  pr_accepted : list Request;                         (* every request, for the theorems *)
  pr_inflight : list Request;
  pr_served : list (Request * outcome);               (* the handlers that ended, and how *)
  pr_emits : list NotRegistered;                      (* emitWG *)
  pr_ended : list (NotRegistered * option string);    (* ended emits, with Publish's error *)
  pr_forced : bool                                    (* Shutdown gave up at its deadline *)
}.

(** main up to the select: the exit status, or the running process. *)
Definition launch (load : result string config.DelightConfig) (dryRun : bool)
    (b : BootEnv (B := B) (EB := EB) (S := S)) : Z + Wiring * Process :=
  match runDaemon load dryRun b with
  | Err e => inl (main (Some e))
  | Ok (wi, y) => inr (wi, mkProcess y Serving true false [] [] [] [] [] false)
  end.

(** * A step *)

Inductive plabel :=
| PRun (l : slabel_)                       (* not a request: a goroutine, consumer or ticker *)
| PAccept (r : Request)
| PAnswer (k : nat) (env : Env) (fe : FurnishEnv (M := M)) (po : Ports V)
| PEmitDone (k : nat) (err : option string)
| PListenFail                              (* ListenAndServe's error: cancel() *)
| PSignal                                  (* SIGINT or SIGTERM *)
| PCancelled                               (* <-ctx.Done() *)
| PShutdown (deadline : bool)              (* server.Shutdown returns; its 5 seconds are over *)
| PDrained                                 (* DrainEvents returns *)
| PExit.

Section running.
Variable wi : Wiring.
Variable immediate : bool.

Abbreviation sys_step := (sstep quote format_time valid_full_name f2i ParseDuration hostname wi immediate).
Abbreviation sys_run := (srun quote format_time valid_full_name f2i ParseDuration hostname wi immediate).
Abbreviation answer := (respond (V := V) quote format_time valid_full_name f2i hostname wi).

(** A goroutine sees the context done only once it is. *)
Definition allowed (p : Process) (l : slabel_) : bool :=
  match l with
  | SRequest _ _ _ _ => false
  | SLoop _ daemon.ICancel => pr_cancelled p
  | _ => true
  end.

Definition set_phase (p : Process) (ph : phase) : Process :=
  mkProcess (pr_sys p) ph (pr_listening p) (pr_cancelled p) (pr_accepted p)
    (pr_inflight p) (pr_served p) (pr_emits p) (pr_ended p) (pr_forced p).

(** The system moved to [y] with the requests [rs] still in flight and [sv] served:
    the emits it started are counted, and a panic of a goroutine ends the process. *)
Definition settle (p : Process) (rs : list Request) (sv : list (Request * outcome)) (y : System_) : Process :=
  mkProcess y (if daemon.d_crashed (sy_daemon y) then Exited panic_status else pr_phase p)
    (pr_listening p) (pr_cancelled p) (pr_accepted p) rs sv
    (pr_emits p ++ drop (length (sy_bus (pr_sys p))) (sy_bus y)) (pr_ended p) (pr_forced p).

(** The listener closed; [cancelled] whether the root context is done. *)
Definition stop_listening (p : Process) (ph : phase) (cancelled : bool) : Process :=
  mkProcess (pr_sys p) ph false cancelled (pr_accepted p) (pr_inflight p) (pr_served p) (pr_emits p)
    (pr_ended p) (pr_forced p).

Definition pstep (p : Process) (l : plabel) : option Process :=
  match pr_phase p, l with
  | Exited _, _ => None
  | _, PRun sl => if allowed p sl then settle p (pr_inflight p) (pr_served p) <$> sys_step (pr_sys p) sl else None
  | _, PAccept r =>
      if pr_listening p
      then Some (mkProcess (pr_sys p) (pr_phase p) true (pr_cancelled p) (pr_accepted p ++ [r])
                   (pr_inflight p ++ [r]) (pr_served p) (pr_emits p) (pr_ended p) (pr_forced p))
      else None
  | _, PAnswer k env fe po =>
      match pr_inflight p !! k with
      | Some r => settle p (delete k (pr_inflight p))
                    (pr_served p ++ [(r, snd (answer env fe po r (pr_sys p)))])
                    <$> sys_step (pr_sys p) (SRequest env fe po r)
      | None => None
      end
  | _, PEmitDone k err =>
      match pr_emits p !! k with
      | Some ev => Some (mkProcess (pr_sys p) (pr_phase p) (pr_listening p) (pr_cancelled p) (pr_accepted p)
                           (pr_inflight p) (pr_served p) (delete k (pr_emits p)) (pr_ended p ++ [(ev, err)]) (pr_forced p))
      | None => None
      end
  | Serving, PListenFail => if pr_listening p then Some (stop_listening p Serving true) else None
  | Serving, PSignal => Some (stop_listening p Stopping (pr_cancelled p))
  | Serving, PCancelled => if pr_cancelled p then Some (stop_listening p Stopping true) else None
  | Stopping, PShutdown deadline =>
      if deadline || bool_decide (pr_inflight p = [])
      then Some (mkProcess (pr_sys p) Draining (pr_listening p) (pr_cancelled p) (pr_accepted p) (pr_inflight p)
                   (pr_served p) (pr_emits p) (pr_ended p) (negb (bool_decide (pr_inflight p = []))))
      else None
  | Draining, PDrained => if bool_decide (pr_emits p = []) then Some (set_phase p Returning) else None
  | Returning, PExit => Some (set_phase p (Exited (main None)))
  | _, _ => None
  end.

Fixpoint prun (p : Process) (ls : list plabel) : option Process :=
  match ls with
  | [] => Some p
  | l :: r => match pstep p l with Some p' => prun p' r | None => None end
  end.

(** * Lemmas *)

(** A step the process takes for itself: not a goroutine's, a consumer's or a
    ticker's, and not a client's. *)
Definition own (l : plabel) : bool := match l with PRun _ | PAccept _ => false | _ => true end.

(** A system step appends at most one event to the bus, and none but a request does. *)
Lemma sstep_bus (y : System_) (l : slabel_) (y' : System_) :
  sys_step y l = Some y' ->
  exists evs, sy_bus y' = sy_bus y ++ evs /\ (length evs <= 1)%nat
  /\ ((forall env fe po r, l <> SRequest env fe po r) -> evs = []).
Proof.
  unfold sstep, lease_step. destruct (daemon.d_crashed (sy_daemon y)); [done|].
  assert (Hs : exists evs, sy_bus y = sy_bus y ++ evs /\ (length evs <= 1)%nat
    /\ ((forall env fe po r, l <> SRequest env fe po r) -> evs = [])).
  { exists []. rewrite app_nil_r. split_and!; [done|simpl; lia|done]. }
  destruct l as [n i|env fe po r|nows io service|now io|x|ok get io].
  - destruct (loop_step _ _ _ _ _); [|done]. by intros [= <-].
  - clear Hs. intros [= <-]. unfold absorb, respond. cbn [sy_bus].
    pose proof (serve_moved quote format_time valid_full_name f2i env (wi_server wi) (furnished wi fe)
      (wired hostname wi y po) r (view y)) as Hm.
    destruct Hm as [->|n m e _ _ ->|db reg _ ->|db ->|ev ->]; cbn [view fst w_events set_machines set_reg
      set_enablement add_event].
    1-4: by (exists []; rewrite app_nil_r; split_and!; [done|simpl; lia|done]).
    exists [ev]. split_and!; [done|simpl; lia|]. intros Hl. by destruct (Hl env fe po r).
  - destruct (sy_reg y); [|done]. by intros [= <-].
  - destruct (sy_reg y); [|done]. by intros [= <-].
  - destruct (syncSkills _ _ _ _ _). by intros [= <-].
  - by destruct (discovery.DiscoverLocalLLMs ok get _); intros [= <-].
Qed.

(** The handler of a request in flight ends: [rs] are still in flight after it, [sv]
    the handlers that ended, [evs] the event it emitted, if any. *)
Definition answers (p : Process) (l : plabel) (sl : slabel_) (rs : list Request) (sv : list (Request * outcome))
    (evs : list NotRegistered) : Prop :=
  exists k env fe po r, l = PAnswer k env fe po /\ sl = SRequest env fe po r
  /\ pr_inflight p !! k = Some r /\ rs = delete k (pr_inflight p)
  /\ sv = pr_served p ++ [(r, snd (answer env fe po r (pr_sys p)))] /\ (length evs <= 1)%nat.

Lemma answers_fewer p l sl rs sv evs :
  answers p l sl rs sv evs -> own l = true /\ (length rs < length (pr_inflight p))%nat /\ (length evs <= 1)%nat.
Proof.
  intros (k & env & fe & po & r & -> & _ & Hk & -> & _ & Hl). split; [done|]. split; [|done].
  rewrite length_delete by done. apply lookup_lt_Some in Hk. lia.
Qed.

(** The steps as a relation: [MoveSys] the two that run the system, with the events
    they put on the bus. *)
Inductive moves (p : Process) : plabel -> Process -> Prop :=
| MoveSys l rs sv sl y evs :
    sys_step (pr_sys p) sl = Some y -> sy_bus y = sy_bus (pr_sys p) ++ evs ->
    ((l = PRun sl /\ rs = pr_inflight p /\ sv = pr_served p /\ evs = []) \/ answers p l sl rs sv evs) ->
    moves p l (mkProcess y (if daemon.d_crashed (sy_daemon y) then Exited panic_status else pr_phase p)
                (pr_listening p) (pr_cancelled p) (pr_accepted p) rs sv (pr_emits p ++ evs) (pr_ended p) (pr_forced p))
| MoveAccept r :
    pr_listening p = true ->
    moves p (PAccept r) (mkProcess (pr_sys p) (pr_phase p) true (pr_cancelled p) (pr_accepted p ++ [r])
                           (pr_inflight p ++ [r]) (pr_served p) (pr_emits p) (pr_ended p) (pr_forced p))
| MoveEmit k err ev :
    pr_emits p !! k = Some ev ->
    moves p (PEmitDone k err) (mkProcess (pr_sys p) (pr_phase p) (pr_listening p) (pr_cancelled p)
                                 (pr_accepted p) (pr_inflight p) (pr_served p) (delete k (pr_emits p)) (pr_ended p ++ [(ev, err)]) (pr_forced p))
| MoveStop l ph c :
    pr_phase p = Serving -> (l = PListenFail /\ ph = Serving \/ ph = Stopping) -> own l = true ->
    moves p l (stop_listening p ph c)
| MoveShutdown dl :
    pr_phase p = Stopping ->
    moves p (PShutdown dl) (mkProcess (pr_sys p) Draining (pr_listening p) (pr_cancelled p) (pr_accepted p)
                              (pr_inflight p) (pr_served p) (pr_emits p) (pr_ended p) (negb (bool_decide (pr_inflight p = []))))
| MoveDrained : pr_phase p = Draining -> pr_emits p = [] -> moves p PDrained (set_phase p Returning)
| MoveExit : pr_phase p = Returning -> moves p PExit (set_phase p (Exited 0)).

Lemma settle_moves p rs sv (l : slabel_) pl q :
  settle p rs sv <$> sys_step (pr_sys p) l = Some q ->
  (pl = PRun l /\ rs = pr_inflight p /\ sv = pr_served p /\ (forall env fe po r, l <> SRequest env fe po r))
  \/ (forall evs, (length evs <= 1)%nat -> answers p pl l rs sv evs) ->
  moves p pl q.
Proof.
  destruct (sys_step (pr_sys p) l) as [y|] eqn:E; [|done]. intros [= <-] Hc.
  destruct (sstep_bus _ _ _ E) as (evs & Eb & Hl & Hn). unfold settle. rewrite Eb, drop_app_length.
  apply (MoveSys p pl rs sv l y evs E Eb). destruct Hc as [(-> & -> & -> & Hr)|Ha]; [left|right; by apply Ha].
  by rewrite (Hn Hr).
Qed.

Lemma pstep_moves p l q : pstep p l = Some q -> moves p l q.
Proof.
  unfold pstep. destruct l as [sl|r|k env fe po|k err| | | |dl| |].
  - assert (Hs : (if allowed p sl then settle p (pr_inflight p) (pr_served p) <$> sys_step (pr_sys p) sl
                  else None) = Some q ->
                 moves p (PRun sl) q).
    { destruct (allowed p sl) eqn:Ea; [|done]. intros Hq. eapply settle_moves; [exact Hq|]. left.
      split_and!; [done..|]. by intros env fe po r ->. }
    destruct (pr_phase p); (exact Hs || done).
  - destruct (pr_listening p) eqn:El, (pr_phase p) eqn:Ep; try done; intros [= <-]; rewrite <-Ep;
      by apply MoveAccept.
  - destruct (pr_inflight p !! k) as [r|] eqn:Ek; [|by destruct (pr_phase p)].
    assert (Hs : settle p (delete k (pr_inflight p)) (pr_served p ++ [(r, snd (answer env fe po r (pr_sys p)))])
                   <$> sys_step (pr_sys p) (SRequest env fe po r) = Some q -> moves p (PAnswer k env fe po) q).
    { intros Hq. eapply settle_moves; [exact Hq|]. right. intros evs Hl. by exists k, env, fe, po, r. }
    destruct (pr_phase p); (exact Hs || done).
  - destruct (pr_emits p !! k) as [ev|] eqn:Ek, (pr_phase p) eqn:Ep; try done; intros [= <-]; rewrite <-Ep;
      by apply MoveEmit.
  - destruct (pr_phase p) eqn:Ep; try done. destruct (pr_listening p); [|done]. intros [= <-].
    apply MoveStop; [done|by left|done].
  - destruct (pr_phase p) eqn:Ep; try done. intros [= <-]. apply MoveStop; [done|by right|done].
  - destruct (pr_phase p) eqn:Ep; try done. destruct (pr_cancelled p); [|done]. intros [= <-].
    apply MoveStop; [done|by right|done].
  - destruct (pr_phase p) eqn:Ep; try done. destruct (_ || _); [|done]. intros [= <-]. by apply MoveShutdown.
  - destruct (pr_phase p) eqn:Ep; try done. case_bool_decide; [|done]. intros [= <-]. by apply MoveDrained.
  - destruct (pr_phase p) eqn:Ep; try done. intros [= <-]. by apply MoveExit.
Qed.

Lemma pstep_live p l q : pstep p l = Some q -> forall c, pr_phase p <> Exited c.
Proof. unfold pstep. by intros Hs c Hp; rewrite Hp in Hs. Qed.

(** ** What holds of every process *)

(** The bus: every event is an emit in flight or one that ended. *)
Definition accounted (p : Process) : Prop := sy_bus (pr_sys p) ≡ₚ pr_emits p ++ (pr_ended p).*1.

(** What ends a request without an answer: a registration on a registry that did not
    open, or a probe of the model servers whose request could not be built. *)
Definition dropped (r : Request) (y : System_) : Prop :=
  (httpcontract.takes "POST /register" r /\ sy_reg y = None)
  \/ (httpcontract.takes "GET /discovery/llms" r
      /\ exists ok get, discovery.DiscoverLocalLLMs ok get (s_cfg (wi_server wi)) = None).

(** The requests: every accepted one is in flight or was served, with an answer unless
    it is one that [dropped] names. *)
Definition served_all (p : Process) : Prop :=
  pr_accepted p ≡ₚ pr_inflight p ++ (pr_served p).*1
  /\ forall r, (r, Panicked) ∈ pr_served p -> dropped r (pr_sys p).

(** Nothing is left in flight, unless Shutdown gave up. *)
Definition quiesced (p : Process) : Prop := pr_forced p = false -> pr_inflight p = [] /\ pr_emits p = [].

Definition shutting (p : Process) : Prop :=
  match pr_phase p with
  | Serving => True
  | Stopping => pr_listening p = false
  | Draining => pr_listening p = false /\ (pr_forced p = false -> pr_inflight p = [])
  | Returning => pr_listening p = false /\ quiesced p
  | Exited c => (c = panic_status /\ daemon.d_crashed (sy_daemon (pr_sys p)) = true) \/ (c = 0 /\ quiesced p)
  end.

Lemma moves_accounted p l q : moves p l q -> accounted p -> accounted q.
Proof.
  unfold accounted. destruct 1 as [l rs sv sl y evs _ Eb _|r _|k err ev Hk|l ph c _ _ _|dl _|_ _|_];
    cbn [pr_sys pr_emits pr_ended stop_listening set_phase]; try done.
  - intros Ha. rewrite Eb, Ha, <-!app_assoc. f_equiv. apply Permutation_app_comm.
  - intros ->. etrans; [apply Permutation_app_tail, delete_Permutation, Hk|].
    rewrite fmap_app. cbn [fmap list_fmap fst app]. rewrite app_assoc. apply Permutation_cons_append.
Qed.

(** A registry that did not open stays so. *)
Lemma sstep_no_reg (y : System_) (l : slabel_) (y' : System_) :
  sys_step y l = Some y' -> sy_reg y = None -> sy_reg y' = None.
Proof.
  unfold sstep, lease_step. destruct (daemon.d_crashed (sy_daemon y)); [done|].
  destruct l as [n i|env fe po r|nows io service|now io|x|ok get io]; intros Hs Hn; rewrite ?Hn in Hs; try done.
  - destruct (loop_step _ _ _ _ _); [|done]. by injection Hs as <-.
  - injection Hs as <-. destruct (lease.answer_reg quote format_time valid_full_name f2i hostname wi env fe po r y)
      as [E|(req & ep & db & db' & h & _ & E & _)]; [by rewrite <-Hn|congruence].
  - destruct (syncSkills _ _ _ _ _). by injection Hs as <-.
  - by destruct (discovery.DiscoverLocalLLMs ok get _); injection Hs as <-.
Qed.

Lemma dropped_stays r (y : System_) (l : slabel_) (y' : System_) :
  sys_step y l = Some y' -> dropped r y -> dropped r y'.
Proof. intros Hs [[? Hn]|?]; [left; split; [done|by eapply sstep_no_reg]|by right]. Qed.

Lemma answer_panics env fe po r (y : System_) : snd (answer env fe po r y) = Panicked -> dropped r y.
Proof.
  intros Hp. destruct (httpcontract.serve_panics quote format_time valid_full_name f2i env (wi_server wi)
    (furnished wi fe) (wired hostname wi y po) r (view y) Hp) as (p & Ht & [[-> Hr]|[-> Hd]]); [by left|right].
  split; [done|]. by eexists _, _.
Qed.

Lemma moves_served p l q : moves p l q -> served_all p -> served_all q.
Proof.
  unfold served_all. destruct 1 as [l rs sv sl y evs Hs _ Hc|r _|k err ev _|l ph c _ _ _|dl _|_ _|_];
    cbn [pr_sys pr_accepted pr_inflight pr_served stop_listening set_phase]; intros [Ha Hd]; try done.
  - assert (Hold : forall r, (r, Panicked) ∈ pr_served p -> dropped r y)
      by (intros r Hr; eapply dropped_stays; [exact Hs|by apply Hd]).
    destruct Hc as [(_ & -> & -> & _)|(k & env & fe & po & r & _ & -> & Hk & -> & -> & _)]; [done|].
    split.
    + rewrite Ha, fmap_app, app_assoc. cbn [fmap list_fmap fst].
      rewrite (delete_Permutation _ _ _ Hk) at 1. cbn [app]. by rewrite <-Permutation_cons_append.
    + intros r'. rewrite elem_of_app, list_elem_of_singleton. intros [Hr|[= -> Hp]]; [by apply Hold|].
      eapply dropped_stays; [exact Hs|]. by eapply answer_panics.
  - split; [|done]. rewrite Ha, <-!app_assoc. f_equiv. apply Permutation_app_comm.
Qed.

Lemma moves_shutting p l q : (forall c, pr_phase p <> Exited c) -> moves p l q -> shutting p -> shutting q.
Proof.
  unfold shutting, quiesced. intros Hx.
  destruct 1 as [l rs sv sl y evs _ _ Hc|r Hl|k err ev Hk|l ph c Hp Hph _|dl Hp|Hp He|Hp];
    cbn [pr_sys pr_phase pr_listening pr_inflight pr_emits pr_ended pr_forced stop_listening set_phase].
  - destruct (daemon.d_crashed (sy_daemon y)) eqn:Ed; [by left|].
    assert (Hi : pr_inflight p = [] -> rs = [] /\ evs = []).
    { intros E. destruct Hc as [(_ & -> & _ & ->)|(_ & Hlt & _)%answers_fewer]; [done|].
      rewrite E in Hlt. simpl in Hlt. lia. }
    destruct (pr_phase p) as [| | | |c]; [done|done| | |by destruct (Hx c)].
    + intros [? Hf]. split; [done|]. intros F. by apply Hi, Hf.
    + intros [? Hf]. split; [done|]. intros F. destruct (Hf F) as [Ei ->]. by destruct (Hi Ei) as [-> ->].
  - destruct (pr_phase p) as [| | | |c]; [done| | | |by destruct (Hx c)]; rewrite Hl; intuition congruence.
  - destruct (pr_phase p) as [| | | |c]; [done|done|done| |by destruct (Hx c)].
    intros [? Hf]. split; [done|]. intros F. destruct (Hf F) as [_ E]. by rewrite E in Hk.
  - intros _. by destruct Hph as [[_ ->]| ->].
  - rewrite Hp. intros ->. split; [done|]. intros F. by apply negb_false_iff, bool_decide_eq_true in F.
  - rewrite Hp. intros [-> Hf]. split; [done|]. intros F. split; [by apply Hf|done].
  - rewrite Hp. intros [_ Hf]. by right.
Qed.

(** The system inside only takes its own steps. *)
Lemma moves_sys p l q :
  moves p l q -> pr_sys q = pr_sys p \/ exists sl : slabel_, sys_step (pr_sys p) sl = Some (pr_sys q).
Proof. destruct 1 as [l rs sv sl y evs E _ _| | | | | |]; try (by left). right. by exists sl. Qed.

Lemma prun_inv p ls q :
  prun p ls = Some q -> accounted p -> served_all p -> shutting p ->
  accounted q /\ served_all q /\ shutting q
  /\ exists sls : list slabel_, (length sls <= length ls)%nat /\ sys_run (pr_sys p) sls = Some (pr_sys q).
Proof.
  revert p. induction ls as [|l ls IH]; intros p Hr Ha Hv Hs; cbn [prun] in Hr.
  { injection Hr as <-. split_and!; [done..|]. by exists []. }
  destruct (pstep p l) as [p1|] eqn:E; [|done]. pose proof (pstep_moves _ _ _ E) as Hm.
  destruct (IH p1 Hr) as (Ha' & Hv' & Hs' & sls & Hlen & Hrun).
  { by eapply moves_accounted. }
  { by eapply moves_served. }
  { eapply moves_shutting; [by eapply pstep_live|done|done]. }
  split_and!; [done..|]. destruct (moves_sys _ _ _ Hm) as [Eq|[sl Est]].
  - exists sls. rewrite <-Eq. split; [simpl; lia|done].
  - exists (sl :: sls). split; [simpl; lia|]. cbn [srun]. by rewrite Est.
Qed.

(** ** How long a shutdown takes *)

Definition phase_rank (ph : phase) : nat :=
  match ph with Serving => 4 | Stopping => 3 | Draining => 2 | Returning => 1 | Exited _ => 0 end.

(** An answer may start one emit, so a request weighs two. *)
Definition rank (p : Process) : nat :=
  (phase_rank (pr_phase p) + length (pr_emits p) + 2 * length (pr_inflight p))%nat.

(** A shutdown has begun. *)
Definition closing (p : Process) : Prop := pr_phase p <> Serving /\ pr_listening p = false.

Definition own_steps (ls : list plabel) : nat := length (filter (fun l => own l = true) ls).

Lemma moves_rank p l q :
  (forall c, pr_phase p <> Exited c) -> moves p l q -> closing p ->
  closing q /\ (rank q + (if own l then 1 else 0) <= rank p)%nat.
Proof.
  unfold closing, rank. intros Hx.
  destruct 1 as [l rs sv sl y evs _ _ Hc|r Hl|k err ev Hk|l ph c Hp _ _|dl Hp|Hp He|Hp];
    cbn [pr_phase pr_listening pr_inflight pr_emits stop_listening set_phase own]; intros [Hns Hnl].
  - split; [split; [by destruct (daemon.d_crashed _)|done]|]. rewrite length_app.
    assert (Hph : (phase_rank (if daemon.d_crashed (sy_daemon y) then Exited panic_status else pr_phase p)
                   <= phase_rank (pr_phase p))%nat) by (destruct (daemon.d_crashed _); simpl; lia).
    destruct Hc as [(-> & -> & _ & ->)|(-> & ? & ?)%answers_fewer]; simpl; lia.
  - congruence.
  - split; [done|]. rewrite length_delete by done. apply lookup_lt_Some in Hk. lia.
  - done.
  - rewrite Hp. split; [done|simpl; lia].
  - rewrite Hp. split; [done|simpl; lia].
  - rewrite Hp. split; [done|simpl; lia].
Qed.

Lemma prun_rank p ls q :
  prun p ls = Some q -> closing p -> closing q /\ (own_steps ls + rank q <= rank p)%nat.
Proof.
  revert p. induction ls as [|l ls IH]; intros p Hr Hc; cbn [prun] in Hr.
  { injection Hr as <-. by split; [|simpl]. }
  destruct (pstep p l) as [p1|] eqn:E; [|done].
  destruct (moves_rank _ _ _ (pstep_live _ _ _ E) (pstep_moves _ _ _ E) Hc) as [Hc1 Hk].
  destruct (IH p1 Hr Hc1) as [Hq Hle]. split; [done|]. unfold own_steps in *. rewrite filter_cons.
  destruct (own l) eqn:Eo; [rewrite decide_True by done; simpl|rewrite decide_False by done]; lia.
Qed.

(** A shutdown always has a next step of its own. *)
Lemma closing_step p :
  closing p -> (exists c, pr_phase p = Exited c) \/ exists l q, own l = true /\ pstep p l = Some q.
Proof.
  intros [Hs _]. destruct (pr_phase p) as [| | | |c] eqn:Ep; [done| | | |left; by exists c]; right.
  - eexists (PShutdown true), _. unfold pstep. by rewrite Ep.
  - destruct (pr_emits p) as [|ev l] eqn:Ee.
    + eexists PDrained, _. unfold pstep. by rewrite Ep, bool_decide_eq_true_2.
    + eexists (PEmitDone 0 None), _. unfold pstep. by rewrite Ep, Ee.
  - eexists PExit, _. unfold pstep. by rewrite Ep.
Qed.

(** Nothing in the shutdown waits for the projects' goroutines: the process may exit,
    with status 0, over a checkpoint that is being written. *)
Lemma exit_cuts_checkpoint p n :
  pr_phase p = Serving -> pr_inflight p = [] -> pr_emits p = [] ->
  daemon.d_pcs (sy_daemon (pr_sys p)) !! n = Some daemon.PRunning ->
  exists q, prun p [PSignal; PShutdown false; PDrained; PExit] = Some q /\ pr_phase q = Exited 0
  /\ daemon.d_pcs (sy_daemon (pr_sys q)) !! n = Some daemon.PRunning.
Proof.
  intros Hp Hi He Hn. cbn [prun]. unfold pstep at 1. rewrite Hp. unfold pstep at 1. cbn. rewrite Hi. cbn.
  rewrite He. cbn. by eexists.
Qed.

End running.

(** * Properties *)

Lemma launch_inv load dryRun b wi p :
  launch load dryRun b = inr (wi, p) ->
  runDaemon load dryRun b = Ok (wi, pr_sys p) /\ accounted p /\ served_all wi p /\ shutting p.
Proof.
  unfold launch. destruct (runDaemon load dryRun b) as [[wi' y]|e] eqn:E; [|done]. intros [= <- <-].
  split; [done|]. split; [|split; [split; [done|by intros r ?%elem_of_nil]|done]]. unfold accounted. cbn [pr_sys pr_emits pr_ended app fmap list_fmap].
  unfold runDaemon in E. destruct load as [cfg|e]; [|done]. cbv zeta in E.
  destruct (syncSkills cfg dryRun (bo_sync b) _ (bo_cli b)). by injection E as _ <-.
Qed.

(** C17. How the process ends: with status 1 exactly when the configuration did not
    load; once it runs, whatever its goroutines, clients and shutdown do in whatever
    order, every accepted request is in flight or its handler ended, with an answer
    unless it is a registration on a registry that did not open or a probe whose
    request could not be built, whose handlers panic and whose connections are closed
    unanswered; every NotRegistered event is an emit in flight or one that was
    published or logged as failed; and the process exits with status 2 over a panic of
    a goroutine and with status 0 otherwise, then, unless Shutdown gave up at its
    deadline, with every accepted request's handler ended and no event lost. The
    system inside only takes steps of its own. *)
Theorem process_exits_clean load dryRun immediate b :
  (forall c, launch load dryRun b = inl c <-> c = 1 /\ exists e, load = Err e)
  /\ forall wi p0 ls p, launch load dryRun b = inr (wi, p0) -> prun wi immediate p0 ls = Some p ->
     sy_bus (pr_sys p) ≡ₚ pr_emits p ++ (pr_ended p).*1
     /\ pr_accepted p ≡ₚ pr_inflight p ++ (pr_served p).*1
     /\ (forall r, (r, Panicked) ∈ pr_served p ->
           (httpcontract.takes "POST /register" r /\ sy_reg (pr_sys p) = None)
           \/ (httpcontract.takes "GET /discovery/llms" r
               /\ exists ok get, discovery.DiscoverLocalLLMs ok get (s_cfg (wi_server wi)) = None))
     /\ (forall c, pr_phase p = Exited c ->
           (c = 2 /\ daemon.d_crashed (sy_daemon (pr_sys p)) = true)
           \/ (c = 0 /\ (pr_forced p = false ->
                 pr_inflight p = [] /\ pr_accepted p ≡ₚ (pr_served p).*1
                 /\ sy_bus (pr_sys p) ≡ₚ (pr_ended p).*1)))
     /\ exists y0 sls, runDaemon load dryRun b = Ok (wi, y0) /\ (length sls <= length ls)%nat
        /\ srun (V := V) quote format_time valid_full_name f2i ParseDuration hostname wi immediate y0 sls
           = Some (pr_sys p).
Proof.
  split.
  - intros c. unfold launch, runDaemon. destruct load as [cfg|e]; cbv zeta.
    + destruct (syncSkills cfg dryRun (bo_sync b) _ (bo_cli b)). split; [done|]. by intros (_ & e & ?).
    + split; [intros [= <-]; by eauto|by intros [-> _]].
  - intros wi p0 ls p (Hb & Ha & Hv & Hs)%launch_inv Hr.
    destruct (prun_inv wi immediate p0 ls p Hr Ha Hv Hs) as (Ha' & [Hv' Hd] & Hs' & sls & Hlen & Hrun).
    split_and!; [done|done|done| |by eauto]. intros c Hc. unfold shutting in Hs'. rewrite Hc in Hs'.
    destruct Hs' as [?|[-> Hq]]; [by left|right]. split; [done|]. intros F. destruct (Hq F) as [Hi He].
    rewrite Hi in Hv'. unfold accounted in Ha'. by rewrite He in Ha'.
Qed.

(** C25. A signal ends the process: whatever the goroutines, consumers, tickers and
    clients do meanwhile, after it the process takes at most three steps of its own,
    one for each emit in flight and two for each request in flight, and until it has
    exited it always has one to take. *)
Theorem shutdown_completes wi immediate p :
  pr_phase p = Serving ->
  exists p1, pstep wi immediate p PSignal = Some p1
  /\ forall ls q, prun wi immediate p1 ls = Some q ->
     (own_steps ls <= 3 + length (pr_emits p) + 2 * length (pr_inflight p))%nat
     /\ ((exists c, pr_phase q = Exited c)
         \/ exists l q', own l = true /\ pstep wi immediate q l = Some q').
Proof.
  intros Hp. exists (stop_listening p Stopping (pr_cancelled p)). unfold pstep at 1. rewrite Hp.
  split; [done|]. intros ls q Hr. destruct (prun_rank wi immediate _ ls q Hr) as [Hc Hk]; [done|].
  split; [unfold rank in Hk; cbn in Hk; lia|]. by apply closing_step.
Qed.

End lifecycle.

(** * The properties at a concrete process *)

#[local] Existing Instances furnish.demo_api furnish.demo_laws w_reg_codec w_reg_laws w_rec_codec w_req_codec
  w_resp_codec w_res_codec w_svc_codec w_prj_codec.

(** A daemon with a broker, so that declined registrations go on the bus. *)
Definition w_bus_cfg : config.DelightConfig :=
  config.mkDelightConfig
    (config.mkSystemConfig "" "" "" "" (config.mkAgentSkillsConfig false [])
       (config.Daemon config.no_system) (config.LLMDiscovery config.no_system)
       (config.mkKafkaConfig ["kafka:9092"] "" ""))
    [config.project_at "obs" "~/p"] false [].

Abbreviation w_process := (Process (B := table) (EB := table) (S := furnish.demo) (M := unit)).
Abbreviation w_label := (plabel (M := unit) (V := string)).

Definition w_launched : Z + Wiring * w_process := launch (Ok w_bus_cfg) false (w_boot (Ok "sesame")).
Definition w_bus_wiring : Wiring :=
  mkWiring (mkServer w_bus_cfg false true "sesame") (exports.NewEngine (fun _ => None) "/home/j" "") true
    "kube/kube" 8088.

Definition w_step (p : w_process) (l : w_label) : option w_process :=
  pstep (fun s => s) (fun _ => "t") (fun _ => true) (fun _ => 0) daemon.w_duration skills.w_host w_bus_wiring
    false p l.
Definition w_run (p : w_process) (ls : list w_label) : option w_process :=
  prun (fun s => s) (fun _ => "t") (fun _ => true) (fun _ => 0) daemon.w_duration skills.w_host w_bus_wiring
    false p ls.

(** A registration whose body cannot be read. *)
Definition bad_registration : Request := mkRequest "POST" ["register"] "" "" (Err "unexpected EOF").

(** The signal comes between the request and its answer; the shutdown waits for both
    the answer and the event, whose publishing fails. *)
Definition w_shutdown : list w_label :=
  [PAccept bad_registration; PSignal; PAnswer 0 w_env w_fenv demo_ports; PShutdown false;
   PEmitDone 0 (Some "broker down"); PDrained; PExit].

(** What the runs below come to, evaluated. *)
Definition w_start_wiring : option Wiring := match w_launched with inr (wi, _) => Some wi | inl _ => None end.
Definition is_400 (out : outcome) : bool := match out with Resp resp => status resp =? 400 | Panicked => false end.
Definition w_final : option (phase * list (option string) * bool * list bool) :=
  match w_launched with
  | inr (_, p0) => (fun p => (pr_phase p, (pr_ended p).*2, pr_forced p, map (fun s => is_400 s.2) (pr_served p)))
                     <$> w_run p0 w_shutdown
  | inl _ => None
  end.
Definition w_accepted : option (phase * nat * nat) :=
  match w_launched with
  | inr (_, p0) => (fun p => (pr_phase p, length (pr_emits p), length (pr_inflight p)))
                     <$> w_step p0 (PAccept bad_registration)
  | inl _ => None
  end.

Lemma w_start_wiring_is : w_start_wiring = Some w_bus_wiring.
Proof. vm_compute. reflexivity. Qed.

Lemma w_final_is : w_final = Some (Exited 0, [Some "broker down"], false, [true]).
Proof. vm_compute. reflexivity. Qed.

Lemma w_accepted_is : w_accepted = Some (Serving, 0%nat, 1%nat).
Proof. vm_compute. reflexivity. Qed.

Lemma w_launch : exists p0, w_launched = inr (w_bus_wiring, p0).
Proof.
  pose proof w_start_wiring_is as E. unfold w_start_wiring in E.
  destruct w_launched as [c|[wi p0]]; [discriminate|]. injection E as ->. by exists p0.
Qed.

Lemma process_exits_clean_witness :
  exists p0 p ev, w_launched = inr (w_bus_wiring, p0) /\ w_run p0 w_shutdown = Some p
  /\ pr_phase p = Exited 0 /\ pr_ended p = [(ev, Some "broker down")] /\ map (fun s => is_400 s.2) (pr_served p) = [true]
  /\ pr_inflight p = [] /\ pr_accepted p ≡ₚ (pr_served p).*1 /\ sy_bus (pr_sys p) ≡ₚ [ev].
Proof.
  destruct w_launch as [p0 E]. pose proof w_final_is as Hf. unfold w_final in Hf. rewrite E in Hf.
  destruct (w_run p0 w_shutdown) as [p|] eqn:Er; [|discriminate]. cbn in Hf. injection Hf as Hp He Hf Hv.
  destruct (pr_ended p) as [|[ev err] [|]] eqn:Ee; [discriminate| |discriminate]. injection He as ->.
  exists p0, p, ev. do 5 (split; [done|]).
  destruct (proj2 (process_exits_clean (fun s => s) (fun _ => "t") (fun _ => true) (fun _ => 0) daemon.w_duration
    skills.w_host (Ok w_bus_cfg) false false (w_boot (Ok "sesame"))) w_bus_wiring p0 w_shutdown p E Er)
    as (_ & _ & _ & Hx & _).
  destruct (Hx 0 Hp) as [[Hc _]|[_ Hq]]; [discriminate|]. rewrite Ee in Hq. by apply Hq.
Defined.

(** With a request in flight: after the signal at most five more steps of its own. *)
Lemma shutdown_completes_witness :
  exists p0 p p1, w_launched = inr (w_bus_wiring, p0) /\ w_step p0 (PAccept bad_registration) = Some p
  /\ w_step p PSignal = Some p1
  /\ forall ls q, w_run p1 ls = Some q -> (own_steps ls <= 5)%nat.
Proof.
  destruct w_launch as [p0 E]. pose proof w_accepted_is as Ha. unfold w_accepted in Ha. rewrite E in Ha.
  destruct (w_step p0 (PAccept bad_registration)) as [p|] eqn:Ea; [|discriminate]. cbn in Ha.
  injection Ha as Hp He Hi.
  destruct (shutdown_completes (V := string) (fun s => s) (fun _ => "t") (fun _ => true) (fun _ => 0)
    daemon.w_duration skills.w_host w_bus_wiring false p Hp) as (p1 & Hs & Hall).
  exists p0, p, p1. do 3 (split; [done|]). intros ls q Hr. destruct (Hall ls q Hr) as [Hle _].
  rewrite He, Hi in Hle. exact Hle.
Defined.

End lifecycle.
