(* ===== verification/Cli.v ===== *)
(** cmd/delightd: the command tree below the daemon: furnish, healthcheck, lint and
    the model commands of Model.v, with their exit status.

    The furnish and healthcheck commands are one request to the control port, which
    here is the daemon's mux ([httpserve.Mux]) behind net/http (HttpWire.v): the piece
    goes into the URL as it is typed, so a question mark, a number sign, an escape or
    a dot-dot in it has its way with the path. The control address is a host and a
    port; [url_error] is what url.Parse says of it. *)

From S2P Require Import Prelude GoStrings State Proto KV Registry Enablement Config GitState Furnish Model HttpAuth HttpWire HttpApi HttpRegister HttpFurnish HttpSurface HttpServe Lifecycle.
From Stdlib Require Import Ascii.
Import proto bbolt kube httpauth httpwire httpapi httpregister httpfurnish httpsurface httpserve.

Module cli.

(** http.NewRequest with a nil body and no header, from the path of the URL. *)
Definition new_request (method path : string) : result url_err Wire :=
  match parse_target path with
  | Err e => Err e
  | Ok (p, q) => Ok (mkWire method p q "" (Ok ""))
  end.

Definition furnish_list_path : string := "/furnish/pieces".
Definition furnish_health_path (args : list string) : string :=
  match args with [name] => "/furnish/health/" +:+ name | _ => "/furnish/health" end.
Definition furnish_up_path (name : string) : string := "/furnish/" +:+ name +:+ "/up".
Definition furnish_down_path (name : string) : string := "/furnish/" +:+ name +:+ "/down".

(** The texts of net/http for the statuses the control port sends. *)
Definition StatusText (code : Z) : string :=
  if code =? 200 then "OK"
  else if code =? 400 then "Bad Request"
  else if code =? 401 then "Unauthorized"
  else if code =? 404 then "Not Found"
  else if code =? 405 then "Method Not Allowed"
  else if code =? 409 then "Conflict"
  else if code =? 422 then "Unprocessable Entity"
  else if code =? 500 then "Internal Server Error"
  else if code =? 502 then "Bad Gateway"
  else if code =? 503 then "Service Unavailable"
  else if code =? 504 then "Gateway Timeout"
  else "".

(** The daemon at the control address, as a client meets it: url.Parse's error for the
    address, the connection's error, and the daemon's answer, which a handler that
    panics does not give. *)
Section client.
Context {W : Type}.
Variable quote : string -> string.                 (* fmt's %q *)
Variable addr : string.
Variable url_error : string -> option string.
Variable dial : option string.
Variable daemon : ServeMux W.

Definition unreachable (e : string) : string :=
  "furnish: cannot reach delightd at " +:+ addr +:+ " (is the daemon up? try 'delightd status'): " +:+ e.

(** The *url.Error of a URL that does not parse. *)
Definition url_err_text (url : string) (e : url_err) : string :=
  "parse " +:+ quote url +:+ ": "
  +:+ match e with
      | ControlCharacter => "net/url: invalid control character in URL"
      | BadEscape text => "invalid URL escape " +:+ quote text
      end.

(** The command's effect on the daemon, what it relays to stdout, and its error. *)
Definition furnishDo (method path : string) (w : W) : W * option body * option string :=
  let url := "http://" +:+ addr +:+ path in
  match url_error url, new_request method path with
  | Some e, _ => (w, None, Some e)
  | None, Err e => (w, None, Some (url_err_text url e))
  | None, Ok req =>
      match dial with
      | Some e => (w, None, Some (unreachable e))
      | None =>
          match Do max_redirects daemon req w with
          | (w', Err e) => (w', None, Some (unreachable e))
          | (w', Ok Panicked) => (w', None, Some (unreachable "EOF"))
          | (w', Ok (Resp resp)) =>
              (w', Some (body_of resp),
               if negb (Z.quot (status resp) 100 =? 2)
               then Some ("furnish: " +:+ method +:+ " " +:+ path +:+ " -> " +:+ itoa (status resp) +:+ " "
                          +:+ StatusText (status resp))
               else None)
          end
      end
  end.

Definition healthcheck : W -> W * option body * option string := furnishDo "GET" "/readyz".
Definition furnish_list : W -> W * option body * option string := furnishDo "GET" furnish_list_path.
Definition furnish_health (args : list string) : W -> W * option body * option string :=
  furnishDo "GET" (furnish_health_path args).
Definition furnish_up (name : string) : W -> W * option body * option string :=
  furnishDo "POST" (furnish_up_path name).
Definition furnish_down (name : string) : W -> W * option body * option string :=
  furnishDo "POST" (furnish_down_path name).

End client.

(** ** The lint command *)

Section lint.
Variable quote : string -> string.                 (* fmt's %q *)
Variable JSON : config.LintResult -> string.       (* json.MarshalIndent *)
Variable LintFragment : string -> config.LintResult.

Definition warning_text (w : config.lint_warning) : string :=
  match w with
  | config.LNotFound p => "path " +:+ quote p +:+ " not found on this host"
  | config.LNotDir p => "path " +:+ quote p +:+ " is not a directory"
  | config.LNotGit p => "path " +:+ quote p +:+ " is not a git repository"
  end.

(** The lines of the text rendering. *)
Definition renderLintText (res : config.LintResult) : list string :=
  (config.lr_Path res +:+ ": " +:+ (if negb (config.lr_Valid res) then "INVALID" else "ok"))
  :: map (fun e => "  error:   " +:+ e) (config.lr_Errors res)
  ++ map (fun w => "  warning: " +:+ warning_text w) (config.lr_Warnings res).

(** What it prints, fragment by fragment, and its error. *)
Fixpoint lint_loop (text : bool) (args : list string) (invalid : Z) : list string * Z :=
  match args with
  | [] => ([], invalid)
  | path :: r =>
      let res := LintFragment path in
      let '(out, n) := lint_loop text r (if negb (config.lr_Valid res) then invalid + 1 else invalid) in
      ((if text then renderLintText res else [JSON res]) ++ out, n)
  end.

Definition lint (text : bool) (args : list string) : list string * option string :=
  let '(out, invalid) := lint_loop text args 0 in
  (out, if 0 <? invalid then Some (itoa invalid +:+ " fragment(s) invalid") else None).

End lint.

(** * The command tree *)

(** The subcommands of rootCmd; without one, delightd is the daemon (Lifecycle.v). *)
Inductive subcommand :=
| Lint (text : bool)
| ModelList | ModelRender | ModelUp | ModelDown | ModelHealth
| FurnishList | FurnishHealth | FurnishUp | FurnishDown
| Healthcheck.

(** Each command's Args: ExactArgs, MinimumNArgs and MaximumNArgs. *)
Definition args_ok (c : subcommand) (args : list string) : bool :=
  let n := length args in
  match c with
  | Lint _ => (1 <=? n)%nat
  | ModelUp | ModelDown | FurnishUp | FurnishDown => (n =? 1)%nat
  | ModelHealth | FurnishHealth => (n <=? 1)%nat
  | ModelList | ModelRender | FurnishList | Healthcheck => true
  end.

(** What goes to stdout. *)
Inductive output :=
| OLines (lines : list string)
| OModel (p : list model.printed)
| OBody (b : option body).

Section tree.
Context {W : Type}.
Variable quote : string -> string.
Variable JSON : config.LintResult -> string.
Variable LintFragment : string -> config.LintResult.
Variable loadSet : result string (list model.DeploymentDescriptor).
Variable stat : string -> option string.
Variable http_get : string -> result string Z.
Variable usage : subcommand -> list string -> string.   (* cobra's refusal of the arguments *)
Variable addr : string.                                 (* --control *)
Variable url_error : string -> option string.
Variable dial : option string.
Variable daemon : ServeMux W.

(** The one argument of a command that takes at most one. *)
Definition the_arg (args : list string) : string := match args with [a] => a | _ => "" end.

Definition rootCmd (c : subcommand) (args : list string) (w : W) : W * output * option string :=
  let local (r : output * option string) := (w, r.1, r.2) in
  let models (r : model.cli) := local (OModel r.1, r.2) in
  let client (r : W * option body * option string) := (r.1.1, OBody r.1.2, r.2) in
  if negb (args_ok c args) then local (OLines [], Some (usage c args))
  else match c with
       | Lint text => let '(out, err) := lint quote JSON LintFragment text args in local (OLines out, err)
       | ModelList => models (model.cmd_list loadSet)
       | ModelRender => models (model.cmd_render loadSet)
       | ModelUp => models (model.cmd_up quote loadSet (the_arg args))
       | ModelDown => models (model.cmd_down quote loadSet (the_arg args))
       | ModelHealth => models (model.cmd_health quote stat http_get loadSet (the_arg args))
       | FurnishList => client (furnish_list quote addr url_error dial daemon w)
       | FurnishHealth => client (furnish_health quote addr url_error dial daemon args w)
       | FurnishUp => client (furnish_up quote addr url_error dial daemon (the_arg args) w)
       | FurnishDown => client (furnish_down quote addr url_error dial daemon (the_arg args) w)
       | Healthcheck => client (healthcheck quote addr url_error dial daemon w)
       end.

(** The status main exits with. *)
Definition exit_status (c : subcommand) (args : list string) (w : W) : Z :=
  lifecycle.main (snd (rootCmd c args w)).

End tree.

(** * Lemmas *)

Lemma cut_prefix c a s :
  has_char c a = false -> let '(x, y, ok) := cut c (a +:+ s) in
  let '(x', y', ok') := cut c s in x = a +:+ x' /\ y = y' /\ ok = ok'.
Proof.
  induction a as [|d a IH]; cbn [has_char cut String.app]; [by destruct (cut c s) as [[??]?]|].
  intros [Hd Ha]%orb_false_iff. specialize (IH Ha). rewrite Hd.
  destruct (cut c (a +:+ s)) as [[x y] ok], (cut c s) as [[x' y'] ok']. by destruct IH as (-> & -> & ->).
Qed.

(** Wherever a furnish path is cut, it begins below /furnish. *)
Lemma parse_furnish rest p q :
  parse_target ("/furnish/" +:+ rest) = Ok (p, q) -> exists b, p = "/furnish/" +:+ b.
Proof.
  unfold parse_target. pose proof (cut_prefix "#"%char "/furnish/" rest eq_refl) as H1.
  destruct (cut "#"%char ("/furnish/" +:+ rest)) as [[u frag] ok], (cut "#"%char rest) as [[u' frag'] ok'].
  destruct H1 as (-> & _ & _). pose proof (cut_prefix "?"%char "/furnish/" u' eq_refl) as H2.
  destruct (cut "?"%char ("/furnish/" +:+ u')) as [[x y] ok2], (cut "?"%char u') as [[x' y'] ok2'].
  destruct H2 as (-> & _ & _). destruct (has_control _); [done|].
  destruct (unescape ("/furnish/" +:+ x')) as [path|] eqn:Eu; [|done]. destruct (unescape frag); [|done].
  intros [= <- _]. destruct (valid_encoded _); [by eexists|].
  assert (Hp : exists c, path = "/furnish/" +:+ c).
  { cbn in Eu. destruct (unescape x') as [c|]; [|done]. injection Eu as <-. by exists c. }
  destruct Hp as [c ->]. exists (escape c). by rewrite escape_app.
Qed.

Lemma furnish_first method b q auth body :
  exists l, segments (decoded (mkWire method ("/furnish/" +:+ b) q auth body)) = "furnish" :: l.
Proof.
  cbn [decoded segments wr_path]. change ("/furnish/" +:+ b) with (EmptyString +:+ String "/" ("furnish" +:+ String "/" b)).
  rewrite split_on_app by done. cbn [tail]. rewrite split_on_app by done. cbn [map]. by eexists.
Qed.

(** The loop fails exactly when a fragment is not valid. *)
Lemma lint_loop_valid quote JSON LintFragment text args i :
  0 <= i ->
  i <= snd (lint_loop quote JSON LintFragment text args i)
  /\ (snd (lint_loop quote JSON LintFragment text args i) = i <->
       Forall (fun path => config.lr_Valid (LintFragment path) = true) args).
Proof.
  revert i. induction args as [|path r IH]; intros i Hi; cbn [lint_loop]; [by split|].
  destruct (config.lr_Valid (LintFragment path)) eqn:Ev; cbn [negb].
  - destruct (IH i Hi) as [Hle Hiff]. destruct (lint_loop _ _ _ text r i) as [out n]. cbn [snd] in *.
    split; [done|]. rewrite Forall_cons. tauto.
  - destruct (IH (i + 1) ltac:(lia)) as [Hle _]. destruct (lint_loop _ _ _ text r (i + 1)) as [out n].
    cbn [snd] in *. split; [lia|]. split; [lia|]. intros [? _]%Forall_cons. congruence.
Qed.

Lemma LintFragment_valid viper_at os_stat path :
  config.lr_Valid (config.LintFragment viper_at os_stat path) = true <->
  exists p, config.ParseFragment viper_at path = Ok p /\ config.projectStructuralErrors p = [].
Proof.
  unfold config.LintFragment. destruct (config.ParseFragment viper_at path) as [p|e]; cbn [config.lr_Valid].
  - split; [|by intros (p' & [= <-] & ->)]. destruct (config.projectStructuralErrors p) eqn:E; [by eauto|done].
  - split; [done|]. by intros (? & ? & _).
Qed.

Lemma main_zero err : lifecycle.main err = 0 <-> err = None.
Proof. by destruct err. Qed.

Section surface.
Context {B EB : Type} `{Bucket B} `{Bucket EB}.
Context `{Codec Registration} `{Codec enablement.Record_} `{Codec RegisterRequest}
  `{Codec RegisterResponse} `{Codec ResolvedService} `{Codec Service} `{Codec Project}.
Context {S M : Type} `{ApiLaws S M}.
Variable quote : string -> string.
Variable format_time : Z -> string.
Variable valid_full_name : string -> bool.
Variable f2i : Z -> Z.
Variable env : Env.
Variable s : Server.
Variable fenv : FurnishEnv (M := M).
Context {V : Type}.
Variable po : Ports V.

Variable addr : string.
Variable url_error : string -> option string.
Variable dial : option string.

Abbreviation daemon := (Mux (B := B) (EB := EB) quote format_time valid_full_name f2i env s fenv po).
Abbreviation served := (serve_request (B := B) (EB := EB) quote format_time valid_full_name f2i env s fenv po).
Abbreviation State_ := (World (B := B) (EB := EB) * Fleet (S := S) (M := M) * Surface)%type.

(** protojson takes no empty text for a message. *)
Variable empty_text : string.
Hypothesis empty_declined : unmarshal (M := RegisterRequest) "" = Err empty_text.

(** The daemon after it declined a registration with an empty body. *)
Definition declined (w : State_) : State_ :=
  (emitNotRegistered env s (mkDecline 400 "" "" "malformed_request" ("invalid RegisterRequest: " +:+ empty_text)) w.1.1,
   w.1.2, w.2).

(** A POST with no credential and no body: refused, or a registration declined. *)
Lemma post_refused r w :
  method r = "POST" -> authorization r = "" -> req_body r = Ok "" ->
  exists resp, snd (served r w) = Resp resp /\ Z.quot (status resp) 100 <> 2
  /\ (fst (served r w) = w \/ (segments r = ["register"] /\ fst (served r w) = declined w)).
Proof.
  intros Hm Ha Hb. destruct (decide (segments r = ["register"])) as [Hs|Hs].
  - assert (E : served r w = on_world (handleRegister quote valid_full_name env s) [] r w).
    { destruct r as [m sg qt au bo]. cbn in *. subst. unfold serve_request, Mux, route_table.
      destruct (mcpEnabled s); reflexivity. }
    rewrite E. unfold on_world, handleRegister. rewrite Hb. change (limit_reader (2 ^ 20) "") with "".
    rewrite empty_declined. eexists. split; [reflexivity|]. split; [done|]. right. split; [done|]. reflexivity.
  - destruct (serve_refuses quote format_time valid_full_name f2i env s fenv po r w) as (Hw & resp & Ho & Hst).
    + by rewrite Hm.
    + intros [_ Hx]. rewrite Ha in Hx. discriminate.
    + by intros [_ ?].
    + exists resp. split; [done|]. split; [|by left].
      destruct Hst as [Hst|[_ [Hst|Hst]]]; rewrite Hst; [destruct (String.eqb (s_controlToken s) "")|..]; done.
Qed.

(** The furnish mutations: never a success, and no effect but that of a piece whose
    text takes the path to /register. *)
Lemma furnish_post_refused rest w :
  let '(w', _, err) := furnishDo quote addr url_error dial daemon "POST" ("/furnish/" +:+ rest) w in
  is_Some err
  /\ (w' = w \/ exists p q, parse_target ("/furnish/" +:+ rest) = Ok (p, q) /\ cleanPath p = "/register" /\ w' = declined w).
Proof.
  unfold furnishDo, new_request. cbv zeta. destruct (url_error _); [by split; [|left]|].
  destruct (parse_target ("/furnish/" +:+ rest)) as [[p q]|e] eqn:Ep; [|by split; [|left]].
  destruct dial; [by split; [|left]|]. set (x := mkWire "POST" p q "" (Ok "")).
  unfold max_redirects. rewrite Do_lands. cbn [wr_query x]. destruct (has_char " "%char q); [by split; [|left]|].
  assert (Hl : method (landed x) = "POST" /\ authorization (landed x) = "" /\ req_body (landed x) = Ok ""
    /\ (segments (landed x) = ["register"] -> cleanPath p = "/register")).
  { unfold landed. destruct (String.eqb_spec (cleanPath (wr_path x)) (wr_path x)) as [Ec|Ec]; split_and!; try done.
    - destruct (parse_furnish _ _ _ Ep) as [b ->]. destruct (furnish_first "POST" b q "" (Ok "")) as [l Hf].
      intros Hs. change (segments (decoded (mkWire "POST" ("/furnish/" +:+ b) q "" (Ok ""))) = ["register"]) in Hs.
      by rewrite Hf in Hs.
    - rewrite redirected_segments. apply one_segment. }
  destruct Hl as (Hm & Ha & Hb & Hs). destruct (post_refused (landed x) w Hm Ha Hb) as (resp & Ho & Hq & Hw).
  unfold serve_request in *. destruct (serve daemon (landed x) w) as [w' out]. cbn [fst snd] in *. subst out.
  apply Z.eqb_neq in Hq. rewrite Hq. split; [by eexists|].
  destruct Hw as [->|[Hr ->]]; [by left|right]. exists p, q. by split_and!; [|apply Hs|].
Qed.

Variable JSON : config.LintResult -> string.
Variable viper_at : string -> config.FragmentViper.
Variable os_stat : string -> config.stat.
Variable loadSet : result string (list model.DeploymentDescriptor).
Variable stat : string -> option string.
Variable http_get : string -> result string Z.
Variable usage : subcommand -> list string -> string.

Abbreviation execute := (rootCmd quote JSON (config.LintFragment viper_at os_stat) loadSet stat http_get usage addr url_error dial daemon).
Abbreviation exits := (exit_status quote JSON (config.LintFragment viper_at os_stat) loadSet stat http_get usage addr url_error dial daemon).

Lemma healthcheck_exit args w :
  exits Healthcheck args w = 0 <->
  url_error ("http://" +:+ addr +:+ "/readyz") = None /\ dial = None
  /\ rc_OK (checkRootsReadable env s) = true /\ snd (clusterReady fenv (e_cluster env) w.1.2) = None.
Proof.
  set (r := mkRequest "GET" ["readyz"] "" "" (Ok "")).
  assert (E : Do max_redirects daemon (mkWire "GET" "/readyz" "" "" (Ok "")) w
    = let '(w', out) := readyz_route env s fenv [] r w in (w', Ok out)).
  { unfold max_redirects. rewrite Do_lands. change (landed _) with r.
    change (has_char " "%char _) with false. cbv iota.
    assert (Es : serve daemon r w = readyz_route env s fenv [] r w)
      by (unfold Mux, route_table; destruct (mcpEnabled s); reflexivity).
    by rewrite Es. }
  unfold exit_status, rootCmd. cbn [args_ok negb snd]. rewrite main_zero.
  unfold healthcheck, furnishDo. cbv zeta. change (new_request "GET" "/readyz") with (Ok (E := url_err) (mkWire "GET" "/readyz" "" "" (Ok ""))).
  destruct (url_error _); [cbn; split; [done|by intros [? _]]|]. cbv iota.
  destruct dial; [cbn; split; [done|by intros (_ & ? & _)]|]. rewrite E. unfold readyz_route.
  destruct (clusterReady fenv (e_cluster env) w.1.2) as [fl c]. unfold handleReadyz.
  change (checkRootsReadable (set_cluster c env) s) with (checkRootsReadable env s).
  unfold checkClusterReady. cbn [e_cluster set_cluster snd fst status body_of writeJSON forallb].
  destruct (rc_OK (checkRootsReadable env s)), c; cbn; split; try done; by intros (_ & _ & ? & ?).
Qed.

(** The path a furnish mutation asks for. *)
Definition mutation_path (c : subcommand) (name : string) : string :=
  match c with FurnishDown => furnish_down_path name | _ => furnish_up_path name end.

Lemma mutation_exit c args w :
  c = FurnishUp \/ c = FurnishDown ->
  exits c args w = 1
  /\ (fst (fst (execute c args w)) = w
      \/ exists name p q, args = [name] /\ parse_target (mutation_path c name) = Ok (p, q)
          /\ cleanPath p = "/register" /\ fst (fst (execute c args w)) = declined w).
Proof.
  intros Hc. unfold exit_status, rootCmd. destruct (args_ok c args) eqn:Ea; cbn [negb]; [|by split; [|left]].
  assert (Hargs : exists name, args = [name]).
  { destruct Hc as [->| ->]; (destruct args as [|a [|]]; try discriminate; by exists a). }
  destruct Hargs as [name ->].
  assert (Hp : exists rest, mutation_path c name = "/furnish/" +:+ rest) by (destruct Hc as [->| ->]; by eexists).
  assert (Hg : let '(w', _, err) := furnishDo quote addr url_error dial daemon "POST" (mutation_path c name) w in
    is_Some err /\ (w' = w \/ exists p q, parse_target (mutation_path c name) = Ok (p, q)
                     /\ cleanPath p = "/register" /\ w' = declined w)).
  { destruct Hp as [rest ->]. apply furnish_post_refused. }
  destruct Hc as [->| ->]; cbn [fst snd the_arg]; unfold furnish_up, furnish_down; cbn [mutation_path] in Hg;
    (destruct (furnishDo _ _ _ _ _ _ _ w) as [[w' b] err]); cbn [fst snd]; destruct Hg as [[e ->] Hw];
    (split; [done|]); (destruct Hw as [->|(p & q & ? & ? & ->)]; [by left|right; by exists name, p, q]).
Qed.

Lemma lint_exit text args w :
  fst (fst (execute (Lint text) args w)) = w
  /\ (exits (Lint text) args w = 0 <->
       args <> [] /\ Forall (fun path => exists p, config.ParseFragment viper_at path = Ok p
                                         /\ config.projectStructuralErrors p = []) args).
Proof.
  unfold exit_status, rootCmd. destruct args as [|a args]; cbn [args_ok length Nat.leb negb];
    [split; [done|]; split; [done|by intros [? _]]|].
  unfold lint. destruct (lint_loop_valid quote JSON (config.LintFragment viper_at os_stat) text (a :: args) 0
    ltac:(lia)) as [Hle Hiff]. destruct (lint_loop _ _ _ text (a :: args) 0) as [out n]. cbn [fst snd] in *.
  split; [done|]. rewrite main_zero.
  assert (Hz : (if 0 <? n then Some (itoa n +:+ " fragment(s) invalid") else None) = None <-> n = 0)
    by (destruct (Z.ltb_spec 0 n); split; lia || done).
  rewrite Hz, Hiff. split.
  - intros Hf. split; [done|]. eapply Forall_impl; [exact Hf|]. intros path. apply LintFragment_valid.
  - intros [_ Hf]. eapply Forall_impl; [exact Hf|]. intros path. apply LintFragment_valid.
Qed.

(** * Property *)

(** C33. The exit status of the commands. The healthcheck exits 0 exactly when the
    daemon can be reached at the control address and is ready: every root readable
    and the cluster reachable. Lint exits 0
    exactly when it was given fragments and each of them parses to a sound entry.
    The model healthcheck exits 0 exactly when the set loads, holds the named
    deployment, and every one asked for has its weights and answers. The furnish up
    and down commands carry no credential and the routes they call are gated, so
    neither ever succeeds, whatever the piece, the daemon's configuration and its
    state, and neither changes anything, unless the piece's text takes the path to
    /register, where the empty registration is declined and that is reported on the
    bus. *)
Theorem client_exit_codes args text w :
  (exits Healthcheck args w = 0 <->
     url_error ("http://" +:+ addr +:+ "/readyz") = None /\ dial = None
     /\ rc_OK (checkRootsReadable env s) = true /\ snd (clusterReady fenv (e_cluster env) w.1.2) = None)
  /\ (exits (Lint text) args w = 0 <->
       args <> [] /\ Forall (fun path => exists p, config.ParseFragment viper_at path = Ok p
                                         /\ config.projectStructuralErrors p = []) args)
  /\ (exits ModelHealth args w = 0 <->
       (length args <= 1)%nat /\ exists set ds, loadSet = Ok set
         /\ (if String.eqb (the_arg args) "" then ds = set
             else exists d, model.ByName set (the_arg args) = Some d /\ ds = [d])
         /\ Forall (fun d => (model.IsHFCacheLocation d = true -> stat (model.Location d) = None)
                             /\ exists code, http_get (model.HealthURL d) = Ok code) ds)
  /\ (forall c, c = FurnishUp \/ c = FurnishDown ->
       exits c args w = 1
       /\ (fst (fst (execute c args w)) = w
           \/ exists name p q, args = [name] /\ parse_target (mutation_path c name) = Ok (p, q)
               /\ cleanPath p = "/register" /\ fst (fst (execute c args w)) = declined w)).
Proof.
  split_and!; [apply healthcheck_exit|apply lint_exit| |by intros c; apply mutation_exit].
  unfold exit_status, rootCmd. destruct (args_ok ModelHealth args) eqn:Ea; cbn [negb snd].
  - rewrite main_zero, (proj1 (model.model_health_command quote stat http_get loadSet (the_arg args))).
    cbn [args_ok] in Ea. apply Nat.leb_le in Ea. tauto.
  - cbn [args_ok] in Ea. apply Nat.leb_gt in Ea. cbn. split; [done|lia].
Qed.

End surface.

(** * The property at a concrete daemon *)

#[local] Existing Instances furnish.demo_api furnish.demo_laws w_reg_codec w_rec_codec w_req_codec
  w_resp_codec w_res_codec w_svc_codec w_prj_codec.

(** A daemon that is not ready (a root is unset), with its token provisioned; and two
    fragments, one of which does not parse. *)
Definition w_mux : ServeMux full_world :=
  Mux (fun s => s) (fun _ => "t") (fun _ => true) (fun _ => 0) w_env w_server w_fenv demo_ports.

Definition w_execute (c : subcommand) (args : list string) : full_world * output * option string :=
  rootCmd (fun s => s) (fun _ => "{}") (config.LintFragment config.one_fragment (fun _ => config.StatDir))
    (Err "open deployment set") (fun _ => None) (fun _ => Err "refused") (fun _ _ => "usage") "127.0.0.1:8088"
    (fun _ => None) None w_mux c args w_state.
Definition w_exit (c : subcommand) (args : list string) : Z :=
  exit_status (fun s => s) (fun _ => "{}") (config.LintFragment config.one_fragment (fun _ => config.StatDir))
    (Err "open deployment set") (fun _ => None) (fun _ => Err "refused") (fun _ _ => "usage") "127.0.0.1:8088"
    (fun _ => None) None w_mux c args w_state.

Definition w_fragments : list string :=
  ["/etc/delightd/delightd/projects.d/b.yaml"; "/etc/delightd/delightd/projects.d/c.yaml"].

(** A piece is not escaped: this one takes the request past the gate, to the open
    route, which reports a registration on the bus; a plain one does nothing. *)
Lemma piece_reaches_register :
  parse_target (furnish_up_path "../register?") = Ok ("/furnish/../register", "/up")
  /\ cleanPath "/furnish/../register" = "/register"
  /\ map nr_code (w_events (fst (fst (w_execute FurnishUp ["../register?"]))).1.1) = ["malformed_request"]
  /\ w_events (fst (fst (w_execute FurnishUp ["kafka"]))).1.1 = [].
Proof. by vm_compute. Qed.

Lemma w_empty_declined : unmarshal (M := RegisterRequest) "" = Err "syntax error".
Proof. reflexivity. Qed.

Lemma client_exit_codes_witness :
  w_exit Healthcheck [] <> 0
  /\ (forall piece, w_exit FurnishUp [piece] = 1 /\ w_exit FurnishDown [piece] = 1)
  /\ fst (fst (w_execute FurnishUp ["kafka"])) = w_state
  /\ w_exit (Lint true) w_fragments <> 0 /\ w_exit (Lint true) (take 1 w_fragments) = 0.
Proof.
  pose proof (fun args => client_exit_codes (fun s => s) (fun _ => "t") (fun _ => true) (fun _ => 0) w_env w_server w_fenv
    demo_ports "127.0.0.1:8088" (fun _ => None) None "syntax error" w_empty_declined (fun _ => "{}") config.one_fragment
    (fun _ => config.StatDir) (Err "open deployment set")
    (fun _ => None) (fun _ => Err "refused") (fun _ _ => "usage") args true w_state) as Hx.
  split_and!.
  - intros Hn. destruct (Hx []) as (Hh & _). destruct (proj1 Hh Hn) as (_ & _ & Hr & _). vm_compute in Hr. discriminate.
  - intros piece. destruct (Hx [piece]) as (_ & _ & _ & Hm).
    split; [exact (proj1 (Hm FurnishUp ltac:(by left)))|exact (proj1 (Hm FurnishDown ltac:(by right)))].
  - destruct (Hx ["kafka"]) as (_ & _ & _ & Hm).
    destruct (Hm FurnishUp ltac:(by left)) as [_ [Hw|(name & p & q & [= <-] & Hp & Hc & _)]]; [exact Hw|].
    vm_compute in Hp. injection Hp as <- <-. vm_compute in Hc. discriminate.
  - intros Hn. destruct (Hx w_fragments) as (_ & Hl & _). destruct (proj1 Hl Hn) as [_ Hf].
    apply Forall_cons in Hf as [_ Hf]. apply Forall_cons in Hf as [(p & Hp & _) _]. vm_compute in Hp. discriminate.
  - destruct (Hx (take 1 w_fragments)) as (_ & Hl & _). apply (proj2 Hl). split; [done|].
    apply Forall_cons. split; [|constructor]. eexists. split; reflexivity.
Defined.

End cli.
