(* ===== verification/Harness.v ===== *)
(** test/integration: the acceptance drive of the control surface, as a client.

    [verifyControlSurface] is the list of its subtests, in order: each is one request
    and the check of its answer; the last is followed by [waitForBackupArchive] on the
    disk. [itest_cfg] and [selfManifest] are the deployment that image_test.go builds,
    and [itest] what it expects of it.

    A client sees JSON text where the handlers' model has a typed body. A body of the
    subtest's own schema is read field by field; of another schema, whose keys would
    read as zero values, it is read as nothing, which every check refuses. The items
    of a roster are protojson text and are read by [decode_project], [decode_service];
    the text of a body is [render]. *)

From S2P Require Import Prelude GoStrings GoPath Config Furnish Skills Discovery GitState Proto Backup HttpAuth.

Import httpauth.

Module harness.

(** * What a deployment expects *)

Record surfaceExpect := mkSurfaceExpect {
  cleanPath : string;
  dirtyPath : string;
  apiserverReachable : bool;
  wantModel : string;
  skillsEnabled : bool;
  controlToken : string;
  backupsDir : string
}.

(** * The client *)

Definition setBearer (bearer : string) : string := if String.eqb bearer "" then "" else "Bearer " +:+ bearer.

Definition get (path : list string) : Request := mkRequest "GET" path "" "" (Ok "").
Definition putBody (path : list string) (body bearer : string) : Request :=
  mkRequest "PUT" path "" (setBearer bearer) (Ok body).
Definition postBody (path : list string) (body bearer : string) : Request :=
  mkRequest "POST" path "" (setBearer bearer) (Ok body).

(** A connection the server drops is an error of the client's. *)
Definition code (out : outcome) : option Z :=
  match out with Resp r => Some (status r) | Panicked => None end.
Definition is_code (want : Z) (out : outcome) : bool := bool_decide (code out = Some want).

Definition mustGetJSON {T} (decode : body -> option T) (wantStatus : Z) (out : outcome) : option T :=
  match out with
  | Resp r => if status r =? wantStatus then decode (body_of r) else None
  | Panicked => None
  end.

Definition getJSONAnyStatus {T} (decode : body -> option T) (out : outcome) : option T :=
  match out with Resp r => decode (body_of r) | Panicked => None end.

Definition passes {T} (check : T -> bool) (r : option T) : bool :=
  match r with Some x => check x | None => false end.

Record rosterProject := mkRosterProject {
  rp_Name : string; rp_Path : string; rp_Essential : bool; rp_Kind : string; rp_Deployment : string
}.
Definition no_project : rosterProject := mkRosterProject "" "" false "" "".

Record gitProject := mkGitProject { gp_Dirty : bool; gp_Unpushed : Z }.
Definition no_git : gitProject := mkGitProject false 0.

(** What encoding/json reads of the protojson of a roster entry. *)
Definition roster_entry (p : proto.Project) : rosterProject :=
  mkRosterProject (proto.pj_name p) (proto.pj_path p) (default false (proto.pj_essential p))
    (from_option proto.dp_kind "" (proto.pj_deploy p)) (from_option proto.dp_deployment "" (proto.pj_deploy p)).

Section harness.
Variable render : body -> string.
Variable decode_project : string -> option rosterProject.
Variable decode_service : string -> option string.
Variable exp : surfaceExpect.

Definition getRaw (out : outcome) : option (string * Z) :=
  match out with Resp r => Some (render (body_of r), status r) | Panicked => None end.

(** The items of a list, or the error of one that does not decode. *)
Fixpoint decode_all {T} (decode : string -> option T) (items : list string) : option (list T) :=
  match items with
  | [] => Some []
  | i :: r => x ← decode i; xs ← decode_all decode r; Some (x :: xs)
  end.

Definition fetchRoster (out : outcome) : option (gmap string rosterProject) :=
  ps ← mustGetJSON (fun b => match b with
                             | BList key items => if String.eqb key "projects" then decode_all decode_project items else None
                             | _ => None
                             end) 200 out;
  Some (fold_left (fun m p => <[rp_Name p := p]> m) ps ∅).

Definition git_entry (p : gitstate.ProjectGit) : gitProject :=
  mkGitProject (gitstate.Dirty (gitstate.Git p)) (gitstate.Unpushed (gitstate.Git p)).

Definition fetchGitAll (out : outcome) : option (gmap string gitProject) :=
  ps ← mustGetJSON (fun b => match b with BGit ps => Some ps | _ => None end) 200 out;
  Some (fold_left (fun m p => <[gitstate.pg_Name p := git_entry p]> m) ps ∅).

(** * The subtests *)

Record subtest := mkSubtest { st_name : string; st_request : Request; st_check : outcome -> bool }.

Definition check_health (out : outcome) : bool :=
  passes (fun r : string * Z => String.eqb r.1 "ok" && (r.2 =? 2))
    (mustGetJSON (fun b => match b with BHealth st active _ _ _ => Some (st, active) | _ => None end) 200 out).

Definition check_readyz (out : outcome) : bool :=
  passes (fun checks =>
      let got : gmap string bool := fold_left (fun m c => <[rc_Name c := rc_OK c]> m) checks ∅ in
      bool_decide (got !! "roots_readable" = Some true)
      && bool_decide (got !! "apiserver_reachable" = Some (apiserverReachable exp)))
    (getJSONAnyStatus (fun b => match b with BReady _ checks => Some checks | _ => None end) out).

Definition check_metrics (out : outcome) : bool :=
  passes (fun r : string * Z => (r.2 =? 200) && (String.eqb r.1 "" || contains r.1 "#")) (getRaw out).

(** The status of a list of sources is the constant ok. *)
Definition check_discovery (out : outcome) : bool :=
  passes (fun sources =>
      String.eqb (wantModel exp) ""
      || existsb (fun s => existsb (fun m => String.eqb m (wantModel exp)) (discovery.Models s)) sources)
    (mustGetJSON (fun b => match b with BSources sources => Some sources | _ => None end) 200 out).

Definition check_projects (out : outcome) : bool :=
  passes (fun p : gmap string rosterProject =>
      let clean := default no_project (p !! "fake-clean") in
      let dirty := default no_project (p !! "fake-dirty") in
      bool_decide (size p = 2%nat) && rp_Essential clean
      && (String.eqb (rp_Kind clean) "kube" && String.eqb (rp_Deployment clean) "fake-clean-agg")
      && String.eqb (rp_Path clean) (cleanPath exp) && negb (rp_Essential dirty))
    (fetchRoster out).

Definition check_git (out : outcome) : bool :=
  passes (fun g : gmap string gitProject =>
      let clean := default no_git (g !! "fake-clean") in
      let dirty := default no_git (g !! "fake-dirty") in
      bool_decide (size g = 2%nat) && negb (gp_Dirty clean) && gp_Dirty dirty && (1 <=? gp_Unpushed dirty))
    (fetchGitAll out).

Definition check_project_git (out : outcome) : bool :=
  passes gp_Dirty
    (mustGetJSON (fun b => match b with BProjectGit p => Some (git_entry p) | _ => None end) 200 out).

Definition check_put_state (out : outcome) : bool :=
  passes (fun r : string * Z => (r.2 =? 200) && contains r.1 "disabled") (getRaw out).

Definition check_services (out : outcome) : bool :=
  passes (fun names => bool_decide ("fake-clean" ∈ names) && bool_decide ("fake-dirty" ∈ names))
    (mustGetJSON (fun b => match b with
                           | BList key items => if String.eqb key "services" then decode_all decode_service items else None
                           | _ => None
                           end) 200 out).

(** The names the tools/list answer must have. *)
Definition want_tools : list string := ["delightd_furnish_up"; "delightd_furnish_health"; "delightd_trigger_backup"].

Definition check_mcp (out : outcome) : bool :=
  if negb (skillsEnabled exp) then is_code 404 out
  else passes (fun ts => forallb (fun want => existsb (fun t => String.eqb (skills.t_Name t) want) ts) want_tools)
         (getJSONAnyStatus (fun b => match b with BRpc _ (skills.RTools ts) => Some ts | _ => None end) out).

Definition disable_body : string :=
  bq "{`state`:`disabled`,`reason`:`integration test`,`actor`:`itest`}".
Definition tools_list_body : string := bq "{`jsonrpc`:`2.0`,`id`:1,`method`:`tools/list`}".

Definition verifyControlSurface : list subtest :=
  [ mkSubtest "GET /health" (get ["health"]) check_health;
    mkSubtest "GET /readyz" (get ["readyz"]) check_readyz;
    mkSubtest "GET /metrics" (get ["metrics"]) check_metrics;
    mkSubtest "GET /discovery/llms" (get ["discovery"; "llms"]) check_discovery;
    mkSubtest "GET /projects" (get ["projects"]) check_projects;
    mkSubtest "GET /git" (get ["git"]) check_git;
    mkSubtest "GET /projects/{name}/git" (get ["projects"; "fake-dirty"; "git"]) check_project_git;
    mkSubtest "GET /projects/{name}/state" (get ["projects"; "fake-dirty"; "state"]) (is_code 200);
    mkSubtest "GET /projects/{name}/introspect" (get ["projects"; "fake-dirty"; "introspect"]) (is_code 200);
    mkSubtest "GET /state" (get ["state"]) (is_code 200);
    mkSubtest "GET /state/{name}" (get ["state"; "fake-clean"]) (is_code 200);
    mkSubtest "PUT /state/{name}" (putBody ["state"; "fake-clean"] disable_body (controlToken exp)) check_put_state;
    mkSubtest "GET /services" (get ["services"]) check_services;
    mkSubtest "GET /services/{name}" (get ["services"; "fake-clean"]) (is_code 200);
    mkSubtest "GET /resolve/{name}" (get ["resolve"; "fake-clean"]) (is_code 404);
    mkSubtest "GET /registrations" (get ["registrations"]) (is_code 200);
    mkSubtest "POST /register (fail-closed without schema registry)"
      (postBody ["register"] "{}" (controlToken exp))
      (fun out => passes (fun c => negb (c =? 200)) (code out));
    mkSubtest "POST /projects/{name}/reset" (postBody ["projects"; "fake-dirty"; "reset"] "" (controlToken exp))
      (is_code 200);
    mkSubtest "POST /mcp (agent drives delightd's own tools)"
      (postBody ["mcp"] (if skillsEnabled exp then tools_list_body else "{}") (controlToken exp)) check_mcp;
    mkSubtest "POST /projects/{name}/backup" (postBody ["projects"; "fake-dirty"; "backup"] "" (controlToken exp))
      (is_code 200) ].

(** One look of waitForBackupArchive at the directory: a .tgz that is not empty. *)
Definition waitForBackupArchive (dir : backup.adir) : bool :=
  existsb (fun nf => match nf.2 with
                     | backup.ADir => false
                     | backup.AFile _ size => has_suffix nf.1 ".tgz" && (0 <? size)
                     end) (map_to_list dir).

End harness.

(** * The deployment of image_test.go *)

Definition check_every_second : config.BackupConfig :=
  config.mkBackupConfig "1s" (config.mkBackupRotationConfig 0) [].

(** What its delight.yaml decodes to; [mockPort] is where the mocked model server listens. *)
Definition itest_cfg (mockPort : Z) : config.DelightConfig :=
  config.mkDelightConfig
    (config.mkSystemConfig "/work" "/var" "/var/backups" "/etc/delightd"
       (config.mkAgentSkillsConfig true ["mcp"]) (config.mkDaemonConfig 8088 "")
       (config.mkLLMDiscoveryConfig
          [config.mkLLMProviderConfig "mock" "ollama" ("http://host.docker.internal:" +:+ itoa mockPort)])
       (config.mkKafkaConfig [] "" ""))
    [ config.mkProjectConfig "fake-clean" "/work/fake-clean" true
        (config.mkDeployConfig "kube" "fake-clean-agg" []) check_every_second "";
      config.mkProjectConfig "fake-dirty" "/work/fake-dirty" false
        (config.mkDeployConfig "" "" []) check_every_second "" ]
    false [].

Definition itest : surfaceExpect :=
  mkSurfaceExpect "/work/fake-clean" "/work/fake-dirty" false "mock-model:latest" true
    "itest-control-token-000000" "/var/backups".

(** mcp.json, delightd's own manifest; the schemas are raw JSON. *)
Definition http_tool (name description schema method path : string) : skills.Tool :=
  skills.mkTool name description schema (skills.mkHandlerDef "http" method ("http://127.0.0.1:8088" +:+ path) "" []).

Definition no_args : string := bq "{ `type`: `object`, `properties`: {} }".
Definition one_arg (name description : string) : string :=
  bq ("{ `type`: `object`, `properties`: { `" +:+ name +:+ "`: { `type`: `string`, `description`: `" +:+ description
      +:+ "` } }, `required`: [`" +:+ name +:+ "`] }").

Definition selfManifest : list skills.Tool :=
  [ http_tool "furnish_list" "List the declared meubilair pieces delightd converges." no_args "GET" "/furnish/pieces";
    http_tool "furnish_health"
      "Report the meubilair health ladder. A 503 means a piece is RED (unhealthy or absent) or INDETERMINATE (unreadable)."
      no_args "GET" "/furnish/health";
    http_tool "furnish_up" "Converge one piece onto its manifests (server-side apply; idempotent)."
      (one_arg "piece" "the piece to converge") "POST" "/furnish/{piece}/up";
    http_tool "furnish_down" "Remove one piece's objects (an already-absent object is success)."
      (one_arg "piece" "the piece to remove") "POST" "/furnish/{piece}/down";
    http_tool "trigger_backup" "Trigger an immediate backup for a project."
      (one_arg "project" "the project to back up") "POST" "/projects/{project}/backup";
    http_tool "reset" "Clear a project's stuck backup error state."
      (one_arg "project" "the project to reset") "POST" "/projects/{project}/reset" ].

(** * Lemmas *)

Lemma decode_all_map {A T} (f : A -> string) (g : A -> T) decode l :
  (forall x, x ∈ l -> decode (f x) = Some (g x)) -> decode_all decode (map f l) = Some (map g l).
Proof.
  induction l as [|x l IH]; intros Hd; [done|]. cbn [map decode_all]. rewrite Hd by set_solver.
  cbn. by rewrite IH by set_solver.
Qed.

(** A poll that sees one archive with something in it ends. *)
Lemma waitForBackupArchive_sees dir n es size :
  dir !! n = Some (backup.AFile es size) -> has_suffix n ".tgz" = true -> 0 < size ->
  waitForBackupArchive dir = true.
Proof.
  intros Hn Hs Hz. unfold waitForBackupArchive. apply existsb_exists. exists (n, backup.AFile es size).
  split; [apply list_elem_of_In, elem_of_map_to_list, Hn|]. cbn [fst snd]. rewrite Hs. by apply Z.ltb_lt in Hz as ->.
Qed.

End harness.
