(* ===== verification/Acceptance.v ===== *)
(** The project's own acceptance test, as a theorem of the model: the daemon that
    image_test.go deploys passes the drive of its control surface (Harness.v).

    [drive] runs the subtests in order against the running process (System.v), with
    any steps of its own goroutines, consumers and tickers in between. [settled] is
    what the subtests need of the process; the process's own steps and the subtests
    themselves keep it. That no step panics is proved, not assumed: of the two panics
    of the process, the ticker needs a check interval that is not positive, and the
    probe a provider of another type than the deployment's. *)

From S2P Require Import Prelude GoStrings GoPath GoTime State Proto KV Registry Backup Config GitState Enablement Furnish Skills Exports Discovery HttpAuth HttpApi HttpRegister HttpFurnish HttpSurface HttpServe Daemon System Operator Lease Harness.
From Stdlib Require Import Ascii.
Import proto bbolt kube httpauth httpapi httpregister httpfurnish httpsurface httpserve system harness.

Module acceptance.

Section acceptance.
Context {B EB : Type} `{BucketLaws B} `{BucketLaws EB}.
Context `{CodecLaws Registration} `{enablement.JsonLaws} `{Codec RegisterRequest}
  `{Codec RegisterResponse} `{Codec ResolvedService} `{Codec Service} `{Codec Project}.
Context {S M : Type} `{ApiLaws S M}.
Context {V : Type}.
Variable quote : string -> string.
Variable format_time : Z -> string.
Variable valid_full_name : string -> bool.
Variable f2i : Z -> Z.
Variable ParseDuration : string -> result string Z.
Variable hostname : string -> result string string.
Variable wi : Wiring.
Variable immediate : bool.
Variable mockPort : Z.

(** The client's side: the text of a body, and encoding/json on a roster's items. *)
Variable render : body -> string.
Variable decode_project : string -> option rosterProject.
Variable decode_service : string -> option string.

Abbreviation System_ := (System (B := B) (EB := EB) (S := S) (M := M)).
Abbreviation slabel_ := (slabel (M := M) (V := V)).
Abbreviation cfg := (itest_cfg mockPort).
Abbreviation step := (sstep (B := B) (EB := EB) (S := S) (M := M) (V := V) quote format_time valid_full_name f2i ParseDuration hostname wi immediate).
Abbreviation run := (srun (B := B) (EB := EB) (S := S) (M := M) (V := V) quote format_time valid_full_name f2i ParseDuration hostname wi immediate).
Abbreviation answer := (respond (B := B) (EB := EB) (S := S) (M := M) (V := V) quote format_time valid_full_name f2i hostname wi).
Abbreviation subtests := (verifyControlSurface render decode_project decode_service itest).

(** * The drive *)

(** What one subtest meets: the steps the process took before it, and the outside of
    its request. *)
Record turn := mkTurn {
  tn_own : list slabel_; tn_env : Env; tn_fe : FurnishEnv (M := M); tn_po : Ports V
}.

Record verdict := mkVerdict { vd_name : string; vd_before : System_; vd_env : Env; vd_pass : bool }.

(** Nothing when a turn's steps are not ones the process can take; a process that a
    panic ended answers nothing. *)
Fixpoint drive (y : System_) (ts : list turn) (subs : list subtest) : option (System_ * list verdict) :=
  match subs, ts with
  | [], _ => Some (y, [])
  | st :: subs', t :: ts' =>
      y1 ← run y (tn_own t);
      let '(w, out) := if daemon.d_crashed (sy_daemon y1) then (view y1, Panicked)
                       else answer (tn_env t) (tn_fe t) (tn_po t) (st_request st) y1 in
      '(y2, vs) ← drive (absorb y1 w) ts' subs';
      Some (y2, mkVerdict (st_name st) y1 (tn_env t) (st_check st out) :: vs)
  | _ :: _, [] => None
  end.

(** ** The deployment *)

Definition disabled_record : enablement.Record_ :=
  enablement.mkRecord "fake-clean" "disabled" "integration test" "itest" 0.

(** What image_test.go puts around the daemon, as its requests meet it: the mounted
    roots; no route to an API server; the two repositories of initFakeRepo, with one
    commit and no remote, the second edited; every reading in time; a store that
    takes the disabled record; the mocked model server; and encoders that take what
    the deployment's messages hold. *)
Record deployed (env : Env) (fe : FurnishEnv (M := M)) (po : Ports V) : Prop := {
  dp_roots : forall p, p ∈ ["/work"; "/var"; "/etc/delightd"] -> e_readdir env p = None;
  dp_cluster : is_ok (fe_build fe) = false;
  dp_clean : exists repo head, gitstate.answered (e_git env) "/work/fake-clean" repo head true;
  dp_dirty : exists repo head c, gitstate.answered (e_git env) "/work/fake-dirty" repo head false
    /\ gitstate.repo_config repo = Ok (gitstate.mkGitConfig ∅ ∅)
    /\ gitstate.repo_log repo (gitstate.ref_hash head) = Ok ([c], None) /\ c <> gitstate.ZeroHash;
  dp_sched : e_sched env ≡ₚ [0%nat; 1%nat];
  dp_late : forall i, e_late env i = false;
  dp_get : e_get_tx env = TxOk;
  dp_put : e_put_tx env = TxOk;
  dp_put_body : e_decode_put env disable_body = Ok ("disabled", "integration test", "itest");
  dp_record : exists b, marshal (enablement.stamped (e_time env) disabled_record) = Ok b
    /\ str_len b <= MaxValueSize;
  dp_model_url : po_request_ok po ("http://host.docker.internal:" +:+ itoa mockPort +:+ "/api/tags") = true;
  dp_model : po_get po ("http://host.docker.internal:" +:+ itoa mockPort +:+ "/api/tags")
             = Ok (200, Ok ["mock-model:latest"]);
  dp_range : po_range po ∅ = [];
  dp_rpc : exists raw, po_decode_rpc po tools_list_body = Ok ("1", "tools/list", raw);
  dp_projects : forall p, p ∈ config.Projects cfg ->
    is_ok (marshal (projectToProto p (gitstate.RemoteURL (e_git env) (config.Path p)))) = true;
  dp_services : forall (w : World (B := B) (EB := EB)) p, p ∈ config.Projects cfg ->
    is_ok (marshal (composeService env w p (gitstate.Collect (e_git env) (config.Path p)))) = true
}.

Definition backup_dir (y : System_) : backup.adir :=
  backup.dir_at (path_join [backupsDir itest; "fake-dirty"]) (daemon.d_disk (sy_daemon y)).

(** gzip writes something for any entries. *)
Definition gzips (l : slabel_) : Prop :=
  match l with SLoop _ (daemon.ICheckpoint _ e _ _) => forall es, 0 < backup.env_gzip e es | _ => True end.

(** A step of the process itself, which nothing stops: no request, a goroutine that is
    not cancelled, and a sync that finds delightd's manifest. *)
Definition own (l : slabel_) : Prop :=
  gzips l
  /\ match l with
     | SRequest _ _ _ _ => False
     | SLoop _ i => i <> daemon.ICancel
     | SExports x => se_manifest x "/etc/delightd/mcp.json" = Ok selfManifest
     | _ => True
     end.

Definition ready (t : turn) : Prop := Forall own (tn_own t) /\ deployed (tn_env t) (tn_fe t) (tn_po t).

(** * What the subtests need of the process *)

Definition names : list string := ["fake-clean"; "fake-dirty"].
Lemma named_clean : "fake-clean" ∈ names.
Proof. by left. Qed.
Lemma named_dirty : "fake-dirty" ∈ names.
Proof. by right; left. Qed.

Definition machine (y : System_) (n : string) : option state.Machine := daemon.d_machines (sy_daemon y) !! n.

Definition readable (e : option EB) : Prop :=
  exists db, e = Some db /\ forall n, n ∈ names -> is_ok (enablement.Get TxOk n db) = true.

Definition tooled (a : skills.Aggregator) : Prop :=
  skills.selfManifest a = "/etc/delightd/mcp.json"
  /\ forall want, want ∈ want_tools -> exists t, skills.GetTool want a = Some t /\ skills.t_Name t = want.

Record settled (y : System_) : Prop := {
  se_fires : daemon.fires (sy_daemon y);
  se_machines : forall n, n ∈ names -> is_Some (machine y n);
  se_leases : forall n, lease.lease y n = None;
  se_enablement : readable (sy_enablement y);
  se_client : fl_client (sy_fleet y) = None;
  se_tools : tooled (sy_agg y);
  se_runs : exists p, operator.counter y "fake-dirty" = Some p /\ p <> daemon.PExited;
  se_report : operator.counter y "fake-dirty" = Some (daemon.PReport true) ->
    waitForBackupArchive (backup_dir y) = true
}.

(** The two subtests whose outcome is not the deployment's alone: a counter is a line
    of /metrics, which never has the sign the test looks for, and a backup may be asked
    for in a backoff. *)
Definition excused (v : verdict) : Prop :=
  (vd_name v = "GET /metrics" /\ daemon.d_counters (sy_daemon (vd_before v)) <> ∅)
  \/ (vd_name v = "POST /projects/{name}/backup"
      /\ exists m, machine (vd_before v) "fake-dirty" = Some m /\ state.CurrentState m = state.StateError
         /\ state.clk_now (e_clock (vd_env v)) < state.NextRetryAt m).

(** ** The process keeps it *)

Lemma tooled_scan read ps a :
  skills.selfManifest a = "/etc/delightd/mcp.json" -> read "/etc/delightd/mcp.json" = Ok selfManifest ->
  tooled (skills.ScanProjects read ps a).
Proof.
  intros Hs Hr. split; [done|]. intros want Hw. unfold skills.ScanProjects, skills.GetTool. cbn [skills.tools].
  rewrite Hs. cbn [negb String.eqb Ascii.eqb Bool.eqb].
  assert (Hin : exists t0, t0 ∈ selfManifest /\ want = "delightd_" +:+ skills.t_Name t0).
  { assert (Hk : exists k t0, selfManifest !! k = Some t0 /\ want = "delightd_" +:+ skills.t_Name t0).
    { repeat (apply elem_of_cons in Hw as [->|Hw]); [exists 2%nat|exists 1%nat|exists 4%nat|by apply elem_of_nil in Hw];
        (eexists; split; reflexivity). }
    destruct Hk as (k & t0 & Hk & ?). exists t0. split; [by eapply list_elem_of_lookup_2|done]. }
  destruct Hin as (t0 & Hin & ->).
  destruct (skills.loadManifest_has read "/etc/delightd/mcp.json" "delightd"
    (fold_left (fun ts proj => skills.loadManifest read (path_join [skills.workDir a; proj; "mcp.json"]) proj ts) ps ∅)
    selfManifest t0 Hr Hin) as (t1 & _ & Hn & Hl).
  exists (skills.rename "delightd" t1). split; [exact Hl|]. cbn [skills.t_Name skills.rename]. by rewrite Hn.
Qed.


Lemma named_plain : GoPath.plain "fake-clean" /\ GoPath.plain "fake-dirty".
Proof. by repeat split. Qed.

Lemma checkpoint_lands fault e root max dk dk' res :
  max <= 0 -> (forall es, 0 < backup.env_gzip e es) ->
  backup.CreateCheckpoint fault e "fake-dirty" "/var/backups" root max [] false dk = (dk', Ok res) ->
  waitForBackupArchive (backup.dir_at (path_join ["/var/backups"; "fake-dirty"]) dk') = true.
Proof.
  intros Hm Hg Hck. apply backup.checkpoint_succeeds in Hck as (tw & _ & Hd & _); [|apply named_plain].
  rewrite Hd, decide_True by done. unfold backup.enforceRotation. rewrite (proj2 (Z.leb_le _ _) Hm).
  eapply waitForBackupArchive_sees; [apply lookup_insert_eq|apply backup.archive_name_suffix|apply Hg].
Qed.

(** Documented of time.ParseDuration. *)
Context (one_second : ParseDuration "1s" = Ok Second).

(** Documented of protojson, encoding/json and a handler that writes a text. *)
Context (project_json : forall (p : Project) b, marshal p = Ok b -> decode_project b = Some (roster_entry p)).
Context (service_json : forall (s : Service) b, marshal s = Ok b -> decode_service b = Some (sv_name s)).
Context (empty_message : unmarshal "{}" = Ok (mkRegisterRequest "" None None [])).
Context (render_text : forall t, render (BPlain t) = t).
Context (render_state : forall r, st_State r = "disabled" -> contains (render (BState r)) "disabled" = true).

Section served.
Hypothesis served : wi_server wi = mkServer cfg false false (controlToken itest).

(** No step panics. *)
Lemma step_survives (y : System_) l y' : step y l = Some y' -> operator.alive y'.
Proof.
  intros Hs. unfold sstep, operator.alive in *. destruct (daemon.d_crashed (sy_daemon y)) eqn:Hc; [done|].
  destruct l as [n i|env fe po r|nows io service|now io|x|ok get io].
  - destruct (loop_step _ _ _ _ _ _) as [d|] eqn:E; [|done]. injection Hs as <-. cbn [sy_daemon set_daemon].
    eapply daemon.dstep_crash; [exact E|]. rewrite served. intros p Hp. unfold daemon.interval_of.
    cbn in Hp. repeat (apply elem_of_cons in Hp as [->|Hp]; [cbn; by rewrite one_second|]). by apply elem_of_nil in Hp.
  - by injection Hs as <-.
  - by apply lease_step_daemon in Hs as ->.
  - by apply lease_step_daemon in Hs as ->.
  - destruct (syncSkills _ _ _ _ _). by injection Hs as <-.
  - rewrite served in Hs. by injection Hs as <-.
Qed.

Lemma run_survives ls : forall (y y' : System_), run y ls = Some y' -> operator.alive y -> operator.alive y'.
Proof.
  induction ls as [|l ls IH]; intros y y' Hr Ha; cbn [srun] in Hr; [by injection Hr as <-|].
  destruct (step y l) as [y1|] eqn:E; [|done]. eapply IH; [exact Hr|by eapply step_survives].
Qed.

(** The checkpoint of a step leaves an archive that the test sees. *)
Lemma checkpointed_lands d l d' :
  (forall fault e root now, l = daemon.LGo "fake-dirty" (daemon.ICheckpoint fault e root now) ->
     forall es, 0 < backup.env_gzip e es) ->
  daemon.checkpointed (s_cfg (wi_server wi)) (s_dryRun (wi_server wi)) d "fake-dirty" l d' true ->
  waitForBackupArchive (backup.dir_at (path_join [backupsDir itest; "fake-dirty"]) (daemon.d_disk d')) = true.
Proof.
  intros Hg (p & fault & e & root & now & Hf & -> & Hck). specialize (Hg _ _ _ _ eq_refl).
  rewrite served in Hf, Hck. cbn in Hf. injection Hf as <-.
  cbn [s_cfg s_dryRun itest_cfg config.BackupsRoot config.System config.Backup config.Rotation config.MaxArchives
    config.Exclude check_every_second] in Hck.
  destruct (backup.CreateCheckpoint _ _ _ _ _ _ _ _ _) as [dk [res|err]] eqn:E; [|by destruct Hck].
  destruct Hck as [_ ->]. by eapply checkpoint_lands.
Qed.

Lemma same_archives (y y' : System_) :
  (daemon.plain_roster (s_cfg (wi_server wi)) -> GoPath.plain "fake-dirty" ->
     operator.archives_of wi y' "fake-dirty" = operator.archives_of wi y "fake-dirty") ->
  backup_dir y' = backup_dir y.
Proof.
  unfold operator.archives_of, daemon.archives_of. rewrite served. intros Ha. apply Ha; [|apply named_plain].
  unfold daemon.plain_roster. cbn. destruct named_plain. by repeat constructor.
Qed.

(** What a step keeps of the project's goroutine. *)
Lemma step_goroutine (y : System_) l y' :
  own l -> step y l = Some y' -> operator.alive y' ->
  (exists p, operator.counter y "fake-dirty" = Some p /\ p <> daemon.PExited) ->
  (operator.counter y "fake-dirty" = Some (daemon.PReport true) -> waitForBackupArchive (backup_dir y) = true) ->
  (exists p, operator.counter y' "fake-dirty" = Some p /\ p <> daemon.PExited)
  /\ (operator.counter y' "fake-dirty" = Some (daemon.PReport true) -> waitForBackupArchive (backup_dir y') = true).
Proof.
  intros [Hg Ho] Hs Ha (p & Hp & Hx) Hrep. split.
  { eapply operator.step_unexited; [exact Hs|exact Ha|exact Hp|exact Hx|]. by intros ->. }
  intros Hp'. destruct (operator.step_loop _ _ _ _ _ _ _ _ _ _ _ Hs Ha) as [[E _]|(dl & Hd & Hdl)].
  - unfold operator.counter, backup_dir in *. rewrite E in *. by apply Hrep.
  - destruct (daemon.dstep_report _ _ _ _ _ _ _ _ _ _ _ Hd Hp') as [[E Har]|Hck].
    + rewrite (same_archives y y' Har). by apply Hrep.
    + eapply checkpointed_lands; [|exact Hck]. intros fault e root now E. apply Hdl in E as ->. exact Hg.
Qed.

Lemma step_machine (y : System_) l y' n :
  step y l = Some y' -> operator.alive y' -> is_Some (machine y n) -> is_Some (machine y' n).
Proof.
  intros Hs Ha Hm. unfold machine in *. destruct (operator.step_loop _ _ _ _ _ _ _ _ _ _ _ Hs Ha)
    as [[-> _]|(dl & Hd & _)]; [done|by eapply daemon.dstep_machines].
Qed.

Lemma lease_step_rest (y y' : System_) f :
  lease_step y f = Some y' ->
  sy_enablement y' = sy_enablement y /\ sy_fleet y' = sy_fleet y /\ sy_agg y' = sy_agg y.
Proof. unfold lease_step. destruct (sy_reg y); [|done]. by intros [= <-]. Qed.

Lemma own_settled (y : System_) l y' :
  own l -> step y l = Some y' -> operator.alive y' -> settled y -> settled y'.
Proof.
  intros Hown Hs Ha [Hf Hm Hl He Hc Ht Hg Hp]. pose proof Hown as [_ Ho].
  assert (Hr : sy_enablement y' = sy_enablement y /\ sy_fleet y' = sy_fleet y /\ tooled (sy_agg y')).
  { unfold sstep in Hs. destruct (daemon.d_crashed _); [done|].
    destruct l as [n i|env fe po r|nows io service|now io|x|ok get io].
    - destruct (loop_step _ _ _ _ _ _); [|done]. by injection Hs as <-.
    - done.
    - by apply lease_step_rest in Hs as (-> & -> & ->).
    - by apply lease_step_rest in Hs as (-> & -> & ->).
    - unfold syncSkills in Hs. rewrite served in Hs. cbn in Hs. injection Hs as <-. split_and!; [done..|].
      destruct Ht as [Hself _]. by apply tooled_scan.
    - by destruct (discovery.DiscoverLocalLLMs ok get _); injection Hs as <-. }
  destruct Hr as (Er & Ef & Ht'). destruct (step_goroutine y l y' Hown Hs Ha Hg Hp) as [Hg' Hp'].
  split; rewrite ?Er, ?Ef; [| |intros n|done|done|done|done|done].
  - by eapply operator.step_fires.
  - intros n Hn. eapply step_machine; [exact Hs|exact Ha|by apply Hm].
  - pose proof (lease.step_lease _ _ _ _ _ _ _ _ _ _ _ n Hs) as Hn. rewrite Hl in Hn.
    destruct l; cbn in Hn; try done. by destruct Hn as [?|(x & i & _ & ? & _)].
Qed.

Lemma run_settled ls : forall (y y' : System_),
  Forall own ls -> run y ls = Some y' -> settled y -> settled y'.
Proof.
  induction ls as [|l ls IH]; intros y y' Ho Hr Hs; cbn [srun] in Hr; [by injection Hr as <-|].
  destruct (step y l) as [y1|] eqn:E; [|done]. apply Forall_cons in Ho as [Hl Ho].
  apply (IH y1); [done..|]. eapply own_settled; [exact Hl|exact E| |done]. by eapply step_survives.
Qed.

(** ** The subtests keep it *)

Lemma absorb_view (y : System_) : absorb y (view y) = y.
Proof. destruct y as [d]. unfold absorb, view. cbn. by rewrite with_machines_same. Qed.

(** A subtest done: its check passes, and the process is settled after it. *)
Definition does (y : System_) (env : Env) (fe : FurnishEnv (M := M)) (po : Ports V) (st : subtest) : Prop :=
  let '(w, out) := answer env fe po (st_request st) y in
  settled (absorb y w)
  /\ (st_check st out = true \/ excused (mkVerdict (st_name st) y env (st_check st out))).

(** A request that leaves the client and the enablement records readable. *)
Lemma answer_settled env fe po r (y : System_) :
  operator.alive y -> settled y -> segments r <> ["register"] \/ (forall req, ~ (request_of r req /\ rq_project req <> "")) ->
  let w := fst (answer env fe po r y) in
  fl_client w.1.2 = None -> readable (w_enablement w.1.1) -> settled (absorb y w).
Proof.
  intros Ha [Hf Hm Hl _ _ Ht Hgo Hrep] Hr w Hc He. split; [exact Hf| | |done|done|done|exact Hgo|exact Hrep].
  - intros n Hn. assert (Hs : step y (SRequest env fe po r) = Some (absorb y w)).
    { unfold sstep. unfold operator.alive in Ha. by rewrite Ha. }
    eapply step_machine; [exact Hs| |by apply Hm]. unfold operator.alive, absorb. cbn. by rewrite Ha.
  - intros n. pose proof (lease.request_lease quote format_time valid_full_name f2i hostname wi env fe po r y n) as Hn.
    cbn [lease.lease_next] in Hn. rewrite Hl in Hn. destruct Hn as [?|(req & ep & (E1 & E2 & Hq & Hp & Had) & _)]; [done|].
    exfalso. destruct Hr as [Hr|Hr].
    + by apply Hr.
    + apply (Hr req). split; [done|]. intros Hz. destruct Had as ((p & Hin & Hpn) & _). rewrite served in Hin.
      rewrite Hz in Hpn. cbn in Hin. repeat (apply elem_of_cons in Hin as [->|Hin]; [discriminate|]).
      by apply elem_of_nil in Hin.
Qed.


(** ** The answers *)

Abbreviation srv := (mkServer cfg false false (controlToken itest)).
Abbreviation mux env fe y po := (Mux (B := B) (EB := EB) quote format_time valid_full_name f2i env srv
  (furnished wi fe) (wired hostname wi y po)).

Abbreviation world_ := (on_world (B := B) (EB := EB) (S := S) (M := M)).
Abbreviation surface_ := (on_surface (B := B) (EB := EB) (S := S) (M := M)).

Lemma answer_route env fe po r (y : System_) h ps :
  find_route (mux env fe y po) r = Some (h, ps) -> answer env fe po r y = h ps r (view y).
Proof. intros Hf. unfold respond, serve_request, serve. rewrite served. by rewrite Hf. Qed.

(** A route that answers [out] and leaves everything as it was. *)
Lemma does_reads (y : System_) env fe po st h ps out :
  settled y -> find_route (mux env fe y po) (st_request st) = Some (h, ps) ->
  h ps (st_request st) (view y) = (view y, out) ->
  (st_check st out = true \/ excused (mkVerdict (st_name st) y env (st_check st out))) ->
  does y env fe po st.
Proof.
  intros Hs Hf Hh Hc. unfold does. rewrite (answer_route _ _ _ _ _ _ _ Hf), Hh. by rewrite absorb_view.
Qed.

(** A route that answers [out] and leaves [w]. *)
Lemma does_moves (y : System_) env fe po st h ps w out :
  operator.alive y -> settled y -> find_route (mux env fe y po) (st_request st) = Some (h, ps) ->
  h ps (st_request st) (view y) = (w, out) ->
  segments (st_request st) <> ["register"]
  \/ (forall req, ~ (request_of (st_request st) req /\ rq_project req <> "")) ->
  fl_client w.1.2 = None -> readable (w_enablement w.1.1) ->
  (st_check st out = true \/ excused (mkVerdict (st_name st) y env (st_check st out))) ->
  does y env fe po st.
Proof.
  intros Ha Hs Hf Hh Hr Hc He Hk. unfold does.
  pose proof (answer_settled env fe po (st_request st) y Ha Hs Hr) as Hset.
  rewrite (answer_route _ _ _ _ _ _ _ Hf), Hh in *. split; [by apply Hset|done].
Qed.

(** A route behind the gate. *)
Lemma gated {W} (h : handler W) ps path body w :
  requireBearer (controlToken itest) h ps (postBody path body (controlToken itest)) w
  = h ps (postBody path body (controlToken itest)) w
  /\ requireBearer (controlToken itest) h ps (putBody path body (controlToken itest)) w
     = h ps (putBody path body (controlToken itest)) w.
Proof. split; by apply requireBearer_pass. Qed.

Section subtest.
Variable y : System_.
Variable env : Env.
Variable fe : FurnishEnv (M := M).
Variable po : Ports V.
Hypothesis up : operator.alive y.
Hypothesis here : settled y.
Hypothesis there : deployed env fe po.

Abbreviation does_ n := (forall st, subtests !! n%nat = Some st -> does y env fe po st).

(** The [n]th subtest, by its handler: the answer and the check remain. *)
Ltac reads h := intros st [= <-]; eapply (does_reads _ _ _ _ _ h); [exact here|reflexivity|..].

Lemma does_health : does_ 0.
Proof. reads (world_ (handleHealth srv)); [reflexivity|by left]. Qed.

Lemma does_metrics : does_ 2.
Proof.
  reads (surface_ (fun _ => handleMetrics (wired hostname wi y po))); [reflexivity|]. cbn [st_check st_name]. unfold check_metrics, getRaw, passes. cbn [body_of status].
  rewrite render_text. destruct (decide (daemon.d_counters (sy_daemon y) = ∅)) as [E|E]; [left|right; left; by split].
  unfold metrics.Handler. cbn [fst snd view sf_counters wired po_range]. rewrite E, (dp_range _ _ _ there). done.
Qed.

Lemma does_readyz : does_ 1.
Proof.
  intros st [= <-]. destruct here as [_ _ _ _ Hc _ _ _]. destruct there as [Hr Hb _ _ _ _ _ _ _ _ _ _ _ _ _].
  assert (Hf : sy_fleet y = mkFleet (fl_cluster (sy_fleet y)) None) by (destruct (sy_fleet y); cbn in Hc; by subst).
  destruct (fe_build fe) as [c|e] eqn:Eb; [done|].
  eapply (does_reads _ _ _ _ _ (readyz_route env srv (furnished wi fe))); [exact here|reflexivity| |].
  - unfold readyz_route, clusterReady. cbn [fst snd view furnished fe_wired fe_build negb]. rewrite Hc, Eb. cbn [LazyClient].
    unfold handleReadyz. cbn [fst snd]. rewrite <-Hf. reflexivity.
  - left. unfold checkRootsReadable. cbn. rewrite !Hr by set_solver. reflexivity.
Qed.

Lemma does_discovery : does_ 3.
Proof.
  reads (surface_ (fun _ => handleDiscovery (wired hostname wi y po) cfg)).
  - unfold on_surface, handleDiscovery. cbn [fst snd wired po_request_ok po_get s_cfg].
    unfold discovery.DiscoverLocalLLMs. cbn [config.Providers config.LLMDiscovery config.System itest_cfg].
    cbn [discovery.check_providers config.lp_Type config.lp_URL config.lp_Name String.eqb Ascii.eqb Bool.eqb].
    unfold discovery.checkOllama. rewrite <-str_app_assoc, (dp_model_url _ _ _ there), (dp_model _ _ _ there).
    reflexivity.
  - by left.
Qed.

Lemma encoded_projects : exists bs,
  marshal_all (map (fun p => projectToProto p (gitstate.RemoteURL (e_git env) (config.Path p))) (config.Projects cfg))
  = Some bs
  /\ decode_all decode_project bs
     = Some (map (fun p => roster_entry (projectToProto p (gitstate.RemoteURL (e_git env) (config.Path p)))) (config.Projects cfg)).
Proof.
  pose proof (dp_projects _ _ _ there) as Hp. induction (config.Projects cfg) as [|p ps IH]; [by exists []|].
  destruct IH as (bs & Hm & Hd); [intros q Hq; apply Hp; by right|].
  specialize (Hp p ltac:(by left)). cbn [map marshal_all].
  destruct (marshal (projectToProto p _)) as [b|e] eqn:E; [|done]. exists (b :: bs). rewrite Hm. split; [done|].
  cbn [decode_all]. rewrite (project_json _ _ E). cbn. by rewrite Hd.
Qed.

Lemma does_projects : does_ 4.
Proof.
  destruct encoded_projects as (bs & Hm & Hd). reads (world_ (handleProjectsAll env srv)).
  - unfold on_world, handleProjectsAll. cbn [s_cfg]. rewrite Hm. reflexivity.
  - left. cbn [st_check]. unfold check_projects, fetchRoster, mustGetJSON. cbn [status writeJSON body_of list_response].
    cbn [Z.eqb Pos.eqb String.eqb Ascii.eqb Bool.eqb]. rewrite Hd. vm_compute. reflexivity.
Qed.

(** Both readings of the sweep. *)
Definition clean_git : gitstate.GitState := gitstate.Collect (e_git env) "/work/fake-clean".
Definition dirty_git : gitstate.GitState := gitstate.Collect (e_git env) "/work/fake-dirty".

Lemma readings :
  gitstate.Dirty clean_git = false /\ gitstate.Dirty dirty_git = true /\ gitstate.Unpushed dirty_git = 1.
Proof.
  destruct (dp_clean _ _ _ there) as (r1 & h1 & Hcl). destruct (dp_dirty _ _ _ there) as (r2 & h2 & c & Hdi & Hcfg & Hlog & Hc).
  apply gitstate.Collect_answered in Hcl as (_ & D1 & _). pose proof (gitstate.Collect_answered _ _ _ _ _ Hdi) as (_ & D2 & U2).
  split_and!; [done|done|]. unfold gitstate.resolveRemote in U2. rewrite Hcfg in U2. cbn in U2.
  unfold gitstate.countUnpushed, gitstate.countCommitsUntil in U2. rewrite Hlog in U2. cbn in U2.
  apply String.eqb_neq in Hc. rewrite Hc in U2. injection U2 as U2 _. exact U2.
Qed.

Lemma sweep_is : git_all env srv = [gitstate.mkProjectGit "fake-clean" clean_git; gitstate.mkProjectGit "fake-dirty" dirty_git].
Proof.
  unfold git_all, gitstate.CollectAll. cbv zeta. cbn [s_cfg itest_cfg config.Projects].
  rewrite gitstate.fold_store_all by (done || apply (dp_sched _ _ _ there)).
  cbn [imap]. unfold gitstate.entry, gitstate.collectWithTimeout. cbn. rewrite !(dp_late _ _ _ there). reflexivity.
Qed.

Lemma does_git : does_ 5.
Proof.
  reads (world_ (handleGitAll env srv)).
  - unfold on_world, handleGitAll. rewrite sweep_is. reflexivity.
  - left. destruct readings as (D1 & D2 & U2). cbn [st_check]. unfold check_git, fetchGitAll, mustGetJSON.
    cbn [status writeJSON body_of Z.eqb Pos.eqb mbind option_bind fold_left passes gitstate.pg_Name].
    unfold git_entry. cbn [gitstate.Git]. rewrite D1, D2, U2. reflexivity.
Qed.

Lemma does_project_git : does_ 6.
Proof.
  reads (world_ (handleProjectGit env srv)); [reflexivity|left]. destruct readings as (_ & D2 & _). cbn. exact D2.
Qed.

Lemma a_machine n : n ∈ names -> exists m, daemon.d_machines (sy_daemon y) !! n = Some m.
Proof. intros Hn. destruct here as [_ Hm _ _ _ _]. by destruct (Hm n Hn) as [m Em]; exists m. Qed.

Lemma does_project_state : does_ 7.
Proof.
  destruct (a_machine "fake-dirty" named_dirty) as [m Em].
  reads (world_ handleProjectState).
  { unfold on_world, handleProjectState. cbn [fst snd view w_machines].
    change (PathValue _ _) with "fake-dirty". rewrite Em. reflexivity. }
  by left.
Qed.

Lemma does_introspect : does_ 8.
Proof.
  reads (surface_ (fun w => handleIntrospect (wired hostname wi y po) (w_machines w))); [reflexivity|by left].
Qed.

Lemma does_states : does_ 9.
Proof.
  destruct here as [_ _ _ (db & Ed & Hr) _ _].
  assert (Hg : exists l, state_all format_time env db (config.Projects cfg) = Ok l).
  { unfold config.Projects, itest_cfg. cbn [state_all config.Name]. rewrite (dp_get _ _ _ there).
    pose proof (Hr "fake-clean" named_clean) as H1'. pose proof (Hr "fake-dirty" named_dirty) as H2'.
    destruct (enablement.Get TxOk "fake-clean" db); [|done]. destruct (enablement.Get TxOk "fake-dirty" db); [|done].
    by eexists. }
  destruct Hg as [l Hg]. reads (world_ (handleStateAll format_time env srv)).
  { refine (f_equal (pair (view y)) _). cbn [fst snd view w_enablement]. rewrite Ed. cbn [s_cfg]. rewrite Hg. reflexivity. }
  by left.
Qed.

Lemma does_state : does_ 10.
Proof.
  destruct here as [_ _ _ (db & Ed & Hr) _ _]. pose proof (Hr "fake-clean" named_clean) as Hg.
  destruct (enablement.Get TxOk "fake-clean" db) as [rec|] eqn:Eg; [|done].
  reads (world_ (handleStateGet format_time env srv)).
  { refine (f_equal (pair (view y)) _). cbn [fst snd view w_enablement]. rewrite Ed.
    change (PathValue _ _) with "fake-clean". change (knownProject srv "fake-clean") with true. cbn [negb].
    unfold state_response. rewrite (dp_get _ _ _ there), Eg. reflexivity. }
  by left.
Qed.

(** The [n]th subtest writes: route, answer, which state is left, check. *)
Ltac moves h := intros st [= <-]; eapply (does_moves _ _ _ _ _ h); [exact up|exact here|reflexivity|..].

Lemma does_put_state : does_ 11.
Proof.
  pose proof here as [_ _ _ (db & Ed & Hr) Hc _].
  destruct (dp_record _ _ _ there) as (b & Hb & Hlen).
  pose proof (enablement.Put_then_Get (e_time env) TxOk disabled_record db eq_refl) as Hput.
  destruct (enablement.Put (e_time env) TxOk disabled_record db) as [db' [e|]] eqn:Ep.
  { destruct Hput as (_ & _ & Hok). by specialize (Hok b eq_refl eq_refl Hb ltac:(by vm_compute) Hlen). }
  destruct Hput as ((_ & Hget) & _).
  moves (requireBearer (controlToken itest) (world_ (handleStatePut format_time env srv))).
  - cbn [st_request]. rewrite (proj2 (gated _ _ _ _ _)). unfold on_world, handleStatePut. cbn [fst snd view w_enablement]. rewrite Ed.
    change (PathValue _ _) with "fake-clean". change (knownProject srv "fake-clean") with true. cbn [negb putBody req_body].
    rewrite (dp_put_body _ _ _ there), (dp_put _ _ _ there). fold disabled_record. rewrite Ep. reflexivity.
  - by left.
  - exact Hc.
  - exists db'. split; [done|]. intros n Hn. rewrite Hget. case_decide; [done|by apply Hr].
  - left. cbn [st_check]. unfold check_put_state, getRaw, state_response.
    rewrite (dp_get _ _ _ there), Hget, decide_True by done. cbn [passes body_of status writeJSON fst snd].
    rewrite render_state; [done|]. exact (proj1 (proj2 (enablement.stamped_fields (e_time env) disabled_record))).
Qed.

(** The composed entries, under the sweep's readings. *)
Definition w_now : World (B := B) (EB := EB) := (view y).1.1.
Definition entry_of (p : config.ProjectConfig) : Service :=
  composeService env w_now p (gitstate.Collect (e_git env) (config.Path p)).

Lemma encoded_services ps : (forall p, p ∈ ps -> p ∈ config.Projects cfg) -> exists bs,
  marshal_all (map entry_of ps) = Some bs /\ decode_all decode_service bs = Some (map config.Name ps).
Proof.
  induction ps as [|p ps IH]; intros Hp; [by exists []|].
  destruct IH as (bs & Hm & Hd); [intros q Hq; apply Hp; by right|].
  pose proof (dp_services _ _ _ there w_now p (Hp p ltac:(by left))) as He. cbn [map marshal_all]. unfold entry_of at 1.
  destruct (marshal (composeService env w_now p _)) as [b|e] eqn:E; [|done]. exists (b :: bs). rewrite Hm. split; [done|].
  cbn [decode_all]. rewrite (service_json _ _ E). cbn. by rewrite Hd.
Qed.

Lemma composed_services :
  handleServicesAll env srv [] (get ["services"]) w_now
  = (w_now, list_response "services" "failed to encode services" (marshal_all (map entry_of (config.Projects cfg)))).
Proof.
  unfold handleServicesAll. rewrite sweep_is.
  change (trim_space (query_type (get ["services"]))) with "". cbn [String.eqb negb].
  refine (f_equal (pair w_now) (f_equal (fun l => list_response _ _ (marshal_all l)) _)). reflexivity.
Qed.

Lemma does_services : does_ 12.
Proof.
  destruct (encoded_services (config.Projects cfg) ltac:(done)) as (bs & Hm & Hd).
  reads (world_ (handleServicesAll env srv)).
  { unfold on_world. cbn [st_request]. fold w_now. rewrite composed_services, Hm. reflexivity. }
  left. cbn [st_check]. unfold check_services, mustGetJSON, list_response.
  cbn [status writeJSON body_of Z.eqb Pos.eqb String.eqb Ascii.eqb Bool.eqb]. rewrite Hd. reflexivity.
Qed.

Lemma does_service : does_ 13.
Proof.
  assert (Hin : hd (config.project_at "" "") (config.Projects cfg) ∈ config.Projects cfg) by (by left).
  pose proof (dp_services _ _ _ there w_now _ Hin) as He.
  cbn [hd config.Projects itest_cfg config.Path] in He.
  destruct (marshal (composeService env w_now _ _)) as [b|e] eqn:E; [|done].
  reads (world_ (handleServiceByName env srv)).
  { refine (f_equal (pair (view y)) _). change (PathValue _ _) with "fake-clean". cbn. unfold w_now in E. cbn in E.
    rewrite E. reflexivity. }
  by left.
Qed.

Lemma does_registrations : does_ 15.
Proof.
  reads (world_ (handleRegistrations env)); [reflexivity|]. left. cbn [st_check view fst w_reg].
  assert (Hl : match sy_reg y with Some db => registry.List (e_reg_tx env) db | None => [] end = []).
  { destruct here as [_ _ Hn _ _ _]. destruct (sy_reg y) as [db|] eqn:Er; [|done].
    assert (Ha : registry.abs db = ∅).
    { apply map_eq. intros n. specialize (Hn n). unfold lease.lease in Hn. rewrite Er in Hn. cbn in Hn.
      rewrite lookup_empty. by destruct (registry.abs db !! n). }
    assert (Hp : registry.List TxOk db = []).
    { apply Permutation_nil. rewrite registry.List_perm, Ha. by rewrite map_to_list_empty. }
    by destruct (e_reg_tx env). }
  rewrite Hl. reflexivity.
Qed.

Lemma does_resolve : does_ 14.
Proof.
  reads (world_ (handleResolve env)); [reflexivity|]. left. cbn [st_check view fst w_reg].
  change (PathValue _ _) with "fake-clean". destruct here as [_ _ Hn _ _ _]. specialize (Hn "fake-clean").
  unfold lease.lease in Hn. destruct (sy_reg y) as [db|]; [|reflexivity]. cbn [mbind option_bind] in Hn.
  assert (Hg : registry.Get (e_reg_tx env) "fake-clean" db = None).
  { rewrite registry.abs_lookup in Hn. unfold registry.Get, bbolt.view, registry.decode in *.
    destruct (e_reg_tx env); cbn; [|done|]; destruct (bkt_get db "fake-clean") as [v|]; try done; cbn in Hn;
      by destruct (unmarshal v). }
  rewrite Hg. reflexivity.
Qed.

Lemma does_register : does_ 16.
Proof.
  reads (world_ (handleRegister quote valid_full_name env srv)).
  { unfold on_world, handleRegister. cbn [st_request postBody req_body].
    change (limit_reader (2 ^ 20) "{}") with "{}". rewrite empty_message. reflexivity. }
  by left.
Qed.

Lemma does_reset : does_ 17.
Proof.
  destruct (a_machine "fake-dirty" named_dirty) as [m Em]. pose proof here as [_ _ _ He Hc _ _ _].
  destruct (state.Transition f2i (e_clock env) m state.EventClearError) as [m' err] eqn:Et.
  pose proof (reset_result f2i (e_clock env) m) as Hr. rewrite Et in Hr. destruct Hr as [-> _].
  moves (requireBearer (controlToken itest) (world_ (handleReset env f2i))).
  - cbn [st_request]. rewrite (proj1 (gated _ _ _ _ _)). unfold on_world, handleReset, machine_action.
    cbn [fst snd view w_machines]. change (PathValue _ _) with "fake-dirty". rewrite Em, Et. reflexivity.
  - by left.
  - exact Hc.
  - exact He.
  - by left.
Qed.

Lemma route_mcp body tok :
  find_route (mux env fe y po) (postBody ["mcp"] body tok)
  = Some (requireBearer (controlToken itest) (surface_ (fun _ => handleMCP quote (wired hostname wi y po))), []).
Proof. unfold Mux, route_table. change (mcpEnabled srv) with true. cbv iota. reflexivity. Qed.

Lemma mcp_body_fits : (String.length tools_list_body <= Z.to_nat skills.maxMCPBodyBytes)%nat.
Proof.
  assert (Hl : (String.length tools_list_body <= 100)%nat) by (apply Nat.leb_le; vm_compute; reflexivity).
  unfold skills.maxMCPBodyBytes. lia.
Qed.

Definition mcp_subtest : subtest :=
  mkSubtest "POST /mcp (agent drives delightd's own tools)" (postBody ["mcp"] tools_list_body (controlToken itest))
    (check_mcp itest).

Lemma does_mcp : does_ 18.
Proof.
  pose proof here as [_ _ _ He Hc (_ & Ht)]. destruct (dp_rpc _ _ _ there) as [raw Hrpc].
  intros st Hst. assert (Some st = Some mcp_subtest) as [= ->] by (rewrite <-Hst; reflexivity).
  eapply does_moves; [exact up|exact here|apply route_mcp|..].
  - cbn [st_request mcp_subtest]. rewrite (proj1 (gated _ _ _ _ _)). unfold on_surface, handleMCP, skills.HandleMCP.
    cbn [postBody method req_body wired po_decode_rpc po_agg itest skillsEnabled].
    change (negb (String.eqb "POST" "POST")) with false. rewrite take_str_all by apply mcp_body_fits.
    rewrite Hrpc. reflexivity.
  - by left.
  - exact Hc.
  - exact He.
  - left. cbn [st_check mcp_subtest]. unfold check_mcp. cbn [itest skillsEnabled negb getJSONAnyStatus body_of writeJSON passes].
    apply forallb_forall. intros want Hw%list_elem_of_In. destruct (Ht want Hw) as (t & Hg & Hn).
    apply existsb_exists. exists t. split; [|by apply String.eqb_eq].
    apply list_elem_of_In, list_elem_of_fmap. exists (want, t). split; [done|]. by apply elem_of_map_to_list.
Qed.

Lemma does_backup : does_ 19.
Proof.
  destruct (a_machine "fake-dirty" named_dirty) as [m Em]. pose proof here as [_ _ _ He Hc _ _ _].
  pose proof (trigger_result f2i (e_clock env) m) as Hr.
  destruct (state.Transition f2i (e_clock env) m state.EventTriggerBackup) as [m' err] eqn:Et.
  destruct err as [e|]; (moves (requireBearer (controlToken itest) (world_ (handleBackup env f2i)));
    [cbn [st_request]; rewrite (proj1 (gated _ _ _ _ _)); unfold on_world, handleBackup, machine_action;
     cbn [fst snd view w_machines]; change (PathValue _ _) with "fake-dirty"; rewrite Em, Et; reflexivity
    |by left|exact Hc|exact He|]); [right|by left].
  right. split; [done|]. exists m. by destruct Hr as (_ & _ & ? & ?).
Qed.

End subtest.

(** ** The drive *)

Lemma subtest_does (y : System_) env fe po st :
  operator.alive y -> settled y -> deployed env fe po -> st ∈ subtests -> does y env fe po st.
Proof.
  intros Ha Hs Hd [n Hn]%list_elem_of_lookup_1.
  do 20 (destruct n as [|n]; [revert st Hn; first
    [by apply does_health|by apply does_readyz|by apply does_metrics|by apply does_discovery|by apply does_projects
    |by apply does_git|by apply does_project_git|by apply does_project_state|by apply does_introspect|by apply does_states
    |by apply does_state|by apply does_put_state|by apply does_services|by apply does_service|by apply does_resolve
    |by apply does_registrations|by apply does_register|by apply does_reset|by apply does_mcp|by apply does_backup]|]).
  done.
Qed.

(** One subtest of a drive. *)
Lemma drive_step (y y' : System_) t ts st subs vs :
  ready t -> st ∈ subtests -> operator.alive y -> settled y -> drive y (t :: ts) (st :: subs) = Some (y', vs) ->
  exists y1 vs', operator.alive y1 /\ settled y1
  /\ let '(w, out) := answer (tn_env t) (tn_fe t) (tn_po t) (st_request st) y1 in
     let v := mkVerdict (st_name st) y1 (tn_env t) (st_check st out) in
     vs = v :: vs' /\ (vd_pass v = true \/ excused v) /\ operator.alive (absorb y1 w) /\ settled (absorb y1 w)
     /\ drive (absorb y1 w) ts subs = Some (y', vs').
Proof.
  intros [Ho Hdep] Hin Ha Hs Hd. cbn [drive] in Hd.
  destruct (run y (tn_own t)) as [y1|] eqn:E; [|done]. cbn [mbind option_bind] in Hd.
  pose proof (run_survives _ _ _ E Ha) as Ha1. pose proof (run_settled _ _ _ Ho E Hs) as Hs1. unfold operator.alive in Ha1.
  rewrite Ha1 in Hd. pose proof (subtest_does y1 _ _ _ st Ha1 Hs1 Hdep Hin) as Hdoes. unfold does in Hdoes.
  destruct (answer _ _ _ _ y1) as [w out] eqn:Ew. destruct Hdoes as [Hs2 Hc].
  destruct (drive (absorb y1 w) ts subs) as [[y2 vs']|] eqn:E2; [|done]. injection Hd as <- <-.
  exists y1, vs'. rewrite Ew. by split_and!.
Qed.

Lemma drive_passes subs : forall ts (y y' : System_) vs,
  (forall st, st ∈ subs -> st ∈ subtests) -> Forall ready ts -> operator.alive y -> settled y ->
  drive y ts subs = Some (y', vs) ->
  operator.alive y' /\ Forall (fun v => vd_pass v = true \/ excused v) vs.
Proof.
  induction subs as [|st subs IH]; intros ts y y' vs Hin Hr Ha Hs Hd; [by destruct ts; injection Hd as <- <-|].
  destruct ts as [|t ts]; [done|]. apply Forall_cons in Hr as [Ht Hr].
  destruct (drive_step _ _ _ _ _ _ _ Ht (Hin st ltac:(by left)) Ha Hs Hd) as (y1 & vs' & _ & _ & Hstep).
  destruct (answer _ _ _ _ y1) as [w out]. destruct Hstep as (-> & Hc & Ha2 & Hs2 & Hd2).
  destruct (IH ts (absorb y1 w) y' vs') as [? ?]; [|done..|]; [intros st' Hst; apply Hin; by right|].
  split; [done|by apply Forall_cons].
Qed.

(** The last subtest of a drive, from where it was sent. *)
Lemma drive_last subs st : forall ts (y y' : System_) vs,
  (forall st', st' ∈ subs ++ [st] -> st' ∈ subtests) -> Forall ready ts -> operator.alive y -> settled y ->
  drive y ts (subs ++ [st]) = Some (y', vs) ->
  exists t y1 vs0, settled y1
  /\ let '(w, out) := answer (tn_env t) (tn_fe t) (tn_po t) (st_request st) y1 in
     y' = absorb y1 w /\ vs = vs0 ++ [mkVerdict (st_name st) y1 (tn_env t) (st_check st out)].
Proof.
  induction subs as [|st0 subs IH]; intros ts y y' vs Hin Hr Ha Hs Hd; (destruct ts as [|t ts]; [done|]);
    apply Forall_cons in Hr as [Ht Hr];
    destruct (drive_step _ _ _ _ _ _ _ Ht (Hin _ ltac:(by left)) Ha Hs Hd) as (y1 & vs' & _ & Hs1 & Hstep).
  - exists t, y1, []. split; [done|]. destruct (answer _ _ _ _ y1) as [w out].
    destruct Hstep as (-> & _ & _ & _ & Hd2). destruct ts; by injection Hd2 as <- <-.
  - destruct (answer _ _ _ _ y1) as [w out]. destruct Hstep as (-> & _ & Ha2 & Hs2 & Hd2).
    destruct (IH ts (absorb y1 w) y' vs') as (t' & y1' & vs0 & ? & Hl); [|done..|].
    { intros st' Hst. apply Hin. by right. }
    eexists t', y1', (_ :: vs0). split; [done|].
    destruct (answer _ _ _ _ y1') as [w' out']. by destruct Hl as [-> ->].
Qed.

(** ** The archive *)

Lemma checkpoints_land (y : System_) ls y' :
  Forall gzips ls ->
  operator.checkpoints quote format_time valid_full_name f2i ParseDuration hostname wi immediate y "fake-dirty" ls y' true ->
  waitForBackupArchive (backup_dir y') = true.
Proof.
  intros Hg (pre & i & post & ya & yb & -> & _ & _ & Hck & Har). rewrite (same_archives yb y' Har).
  eapply checkpointed_lands; [|exact Hck]. intros fault e root now [= ->].
  apply Forall_app in Hg as [_ Hg]. by apply Forall_cons in Hg as [Hg _].
Qed.

End served.

Definition backup_subtest : subtest :=
  mkSubtest "POST /projects/{name}/backup" (postBody ["projects"; "fake-dirty"; "backup"] "" (controlToken itest))
    (is_code 200).

Lemma drive_names subs : forall ts (y y' : System_) vs,
  drive y ts subs = Some (y', vs) -> map vd_name vs = map st_name subs.
Proof.
  induction subs as [|st subs IH]; intros ts y y' vs Hd; [by destruct ts; injection Hd as _ <-|].
  destruct ts as [|t ts]; [done|]. cbn [drive] in Hd. destruct (run y (tn_own t)) as [y1|]; [|done].
  cbn [mbind option_bind] in Hd.
  destruct (if daemon.d_crashed (sy_daemon y1) then _ else answer _ _ _ _ y1) as [w out].
  destruct (drive (absorb y1 w) ts subs) as [[y2 vs']|] eqn:E; [|done]. injection Hd as _ <-. cbn. by erewrite IH.
Qed.

(** ** The start *)

(** What viper reads of the mounted delight.yaml; there is no fragment directory. *)
Definition itest_yaml : config.Viper :=
  config.mkViper None config.ReadOk (config.System cfg) (config.Projects cfg) None.
Definition itest_load (lenv : config.Environ) : result string config.DelightConfig :=
  config.Load (fun _ => config.mkFragmentViper (Some "no such file") (Err "empty")) lenv itest_yaml (fun _ => config.DirMissing).

Lemma itest_loads lenv : itest_load lenv = Ok cfg.
Proof. reflexivity. Qed.

(** What start-up finds: new store files, the provisioned token, and delightd's own
    manifest in the config root. *)
Record mounted (b : BootEnv (B := B) (EB := EB) (S := S)) : Prop := {
  mo_registry : bo_reg_file b = Ok None;
  mo_mkdir : bo_state_mkdir b = None;
  mo_state : bo_state_file b = Ok None;
  mo_state_tx : bo_state_tx b = TxOk;
  mo_token : bo_token b (daemon.controlTokenPath (bo_getenv b)) = Ok (controlToken itest);
  mo_manifest : se_manifest (bo_sync b) "/etc/delightd/mcp.json" = Ok selfManifest
}.

Lemma fresh_registry (b : BootEnv (B := B) (EB := EB) (S := S)) db n : bo_reg_file b = Ok None -> open_registry b = Some db -> registry.abs db !! n = None.
Proof.
  intros Hf. unfold open_registry, registry.Open. rewrite Hf. destruct (bo_reg_mkdir b); [done|].
  destruct (update _ _ _ _ (None : option B)) as [[f' u] [e|]] eqn:Eu; [done|].
  apply registry.update_none in Eu as [_ Eu]. injection Eu as _ <-. cbn [default]. intros [= <-].
  destruct (registry.ReconcileWarmStart _ _ _ _) as [db' [e|]] eqn:Ew; cbn [fst].
  - unfold registry.ReconcileWarmStart in Ew. destruct (update _ _ _ _ _) as [[d v] err] eqn:E. injection Ew as <- ->.
    apply registry.update_err in E as ->. by rewrite registry.abs_empty, lookup_empty.
  - apply registry.ReconcileWarmStart_abs in Ew. specialize (Ew n). by rewrite registry.abs_empty, lookup_empty in Ew.
Qed.

Lemma fresh_state b :
  mounted b -> open_state b = Some bkt_empty.
Proof. intros [_ Hm Hs Ht _ _]. unfold open_state, enablement.Open. by rewrite Hm, Hs, Ht. Qed.

Lemma started lenv b y0 :
  mounted b -> runDaemon (M := M) (itest_load lenv) false b = Ok (wi, y0) ->
  wi_server wi = mkServer cfg false false (controlToken itest) /\ operator.alive y0 /\ settled y0.
Proof.
  intros Hm Hr. rewrite itest_loads in Hr. pose proof (runDaemon_start _ _ _ _ _ Hr) as (_ & _ & _ & Hd & Hg & He & Hf & _).
  assert (Hw : wi_server wi = mkServer cfg false false (controlToken itest) /\ tooled (sy_agg y0)).
  { unfold runDaemon, syncSkills in Hr. cbv zeta in Hr. rewrite (mo_token _ Hm) in Hr.
    cbn [itest_cfg config.System config.AgentSkills config.Enabled negb] in Hr. injection Hr as <- <-. split; [reflexivity|].
    cbn [sy_agg]. pose proof (tooled_scan (se_manifest (bo_sync b)) (knownProjects cfg)
      (skills.SetSelfManifest "/etc/delightd/mcp.json" (skills.NewAggregator "/work")) eq_refl (mo_manifest _ Hm)) as Ht.
    exact Ht. }
  destruct Hw as [Hw Ht]. split; [done|]. split; [unfold operator.alive; by rewrite Hd|].
  assert (Hmach : forall n, n ∈ names -> is_Some (machine y0 n)).
  { intros n Hn. unfold machine. rewrite Hd, Hw. repeat (apply elem_of_cons in Hn as [->|Hn]; [by eexists|]).
    by apply elem_of_nil in Hn. }
  assert (Hpc : operator.counter y0 "fake-dirty" = Some daemon.PStart) by (unfold operator.counter; by rewrite Hd, Hw).
  split; [|exact Hmach| | | |exact Ht|by exists daemon.PStart|by rewrite Hpc].
  - rewrite Hd. apply daemon.start_fires.
  - intros n. unfold lease.lease. rewrite Hg. destruct (open_registry b) as [db|] eqn:E; [|done].
    cbn [mbind option_bind]. by rewrite (fresh_registry b db n (mo_registry _ Hm) E).
  - exists bkt_empty. rewrite He, (fresh_state b Hm). split; [done|]. intros n _.
    unfold enablement.Get, bbolt.view. by rewrite get_empty.
  - by rewrite Hf.
Qed.

(** * Property *)

(** C7. The daemon passes its own acceptance test. Started as image_test.go deploys it
    (its delight.yaml, new stores, the provisioned token, its own mcp.json), and driven
    by verifyControlSurface with any steps of its own between the subtests that the
    test does not stop, it never panics and every subtest passes, except /metrics once
    something has been counted, and the backup when it is asked for in a backoff. When
    the backup is accepted, in every run of the process from there (requests included)
    that does not stop the project's goroutine and gives it the turns it needs, a
    checkpoint of the project ends, unless one had ended and awaited its report when
    the request came, which then reports for it; and if it succeeded the archive the
    test waits for is there to be seen. *)
Theorem acceptance_drive_passes lenv b y0 ts y vs :
  mounted b -> runDaemon (M := M) (itest_load lenv) false b = Ok (wi, y0) ->
  Forall ready ts -> drive y0 ts subtests = Some (y, vs) ->
  map vd_name vs = map st_name subtests
  /\ operator.alive y /\ Forall (fun v => vd_pass v = true \/ excused v) vs
  /\ exists vs0 v p, vs = vs0 ++ [v] /\ vd_name v = "POST /projects/{name}/backup"
     /\ operator.counter (vd_before v) "fake-dirty" = Some p /\ p <> daemon.PExited
     /\ (vd_pass v = true -> forall ls y2,
          run y ls = Some y2 -> Forall (operator.uncancelled "fake-dirty") ls -> Forall gzips ls ->
          (daemon.left p <= operator.turns "fake-dirty" ls)%nat ->
          exists pre post ya ok, ls = pre ++ post /\ run y pre = Some ya
          /\ (p = daemon.PReport ok
              \/ operator.checkpoints quote format_time valid_full_name f2i ParseDuration hostname wi immediate
                   y "fake-dirty" pre ya ok)
          /\ (ok = true -> waitForBackupArchive (backup_dir ya) = true)).
Proof.
  intros Hm Hr Hts Hd. destruct (started lenv b y0 Hm Hr) as (Hw & Ha0 & Hs).
  split; [by eapply drive_names|].
  destruct (drive_passes Hw _ _ _ _ _ (fun _ Hst => Hst) Hts Ha0 Hs Hd) as [Hay Hall]. split; [done|]. split; [done|].
  change subtests with (take 19 subtests ++ [backup_subtest]) in Hd.
  destruct (drive_last Hw (take 19 subtests) backup_subtest _ _ _ _ (fun _ Hst => Hst) Hts Ha0 Hs Hd)
    as (t & y1 & vs0 & Hs1 & Hl).
  destruct (se_machines _ Hs1 "fake-dirty" named_dirty) as [m Em]. destruct (se_runs _ Hs1) as (p & Hc & Hx).
  pose proof (operator.answer_triggers quote format_time valid_full_name f2i hostname wi (tn_env t) (tn_fe t) (tn_po t)
    y1 "fake-dirty" m "" (setBearer (controlToken itest)) (Ok "") ltac:(done)) as Ht. rewrite Hw in Ht.
  specialize (Ht ltac:(done) Em). change (operator.backup_request _ _ _ _) with (st_request backup_subtest) in Ht.
  destruct (answer (tn_env t) (tn_fe t) (tn_po t) (st_request backup_subtest) y1) as [w out].
  destruct Hl as [-> ->]. exists vs0. eexists _, p. split; [reflexivity|]. split; [reflexivity|]. split; [exact Hc|].
  split; [exact Hx|]. cbn [vd_pass vd_before]. intros Hp ls y2 Hrun Hu Hg Hle.
  destruct Ht as (_ & Hcnt & Hpcs & [(_ & _ & -> & _)|(m1 & _ & Hm1 & Hb & _)]); [done|].
  assert (Hf : daemon.fires (sy_daemon (absorb y1 w))) by exact (se_fires _ Hs1).
  destruct (operator.pending_reported quote format_time valid_full_name f2i ParseDuration hostname wi immediate
    "fake-dirty" m1 ls (absorb y1 w) y2 p Hb Hf Hrun (run_survives Hw _ _ _ Hrun Hay) ltac:(by rewrite Hcnt) Hm1 Hx Hu Hle)
    as (pre & c & post & ya & ok & -> & Hpre & _ & _ & Hends).
  eexists pre, _, ya, ok. split; [done|]. split; [done|]. apply Forall_app in Hg as [Hg _].
  destruct Hends as [[Ep Har]|Hck]; (split; [by (left + right)|]); intros ->.
  - rewrite (same_archives Hw (absorb y1 w) ya Har). apply (se_report _ Hs1). by rewrite Hc, Ep.
  - by eapply checkpoints_land.
Qed.

End acceptance.
(** * The property at a concrete deployment *)

(** Encoders that keep of a project and of a service what the client reads. *)
Definition roster_text (p : rosterProject) : string :=
  pos_to_str (encode (rp_Name p, rp_Path p, rp_Essential p, rp_Kind p, rp_Deployment p)).
Definition w_decode_project (s : string) : option rosterProject :=
  (fun x : string * string * bool * string * string =>
     mkRosterProject x.1.1.1.1 x.1.1.1.2 x.1.1.2 x.1.2 x.2) <$> decode (str_to_pos s).

#[local] Instance a_prj_codec : Codec Project := {|
  marshal p := Ok (roster_text (roster_entry p)); unmarshal _ := Err "not read" |}.
#[local] Instance a_svc_codec : Codec Service := {| marshal s := Ok (sv_name s); unmarshal _ := Err "not read" |}.
#[local] Instance a_req_codec : Codec RegisterRequest := {|
  marshal _ := Ok "{}"; unmarshal _ := Ok (mkRegisterRequest "" None None []) |}.
#[local] Existing Instances furnish.demo_api furnish.demo_laws w_reg_codec w_reg_laws w_rec_codec w_rec_laws
  w_resp_codec w_res_codec.

Lemma w_project_json (p : Project) b : marshal p = Ok b -> w_decode_project b = Some (roster_entry p).
Proof.
  intros [= <-]. unfold w_decode_project, roster_text. by rewrite str_to_pos_to_str, decode_encode.
Qed.

Lemma w_service_json (s : Service) b : marshal s = Ok b -> Some b = Some (sv_name s).
Proof. by intros [= <-]. Qed.

Lemma w_empty_message : unmarshal "{}" = Ok (mkRegisterRequest "" None None []).
Proof. reflexivity. Qed.

Definition w_render (b : body) : string :=
  match b with BPlain t => t | BState r => st_State r | _ => "" end.

Lemma w_render_state r : st_State r = "disabled" -> contains (w_render (BState r)) "disabled" = true.
Proof. cbn. by intros ->. Qed.

Definition fixture (clean : bool) : gitstate.Repo :=
  gitstate.mkRepo (Ok (gitstate.mkGitConfig ∅ ∅)) (Ok (gitstate.mkRef true "main" "c0")) (Ok (Ok clean))
    (fun _ _ => Err "no ref") (fun _ => Ok (["c0"], None)).
Definition two_repos : gitstate.Host :=
  gitstate.mkHost (Some "/root") (fun _ => None) (fun p => Ok (fixture (String.eqb p "/work/fake-clean"))).

Definition a_env : Env :=
  mkEnv (state.mkClock 1000 1001 0) 5000000000 9000 TxOk TxOk TxOk (fun _ => Err "no schema registry")
    (fun _ => Err "refused") (fun _ => None) None two_repos (fun _ => false) [0%nat; 1%nat]
    (fun _ => Ok ("disabled", "integration test", "itest")).
Definition a_fenv : FurnishEnv (M := unit) :=
  mkFurnishEnv true (Err (mkKerr "no kubeconfig" false false false false)) "" (fun _ => Err "no such file")
    (fun _ => Err "no such file") (fun _ => Err (mkKerr "no such file" false false false false)) None.
Definition a_ports : Ports string :=
  mkPorts map_to_list (fun _ => true)
    (fun u => if String.eqb u "http://host.docker.internal:40000/api/tags"
              then Ok (200, Ok ["mock-model:latest"]) else Err "refused")
    exports.w_engine (fun _ => None) skills.w_agg (fun v => v) skills.w_host skills.w_out
    (fun _ => Ok ("1", "tools/list", "")) (fun _ => Err "no params").

Lemma w_deployed : deployed (B := table) (EB := table) 40000 a_env a_fenv a_ports.
Proof.
  split; try done.
  - by exists (fixture true), (gitstate.mkRef true "main" "c0").
  - by exists (fixture false), (gitstate.mkRef true "main" "c0"), "c0".
  - eexists. split; [reflexivity|]. by vm_compute.
  - by exists "".
Qed.

Definition a_sync : SyncEnv :=
  mkSyncEnv (fun _ _ => false) "/" "20260101000000" map_to_list map_to_list [] (fun _ => [])
    (fun path => if String.eqb path "/etc/delightd/mcp.json" then Ok selfManifest else Err "no such file")
    "" "/root" None skills.WriteDone.
Definition a_boot : BootEnv (B := table) (EB := table) (S := furnish.demo) :=
  mkBootEnv (fun _ => 100) ∅ (fun _ => None) exports.w_empty ∅ None a_sync None None None (Ok None) TxOk 100 TxOk
    None (Ok None) TxOk (fun _ => "") (fun _ => Ok "itest-control-token-000000") furnish.empty_cluster.

Lemma w_mounted : mounted a_boot.
Proof. by split. Qed.

Definition a_started : result string (Wiring * w_system) :=
  runDaemon (itest_load 40000 config.home_env) false a_boot.
Definition a_wiring : Wiring := match a_started with Ok (wi, _) => wi | Err _ => w_wiring "" end.

Lemma a_starts : exists y0, a_started = Ok (a_wiring, y0).
Proof. unfold a_wiring. destruct a_started as [[wi y0]|e] eqn:E; [by exists y0|]. vm_compute in E. discriminate. Qed.

(** The dirty project's goroutine comes up before the first subtest, and an export sync
    and a sweep come between two others. *)
Definition a_turn (ls : list (slabel (M := unit) (V := string))) : turn := mkTurn ls a_env a_fenv a_ports.
Definition a_turns : list turn :=
  a_turn [SLoop "fake-dirty" daemon.IGo; SLoop "fake-dirty" daemon.IGo]
  :: a_turn [] :: a_turn [] :: a_turn [SExports a_sync; SSweep 1000 TxOk] :: replicate 16 (a_turn []).

Lemma w_ready : Forall (ready (B := table) (EB := table) 40000) a_turns.
Proof.
  assert (Hr : forall ls, Forall own ls -> ready (B := table) (EB := table) 40000 (a_turn ls))
    by (intros ls Ho; split; [exact Ho|exact w_deployed]).
  repeat (apply Forall_cons; split); try (apply Hr; repeat (apply Forall_cons; split; [by split|]); by apply Forall_nil). by apply Forall_nil.
Qed.

Abbreviation a_drive := (drive (fun s => s) (fun _ => "t") (fun _ => true) (fun _ => 0) (fun _ => Ok Second) skills.w_host
  a_wiring false).
Abbreviation a_subtests := (verifyControlSurface w_render w_decode_project Some itest).

Definition a_outcome : option (list bool) :=
  match a_started with
  | Ok (_, y0) => (fun yv => map vd_pass yv.2) <$> a_drive y0 a_turns a_subtests
  | Err _ => None
  end.

Lemma a_all_pass : a_outcome = Some (replicate 20 true).
Proof. vm_compute. reflexivity. Qed.

(** One counter is enough to fail the /metrics subtest. *)
Lemma counted_metrics_fail :
  check_metrics w_render (Resp (mkResponse 200 false (BPlain (metrics.Handler map_to_list
    {[daemon.metric_key "delightd_backup_success_total" "fake-dirty" := 1]})))) = false.
Proof. vm_compute. reflexivity. Qed.

(** The backup the last subtest asks for: the tick, the checkpoint. *)
Definition a_after : list (slabel (M := unit) (V := string)) :=
  [SLoop "fake-dirty" daemon.IEvalTick;
   SLoop "fake-dirty" (daemon.ICheckpoint (fun _ _ => None) backup.sample_env (Ok backup.sample) 250);
   SLoop "fake-dirty" (daemon.IFire (daemon.w_clock 300))].

Abbreviation a_run := (srun (V := string) (fun s => s) (fun _ => "t") (fun _ => true) (fun _ => 0) (fun _ => Ok Second) skills.w_host
  a_wiring false).

(** How the drive and the run after it come out. *)
Definition a_ends : option (option daemon.pc * bool) :=
  match a_started with
  | Ok (_, y0) =>
      yv ← a_drive y0 a_turns a_subtests; y2 ← a_run yv.1 a_after;
      v ← last yv.2; Some (operator.counter (vd_before v) "fake-dirty", vd_pass v)
  | Err _ => None
  end.
Lemma a_ends_well : a_ends = Some (Some daemon.PIdle, true).
Proof. vm_compute. reflexivity. Qed.

Lemma w_after_uncancelled : Forall (operator.uncancelled "fake-dirty") a_after.
Proof. repeat constructor; discriminate. Qed.
Lemma w_after_gzips : Forall gzips a_after.
Proof. by repeat constructor. Qed.
Lemma w_after_turns : (daemon.left daemon.PIdle <= operator.turns "fake-dirty" a_after)%nat.
Proof. apply Nat.leb_le. reflexivity. Qed.

Lemma acceptance_drive_passes_witness :
  exists y0 y vs pre ya ok, a_started = Ok (a_wiring, y0) /\ a_drive y0 a_turns a_subtests = Some (y, vs)
  /\ length vs = 20%nat /\ operator.alive y /\ a_run y pre = Some ya
  /\ (ok = true -> waitForBackupArchive (backup_dir ya) = true).
Proof.
  destruct a_starts as [y0 E]. pose proof a_ends_well as He. unfold a_ends in He. rewrite E in He.
  destruct (a_drive y0 a_turns a_subtests) as [[y vs]|] eqn:Ed; [|discriminate].
  cbn [mbind option_bind fst snd] in He.
  destruct (a_run y a_after) as [y2|] eqn:Er; [|discriminate]. cbn [mbind option_bind] in He.
  destruct (acceptance_drive_passes (fun s => s) (fun _ => "t") (fun _ => true) (fun _ => 0) (fun _ => Ok Second)
    skills.w_host a_wiring false 40000 w_render w_decode_project Some eq_refl w_project_json w_service_json w_empty_message
    (fun t => eq_refl) w_render_state config.home_env a_boot y0 a_turns y vs w_mounted E w_ready Ed)
    as (Hn & Hal & _ & vs0 & v & p & -> & _ & Hc & _ & Hland).
  rewrite last_snoc in He. cbn [mbind option_bind] in He. rewrite Hc in He. injection He as -> Hp.
  destruct (Hland Hp a_after y2 Er w_after_uncancelled w_after_gzips w_after_turns)
    as (pre & post & ya & ok & _ & Hpre & _ & Hw).
  exists y0, y, (vs0 ++ [v]), pre, ya, ok. split; [exact E|]. split; [exact Ed|].
  split; [|split; [exact Hal|split; [exact Hpre|exact Hw]]]. rewrite <-(length_map vd_name), Hn. reflexivity.
Defined.

End acceptance.
